(* ===== verification/_CoqProject ===== *)
-Q . S2P
Prelude.v
Encoder.v
PacketType.v
Crypto.v
Builder.v
Loops.v
Protection.v
Logging.v
Lifecycle.v
Position.v
OneShot.v
Threads.v
Cell.v
Random.v
Wire.v
EndToEnd.v
Message.v
Coalesce.v
Reception.v
OneShotWire.v
Dispatch.v
Release.v
ReleaseWire.v
Tests.v
