(* ===== verification/Prelude.v ===== *)
(** * Verification of the neqo packet builder (neqo-transport/src/packet2.rs)

    The program is the wire-encoding engine of a QUIC transport.  It
    assembles long-header, short-header, Retry and Version-Negotiation
    packets in a growable byte buffer, has an external provider encrypt the
    payload, and applies header protection.  Its parts, as the
    specification names them: the packet type and its code; the packet
    builder, a small state machine (header open, packet number fixed, built
    or aborted) over a buffer that may already hold earlier packets of the
    datagram; the Retry constructor with its fixed-key protector, built once
    per thread; the Version-Negotiation constructor.

    ** Files and what they model

    - [Prelude] (this file): bytes as [Z] with the [as u8] cast written
      out; the three-valued [outcome] of fallible code (value, error, panic)
      as a monad; the bounds-checked operations of a [Vec<u8>] ([index],
      [update], [slice], [slice_from]); [for_each], the loop that stops at
      the first failure; the shared lemmas on bit operations and list
      surgery; the hint databases [bytes] and [len] with the tactics [len],
      [bytes_ok_tac], [outcome_simpl] and [outcome_inv].
    - [Encoder]: the byte buffer [neqo_common::Encoder] (not under src/,
      modelled from the specification and from the calls packet2.rs
      makes): [encode_byte], [encode], [encode_uint], [encode_varint],
      [encode_vec], [encode_vvec], [truncate]; the reference decoders
      [be_value], [decode_varint], [decode_vec1] and the round trips.
    - [PacketType]: the constants of packet2.rs lines 21-30, the enum
      [PacketType] and [PacketType::code] ([code], a panic on the two
      variants without a type code).
    - [Crypto]: what the builder expects of the provider [CryptoDxState]
      (class [CryptoDx]: [expansion], [encrypt], [compute_mask]) and of the
      Retry AEAD (class [Aead]), the laws of a well-behaved provider
      (classes [CryptoDxLaws], [AeadLaws]), the transport [Error], and
      deterministic test instances ([TestDx], [TestAead]) that discharge
      the laws, so that every theorem can be run on a concrete packet.
    - [Builder]: the structs [PacketBuilder] and [PacketBuilderoffsets] as
      records and one function per method of [impl PacketBuilder] that
      works on a builder: [short], [long], [initial_token], [pn],
      [write_len], [build] (with its parts [sample_of], [apply_mask],
      [mask_pn_byte]), [abort], [is_empty], and [deref_mut], [payload],
      [into] for the trait impls of lines 272-290.  The builder is passed
      and returned; [build] also returns the new state of the provider,
      which [encrypt] changes.  The file holds the invariant [wf] (a
      builder is [opened] or [numbered]), its preservation, and the
      behaviour of each operation branch by branch.
    - [Loops]: the loops of the source at the level of the iterators they
      are written with: the trait [Iterator] with [next] for [Range],
      [RangeInclusive] and [Zip], the [for] loop that calls [next] until
      it returns [None] ([for_loop], with fuel), and the masking loop of
      [build] as the source writes it ([apply_mask_loop]).
    - [Protection]: header protection in closed form ([protect]), the
      proof that the loop of [apply_mask] computes it, the builder with its
      length field filled in ([with_len]), and the theorems on [build]: its
      value on every branch, its frame, its length, its panics.
    - [Logging]: the log statements of [build] (lines 183, 191, 202):
      the macros [qdebug!] and [qtrace!] of [neqo_common] as functions
      that return the records they emit at the level the logger is set
      to ([qdebug], [qtrace], [enabled]), a record as level, format
      string and arguments ([log_record], [log_arg], [hex]), and
      [build] returning its log beside its result ([build_logged]).
    - [Lifecycle]: the caller's side.  Calls as data ([opening], [call]),
      a run as a fold ([run]), the documented order as a step relation
      ([step], [steps]) over phases ([phase]) with its executable
      counterpart ([phase_after]), packets and datagrams ([build_packet],
      [build_datagram]); invariants by induction over runs; the scenarios of
      the tests [build_short], [build_two], [build_abort].
    - [Position]: a builder moved behind a prefix ([shift]), the packets
      of a datagram built each in a buffer of its own ([build_alone]),
      and sequences of attempts, each built or aborted ([attempt],
      [abort_packet], [send]).
    - [OneShot]: [make_retry_aead] over an interface to the key-derivation
      library ([AeadFactory]), the thread-local slot ([slot], [try_with]),
      [retry] and [version_negotiation] with the random bytes as arguments,
      [retry] in the three parts it is written in ([retry_start], the
      buffer up to the token; the call on the thread-local AEAD;
      [retry_finish], the error conversion, the tag and [split_off]),
      the AEAD call of [retry] with its output buffer ([encrypt_into]),
      the greasing loop of [version_negotiation] on its iterator
      ([grease_loop]), and the tests [build_retry] and [build_vn].
    - [Threads]: the slots of [RETRY_AEAD] of all the threads of a process
      as a finite map ([slots]), [retry] called by a thread ([retry_in]),
      and the calls and exits of the threads as a sequence of events in
      the order in which they happen ([event], [run_events]).
    - [Cell]: the [RefCell] around the thread-local AEAD: the value with
      its borrow flag ([RefCell], [borrow], [drop_Ref]), the initialiser
      of the thread-local ([RETRY_AEAD_init]), the closure of [retry]
      with its two borrows ([seal_retry]), [retry] on a slot that holds
      a cell ([try_with_cell], [retry_cell]), and the process of
      [Threads] with the cells ([cells], [retry_in_cell],
      [run_events_cell]).
    - [Random]: the random source [neqo_crypto::random] as a provider
      with a state (class [Random], its law [RandomLaws], the test
      instance [TestRng]), and [retry] and [version_negotiation]
      drawing from it where the source draws ([retry_start_rng],
      [retry_rng], which also has the cell of [Cell], and
      [version_negotiation_rng]).
    - [Wire]: the receiving side of section 6 of the specification as
      reference definitions ([wire_sample], [unprotect], [read_long],
      [read_short], composed into the receivers [receive_long] and
      [receive_short]), the layout of a header ([wire_header]) and what
      the readers make of it.
    - [EndToEnd]: the sender and the receiver together: the theorems that
      the builder refines the readers, when a packet is built, within
      which bounds the receiver reads what the sender meant, and the
      packet of the test [sample_server_initial].
    - [Message]: what a packet is for: a message as data ([message]:
      header fields, packet number, payload), the calls a sender makes
      for it ([packet_of]), and the packet as one expression
      ([msg_header], [serialize], [serialize_all]), the abstract
      specification of the builder.
    - [Coalesce]: the receiver of a datagram, who finds the end of each
      long-header packet from its length field ([split_long],
      [split_datagram], with fuel), and the packets a datagram can hold
      ([coalescible]).
    - [Reception]: the receiving end as reference definitions: the
      provider's [decrypt] (class [CryptoRx]) and the pairing of a
      sender's and a receiver's provider (class [Paired], with the test
      instance); the reconstruction of a packet number from its low
      bytes ([decode_pn], RFC 9000 Appendix A.3); the receiver
      ([open_long], [open_short], [open_packet], [open_datagram]), who
      returns messages.
    - [OneShotWire]: the receiving side of Retry and Version Negotiation
      as reference definitions ([read_retry], [retry_valid], [read_vn]).
    - [Dispatch]: one receiver for the four kinds of packet the file
      makes: the classification of a packet by its first five bytes
      ([classify]), the state of a receiver ([receiver]), and the
      readers of [Reception] and [OneShotWire] behind the classification
      ([dispatch], [dispatch_datagram]).
    - [Release]: the builder in a release build ([initial_token_release],
      [pn_release], [write_len_release], [sample_of_release],
      [build_release], [build_packet_release], [build_datagram_release]):
      [debug_assert!] removed and
      [usize] as an integer modulo 2^64 ([usize]) whose subtraction wraps.
    - [ReleaseWire]: the release build of [Release] in front of the
      receiver of [Dispatch].
    - [Tests]: the seven tests of [mod tests] (lines 292-469) as functions
      that return [Ok tt] when the test passes ([test_build_short],
      [test_build_two], [test_build_abort], [test_sample_server_initial],
      [test_build_retry], [test_build_retry_multiple], [test_build_vn]),
      with [unwrap] and [assert_eq] for the assertions, and
      [default_protector] over an interface to the derivation of the
      Initial keys ([InitialKeys]).

    ** Modelling conventions

    - A [u8] is a [Z] in [0, 256); every cast [as u8] of the source is a
      [u8] (reduction modulo 256) in the model.  Buffers are [list Z] and
      [bytes_ok] says all elements are bytes.
    - A [usize] is a [nat] in [Builder].  A subtraction that would
      underflow and every out-of-range index or slice is the outcome
      [Panic] (the behaviour of a build with overflow checks);
      [debug_assert!] is modelled as checked.  Overflow of [usize] upwards
      cannot happen there: every offset is bounded by the length of a
      buffer held in memory.  [Release] models the other build profile,
      with [usize] as a [Z] reduced modulo 2^64 after every operation.
    - A [u64] packet number is a [Z] ([PacketNumber]); only its low
      [8 * len] bits reach the wire, and the theorems say so.
    - [Res<T>] is [outcome Error T]: [Ok], [Err] for what the code
      propagates with [?], [Panic] for assertion failures and index errors.
    - [random(n)] is an explicit list of bytes in [OneShot], and the
      theorems there hold for every value of it; [Random] puts the
      source behind an interface and shows that a source that returns
      as many bytes as it is asked for makes the assumptions of
      [OneShot] on that list true.  The log of [build] is left out in
      [Builder] and returned as a value in [Logging], which shows that
      leaving it out changes nothing.  The thread-local Retry AEAD is a [slot] passed in and
      returned; [Threads] keeps one slot per thread in a [gmap].  In
      [OneShot] and [Threads] the slot holds the AEAD itself; [Cell]
      puts it in its [RefCell], whose [borrow] panics when the flag is
      negative (borrowed mutably) or at [isize::MAX], and shows that
      the two models are one on every cell that is not borrowed.
    - The loops of the source are modelled twice.  In [Builder] and
      [Lifecycle] a loop is a fold over the list of the values its
      iterator yields ([for_each] over [range_iter]), which is
      structurally recursive and needs no fuel.  In [Loops] and [Tests] a
      loop calls [next] on the iterator until it returns [None]; that
      recursion is not structural, so [for_loop] takes fuel and returns
      [None] when it runs out.  The fuel needed is one more than the
      number of values the iterator yields: [pn_len + 1 <= 5] for the
      masking loop of [build], 5 for the greasing loop of
      [version_negotiation], 33 for the loop of [build_retry_multiple].
      [split_datagram] of [Coalesce] takes one unit of fuel per packet
      and one more; a step takes at least one byte, so the receiver of
      [Reception] gives it one unit more than the datagram has bytes,
      which is enough for every datagram that can be split at all
      ([split_datagram_enough]), and [split_datagram_fuel] says that any
      such fuel gives the same result.  The termination theorems are stated as "with that
      much fuel the loop returns this result", and [for_loop_mono] says
      more fuel does not change it.  Every function of the model
      evaluates by [vm_compute].

    ** What the theorems show

    - [Builder]: each operation preserves [wf]; [pn] and [write_len] can
      be read back ([pn_roundtrip], [write_len_roundtrip]); the panics of
      [pn], [long] and [initial_token] are characterised; [is_empty].
    - [Loops]: an iterator that yields a list of values makes [for_loop]
      return what [for_each] returns on that list, once the fuel exceeds
      the length of the list ([for_loop_yields]); the three iterators
      yield what [range_iter], [seq] and [zip] say; hence the masking loop
      of [build] ends and computes [apply_mask]
      ([apply_mask_loop_terminates]).
    - [Protection]: [build_Ok] gives the exact bytes [build] returns;
      [apply_mask_frame] and [apply_mask_involutive] are the frame and the
      involution of header protection; [build_Err_encrypt],
      [build_Panic_sample], [build_no_panic] cover the failures;
      [build_prefix], [build_bytes_ok], [build_unnumbered].
    - [Logging]: [build] with its log returns what [build] returns
      ([build_logged_build]); the log of a numbered builder on every
      branch ([build_logged_numbered], [build_logged_Ok]); below the
      level debug nothing is logged ([build_logged_off]); at the level
      debug the payload is in the log in clear, before the provider is
      called ([build_logged_plaintext]).
    - [Lifecycle]: for every sequence of calls, in any order, [abort]
      returns the buffer it started from ([abort_restores]) and a later
      packet never changes an earlier one ([build_datagram_prefix]); for
      calls in the documented order the invariants of the specification
      hold ([steps_placeholder], [steps_pn_field], and all of them
      together in [steps_wf]); the step
      relation agrees with the executable run ([steps_run]); [is_empty]
      is true exactly between [pn] and the first payload byte
      ([steps_is_empty]); calls outside the documented order are shown to
      break the invariant ([pn_twice_not_wf], [truncate_breaks_build]).
    - [Position]: every operation commutes with [shift] ([short_shift],
      [long_shift], [pn_shift], [build_shift], ...), for every builder
      and with no assumption on the provider; hence a packet is the same
      bytes wherever it is built ([build_packet_position]) and a datagram
      is the concatenation of its packets, each as it is built alone
      ([build_datagram_concat]); attempts that are aborted leave no
      trace in the datagram or in the provider ([send_built]).
    - [OneShot]: the bytes of a Retry and of a Version-Negotiation packet,
      their errors and panics, the construction of the AEAD on first use;
      the buffer [retry] hands to the AEAD is exactly as large as the tag
      ([encrypt_into_fits], [encrypt_into_tag]);
      the greasing loop ends and computes the bytes
      [version_negotiation] uses ([grease_loop_terminates]).
    - [Threads]: in any interleaving, what a thread gets from [retry]
      and the slot it is left with are what they are when its events
      happen alone ([threads_independent]), and every AEAD in a slot is
      the one [make_retry_aead] derives ([threads_agree]).  Maps that
      give every thread the same slot are equivalent ([slots_equiv], an
      [Equivalence] with [Proper] instances), and equivalent processes
      answer every sequence of events alike ([run_events_proper]).
    - [Cell]: a borrow followed by the drop of its [Ref] leaves the
      cell as it was ([borrow_drop_Ref]) and [borrow] returns exactly
      on a flag in [0, isize::MAX) ([borrow_Ok_iff]); [retry] with the
      cell is [retry] of [OneShot] on every cell that is not borrowed,
      and leaves the cell not borrowed ([retry_cell_refines],
      [retry_cell_unused]); hence the process with the cells is the
      process of [Threads] in every interleaving of calls and exits,
      and no borrow ever panics ([run_events_cell_refines]); on a cell
      that is borrowed mutably [retry] panics ([retry_cell_Panic]).
    - [Random]: once its bytes are drawn, [retry] with its source is
      [retry] of [Cell] ([retry_rng_drawn]); with a source and an AEAD
      that keep their laws it panics exactly when the source panics or
      the AEAD cannot be made ([retry_rng_total]), and
      [version_negotiation], whose type promises a packet, returns one
      unless the source panics ([version_negotiation_rng_total]): the
      indices and slices into the random bytes are always in range.
    - [Wire]: the receiver finds the sample and removes the protection
      without knowing the length of the packet number ([receive_build]);
      a header laid out as [wire_header] is read back field by field.
    - [EndToEnd]: the authenticated header of a built packet is read back
      ([long_packet_read], [short_packet_read]); end to end, from the
      calls of the sender to the fields the receiver reads out of the bytes
      of the packet ([long_packet_received], [short_packet_received]);
      progress: the exact conditions under which the calls of a packet
      return a packet, in terms of the arguments and of what the provider
      answers ([long_packet_built], [short_packet_built]); bounds: what
      the receiver reads is in range, and is what the sender meant exactly
      when length and packet number fit their fields
      ([long_packet_exact]).
    - [Message]: the calls for a sequence of messages return what the
      reference serializer defines and leave the provider in the same
      state, and they fail exactly when it fails, at the same message
      and with the same failure ([build_datagram_serialize], from
      [long_serialize], [short_serialize] and position independence).
    - [Coalesce]: the datagram made of a sequence of packets splits into
      exactly those packets, each as it is built alone, with fuel for one
      step per packet ([datagram_split]).  The split itself loses no
      byte and returns no empty packet ([split_datagram_concat]), and
      its result does not depend on the fuel once the fuel exceeds the
      length of the datagram ([split_datagram_fuel],
      [split_datagram_mono], [split_datagram_enough]).
    - [Reception]: [decode_pn] recovers every packet number in the
      window around the one expected ([decode_pn_recovers]); the
      receiver of [Wire] depends on its provider through the masks only
      ([same_mask], an [Equivalence] with [Proper] instances for the
      receivers); a packet built from a message is opened as that
      message ([long_message_opened], [short_message_opened],
      [packet_opened]); the reserved bits of the headers the builder
      writes are zero, as the receiver checks ([long_reserved_ok],
      [short_reserved_ok]); and the capstone: the datagram built from a
      sequence of messages is opened by the paired receiver as exactly
      that sequence ([datagram_roundtrip]), which composes [Builder],
      [Protection], [Lifecycle], [Position], [Wire], [EndToEnd] and
      [Coalesce].  [pn_outside_window] shows a packet number outside
      the window read as another one.
    - [OneShotWire]: the readers get back what [retry] and
      [version_negotiation] were given ([retry_received],
      [version_negotiation_received]); the Retry tag validates exactly for
      a receiver whose AEAD computes the sender's tag; the greased version
      has the reserved pattern and is never the supported version.
    - [Dispatch]: every packet is received as what it was sent as.
      Header protection and the random bits of Retry and Version
      Negotiation leave the classification alone ([classify_built],
      [classify_retry_header], [classify_vn_bytes]); a datagram of
      numbered messages is split and each packet handed to the reader
      that opens it ([datagram_dispatched]); a Retry packet is
      delivered exactly when its tag validates for the receiver
      ([retry_dispatched]); a Version Negotiation packet is recognised
      by its version whatever its type bits ([vn_dispatched]).  The
      builder accepts the type Retry in [long]; the packet it then
      makes is no Retry packet and is never delivered as the message
      it was built from ([long_Retry_not_received],
      [long_Retry_read_as]).  Nor does the builder check that an
      Initial packet was given its token field: the packet built
      without [initial_token] is dropped by every receiver, who reads
      the length field as the length of a token
      ([untokened_Initial_dropped]).
    - [Release]: a release build returns what the checked build returns
      whenever the checked build returns a datagram
      ([build_packet_release_refines], [release_refines_debug]).  More:
      each call either panics in the checked build or does the same in
      both ([do_call_release_dichotomy]), so for packets that fit the
      address space ([datagram_size], a bound computed from the
      arguments) the builds agree wherever the checked build does not
      panic, errors of the provider included ([release_agrees]); and on
      the messages of a sender with packet-number lengths outside 5 to
      8 the two builds are the same function, panics included
      ([release_is_checked]); and what a release build returns for
      the messages of a sender, the checked build returns
      ([release_messages_Ok]).  Where the two differ is shown too: a
      packet-number length of 5 to 8 is accepted by [pn] and fails in
      [build] only ([pn_release_unchecked]), and [initial_token] is
      accepted on any header ([initial_token_release_unchecked]).
    - [ReleaseWire]: the datagram that a release build returns for the
      messages of a sender is classified, split and opened by the
      paired receiver as exactly those messages
      ([release_dispatched]), from [release_messages_Ok] of [Release]
      and [pkts_dispatched] of [Dispatch].
    - [Tests]: for every provider that keeps the laws, when each test
      passes ([test_build_short_passes], [test_build_two_passes],
      [test_sample_server_initial_passes], [test_build_retry_passes],
      [test_build_retry_multiple_passes], [test_build_vn_passes],
      [test_build_abort_passes]), with the test providers as witnesses.
      The scenario theorems [build_two], [sample_server_initial],
      [build_retry] and [build_vn] give the parts of the expected bytes
      that hold whatever the cipher.

    The theorems on [build] are stated for an arbitrary instance of
    [CryptoDx]; those that need the provider to behave (lengths, no panic)
    assume [CryptoDxLaws]; [datagram_roundtrip], [datagram_dispatched]
    and [release_dispatched] also assume a receiver paired with the
    sender ([Paired]).  Each
    theorem with hypotheses is followed by a witness that applies it to a
    packet of the tests.

    ** Bounds

    The length field has 14 bits: [write_len] stores the length reduced
    modulo 2^14 and has no guard.  A 1-byte length prefix holds a
    connection ID of at most 255 bytes; the reading theorems assume it.
    A packet number sent in [l] bytes is recovered when it lies within
    2^(8 l - 1) of the number the receiver expects ([in_window]).
    The sample needs [4 - pn_len + 16] bytes of ciphertext.  A varint holds
    a value below 2^62.  The release build agrees with the checked build
    for packets shorter than 2^63 bytes, which every buffer in memory is;
    the bound keeps the sums of offsets below 2^64.  [release_agrees] and
    [release_is_checked] put the bound on [datagram_size], the bytes
    the calls can write at most (the buffer, 7 bytes of long header and
    the connection IDs, 8 bytes and the token, 2 bytes and the packet
    number, the payload and the tag), so it is a condition on the
    arguments and not on the result.  The borrow flag of a [RefCell]
    is below [isize::MAX = 2^63 - 1]; [retry] holds one borrow at a
    time, so the flag is 0 or 1.

    ** Not modelled

    The ciphers and the key derivation (NSS, behind [CryptoDx], [Aead] and
    [AeadFactory]), the generator behind the random source (NSS, behind
    [Random]), the rendering of a log record into text and the back
    end of the [log] crate (a record is its level, format string and
    arguments), and the bytes of the golden vectors that depend on the
    real ciphers.  packet2.rs has no decoding path:
    the receivers of [Wire], [Coalesce], [OneShotWire], [Reception] and
    [Dispatch] are reference definitions, and [decrypt] is known by its law only
    (the paired receiver opens what the sender seals).
    [neqo_crypto::assert_initialized] in [make_retry_aead] is
    part of the library behind [AeadFactory]. *)

From Stdlib Require Import ZArith Lia Btauto.
From stdpp Require Import base option list numbers.

#[local] Open Scope Z_scope.

(** ** Outcomes of fallible code *)

(** [Res<T>] with panics made explicit: a value, an error propagated by [?],
    or a panic (failed assertion, index out of range, arithmetic underflow). *)
Inductive outcome (E A : Type) : Type :=
| Ok (a : A)
| Err (e : E)
| Panic.

Arguments Ok {E A} a.
Arguments Err {E A} e.
Arguments Panic {E A}.

#[export] Instance outcome_ret {E} : MRet (outcome E) := fun A a => Ok a.

#[export] Instance outcome_bind {E} : MBind (outcome E) := fun A B f m =>
  match m with
  | Ok a => f a
  | Err e => Err e
  | Panic => Panic
  end.

#[export] Instance outcome_fmap {E} : FMap (outcome E) := fun A B f m =>
  match m with
  | Ok a => Ok (f a)
  | Err e => Err e
  | Panic => Panic
  end.

#[export] Instance outcome_eq_dec {E A} `{EqDecision E, EqDecision A} :
  EqDecision (outcome E A).
Proof. solve_decision. Defined.

(** An index or slice that is out of range panics. *)
Definition expect {E A} (o : option A) : outcome E A :=
  match o with
  | Some a => Ok a
  | None => Panic
  end.

(** [assert!(b)]. *)
Definition assert {E} (b : bool) : outcome E unit :=
  if b then Ok tt else Panic.

Definition is_Ok {E A} (m : outcome E A) : Prop :=
  match m with Ok _ => True | _ => False end.

#[export] Instance is_Ok_dec {E A} (m : outcome E A) : Decision (is_Ok m).
Proof. destruct m; simpl; apply _. Defined.

Section outcome_lemmas.
Context {E A B : Type}.
Implicit Types (m : outcome E A) (f : A → outcome E B).

Lemma bind_Ok m f b :
  m ≫= f = Ok b ↔ ∃ a, m = Ok a ∧ f a = Ok b.
Proof.
  destruct m; simpl; split; try naive_solver.
Qed.

Lemma bind_Err m f e :
  m ≫= f = Err e ↔ m = Err e ∨ ∃ a, m = Ok a ∧ f a = Err e.
Proof.
  destruct m; simpl; split; naive_solver.
Qed.

Lemma bind_Panic m f :
  m ≫= f = Panic ↔ m = Panic ∨ ∃ a, m = Ok a ∧ f a = Panic.
Proof.
  destruct m; simpl; split; naive_solver.
Qed.

Lemma fmap_Ok (g : A → B) m b :
  g <$> m = Ok b ↔ ∃ a, m = Ok a ∧ b = g a.
Proof.
  destruct m; simpl; split; naive_solver.
Qed.

Lemma expect_Ok (o : option A) a : expect (E:=E) o = Ok a ↔ o = Some a.
Proof. destruct o; simpl; naive_solver. Qed.

Lemma expect_Panic (o : option A) : expect (E:=E) o = Panic ↔ o = None.
Proof. destruct o; simpl; naive_solver. Qed.

Lemma is_Ok_exists m : is_Ok m ↔ ∃ a, m = Ok a.
Proof. destruct m; simpl; naive_solver. Qed.

End outcome_lemmas.

Lemma assert_Ok {E} b u : assert (E:=E) b = Ok u ↔ b = true.
Proof. destruct b, u; simpl; naive_solver. Qed.

Lemma assert_Panic {E} b : assert (E:=E) b = Panic ↔ b = false.
Proof. destruct b; simpl; naive_solver. Qed.

(** Reduce the binds whose first computation is a known outcome, and
    nothing else. *)
Ltac outcome_simpl :=
  cbv zeta;
  cbn [mbind outcome_bind fmap outcome_fmap mret outcome_ret expect assert].

Tactic Notation "outcome_simpl" "in" hyp(H) :=
  cbv zeta in H;
  cbn [mbind outcome_bind fmap outcome_fmap mret outcome_ret expect assert] in H.

(** Turn hypotheses about successful binds into their components. *)
Ltac outcome_inv :=
  repeat match goal with
  | H : Ok _ = Ok _ |- _ => injection H as H; try subst
  | H : Ok _ = Err _ |- _ => discriminate H
  | H : Ok _ = Panic |- _ => discriminate H
  | H : Err _ = Ok _ |- _ => discriminate H
  | H : Panic = Ok _ |- _ => discriminate H
  | H : Panic = Err _ |- _ => discriminate H
  | H : Err _ = Panic |- _ => discriminate H
  | H : _ ≫= _ = Ok _ |- _ => apply bind_Ok in H as (? & ? & H)
  | H : _ <$> _ = Ok _ |- _ => apply fmap_Ok in H as (? & ? & H)
  | H : expect _ = Ok _ |- _ => apply expect_Ok in H
  | H : assert _ = Ok _ |- _ => apply assert_Ok in H
  end.

(** ** Bytes *)

(** The values of a [u8]. *)
Definition is_u8 (b : Z) : Prop := 0 ≤ b < 256.

(** The cast [as u8]: reduction modulo 2^8. *)
Definition u8 (z : Z) : Z := z `mod` 256.

#[export] Instance is_u8_dec b : Decision (is_u8 b).
Proof. unfold is_u8. apply _. Defined.

(** A buffer holds bytes only. *)
Abbreviation bytes_ok := (Forall is_u8).

Create HintDb bytes discriminated.
Create Rewrite HintDb len.

Lemma is_u8_land_ones b : is_u8 b ↔ Z.land b 255 = b.
Proof.
  change 255 with (Z.ones 8). rewrite Z.land_ones by lia.
  unfold is_u8. change (2 ^ 8) with 256. split.
  - intros ?. by apply Z.mod_small.
  - intros <-. by apply Z.mod_pos_bound.
Qed.

Lemma u8_is_u8 z : is_u8 (u8 z).
Proof. unfold is_u8, u8. by apply Z.mod_pos_bound. Qed.

Lemma u8_small z : is_u8 z → u8 z = z.
Proof. unfold is_u8, u8. intros ?. by apply Z.mod_small. Qed.

Lemma u8_land_255 z : Z.land z 255 = u8 z.
Proof. change 255 with (Z.ones 8). by rewrite Z.land_ones by lia. Qed.

Lemma is_u8_land_r a m : is_u8 m → is_u8 (Z.land a m).
Proof.
  intros Hm. apply is_u8_land_ones.
  rewrite <- Z.land_assoc. by rewrite (proj1 (is_u8_land_ones m) Hm).
Qed.

Lemma is_u8_land_l a m : is_u8 a → is_u8 (Z.land a m).
Proof. rewrite Z.land_comm. apply is_u8_land_r. Qed.

Lemma is_u8_lor a b : is_u8 a → is_u8 b → is_u8 (Z.lor a b).
Proof.
  rewrite !is_u8_land_ones. intros Ha Hb.
  by rewrite Z.land_lor_distr_l, Ha, Hb.
Qed.

Lemma land_lxor_distr_l a b c :
  Z.land (Z.lxor a b) c = Z.lxor (Z.land a c) (Z.land b c).
Proof.
  apply Z.bits_inj'. intros n _.
  rewrite Z.land_spec, !Z.lxor_spec, !Z.land_spec. btauto.
Qed.

Lemma is_u8_lxor a b : is_u8 a → is_u8 b → is_u8 (Z.lxor a b).
Proof.
  rewrite !is_u8_land_ones. intros Ha Hb.
  by rewrite land_lxor_distr_l, Ha, Hb.
Qed.

Lemma lxor_cancel_r a m : Z.lxor (Z.lxor a m) m = a.
Proof. by rewrite Z.lxor_assoc, Z.lxor_nilpotent, Z.lxor_0_r. Qed.

(** A mask applied under [fbm] leaves the bits outside [fbm] alone. *)
Lemma land_lxor_masked f m fbm k :
  Z.land fbm k = 0 → Z.land (Z.lxor f (Z.land m fbm)) k = Z.land f k.
Proof.
  intros Hk. rewrite land_lxor_distr_l, <- Z.land_assoc, Hk, Z.land_0_r.
  apply Z.lxor_0_r.
Qed.

(** Reduction modulo [m] is exact below [m] and nowhere else. *)
Lemma mod_exact_iff a m : 0 ≤ a → 0 < m → a `mod` m = a ↔ a < m.
Proof.
  intros Ha Hm. split.
  - intros <-. by apply Z.mod_pos_bound.
  - intros. apply Z.mod_small. lia.
Qed.

(** A tag ored in above the bits of [v] is added to it. *)
Lemma lor_tag v k m :
  0 ≤ m → 0 ≤ v < 2 ^ m → 0 ≤ k → Z.lor v (k ≪ m) = v + k * 2 ^ m.
Proof.
  intros Hm Hv Hk. rewrite Z.shiftl_mul_pow2 by done.
  assert (Z.land v (k * 2 ^ m) = 0) as Hdisj.
  { destruct (decide (v = 0)) as [->|]; [apply Z.land_0_l|].
    apply Z.bits_inj'; intros i Hi. rewrite Z.land_spec, Z.bits_0.
    destruct (decide (i < m)).
    - rewrite Z.mul_pow2_bits_low by lia. apply andb_false_r.
    - rewrite (Z.bits_above_log2 v i); [done|lia|].
      assert (Z.log2 v < m) by (apply Z.log2_lt_pow2; lia). lia. }
  by rewrite <- Z.lxor_lor, Z.add_nocarry_lxor.
Qed.

#[export] Hint Resolve u8_is_u8 is_u8_land_r is_u8_lor is_u8_lxor : bytes.
#[export] Hint Extern 1 (is_u8 ?n) =>
  (is_ground n; unfold is_u8; lia) : bytes.

(** ** Indexing a [Vec<u8>] *)

Section vec.
Context {A : Type}.
Implicit Types (l k : list A) (i n : nat) (x : A).

(** [v[i]] : panics when [i] is out of range. *)
Definition index {E} l i : outcome E A := expect (l !! i).

(** [v[i] = f(v[i])] : read-modify-write of one element, a panic when [i] is
    out of range (the compound assignments [|=] and [^=]). *)
Definition update {E} (f : A → A) i l : outcome E (list A) :=
  x ← index l i; Ok (<[i := f x]> l).

(** [&v[a..b]] : panics unless [a <= b <= len]. *)
Definition slice {E} l (a b : nat) : outcome E (list A) :=
  if decide (a ≤ b ≤ length l)%nat then Ok (drop a (take b l)) else Panic.

(** [&v[a..]] : panics unless [a <= len]. *)
Definition slice_from {E} l (a : nat) : outcome E (list A) :=
  if decide (a ≤ length l)%nat then Ok (drop a l) else Panic.

Lemma index_Ok {E} l i x : index (E:=E) l i = Ok x ↔ l !! i = Some x.
Proof. apply expect_Ok. Qed.

Lemma index_lt {E} l i : (i < length l)%nat → is_Ok (index (E:=E) l i).
Proof.
  intros [x Hx]%lookup_lt_is_Some_2. unfold index. by rewrite Hx.
Qed.

Lemma index_Panic {E} l i : index (E:=E) l i = Panic ↔ (length l ≤ i)%nat.
Proof. unfold index. rewrite expect_Panic. apply lookup_ge_None. Qed.

Lemma update_Ok {E} f i l l' :
  update (E:=E) f i l = Ok l' ↔ ∃ x, l !! i = Some x ∧ l' = <[i := f x]> l.
Proof.
  unfold update, index. destruct (l !! i); simpl; naive_solver.
Qed.

Lemma update_lt {E} f i l x :
  l !! i = Some x → update (E:=E) f i l = Ok (<[i := f x]> l).
Proof. intros Hx. unfold update, index. by rewrite Hx. Qed.

Lemma update_Panic {E} f i l :
  update (E:=E) f i l = Panic ↔ (length l ≤ i)%nat.
Proof.
  unfold update, index. rewrite <- lookup_ge_None.
  destruct (l !! i); simpl; naive_solver.
Qed.

Lemma update_length {E} f i l l' :
  update (E:=E) f i l = Ok l' → length l' = length l.
Proof. intros (x & _ & ->)%update_Ok. apply length_insert. Qed.

Lemma update_lookup_ne {E} f i j l l' :
  update (E:=E) f i l = Ok l' → i ≠ j → l' !! j = l !! j.
Proof. intros (x & _ & ->)%update_Ok ?. by apply list_lookup_insert_ne. Qed.

Lemma update_lookup_eq {E} f i l l' x :
  update (E:=E) f i l = Ok l' → l !! i = Some x → l' !! i = Some (f x).
Proof.
  intros (y & Hy & ->)%update_Ok Hx. simplify_eq.
  apply list_lookup_insert_eq. by eapply lookup_lt_Some.
Qed.

Lemma update_take {E} f i n l l' :
  update (E:=E) f i l = Ok l' → (n ≤ i)%nat → take n l' = take n l.
Proof. intros (x & _ & ->)%update_Ok ?. by apply take_insert_ge. Qed.

Lemma update_drop {E} f i n l l' :
  update (E:=E) f i l = Ok l' → (i < n)%nat → drop n l' = drop n l.
Proof. intros (x & _ & ->)%update_Ok ?. by apply drop_insert_lt. Qed.

Lemma slice_Ok {E} l a b k :
  slice (E:=E) l a b = Ok k ↔ (a ≤ b ≤ length l)%nat ∧ k = drop a (take b l).
Proof. unfold slice. case_decide; naive_solver. Qed.

Lemma slice_from_Ok {E} l a k :
  slice_from (E:=E) l a = Ok k ↔ (a ≤ length l)%nat ∧ k = drop a l.
Proof. unfold slice_from. case_decide; naive_solver. Qed.

Lemma slice_eq {E} l a b :
  (a ≤ b ≤ length l)%nat → slice (E:=E) l a b = Ok (drop a (take b l)).
Proof. intros. unfold slice. by rewrite decide_True. Qed.

Lemma slice_from_eq {E} l a :
  (a ≤ length l)%nat → slice_from (E:=E) l a = Ok (drop a l).
Proof. intros. unfold slice_from. by rewrite decide_True. Qed.

Lemma slice_Panic {E} l a b :
  ¬ (a ≤ b ≤ length l)%nat → slice (E:=E) l a b = Panic.
Proof. intros. unfold slice. by rewrite decide_False. Qed.

Lemma slice_from_Panic {E} l a :
  (length l < a)%nat → slice_from (E:=E) l a = Panic.
Proof. intros. unfold slice_from. rewrite decide_False; [done|lia]. Qed.

Lemma slice_length {E} l a b k :
  slice (E:=E) l a b = Ok k → length k = (b - a)%nat.
Proof.
  intros [? ->]%slice_Ok. rewrite length_drop, length_take. lia.
Qed.

(** A buffer cut at two offsets is the concatenation of the three pieces. *)
Lemma take_slice_drop l a b :
  (a ≤ b)%nat → l = take a l ++ drop a (take b l) ++ drop b l.
Proof.
  intros Hab.
  rewrite <- (take_drop b l) at 1.
  rewrite <- (take_drop a (take b l)) at 1.
  rewrite take_take, Nat.min_l by done. by rewrite <- app_assoc.
Qed.

(** Two adjacent elements overwritten in place. *)
Lemma insert2_take_drop l i x y :
  (i + 2 ≤ length l)%nat →
  <[(i + 1)%nat := y]> (<[i := x]> l) = take i l ++ x :: y :: drop (i + 2) l.
Proof.
  intros Hi.
  rewrite (insert_take_drop l i x) by lia.
  rewrite insert_app_r_alt by (rewrite length_take; lia).
  rewrite length_take, Nat.min_l by lia.
  replace (i + 1 - i)%nat with 1%nat by lia. simpl. do 2 f_equal.
  destruct (lookup_lt_is_Some_2 l (S i)) as [z Hz]; [lia|].
  rewrite (drop_S l z (S i)) by done. simpl.
  by replace (i + 2)%nat with (S (S i)) by lia.
Qed.

End vec.

#[export] Hint Rewrite @length_app @length_take @length_drop @length_insert
  @length_replicate @length_fmap @length_seq @length_cons @length_nil : len.

Lemma bytes_ok_update {E} f i l l' :
  (∀ b, is_u8 b → is_u8 (f b)) →
  bytes_ok l → update (E:=E) f i l = Ok l' → bytes_ok l'.
Proof.
  intros Hf Hl (x & Hx & ->)%update_Ok.
  apply Forall_insert; [done|]. apply Hf.
  by eapply Forall_lookup_1.
Qed.

Lemma bytes_ok_slice {E} l a b k :
  bytes_ok l → slice (E:=E) l a b = Ok k → bytes_ok k.
Proof. intros Hl [_ ->]%slice_Ok. by apply Forall_drop, Forall_take. Qed.

Lemma bytes_ok_slice_from {E} l a k :
  bytes_ok l → slice_from (E:=E) l a = Ok k → bytes_ok k.
Proof. intros Hl [_ ->]%slice_from_Ok. by apply Forall_drop. Qed.

Lemma bytes_ok_zip_with_lxor l k :
  bytes_ok l → bytes_ok k → bytes_ok (zip_with Z.lxor l k).
Proof.
  intros Hl Hk. apply Forall_zip_with_fst with (P := is_u8); [done|].
  revert Hk. apply Forall_impl. intros y Hy x Hx. by apply is_u8_lxor.
Qed.

#[export] Hint Resolve Forall_app_2 Forall_take Forall_drop Forall_nil_2
  Forall_cons_2 Forall_replicate bytes_ok_zip_with_lxor : bytes.

(** Normalise lengths, then arithmetic. *)
Ltac len := autorewrite with len in *; try lia.

(** Close goals of the form [bytes_ok l] and [is_u8 b]. *)
Ltac bytes_ok_tac := eauto 10 with bytes.

(** ** Loops over a range *)

(** [for x in l { a = f(a, x)? }]: the loop stops at the first failure. *)
Fixpoint for_each {E A B} (f : A → B → outcome E A) (a : A) (l : list B)
  : outcome E A :=
  match l with
  | [] => Ok a
  | x :: l => a' ← f a x; for_each f a' l
  end.

Lemma for_each_app {E A B} (f : A → B → outcome E A) a l k :
  for_each f a (l ++ k) = a' ← for_each f a l; for_each f a' k.
Proof.
  revert a. induction l as [|x l IH]; intros a; simpl; [done|].
  destruct (f a x); simpl; auto.
Qed.

(** An invariant of the loop body is an invariant of the loop. *)
Lemma for_each_ind {E A B} (P : A → Prop) (f : A → B → outcome E A) l :
  (∀ a x a', P a → f a x = Ok a' → P a') →
  ∀ a a', P a → for_each f a l = Ok a' → P a'.
Proof.
  intros Hf. induction l as [|x l IH]; intros a a' Ha H; simpl in H.
  - by injection H as <-.
  - apply bind_Ok in H as (a1 & H1 & H). eauto.
Qed.
