(* ===== verification/Encoder.v ===== *)
(** * The byte buffer [neqo_common::Encoder]

    packet2.rs builds every packet through this buffer.  Its source is not part
    of the repository excerpt, so the model follows the specification
    (big-endian integers, 1-byte and variable-length length prefixes,
    truncation) and the calls packet2.rs makes.  The buffer is the list of
    its bytes; each operation returns the new buffer.  Beside each encoder
    stands a reference decoder, and the round-trip lemmas say what the bytes
    mean. *)

From Stdlib Require Import ZArith Lia.
From stdpp Require Import base option list numbers.
From S2P Require Import Prelude.

#[local] Open Scope Z_scope.

(** A buffer of bytes, [Encoder { buf: Vec<u8> }]. *)
Abbreviation Encoder := (list Z) (only parsing).

(** ** Operations *)

(** The [n] low bytes of [v], most significant first: the loop
    [for i in 0..n { push((v >> (8 * (n - i - 1))) & 0xff) }]. *)
Fixpoint be_bytes (n : nat) (v : Z) : list Z :=
  match n with
  | O => []
  | S k => Z.land (v ≫ (8 * Z.of_nat k)) 255 :: be_bytes k v
  end.

(** [Encoder::encode_byte]. *)
Definition encode_byte (b : Z) (e : Encoder) : Encoder := e ++ [b].

(** [Encoder::encode]: append a slice. *)
Definition encode (bs : list Z) (e : Encoder) : Encoder := e ++ bs.

(** [Encoder::encode_uint(n, v)]: asserts [0 < n <= 8]. *)
Definition encode_uint {E} (n : nat) (v : Z) (e : Encoder) : outcome E Encoder :=
  _ ← assert ((0 <? n)%nat && (n <=? 8)%nat);
  Ok (e ++ be_bytes n v).

(** [Encoder::encode_varint]: the QUIC variable-length integer; the two
    top bits of the first byte give the length (1, 2, 4 or 8 bytes). *)
Definition encode_varint {E} (v : Z) (e : Encoder) : outcome E Encoder :=
  if decide (v < 2 ^ 6) then encode_uint 1 v e
  else if decide (v < 2 ^ 14) then encode_uint 2 (Z.lor v (1 ≪ 14)) e
  else if decide (v < 2 ^ 30) then encode_uint 4 (Z.lor v (2 ≪ 30)) e
  else if decide (v < 2 ^ 62) then encode_uint 8 (Z.lor v (3 ≪ 62)) e
  else Panic.

(** [Encoder::encode_vec(n, v)]: an [n]-byte length, then the bytes. *)
Definition encode_vec {E} (n : nat) (v : list Z) (e : Encoder)
  : outcome E Encoder :=
  encode v <$> encode_uint n (Z.of_nat (length v)) e.

(** [Encoder::encode_vvec(v)]: a varint length, then the bytes. *)
Definition encode_vvec {E} (v : list Z) (e : Encoder) : outcome E Encoder :=
  encode v <$> encode_varint (Z.of_nat (length v)) e.

(** [Encoder::truncate(n)]: keep the first [n] bytes (all when [n >= len]). *)
Definition truncate (n : nat) (e : Encoder) : Encoder := take n e.

(** ** Reference decoders *)

(** The number a big-endian byte string denotes. *)
Definition be_value (l : list Z) : Z := foldl (λ acc b, acc * 256 + b) 0 l.

(** The reference varint decoder: the value and the bytes that follow it. *)
Definition decode_varint (l : list Z) : option (Z * list Z) :=
  match l with
  | [] => None
  | b :: _ =>
      let n := Nat.pow 2 (Z.to_nat (b ≫ 6)) in
      if decide (n ≤ length l)%nat
      then Some (Z.land (be_value (take n l)) (Z.ones (8 * Z.of_nat n - 2)),
                 drop n l)
      else None
  end.

(** The reference decoder of a field with a 1-byte length prefix. *)
Definition decode_vec1 (l : list Z) : option (list Z * list Z) :=
  match l with
  | [] => None
  | n :: r =>
      if decide (Z.to_nat n ≤ length r)%nat
      then Some (take (Z.to_nat n) r, drop (Z.to_nat n) r)
      else None
  end.

(** ** Lengths and byte-validity *)

Lemma length_be_bytes n v : length (be_bytes n v) = n.
Proof. induction n; simpl; congruence. Qed.

Lemma bytes_ok_be_bytes n v : bytes_ok (be_bytes n v).
Proof.
  induction n; simpl; constructor; [|done].
  apply is_u8_land_r. unfold is_u8. lia.
Qed.

Lemma length_encode_byte b e : length (encode_byte b e) = S (length e).
Proof. unfold encode_byte. rewrite length_app. simpl. lia. Qed.

Lemma length_encode bs e :
  length (encode bs e) = (length e + length bs)%nat.
Proof. apply length_app. Qed.

Lemma length_truncate n e : length (truncate n e) = (n `min` length e)%nat.
Proof. apply length_take. Qed.

#[export] Hint Rewrite length_be_bytes length_encode_byte length_encode
  length_truncate : len.
#[export] Hint Resolve bytes_ok_be_bytes : bytes.

Lemma bytes_ok_encode_byte b e :
  is_u8 b → bytes_ok e → bytes_ok (encode_byte b e).
Proof. intros. apply Forall_app_2; [done|]. by constructor. Qed.

Lemma bytes_ok_encode bs e : bytes_ok bs → bytes_ok e → bytes_ok (encode bs e).
Proof. intros. by apply Forall_app_2. Qed.

Lemma bytes_ok_truncate n e : bytes_ok e → bytes_ok (truncate n e).
Proof. apply Forall_take. Qed.

#[export] Hint Resolve bytes_ok_encode_byte bytes_ok_encode
  bytes_ok_truncate : bytes.

(** ** [encode_uint] *)

Section encode_uint.
Context {E : Type}.
Implicit Types (e : Encoder) (n : nat) (v : Z).

Lemma encode_uint_Ok n v e :
  (0 < n ≤ 8)%nat → encode_uint (E:=E) n v e = Ok (e ++ be_bytes n v).
Proof.
  intros Hn. unfold encode_uint.
  replace ((0 <? n)%nat && (n <=? 8)%nat) with true; [done|].
  symmetry. apply andb_true_iff. split.
  - apply Nat.ltb_lt. lia.
  - apply Nat.leb_le. lia.
Qed.

Lemma encode_uint_Panic n v e :
  ¬ (0 < n ≤ 8)%nat → encode_uint (E:=E) n v e = Panic.
Proof.
  intros Hn. unfold encode_uint.
  replace ((0 <? n)%nat && (n <=? 8)%nat) with false; [done|].
  symmetry. apply andb_false_iff.
  rewrite Nat.ltb_ge, Nat.leb_gt. lia.
Qed.

Lemma encode_uint_inv n v e e' :
  encode_uint (E:=E) n v e = Ok e' →
  (0 < n ≤ 8)%nat ∧ e' = e ++ be_bytes n v.
Proof.
  intros H. destruct (decide (0 < n ≤ 8)%nat) as [Hn|Hn].
  - rewrite encode_uint_Ok in H by done. by injection H as <-.
  - by rewrite encode_uint_Panic in H.
Qed.

Lemma encode_uint_never_Err n v e err : encode_uint (E:=E) n v e ≠ Err err.
Proof.
  unfold encode_uint. by destruct ((0 <? n)%nat && (n <=? 8)%nat).
Qed.

End encode_uint.

(** ** Big-endian round trip *)

Lemma be_value_app l k :
  be_value (l ++ k) = be_value l * 2 ^ (8 * Z.of_nat (length k)) + be_value k.
Proof.
  unfold be_value. revert l.
  induction k as [|b k IH] using rev_ind; intros l.
  - rewrite app_nil_r. simpl. lia.
  - rewrite app_assoc, !foldl_snoc, IH, length_app. simpl.
    replace (8 * Z.of_nat (length k + 1)) with (8 * Z.of_nat (length k) + 8)
      by lia.
    rewrite Z.pow_add_r by lia. change (2 ^ 8) with 256. lia.
Qed.

Lemma be_value_cons b l :
  be_value (b :: l) = b * 2 ^ (8 * Z.of_nat (length l)) + be_value l.
Proof.
  change (b :: l) with ([b] ++ l). rewrite be_value_app.
  unfold be_value at 1. simpl. lia.
Qed.

Lemma be_value_nil : be_value [] = 0.
Proof. reflexivity. Qed.

Lemma be_value_bounds l : bytes_ok l → 0 ≤ be_value l < 2 ^ (8 * Z.of_nat (length l)).
Proof.
  induction 1 as [|b l Hb _ IH].
  - simpl. rewrite be_value_nil. lia.
  - rewrite be_value_cons. simpl length.
    replace (8 * Z.of_nat (S (length l))) with (8 + 8 * Z.of_nat (length l))
      by lia.
    rewrite Z.pow_add_r by lia. change (2 ^ 8) with 256.
    unfold is_u8 in Hb. nia.
Qed.

(** Decoding what [be_bytes] wrote gives the value reduced to [n] bytes:
    the higher bytes of [v] do not reach the wire. *)
Lemma be_value_be_bytes n v : be_value (be_bytes n v) = v `mod` 2 ^ (8 * Z.of_nat n).
Proof.
  induction n as [|k IH].
  - simpl. by rewrite Z.mod_1_r.
  - cbn [be_bytes]. rewrite be_value_cons, IH, length_be_bytes.
    rewrite u8_land_255. unfold u8. rewrite Z.shiftr_div_pow2 by lia.
    replace (8 * Z.of_nat (S k)) with (8 * Z.of_nat k + 8) by lia.
    rewrite Z.pow_add_r by lia. change (2 ^ 8) with 256.
    rewrite (Z.rem_mul_r v (2 ^ (8 * Z.of_nat k)) 256) by lia. lia.
Qed.

Lemma be_value_be_bytes_small n v :
  0 ≤ v < 2 ^ (8 * Z.of_nat n) → be_value (be_bytes n v) = v.
Proof. intros. rewrite be_value_be_bytes. by apply Z.mod_small. Qed.

(** Two values that agree on their low [n] bytes are written alike. *)
Lemma be_bytes_mod n v : be_bytes n (v `mod` 2 ^ (8 * Z.of_nat n)) = be_bytes n v.
Proof.
  assert (∀ m, (n ≤ m)%nat →
    be_bytes n (v `mod` 2 ^ (8 * Z.of_nat m)) = be_bytes n v) as H;
    [|by apply H].
  induction n as [|k IH]; intros m Hm; [done|].
  cbn [be_bytes]. rewrite IH by lia. f_equal.
  rewrite <- !Z.land_ones by lia.
  apply Z.bits_inj'. intros i Hi.
  rewrite !Z.land_spec, !Z.shiftr_spec, Z.land_spec by lia.
  destruct (decide (i < 8)) as [Hlt|Hge].
  - rewrite (Z.ones_spec_low (8 * Z.of_nat m)) by lia.
    by rewrite andb_true_r.
  - change 255 with (Z.ones 8). rewrite (Z.ones_spec_high 8) by lia.
    by rewrite !andb_false_r.
Qed.

(** Writing the value of a byte string in as many bytes gives the string
    back. *)
Lemma be_bytes_be_value l : bytes_ok l → be_bytes (length l) (be_value l) = l.
Proof.
  induction 1 as [|b l Hb Hl IH]; [done|].
  pose proof (be_value_bounds l Hl) as Hv.
  cbn [length be_bytes]. rewrite be_value_cons. f_equal.
  - rewrite Z.shiftr_div_pow2, Z.div_add_l, Z.div_small by lia.
    rewrite Z.add_0_r, u8_land_255. by apply u8_small.
  - rewrite <- be_bytes_mod, Z.add_comm, Z.mod_add, Z.mod_small by lia.
    done.
Qed.

(** ** Fields with a 1-byte length prefix *)

Lemma encode_vec1_Ok {E} v e :
  encode_vec (E:=E) 1 v e = Ok (e ++ u8 (Z.of_nat (length v)) :: v).
Proof.
  unfold encode_vec. rewrite encode_uint_Ok by lia. simpl.
  unfold encode. rewrite <- app_assoc. simpl.
  by rewrite Z.shiftr_0_r, u8_land_255.
Qed.

Lemma decode_vec1_encode {E} v e r :
  (length v < 256)%nat →
  ∃ e', encode_vec (E:=E) 1 v e = Ok e' ∧
        decode_vec1 (drop (length e) e' ++ r) = Some (v, r).
Proof.
  intros Hv. eexists. split; [apply encode_vec1_Ok|].
  rewrite drop_app_length. simpl.
  rewrite u8_small by (unfold is_u8; lia). rewrite Nat2Z.id.
  rewrite decide_True by (rewrite length_app; lia).
  by rewrite take_app_length, drop_app_length.
Qed.

(** ** Varint *)

(** The length in bytes of the varint that [encode_varint] writes. *)
Definition varint_len (v : Z) : nat :=
  if decide (v < 2 ^ 6) then 1
  else if decide (v < 2 ^ 14) then 2
  else if decide (v < 2 ^ 30) then 4 else 8.

(** The bytes of a varint, as a function of the value. *)
Definition varint_bytes (v : Z) : list Z :=
  if decide (v < 2 ^ 6) then be_bytes 1 v
  else if decide (v < 2 ^ 14) then be_bytes 2 (Z.lor v (1 ≪ 14))
  else if decide (v < 2 ^ 30) then be_bytes 4 (Z.lor v (2 ≪ 30))
  else be_bytes 8 (Z.lor v (3 ≪ 62)).

Lemma length_varint_bytes v : length (varint_bytes v) = varint_len v.
Proof.
  unfold varint_bytes, varint_len.
  repeat case_decide; apply length_be_bytes.
Qed.

Lemma bytes_ok_varint_bytes v : bytes_ok (varint_bytes v).
Proof. unfold varint_bytes. repeat case_decide; apply bytes_ok_be_bytes. Qed.

#[export] Hint Rewrite length_varint_bytes : len.
#[export] Hint Resolve bytes_ok_varint_bytes : bytes.

Lemma encode_varint_Ok {E} v e :
  v < 2 ^ 62 → encode_varint (E:=E) v e = Ok (e ++ varint_bytes v).
Proof.
  intros Hv. unfold encode_varint, varint_bytes.
  repeat case_decide; try lia; by rewrite encode_uint_Ok by lia.
Qed.

Lemma encode_varint_Panic {E} v e :
  2 ^ 62 ≤ v → encode_varint (E:=E) v e = Panic.
Proof. intros Hv. unfold encode_varint. repeat case_decide; (lia || done). Qed.

Lemma varint_len_le v : (varint_len v ≤ 8)%nat.
Proof. unfold varint_len. repeat case_decide; lia. Qed.

Lemma encode_vvec_Panic {E} v e :
  2 ^ 62 ≤ Z.of_nat (length v) → encode_vvec (E:=E) v e = Panic.
Proof. intros Hv. unfold encode_vvec. by rewrite encode_varint_Panic. Qed.

Lemma encode_vvec_Ok {E} v e :
  Z.of_nat (length v) < 2 ^ 62 →
  encode_vvec (E:=E) v e = Ok (e ++ varint_bytes (Z.of_nat (length v)) ++ v).
Proof.
  intros Hv. unfold encode_vvec. rewrite encode_varint_Ok by done. simpl.
  unfold encode. by rewrite <- app_assoc.
Qed.

(** The varint of [n] bytes, [n] a power of two, that carries [v] under
    the tag [k]. *)
Lemma decode_varint_tagged_n (k : Z) (n : nat) v r :
  (0 < n)%nat → 0 ≤ k < 4 → Nat.pow 2 (Z.to_nat k) = n →
  0 ≤ v < 2 ^ (8 * Z.of_nat n - 2) →
  decode_varint (be_bytes n (Z.lor v (k ≪ (8 * Z.of_nat n - 2))) ++ r)
  = Some (v, r).
Proof.
  intros Hn Hk Hkn Hv. rewrite lor_tag by lia.
  set (m := 8 * Z.of_nat n - 2) in *. set (w := v + k * 2 ^ m).
  assert (w / 2 ^ m = k ∧ w `mod` 2 ^ m = v) as [Hq Hr].
  { unfold w. rewrite Z.div_add, Z_mod_plus_full by lia.
    rewrite Z.div_small, Z.mod_small by lia. lia. }
  assert (0 ≤ w < 2 ^ (8 * Z.of_nat n)) as Hw.
  { replace (8 * Z.of_nat n) with (m + 2) by lia.
    rewrite Z.pow_add_r by lia. unfold w. nia. }
  destruct n as [|n']; [lia|]. cbn [be_bytes app]. unfold decode_varint.
  assert (Z.land (w ≫ (8 * Z.of_nat n')) 255 ≫ 6 = k) as ->.
  { rewrite u8_land_255. unfold u8. rewrite !Z.shiftr_div_pow2 by lia.
    rewrite Z.mod_small.
    - rewrite Z.div_div, <- Z.pow_add_r by lia.
      by replace (8 * Z.of_nat n' + 6) with m by lia.
    - split; [apply Z.div_pos; lia|]. apply Z.div_lt_upper_bound; [lia|].
      replace (8 * Z.of_nat (S n')) with (8 * Z.of_nat n' + 8) in Hw by lia.
      rewrite Z.pow_add_r in Hw by lia. apply Hw. }
  rewrite Hkn. rewrite decide_True by (simpl; len).
  change (Z.land (w ≫ (8 * Z.of_nat n')) 255 :: be_bytes n' w ++ r)
    with (be_bytes (S n') w ++ r).
  rewrite take_app_length', drop_app_length' by len.
  rewrite be_value_be_bytes_small by done.
  rewrite Z.land_ones by lia. fold m. by rewrite Hr.
Qed.

(** Round trip: the reference decoder reads back what [encode_varint]
    wrote, and stops where it ended. *)
Lemma decode_varint_bytes v r :
  0 ≤ v < 2 ^ 62 → decode_varint (varint_bytes v ++ r) = Some (v, r).
Proof.
  intros Hv. unfold varint_bytes. repeat case_decide.
  - rewrite <- (Z.lor_0_r v) at 1.
    apply (decode_varint_tagged_n 0 1 v r); simpl; lia.
  - apply (decode_varint_tagged_n 1 2 v r); simpl; lia.
  - apply (decode_varint_tagged_n 2 4 v r); simpl; lia.
  - apply (decode_varint_tagged_n 3 8 v r); simpl; lia.
Qed.

(** ** The decoders consume what they read *)

Lemma decode_varint_shorter l v r :
  decode_varint l = Some (v, r) → (length r < length l)%nat.
Proof.
  destruct l as [|b l]; [done|]. unfold decode_varint.
  set (n := (2 ^ _)%nat).
  assert (0 < n)%nat by (apply Nat.neq_0_lt_0, Nat.pow_nonzero; lia).
  case_decide; [|done]. intros [= _ <-]. len.
Qed.

Lemma decode_vec1_shorter l v r :
  decode_vec1 l = Some (v, r) → (length r < length l)%nat.
Proof.
  destruct l as [|n l]; [done|]. simpl. case_decide; [|done].
  intros [= _ <-]. len.
Qed.
