(* ===== verification/PacketType.v ===== *)
(** * Packet types and header constants (packet2.rs lines 21-55)

    The constants that make up the first byte of a header, the enum
    [PacketType] and its type code.  [PacketType::code] panics on the two
    variants whose headers carry no type code. *)

From Stdlib Require Import ZArith Lia.
From stdpp Require Import base option list numbers finite.
From S2P Require Import Prelude.

#[local] Open Scope Z_scope.

Definition PACKET_TYPE_INITIAL : Z := 0x0.
Definition PACKET_TYPE_0RTT : Z := 0x01.
Definition PACKET_TYPE_HANDSHAKE : Z := 0x2.
Definition PACKET_TYPE_RETRY : Z := 0x03.

Definition PACKET_BIT_LONG : Z := 0x80.
Definition PACKET_BIT_SHORT : Z := 0x00.
Definition PACKET_BIT_FIXED_QUIC : Z := 0x40.

Definition SAMPLE_SIZE : nat := 16.

(** [pub type PacketNumber = u64]: the numbers are kept in [Z], and the
    operations say where they are reduced. *)
Definition PacketNumber : Set := Z.
#[export] Typeclasses Transparent PacketNumber.

Definition is_u64 (v : Z) : Prop := 0 ≤ v < 2 ^ 64.

(** [u64::max_value()]. *)
Definition u64_max : Z := 2 ^ 64 - 1.

(** The version constant [crate::QUIC_VERSION] in force for this file: the
    test vectors of packet2.rs carry 0xff000018 (draft 24). *)
Definition QUIC_VERSION : Z := 0xff000018.

Inductive PacketType : Set :=
| VersionNegotiation
| Initial
| Handshake
| ZeroRtt
| Retry
| Short.

#[export] Instance PacketType_eq_dec : EqDecision PacketType.
Proof. solve_decision. Defined.

#[export] Instance PacketType_finite : Finite PacketType.
Proof.
  refine {| enum := [VersionNegotiation; Initial; Handshake; ZeroRtt; Retry;
                     Short] |}.
  - by apply (bool_decide_unpack _).
  - intros []; by apply (bool_decide_unpack _).
Defined.

(** [PacketType::code]. *)
Definition code {E} (pt : PacketType) : outcome E Z :=
  match pt with
  | Initial => Ok PACKET_TYPE_INITIAL
  | ZeroRtt => Ok PACKET_TYPE_0RTT
  | Handshake => Ok PACKET_TYPE_HANDSHAKE
  | Retry => Ok PACKET_TYPE_RETRY
  | _ => Panic
  end.

(** The packet types of long headers that carry a type code. *)
Definition has_code (pt : PacketType) : bool :=
  match pt with
  | Initial | ZeroRtt | Handshake | Retry => true
  | _ => false
  end.

(** The reference reading of a 2-bit type code. *)
Definition type_of_code (c : Z) : option PacketType :=
  if decide (c = 0) then Some Initial
  else if decide (c = 1) then Some ZeroRtt
  else if decide (c = 2) then Some Handshake
  else if decide (c = 3) then Some Retry
  else None.

Section code.
Context {E : Type}.

Lemma code_Ok_iff pt : is_Ok (code (E:=E) pt) ↔ has_code pt = true.
Proof. by destruct pt. Qed.

Lemma code_Panic_iff pt :
  code (E:=E) pt = Panic ↔ pt = VersionNegotiation ∨ pt = Short.
Proof. destruct pt; simpl; split; (by auto) || (by intros [|]). Qed.

Lemma code_never_Err pt e : code (E:=E) pt ≠ Err e.
Proof. by destruct pt. Qed.

Lemma code_range pt c : code (E:=E) pt = Ok c → 0 ≤ c < 4.
Proof. destruct pt; simpl; intros [= <-]; by compute. Qed.

Lemma type_of_code_code pt c : code (E:=E) pt = Ok c → type_of_code c = Some pt.
Proof. by destruct pt; simpl; intros [= <-]. Qed.

Lemma code_inj pt1 pt2 c :
  code (E:=E) pt1 = Ok c → code (E:=E) pt2 = Ok c → pt1 = pt2.
Proof.
  intros H1%type_of_code_code H2%type_of_code_code. congruence.
Qed.

End code.

(** [PacketType::code] (packet2.rs lines 46-54) is total on the four
    long-header types, with the codes 0 to 3 from which the type can be read
    back, panics on VersionNegotiation and Short, and never returns an
    error. *)
Theorem code_roundtrip {E} (pt : PacketType) :
  match code (E:=E) pt with
  | Ok c => 0 ≤ c < 4 ∧ type_of_code c = Some pt ∧ has_code pt = true
  | Err _ => False
  | Panic => (pt = VersionNegotiation ∨ pt = Short) ∧ has_code pt = false
  end.
Proof.
  destruct (code (E:=E) pt) as [c|err|] eqn:Hc.
  - split; [by eapply code_range|]. split; [by eapply type_of_code_code|].
    apply (code_Ok_iff (E:=E)). by rewrite Hc.
  - by apply code_never_Err in Hc.
  - split; [by apply (code_Panic_iff (E:=E))|]. by destruct pt.
Qed.
