(* ===== verification/Crypto.v ===== *)
(** * The packet-protection provider, as the builder sees it

    [PacketBuilder::build] receives a [&mut CryptoDxState] and calls three of
    its methods.  The provider is an external collaborator: this file states
    the interface ([CryptoDx]), the laws a provider is expected to satisfy
    ([CryptoDxLaws]), and the transport error type.  The builder's theorems
    are proved for every instance; a deterministic test provider
    ([TestDx]) discharges the laws so that the theorems can be evaluated on
    concrete packets.  The same is done for the AEAD that seals Retry
    packets ([Aead], [TestAead]). *)

From Stdlib Require Import ZArith Lia.
From stdpp Require Import base option list numbers.
From S2P Require Import Prelude Encoder PacketType.

#[local] Open Scope Z_scope.

(** ** Errors *)

(** The variants of [crate::Error] that can leave this file:
    [Error::InternalError] (packet2.rs line 247) and the provider's errors,
    which [?] converts into the transport error. *)
Inductive Error : Set :=
| InternalError
| CryptoError (code : Z).

#[export] Instance Error_eq_dec : EqDecision Error.
Proof. solve_decision. Defined.

(** [crate::Res<T>]. *)
Abbreviation Res := (outcome Error) (only parsing).

(** ** The provider's interface *)

(** [CryptoDxState]: [expansion()] is the tag length, [encrypt] takes
    [&mut self] (the new state is returned whether or not it succeeds),
    [compute_mask] takes [&self]. *)
Class CryptoDx (S : Type) : Type := {
  expansion : S → nat;
  encrypt : S → PacketNumber → list Z → list Z → S * Res (list Z);
  compute_mask : S → list Z → Res (list Z);
}.

(** What a well-behaved provider guarantees: ciphertext is the plaintext's
    length plus the tag, the tag length does not change from one packet to
    the next, a mask has at least the five bytes the builder may read,
    outputs are bytes, and failures are errors, not panics. *)
Class CryptoDxLaws (S : Type) `{CryptoDx S} : Prop := {
  encrypt_length s pn hdr body s' ct :
    encrypt s pn hdr body = (s', Ok ct) →
    length ct = (length body + expansion s)%nat;
  encrypt_bytes_ok s pn hdr body s' ct :
    encrypt s pn hdr body = (s', Ok ct) → bytes_ok ct;
  encrypt_no_panic s pn hdr body : (encrypt s pn hdr body).2 ≠ Panic;
  encrypt_expansion s pn hdr body :
    expansion (encrypt s pn hdr body).1 = expansion s;
  compute_mask_length s sample m :
    compute_mask s sample = Ok m → (5 ≤ length m)%nat;
  compute_mask_bytes_ok s sample m :
    compute_mask s sample = Ok m → bytes_ok m;
  compute_mask_no_panic s sample : compute_mask s sample ≠ Panic;
}.

(** [neqo_crypto::aead::Aead], used for the Retry integrity tag:
    [encrypt(count, aad, input)] returns the sealed input. *)
Class Aead (A : Type) : Type := {
  aead_expansion : A → nat;
  aead_encrypt : A → Z → list Z → list Z → Res (list Z);
}.

Class AeadLaws (A : Type) `{Aead A} : Prop := {
  aead_encrypt_length a count aad input ct :
    aead_encrypt a count aad input = Ok ct →
    length ct = (length input + aead_expansion a)%nat;
  aead_encrypt_bytes_ok a count aad input ct :
    aead_encrypt a count aad input = Ok ct → bytes_ok ct;
  aead_encrypt_no_panic a count aad input :
    aead_encrypt a count aad input ≠ Panic;
}.

(** ** A deterministic test provider *)

(** A stand-in for the real cipher: it masks each plaintext byte with the
    packet number, appends a tag that depends on the header, and, like the
    real provider in the tests of packet2.rs, refuses a packet number below
    the next one it expects. *)
Record TestDx : Set := mkTestDx {
  next_pn : Z;
  tag_len : nat;
}.

#[export] Instance TestDx_eq_dec : EqDecision TestDx.
Proof. solve_decision. Defined.

Definition test_tag (pn : Z) (hdr : list Z) : Z := u8 (foldr Z.add pn hdr).

Definition test_encrypt (s : TestDx) (pn : Z) (hdr body : list Z)
  : TestDx * Res (list Z) :=
  if decide (pn < next_pn s) then (s, Err (CryptoError 1))
  else (mkTestDx (pn + 1) (tag_len s),
        Ok (((λ b, u8 (Z.lxor b pn)) <$> body)
            ++ replicate (tag_len s) (test_tag pn hdr))).

Definition test_compute_mask (s : TestDx) (sample : list Z) : Res (list Z) :=
  if decide (length sample = SAMPLE_SIZE)
  then Ok (take 5 ((λ b, u8 (Z.lxor b 0xa5)) <$> sample))
  else Err (CryptoError 2).

#[export] Instance TestDx_CryptoDx : CryptoDx TestDx := {|
  expansion := tag_len;
  encrypt := test_encrypt;
  compute_mask := test_compute_mask;
|}.

Lemma bytes_ok_fmap_u8 (f : Z → Z) (l : list Z) : bytes_ok ((λ b, u8 (f b)) <$> l).
Proof. apply Forall_fmap, Forall_true. intros b. apply u8_is_u8. Qed.

#[export] Hint Resolve bytes_ok_fmap_u8 : bytes.

Lemma bytes_ok_replicate_u8 n z : bytes_ok (replicate n (u8 z)).
Proof. apply Forall_replicate, u8_is_u8. Qed.

#[export] Hint Resolve bytes_ok_replicate_u8 : bytes.

Lemma test_encrypt_Ok s pn hdr body s' ct :
  test_encrypt s pn hdr body = (s', Ok ct) →
  next_pn s ≤ pn ∧ s' = mkTestDx (pn + 1) (tag_len s) ∧
  ct = ((λ b, u8 (Z.lxor b pn)) <$> body)
       ++ replicate (tag_len s) (test_tag pn hdr).
Proof.
  unfold test_encrypt. case_decide; intros [= <- <-]. split; [lia|done].
Qed.

Lemma test_compute_mask_Ok s sample m :
  test_compute_mask s sample = Ok m →
  length sample = SAMPLE_SIZE ∧
  m = take 5 ((λ b, u8 (Z.lxor b 0xa5)) <$> sample).
Proof. unfold test_compute_mask. case_decide; by intros [= <-]. Qed.

#[export] Instance TestDx_laws : CryptoDxLaws TestDx.
Proof.
  split; simpl.
  - intros * (_ & _ & ->)%test_encrypt_Ok. len.
  - intros * (_ & _ & ->)%test_encrypt_Ok. unfold test_tag. bytes_ok_tac.
  - intros *. unfold test_encrypt. by case_decide.
  - intros *. unfold test_encrypt. by case_decide.
  - intros * (Hl & ->)%test_compute_mask_Ok. unfold SAMPLE_SIZE in Hl. len.
  - intros * (_ & ->)%test_compute_mask_Ok. bytes_ok_tac.
  - intros *. unfold test_compute_mask. by case_decide.
Qed.

(** ** A deterministic test AEAD *)

(** A keyed checksum in place of AES-GCM: the tag depends on the key, the
    counter and every byte of the associated data. *)
Record TestAead : Set := mkTestAead {
  aead_key : Z;
  aead_tag_len : nat;
}.

Definition test_aead_encrypt (a : TestAead) (count : Z) (aad input : list Z)
  : Res (list Z) :=
  Ok (((λ b, u8 (Z.lxor b (aead_key a))) <$> input)
      ++ replicate (aead_tag_len a)
           (u8 (foldl (λ acc b, 31 * acc + b) (aead_key a + count) aad))).

#[export] Instance TestAead_Aead : Aead TestAead := {|
  aead_expansion := aead_tag_len;
  aead_encrypt := test_aead_encrypt;
|}.

#[export] Instance TestAead_laws : AeadLaws TestAead.
Proof.
  split; simpl; unfold test_aead_encrypt.
  - intros * [= <-]. len.
  - intros * [= <-]. bytes_ok_tac.
  - done.
Qed.
