(* ===== verification/Builder.v ===== *)
(** * The packet builder (packet2.rs lines 76-217 and 272-290)

    [PacketBuilder] owns the buffer while a packet is assembled.  Each method
    of [impl PacketBuilder] that works on a builder is one definition here,
    with the builder (and for [build] the provider's state) passed in and
    returned.  Methods that take [self] by value ([build], [abort]) return the
    buffer only: the builder is gone afterwards.  Every index into the buffer
    is bounds-checked as in Rust; assertions are checked.

    The second half of the file holds the well-formedness invariant [wf] and
    the lemmas that each operation preserves it, then the behaviour of each
    operation branch by branch. *)

From Stdlib Require Import ZArith Lia.
From stdpp Require Import base option list numbers.
From S2P Require Import Prelude Encoder PacketType Crypto.

#[local] Open Scope Z_scope.

(** ** Data *)

(** [std::ops::Range<usize>], a half-open range of offsets. *)
Record Range : Set := mkRange {
  start : nat;
  end_ : nat;
}.

(** [ExactSizeIterator::len] of a range: zero when it is empty or reversed. *)
Definition range_len (r : Range) : nat := (end_ r - start r)%nat.

(** The offsets a range iterates over. *)
Definition range_iter (r : Range) : list nat := seq (start r) (range_len r).

(** [ConnectionId]: an opaque byte string; the builder reads its bytes. *)
Abbreviation ConnectionId := (list Z) (only parsing).

(** [struct PacketBuilderoffsets]; the fields [len] and [pn] of the source
    are [offsets_len] and [offsets_pn]. *)
Record PacketBuilderoffsets : Set := mkOffsets {
  first_byte_mask : Z;
  offsets_len : nat;
  offsets_pn : Range;
}.

(** [struct PacketBuilder]; the field [pn] of the source is [builder_pn]. *)
Record PacketBuilder : Set := mkBuilder {
  encoder : Encoder;
  builder_pn : PacketNumber;
  header : Range;
  offsets : PacketBuilderoffsets;
}.

#[export] Instance Range_eq_dec : EqDecision Range.
Proof. solve_decision. Defined.

#[export] Instance PacketBuilderoffsets_eq_dec : EqDecision PacketBuilderoffsets.
Proof. solve_decision. Defined.

#[export] Instance PacketBuilder_eq_dec : EqDecision PacketBuilder.
Proof. solve_decision. Defined.

(** Assignment to the field [encoder]. *)
Definition set_encoder (e : Encoder) (b : PacketBuilder) : PacketBuilder :=
  mkBuilder e (builder_pn b) (header b) (offsets b).

(** ** Access to the buffer *)

(** [impl DerefMut for PacketBuilder]: any method of the buffer may be
    called on the builder; this is how the payload is written. *)
Definition deref_mut (f : Encoder → Encoder) (b : PacketBuilder)
  : PacketBuilder :=
  set_encoder (f (encoder b)) b.

(** [builder.encode(bytes)] through [DerefMut]: append payload. *)
Definition payload (bytes : list Z) (b : PacketBuilder) : PacketBuilder :=
  deref_mut (encode bytes) b.

(** ** Starting a header *)

(** [PacketBuilder::short]. *)
Definition short (encoder : Encoder) (key_phase : bool) (dcid : ConnectionId)
  : PacketBuilder :=
  let header_start := length encoder in
  let encoder :=
    encode_byte
      (Z.lor (Z.lor PACKET_BIT_SHORT PACKET_BIT_FIXED_QUIC)
             (u8 (Z.b2z key_phase ≪ 2)))
      encoder in
  let encoder := encode dcid encoder in
  mkBuilder encoder u64_max (mkRange header_start header_start)
    (mkOffsets 0x1f 0 (mkRange 0 0)).

(** [PacketBuilder::long]. *)
Definition long (encoder : Encoder) (pt : PacketType) (dcid scid : ConnectionId)
  : Res PacketBuilder :=
  let header_start := length encoder in
  c ← code pt;
  let encoder :=
    encode_byte
      (Z.lor (Z.lor PACKET_BIT_LONG PACKET_BIT_FIXED_QUIC) (u8 (c ≪ 4)))
      encoder in
  encoder ← encode_uint 4 QUIC_VERSION encoder;
  encoder ← encode_vec 1 dcid encoder;
  encoder ← encode_vec 1 scid encoder;
  Ok (mkBuilder encoder u64_max (mkRange header_start header_start)
        (mkOffsets 0x0f 0 (mkRange 0 0))).

(** [PacketBuilder::initial_token]. *)
Definition initial_token (token : list Z) (b : PacketBuilder)
  : Res PacketBuilder :=
  first ← index (encoder b) (start (header b));
  _ ← assert (bool_decide
         (Z.land first 0xb0
          = Z.lor PACKET_BIT_LONG (u8 (PACKET_TYPE_INITIAL ≪ 4))));
  encoder ← encode_vvec token (encoder b);
  Ok (set_encoder encoder b).

(** ** The packet number *)

(** [PacketBuilder::pn]. *)
Definition pn (pn : PacketNumber) (pn_len : nat) (b : PacketBuilder)
  : Res PacketBuilder :=
  (* Reserve space for a length in long headers. *)
  first ← index (encoder b) (start (header b));
  let '(encoder0, len0) :=
    if decide (Z.land first 0x80 = PACKET_BIT_LONG)
    then (encode [0; 0] (encoder b), length (encoder b))
    else (encoder b, offsets_len (offsets b)) in
  (* Encode the packet number and save its offset. *)
  _ ← assert (bool_decide (pn_len ≤ 4 ∧ 0 < pn_len)%nat);
  let pn_offset := length encoder0 in
  encoder1 ← encode_uint pn_len pn encoder0;
  let offsets_pn := mkRange pn_offset (length encoder1) in
  (* Now encode the packet number length and save the header length. *)
  encoder2 ← update (λ x, Z.lor x (u8 (Z.of_nat (pn_len - 1))))
                    (start (header b)) encoder1;
  Ok (mkBuilder encoder2 pn
        (mkRange (start (header b)) (length encoder2))
        (mkOffsets (first_byte_mask (offsets b)) len0 offsets_pn)).

(** ** Finishing *)

(** [PacketBuilder::write_len]. *)
Definition write_len (expansion : nat) (b : PacketBuilder) : Res PacketBuilder :=
  let off := offsets_len (offsets b) in
  _ ← assert (off + 2 <=? length (encoder b))%nat;
  let len := Z.of_nat (length (encoder b) - (off + 2) + expansion) in
  e ← update (λ _, Z.lor 0x40 (u8 (Z.land (len ≫ 8) 0x3f))) off (encoder b);
  e ← update (λ _, u8 (Z.land len 0xff)) (off + 1) e;
  Ok (set_encoder e b).

(** The sample of [build]: sixteen bytes of ciphertext from offset
    [4 - pn_len] (packet2.rs lines 187-189). *)
Definition sample_of (pn_len : nat) (ciphertext : list Z) : Res (list Z) :=
  _ ← assert (pn_len <=? 4)%nat;
  let offset := (4 - pn_len)%nat in
  _ ← assert (offset + SAMPLE_SIZE <=? length ciphertext)%nat;
  slice ciphertext offset (offset + SAMPLE_SIZE).

(** The body of the loop that masks the packet number (packet2.rs line
    196): [self.encoder[j] ^= mask[i]]. *)
Definition mask_pn_byte (mask : list Z) (e : Encoder) (ij : nat * nat)
  : Res Encoder :=
  let '(i, j) := ij in
  mi ← index mask i;
  update (λ x, Z.lxor x mi) j e.

(** Applying the mask in [build] (packet2.rs lines 194-197): the first
    header byte under [first_byte_mask], then the packet-number bytes,
    [for (i, j) in (1..=pn.len()).zip(pn)]. *)
Definition apply_mask (mask : list Z) (b : PacketBuilder) : Res Encoder :=
  m0 ← index mask 0;
  e ← update (λ x, Z.lxor x (Z.land m0 (first_byte_mask (offsets b))))
             (start (header b)) (encoder b);
  for_each (mask_pn_byte mask) e
    (zip (seq 1 (range_len (offsets_pn (offsets b))))
         (range_iter (offsets_pn (offsets b)))).

(** [PacketBuilder::build]: the new state of the provider and the buffer
    with the protected packet, or the failure. *)
Definition build {St} `{CryptoDx St} (crypto : St) (b : PacketBuilder)
  : St * Res Encoder :=
  let prepared :=
    b ← (if decide (0 < offsets_len (offsets b))%nat
         then write_len (expansion crypto) b else Ok b);
    hdr ← slice (encoder b) (start (header b)) (end_ (header b));
    body ← slice_from (encoder b) (end_ (header b));
    Ok (b, hdr, body) in
  match prepared with
  | Ok (b, hdr, body) =>
      let '(crypto, sealed) := encrypt crypto (builder_pn b) hdr body in
      (crypto,
       ciphertext ← sealed;
       (* Calculate the mask. *)
       sample ← sample_of (range_len (offsets_pn (offsets b))) ciphertext;
       mask ← compute_mask crypto sample;
       (* Apply the mask. *)
       e ← apply_mask mask b;
       (* Finally, cut off the plaintext and add back the ciphertext. *)
       Ok (encode ciphertext (truncate (end_ (header b)) e)))
  | Err err => (crypto, Err err)
  | Panic => (crypto, Panic)
  end.

(** [PacketBuilder::abort]. *)
Definition abort (b : PacketBuilder) : Encoder :=
  truncate (start (header b)) (encoder b).

(** [PacketBuilder::is_empty]. *)
Definition is_empty (b : PacketBuilder) : bool :=
  bool_decide (length (encoder b) = end_ (header b)).

(** [impl Into<Encoder> for PacketBuilder]. *)
Definition into (b : PacketBuilder) : Encoder := encoder b.

(** ** What each operation writes *)

(** The first byte of a short header. *)
Definition short_first (key_phase : bool) : Z :=
  Z.lor (Z.lor PACKET_BIT_SHORT PACKET_BIT_FIXED_QUIC) (u8 (Z.b2z key_phase ≪ 2)).

(** The first byte of a long header with type code [c]. *)
Definition long_first (c : Z) : Z :=
  Z.lor (Z.lor PACKET_BIT_LONG PACKET_BIT_FIXED_QUIC) (u8 (c ≪ 4)).

(** The bytes [long] appends after the first byte. *)
Definition long_fields (dcid scid : ConnectionId) : list Z :=
  be_bytes 4 QUIC_VERSION
  ++ (u8 (Z.of_nat (length dcid)) :: dcid)
  ++ (u8 (Z.of_nat (length scid)) :: scid).

(** The bytes [initial_token] appends. *)
Definition token_field (token : list Z) : list Z :=
  varint_bytes (Z.of_nat (length token)) ++ token.

(** The two bytes [pn] reserves for the length of a long header. *)
Definition placeholder (first : Z) : list Z :=
  if decide (Z.land first 0x80 = PACKET_BIT_LONG) then [0; 0] else [].

(** The two bytes [write_len] stores for a length [n]. *)
Definition len_field (n : nat) : list Z :=
  [Z.lor 0x40 (u8 (Z.land (Z.of_nat n ≫ 8) 0x3f)); u8 (Z.land (Z.of_nat n) 0xff)].

(** The builder [pn] returns, given the first byte of the header. *)
Definition pn_result (v : PacketNumber) (l : nat) (first : Z) (b : PacketBuilder)
  : PacketBuilder :=
  let hs := start (header b) in
  let e0 := encoder b ++ placeholder first in
  let e1 := e0 ++ be_bytes l v in
  mkBuilder (<[hs := Z.lor first (u8 (Z.of_nat (l - 1)))]> e1) v
    (mkRange hs (length e1))
    (mkOffsets (first_byte_mask (offsets b))
       (if decide (Z.land first 0x80 = PACKET_BIT_LONG)
        then length (encoder b) else offsets_len (offsets b))
       (mkRange (length e0) (length e1))).

Lemma length_placeholder first :
  length (placeholder first)
  = if decide (Z.land first 0x80 = PACKET_BIT_LONG) then 2%nat else 0%nat.
Proof. unfold placeholder. by case_decide. Qed.

Lemma length_len_field n : length (len_field n) = 2%nat.
Proof. done. Qed.

Lemma length_long_fields dcid scid :
  length (long_fields dcid scid) = (6 + length dcid + length scid)%nat.
Proof. unfold long_fields. len. Qed.

Lemma length_token_field token :
  length (token_field token)
  = (varint_len (Z.of_nat (length token)) + length token)%nat.
Proof. unfold token_field. len. Qed.

#[export] Hint Rewrite length_len_field length_long_fields
  length_token_field : len.

Lemma short_first_is_u8 kp : is_u8 (short_first kp).
Proof. by destruct kp. Qed.

Lemma long_first_is_u8 c : is_u8 (long_first c).
Proof. unfold long_first. apply is_u8_lor; [done|apply u8_is_u8]. Qed.

Lemma bytes_ok_placeholder first : bytes_ok (placeholder first).
Proof. unfold placeholder. case_decide; bytes_ok_tac. Qed.

Lemma bytes_ok_len_field n : bytes_ok (len_field n).
Proof.
  unfold len_field. bytes_ok_tac.
Qed.

Lemma bytes_ok_long_fields dcid scid :
  bytes_ok dcid → bytes_ok scid → bytes_ok (long_fields dcid scid).
Proof. intros. unfold long_fields. bytes_ok_tac. Qed.

Lemma bytes_ok_token_field token : bytes_ok token → bytes_ok (token_field token).
Proof. intros. unfold token_field. bytes_ok_tac. Qed.

(** The two bytes of [write_len] are the 2-byte varint of the length
    reduced to 14 bits. *)
Lemma len_field_varint n :
  len_field n = be_bytes 2 (Z.lor (Z.of_nat n `mod` 2 ^ 14) (1 ≪ 14)).
Proof.
  unfold len_field. cbn [be_bytes]. generalize (Z.of_nat n) (Nat2Z.is_nonneg n).
  intros N HN. rewrite !u8_land_255.
  assert (0 ≤ N `mod` 2 ^ 14 < 2 ^ 14) as H14 by (apply Z.mod_pos_bound; lia).
  rewrite (lor_tag _ 1 14) by (try exact H14; lia).
  change 0x3f with (Z.ones 6). change 0xff with (Z.ones 8).
  rewrite !Z.land_ones, Z.lor_comm by lia.
  assert (0 ≤ (N ≫ 8) `mod` 2 ^ 6 < 2 ^ 6) as H6 by (apply Z.mod_pos_bound; lia).
  rewrite (u8_small (_ `mod` 2 ^ 6)) by
    (unfold is_u8; change (2 ^ 6) with 64 in *; lia).
  change 0x40 with (1 ≪ 6). rewrite (lor_tag _ 1 6) by (try exact H6; lia).
  unfold u8. rewrite !Z.shiftr_div_pow2 by lia.
  change (2 ^ (8 * Z.of_nat 1)) with 256. change (2 ^ (8 * Z.of_nat 0)) with 1.
  change (2 ^ 6) with 64 in *. change (2 ^ 14) with 16384 in *.
  change (2 ^ 8) with 256 in *.
  clear H6 H14. f_equal; [|f_equal]; Z.div_mod_to_equations; lia.
Qed.

Lemma decode_varint_len_field n r :
  decode_varint (len_field n ++ r) = Some (Z.of_nat n `mod` 2 ^ 14, r).
Proof.
  rewrite len_field_varint.
  apply (decode_varint_tagged_n 1 2 _ r); [lia|lia|done|].
  by apply Z.mod_pos_bound.
Qed.

#[export] Hint Resolve short_first_is_u8 long_first_is_u8 bytes_ok_placeholder
  bytes_ok_len_field bytes_ok_long_fields bytes_ok_token_field : bytes.

Section operations.
Implicit Types (b : PacketBuilder) (e : Encoder) (v : PacketNumber)
  (l n : nat) (first : Z).

Lemma short_encoder e kp dcid :
  encoder (short e kp dcid) = e ++ short_first kp :: dcid.
Proof.
  unfold short, encode, encode_byte. simpl. by rewrite <- app_assoc.
Qed.

Lemma long_Ok e pt dcid scid c :
  code (E:=Error) pt = Ok c →
  long e pt dcid scid
  = Ok (mkBuilder (e ++ long_first c :: long_fields dcid scid) u64_max
          (mkRange (length e) (length e)) (mkOffsets 0x0f 0 (mkRange 0 0))).
Proof.
  intros Hc. unfold long. rewrite Hc. outcome_simpl.
  rewrite encode_uint_Ok by lia. outcome_simpl.
  do 2 (rewrite encode_vec1_Ok; outcome_simpl). do 2 f_equal.
  unfold encode_byte, long_fields, long_first.
  by rewrite <- !app_assoc.
Qed.

Lemma long_Panic e pt dcid scid :
  has_code pt = false → long e pt dcid scid = Panic.
Proof. by destruct pt. Qed.

Lemma long_never_Err e pt dcid scid err : long e pt dcid scid ≠ Err err.
Proof.
  destruct (has_code pt) eqn:Hpt.
  - apply (code_Ok_iff (E:=Error)), is_Ok_exists in Hpt as [c Hc].
    by rewrite (long_Ok _ _ _ _ _ Hc).
  - by rewrite long_Panic.
Qed.

(** The guard of [initial_token]: the header is a long header of type
    Initial (the fixed bit is not looked at). *)
Definition is_initial_first first : Prop :=
  Z.land first 0xb0 = Z.lor PACKET_BIT_LONG (u8 (PACKET_TYPE_INITIAL ≪ 4)).

Lemma initial_token_Ok token b first :
  encoder b !! start (header b) = Some first →
  is_initial_first first →
  Z.of_nat (length token) < 2 ^ 62 →
  initial_token token b = Ok (set_encoder (encoder b ++ token_field token) b).
Proof.
  intros Hfirst Hi Ht. unfold initial_token, index. rewrite Hfirst. simpl.
  rewrite bool_decide_eq_true_2 by done. simpl.
  by rewrite encode_vvec_Ok.
Qed.

Lemma initial_token_Panic_type token b first :
  encoder b !! start (header b) = Some first →
  ¬ is_initial_first first →
  initial_token token b = Panic.
Proof.
  intros Hfirst Hi. unfold initial_token, index. rewrite Hfirst. simpl.
  by rewrite bool_decide_eq_false_2.
Qed.

Lemma pn_Ok v l b first :
  encoder b !! start (header b) = Some first → (1 ≤ l ≤ 4)%nat →
  pn v l b = Ok (pn_result v l first b).
Proof.
  intros Hfirst Hl. unfold pn, pn_result, placeholder, index.
  rewrite Hfirst. simpl.
  case_decide; rewrite bool_decide_eq_true_2 by lia; simpl;
    rewrite encode_uint_Ok by lia; simpl.
  all: erewrite update_lt by
    (unfold encode; rewrite ?app_nil_r; eauto using lookup_app_l_Some).
  all: simpl; by rewrite length_insert, ?app_nil_r.
Qed.

Lemma pn_Panic_len v l b : ¬ (1 ≤ l ≤ 4)%nat → pn v l b = Panic.
Proof.
  intros Hl. unfold pn, index.
  destruct (_ !! _); outcome_simpl; [|done].
  case_decide; by rewrite bool_decide_eq_false_2 by lia.
Qed.

Lemma pn_Panic_first v l b :
  (length (encoder b) ≤ start (header b))%nat → pn v l b = Panic.
Proof.
  intros H%(index_Panic (E:=Error)). unfold pn. by rewrite H.
Qed.

Lemma pn_never_Err v l b err : pn v l b ≠ Err err.
Proof.
  destruct (encoder b !! start (header b)) as [first|] eqn:Hf.
  - destruct (decide (1 ≤ l ≤ 4)%nat).
    + by erewrite pn_Ok.
    + by rewrite pn_Panic_len.
  - rewrite pn_Panic_first; [done|]. by apply lookup_ge_None.
Qed.

(** The buffer after [write_len], when the placeholder is inside it. *)
Lemma write_len_Ok x b :
  let off := offsets_len (offsets b) in
  (off + 2 ≤ length (encoder b))%nat →
  write_len x b
  = Ok (set_encoder
          (take off (encoder b)
           ++ len_field (length (encoder b) - (off + 2) + x)
           ++ drop (off + 2) (encoder b)) b).
Proof.
  intros off Hoff. unfold write_len. fold off.
  rewrite (proj2 (assert_Ok _ tt)) by (apply Nat.leb_le; lia). simpl.
  destruct (lookup_lt_is_Some_2 (encoder b) off) as [x0 Hx0]; [lia|].
  destruct (lookup_lt_is_Some_2 (encoder b) (off + 1)) as [x1 Hx1]; [lia|].
  erewrite update_lt by done. outcome_simpl.
  erewrite update_lt by (rewrite list_lookup_insert_ne by lia; done).
  outcome_simpl. by rewrite insert2_take_drop by done.
Qed.

Lemma write_len_Panic x b :
  (length (encoder b) < offsets_len (offsets b) + 2)%nat →
  write_len x b = Panic.
Proof.
  intros Hoff. unfold write_len.
  by rewrite (proj2 (assert_Panic _)) by (apply Nat.leb_gt; lia).
Qed.

Lemma abort_short e kp dcid : abort (short e kp dcid) = e.
Proof.
  unfold abort. rewrite short_encoder. simpl. apply take_app_length.
Qed.

End operations.

(** ** Well-formed builders *)

(** The first byte of the header under construction. *)
Definition first_byte (b : PacketBuilder) : option Z :=
  encoder b !! start (header b).

(** The header is a long header: the top bit of its first byte is set. *)
Definition is_long (b : PacketBuilder) : Prop :=
  ∃ first, first_byte b = Some first ∧ Z.land first 0x80 = PACKET_BIT_LONG.

#[export] Instance is_long_dec b : Decision (is_long b).
Proof.
  unfold is_long. destruct (first_byte b) as [first|].
  - destruct (decide (Z.land first 0x80 = PACKET_BIT_LONG)).
    + left. eauto.
    + right. by intros (? & [= <-] & ?).
  - right. by intros (? & [=] & _).
Defined.

(** A builder as [short] and [long] return it, before [pn]: the header is
    open, nothing is recorded about the packet number or the length, and the
    two low bits of the first byte are still clear. *)
Record opened (b : PacketBuilder) : Prop := {
  opened_bytes : bytes_ok (encoder b);
  opened_first : ∃ first, first_byte b = Some first ∧ Z.land first 0x03 = 0;
  opened_header : end_ (header b) = start (header b);
  opened_pn : offsets_pn (offsets b) = mkRange 0 0;
  opened_len : offsets_len (offsets b) = 0%nat;
  opened_mask : is_u8 (first_byte_mask (offsets b));
}.

(** A builder after [pn]: the packet number occupies the last one to four
    bytes of the header, its length less one is in the two low bits of the
    first byte, and a length placeholder lies just before it exactly when the
    header is long. *)
Record numbered (b : PacketBuilder) : Prop := {
  numbered_bytes : bytes_ok (encoder b);
  numbered_first : ∃ first, first_byte b = Some first ∧
      Z.land first 0x03 = Z.of_nat (range_len (offsets_pn (offsets b)) - 1);
  numbered_pn_start : (start (header b) < start (offsets_pn (offsets b)))%nat;
  numbered_pn_len : (1 ≤ range_len (offsets_pn (offsets b)) ≤ 4)%nat;
  numbered_pn_end : end_ (offsets_pn (offsets b)) = end_ (header b);
  numbered_header : (end_ (header b) ≤ length (encoder b))%nat;
  numbered_len :
    if decide (is_long b)
    then (start (header b) < offsets_len (offsets b))%nat ∧
         (offsets_len (offsets b) + 2)%nat = start (offsets_pn (offsets b))
    else offsets_len (offsets b) = 0%nat;
  numbered_mask : is_u8 (first_byte_mask (offsets b));
}.

(** The invariant of a builder in use. *)
Definition wf (b : PacketBuilder) : Prop := opened b ∨ numbered b.

Section invariant.
Implicit Types (b : PacketBuilder) (e : Encoder) (v : PacketNumber)
  (l n : nat) (first : Z).

Lemma first_byte_lt b first :
  first_byte b = Some first → (start (header b) < length (encoder b))%nat.
Proof. apply lookup_lt_Some. Qed.

Lemma first_byte_app b k :
  is_Some (first_byte b) →
  first_byte (set_encoder (encoder b ++ k) b) = first_byte b.
Proof.
  intros [first Hf]. unfold first_byte in *. simpl.
  by rewrite (lookup_app_l_Some _ _ _ _ Hf).
Qed.

Lemma is_long_app b k :
  is_Some (first_byte b) →
  is_long (set_encoder (encoder b ++ k) b) ↔ is_long b.
Proof. intros H. unfold is_long. by rewrite first_byte_app. Qed.

(** The bounds the specification states of a builder at all times. *)
Lemma wf_header_bounds b :
  wf b → (start (header b) ≤ end_ (header b) ≤ length (encoder b))%nat.
Proof.
  intros [Ho|Hn].
  - destruct (opened_first _ Ho) as (first & Hf%first_byte_lt & _).
    rewrite (opened_header _ Ho). lia.
  - pose proof (numbered_pn_start _ Hn). pose proof (numbered_pn_len _ Hn).
    pose proof (numbered_pn_end _ Hn). pose proof (numbered_header _ Hn).
    unfold range_len in *. lia.
Qed.

Lemma wf_bytes_ok b : wf b → bytes_ok (encoder b).
Proof. intros [Ho|Hn]; [apply Ho|apply Hn]. Qed.

Lemma wf_first_byte b : wf b → is_Some (first_byte b).
Proof.
  intros [Ho|Hn].
  - destruct (opened_first _ Ho) as (first & -> & _). eauto.
  - destruct (numbered_first _ Hn) as (first & -> & _). eauto.
Qed.

Lemma short_first_byte e kp dcid :
  first_byte (short e kp dcid) = Some (short_first kp).
Proof.
  unfold first_byte. rewrite short_encoder. simpl.
  by rewrite list_lookup_middle.
Qed.

Lemma short_opened e kp dcid :
  bytes_ok e → bytes_ok dcid → opened (short e kp dcid).
Proof.
  intros He Hd. split; try done.
  - rewrite short_encoder. bytes_ok_tac.
  - rewrite short_first_byte. eexists. split; [done|]. by destruct kp.
Qed.

Lemma long_first_low c : 0 ≤ c < 4 → Z.land (long_first c) 0x03 = 0.
Proof.
  intros Hc. assert (c = 0 ∨ c = 1 ∨ c = 2 ∨ c = 3) as Hcs by lia.
  by destruct Hcs as [->|[->|[->| ->]]].
Qed.

Lemma long_first_long c : 0 ≤ c < 4 → Z.land (long_first c) 0x80 = PACKET_BIT_LONG.
Proof.
  intros Hc. assert (c = 0 ∨ c = 1 ∨ c = 2 ∨ c = 3) as Hcs by lia.
  by destruct Hcs as [->|[->|[->| ->]]].
Qed.

Lemma long_opened e pt dcid scid b :
  bytes_ok e → bytes_ok dcid → bytes_ok scid →
  long e pt dcid scid = Ok b → opened b.
Proof.
  intros He Hd Hs Hb.
  destruct (code (E:=Error) pt) as [c| |] eqn:Hc;
    [|by destruct pt..].
  rewrite (long_Ok _ _ _ _ _ Hc) in Hb. injection Hb as <-.
  split; simpl; try done.
  - bytes_ok_tac.
  - unfold first_byte. simpl. rewrite list_lookup_middle by done.
    eexists. split; [done|]. eapply long_first_low, code_range, Hc.
Qed.

(** Appending to the buffer keeps a well-formed builder well formed; this
    covers the payload and, before [pn], further header fields. *)
Lemma opened_app b k :
  opened b → bytes_ok k → opened (set_encoder (encoder b ++ k) b).
Proof.
  intros Ho Hk. split; simpl; try apply Ho.
  - apply Forall_app_2; [apply Ho|done].
  - rewrite first_byte_app; [apply Ho|].
    destruct (opened_first _ Ho) as (? & -> & _). eauto.
Qed.

Lemma numbered_app b k :
  numbered b → bytes_ok k → numbered (set_encoder (encoder b ++ k) b).
Proof.
  intros Hn Hk.
  assert (is_Some (first_byte b)) as Hf
    by (destruct (numbered_first _ Hn) as (? & -> & _); eauto).
  split; simpl; try apply Hn.
  - apply Forall_app_2; [apply Hn|done].
  - rewrite first_byte_app by done. apply Hn.
  - rewrite length_app. pose proof (numbered_header _ Hn). lia.
  - pose proof (numbered_len _ Hn) as Hl.
    destruct (decide (is_long b)) as [Hlong|Hshort].
    + rewrite decide_True by (by apply is_long_app). done.
    + rewrite decide_False by (by rewrite is_long_app). done.
Qed.

Lemma wf_payload b k : wf b → bytes_ok k → wf (payload k b).
Proof.
  intros [Ho|Hn] Hk; [left; by apply opened_app|right; by apply numbered_app].
Qed.

Lemma initial_token_inv token b b' :
  initial_token token b = Ok b' →
  ∃ first, first_byte b = Some first ∧ is_initial_first first ∧
           Z.of_nat (length token) < 2 ^ 62 ∧
           b' = set_encoder (encoder b ++ token_field token) b.
Proof.
  intros H. unfold initial_token, index, first_byte in *.
  destruct (encoder b !! start (header b)) as [first|] eqn:Hf; [|done].
  outcome_simpl in H.
  destruct (decide (is_initial_first first)) as [Hi|Hi];
    [|by rewrite bool_decide_eq_false_2 in H].
  rewrite bool_decide_eq_true_2 in H by done. outcome_simpl in H.
  destruct (decide (Z.of_nat (length token) < 2 ^ 62)) as [Hl|Hl].
  - rewrite encode_vvec_Ok in H by done. outcome_simpl in H.
    injection H as <-. eauto 6.
  - unfold encode_vvec in H. by rewrite encode_varint_Panic in H by lia.
Qed.

Lemma initial_token_opened token b b' :
  opened b → bytes_ok token → initial_token token b = Ok b' → opened b'.
Proof.
  intros Ho Ht (first & _ & _ & _ & ->)%initial_token_inv.
  apply opened_app; bytes_ok_tac.
Qed.

Lemma pn_inv v l b b' :
  pn v l b = Ok b' →
  ∃ first, first_byte b = Some first ∧ (1 ≤ l ≤ 4)%nat ∧
           b' = pn_result v l first b.
Proof.
  intros H. unfold first_byte.
  destruct (encoder b !! start (header b)) as [first|] eqn:Hf.
  - destruct (decide (1 ≤ l ≤ 4)%nat) as [Hl|Hl].
    + rewrite (pn_Ok _ _ _ _ Hf Hl) in H. injection H as <-. eauto.
    + by rewrite pn_Panic_len in H.
  - apply lookup_ge_None in Hf. by rewrite pn_Panic_first in H.
Qed.

(** The packet-number length goes into the two low bits of the first byte
    and leaves the others alone. *)
Lemma pn_len_bits first l m :
  (1 ≤ l ≤ 4)%nat → Z.land m 0x03 = 0 →
  Z.land (Z.lor first (u8 (Z.of_nat (l - 1)))) m = Z.land first m.
Proof.
  intros Hl Hm. rewrite Z.land_lor_distr_l.
  replace (u8 (Z.of_nat (l - 1))) with (Z.land (Z.of_nat (l - 1)) 0x03).
  - by rewrite <- Z.land_assoc, (Z.land_comm 3 m), Hm, Z.land_0_r, Z.lor_0_r.
  - assert (l = 1 ∨ l = 2 ∨ l = 3 ∨ l = 4)%nat as Hls by lia.
    by destruct Hls as [->|[->|[->| ->]]].
Qed.

Lemma pn_len_low first l :
  (1 ≤ l ≤ 4)%nat → Z.land first 0x03 = 0 →
  Z.land (Z.lor first (u8 (Z.of_nat (l - 1)))) 0x03 = Z.of_nat (l - 1).
Proof.
  intros Hl Hf. rewrite Z.land_lor_distr_l, Hf, Z.lor_0_l.
  assert (l = 1 ∨ l = 2 ∨ l = 3 ∨ l = 4)%nat as Hls by lia.
  by destruct Hls as [->|[->|[->| ->]]].
Qed.

Lemma pn_result_first_byte v l b first :
  first_byte b = Some first →
  first_byte (pn_result v l first b)
  = Some (Z.lor first (u8 (Z.of_nat (l - 1)))).
Proof.
  intros Hf%first_byte_lt. unfold first_byte, pn_result. simpl.
  apply list_lookup_insert_eq. len.
Qed.

Lemma pn_result_is_long v l b first :
  first_byte b = Some first → (1 ≤ l ≤ 4)%nat →
  is_long (pn_result v l first b) ↔ Z.land first 0x80 = PACKET_BIT_LONG.
Proof.
  intros Hf Hl. unfold is_long. rewrite (pn_result_first_byte _ _ _ _ Hf).
  split.
  - intros (? & [= <-] & H). by rewrite pn_len_bits in H.
  - intros H. eexists. split; [done|]. by rewrite pn_len_bits.
Qed.

Lemma pn_result_numbered v l b first :
  opened b → first_byte b = Some first → (1 ≤ l ≤ 4)%nat →
  numbered (pn_result v l first b).
Proof.
  intros Ho Hf Hl. pose proof (first_byte_lt _ _ Hf) as Hlt.
  destruct (opened_first _ Ho) as (first' & Hf' & Hlow).
  assert (first' = first) as -> by congruence.
  assert (is_u8 first) as Hu8
    by (eapply Forall_lookup_1; [apply Ho|apply Hf]).
  split.
  - simpl. apply Forall_insert; [|bytes_ok_tac].
    pose proof (opened_bytes _ Ho). bytes_ok_tac.
  - rewrite (pn_result_first_byte _ _ _ _ Hf). eexists. split; [done|].
    rewrite pn_len_low by done. unfold range_len. simpl. len.
  - simpl. len.
  - unfold range_len. simpl. len.
  - done.
  - simpl. len.
  - destruct (decide (is_long (pn_result v l first b))) as [H|H];
      rewrite pn_result_is_long in H by done; simpl.
    + rewrite decide_True by done. unfold placeholder.
      rewrite decide_True by done. len.
    + rewrite decide_False by done. apply Ho.
  - apply Ho.
Qed.

(** [pn] takes an open builder to a numbered one. *)
Lemma pn_numbered v l b b' : opened b → pn v l b = Ok b' → numbered b'.
Proof.
  intros Ho (first & Hf & Hl & ->)%pn_inv. by apply pn_result_numbered.
Qed.

End invariant.

(** ** The builders of the tests *)

(** [CLIENT_CID] and [SERVER_CID] of the test module (packet2.rs lines
    299-300). *)
Definition CLIENT_CID : ConnectionId :=
  [0x83; 0x94; 0xc8; 0xf0; 0x3e; 0x51; 0x57; 0x08].
Definition SERVER_CID : ConnectionId :=
  [0xf0; 0x67; 0xa5; 0x50; 0x2a; 0x42; 0x62; 0xb5].

(** The builder of the test [build_short] after [pn(0, 1)], and after the
    three payload bytes. *)
Definition ex_short_empty : PacketBuilder :=
  pn_result 0 1 (short_first true) (short [] true SERVER_CID).
Definition ex_short : PacketBuilder := payload [0; 0; 0] ex_short_empty.

(** The builder of the test [build_abort]: an Initial packet with an empty
    token and [pn(1, 2)]. *)
Definition ex_initial_open : PacketBuilder :=
  mkBuilder (long_first 0 :: long_fields [] SERVER_CID ++ token_field [])
    u64_max (mkRange 0 0) (mkOffsets 0x0f 0 (mkRange 0 0)).
Definition ex_initial : PacketBuilder :=
  pn_result 1 2 (long_first 0) ex_initial_open.

Lemma bytes_ok_SERVER_CID : bytes_ok SERVER_CID.
Proof. by apply (bool_decide_unpack _). Qed.

Lemma bytes_ok_CLIENT_CID : bytes_ok CLIENT_CID.
Proof. by apply (bool_decide_unpack _). Qed.

#[export] Hint Resolve bytes_ok_SERVER_CID bytes_ok_CLIENT_CID : bytes.

Lemma ex_short_run :
  (b ← pn 0 1 (short [] true SERVER_CID); Ok (payload [0; 0; 0] b))
  = Ok ex_short.
Proof. reflexivity. Qed.

Lemma ex_initial_run :
  (b ← long [] Initial [] SERVER_CID; b ← initial_token [] b; pn 1 2 b)
  = Ok ex_initial.
Proof. reflexivity. Qed.

Lemma ex_short_empty_numbered : numbered ex_short_empty.
Proof.
  apply pn_result_numbered; [|done|lia].
  apply short_opened; bytes_ok_tac.
Qed.

Lemma ex_short_numbered : numbered ex_short.
Proof.
  apply numbered_app; [apply ex_short_empty_numbered|by repeat constructor].
Qed.

Lemma ex_initial_open_opened : opened ex_initial_open.
Proof.
  apply (initial_token_opened [] (mkBuilder
    (long_first 0 :: long_fields [] SERVER_CID) u64_max (mkRange 0 0)
    (mkOffsets 0x0f 0 (mkRange 0 0)))); [|done|done].
  apply (long_opened [] Initial [] SERVER_CID); bytes_ok_tac.
Qed.

Lemma ex_initial_numbered : numbered ex_initial.
Proof.
  apply pn_result_numbered; [apply ex_initial_open_opened|done|lia].
Qed.

(** The same builder with three bytes of payload. *)
Definition ex_initial_full : PacketBuilder := payload [6; 0; 5] ex_initial.

Lemma ex_initial_full_numbered : numbered ex_initial_full.
Proof.
  apply numbered_app; [apply ex_initial_numbered|by repeat constructor].
Qed.

(** ** Reading back what the operations wrote *)

(** The bytes of the packet-number field the builder has recorded. *)
Definition pn_bytes (b : PacketBuilder) : list Z :=
  drop (start (offsets_pn (offsets b)))
       (take (end_ (offsets_pn (offsets b))) (encoder b)).

(** The bytes of the length field of a long header. *)
Definition len_bytes (b : PacketBuilder) : list Z :=
  drop (offsets_len (offsets b)) (encoder b).

Section properties.
Implicit Types (b : PacketBuilder) (e : Encoder) (v : PacketNumber)
  (l n : nat) (first : Z).

Lemma pn_result_pn_bytes v l b first :
  first_byte b = Some first →
  pn_bytes (pn_result v l first b) = be_bytes l v.
Proof.
  intros Hf%first_byte_lt. unfold pn_bytes, pn_result. simpl.
  rewrite take_ge by len. rewrite drop_insert_lt by len.
  rewrite drop_app_length'; [done|len].
Qed.

(** [PacketBuilder::pn] on an open builder with a length of one to
    four bytes always succeeds, and what it wrote can be read back: the
    recorded range holds the packet number in big-endian, reduced to
    [pn_len] bytes; the two low bits of the first byte hold [pn_len - 1];
    the header ends where the buffer ends; the full packet number is kept
    for the provider. *)
Theorem pn_roundtrip v l b :
  opened b → (1 ≤ l ≤ 4)%nat →
  ∃ b' first,
    pn v l b = Ok b' ∧ builder_pn b' = v ∧
    header b' = mkRange (start (header b)) (length (encoder b')) ∧
    range_len (offsets_pn (offsets b')) = l ∧
    be_value (pn_bytes b') = v `mod` 2 ^ (8 * Z.of_nat l) ∧
    first_byte b' = Some first ∧ Z.land first 0x03 = Z.of_nat l - 1.
Proof.
  intros Ho Hl. destruct (opened_first _ Ho) as (first & Hf & Hlow).
  exists (pn_result v l first b), (Z.lor first (u8 (Z.of_nat (l - 1)))).
  split; [by apply pn_Ok|]. split; [done|]. split; [simpl; by len|].
  split; [unfold range_len; simpl; len|].
  rewrite (pn_result_pn_bytes _ _ _ _ Hf), be_value_be_bytes.
  split; [done|]. split; [by apply pn_result_first_byte|].
  rewrite pn_len_low by done. lia.
Qed.

(** [pn] panics exactly when the header has no first byte to patch
    or the length is outside 1..4 (packet2.rs lines 154 and 159); it never
    returns an error. *)
Theorem pn_Panic_iff v l b :
  pn v l b = Panic ↔
  (length (encoder b) ≤ start (header b))%nat ∨ ¬ (1 ≤ l ≤ 4)%nat.
Proof.
  split.
  - intros Hp. destruct (decide (1 ≤ l ≤ 4)%nat) as [Hl|]; [left|by right].
    destruct (encoder b !! start (header b)) as [first|] eqn:Hf.
    + by rewrite (pn_Ok _ _ _ _ Hf Hl) in Hp.
    + by apply lookup_ge_None.
  - intros [H|H]; [by apply pn_Panic_first|by apply pn_Panic_len].
Qed.

(** [PacketBuilder::long] panics exactly for the two packet types
    that have no type code, VersionNegotiation and Short (packet2.rs lines
    52 and 123). *)
Theorem long_Panic_iff e pt dcid scid :
  long e pt dcid scid = Panic ↔ pt = VersionNegotiation ∨ pt = Short.
Proof.
  rewrite <- (code_Panic_iff (E:=Error)). split.
  - intros Hp. destruct (code (E:=Error) pt) as [c| |] eqn:Hc; try done.
    + by rewrite (long_Ok _ _ _ _ _ Hc) in Hp.
    + by destruct pt.
  - intros Hc. unfold long. by rewrite Hc.
Qed.

(** The guard of [initial_token] (packet2.rs lines 142-145): on a
    builder that [long] returned, the call is accepted exactly when the
    packet type is Initial. *)
Theorem initial_token_Initial e pt dcid scid token b :
  Z.of_nat (length token) < 2 ^ 62 →
  long e pt dcid scid = Ok b →
  is_Ok (initial_token token b) ↔ pt = Initial.
Proof.
  intros Ht Hb.
  destruct (code (E:=Error) pt) as [c| |] eqn:Hc; [|by destruct pt..].
  rewrite (long_Ok _ _ _ _ _ Hc) in Hb. injection Hb as <-.
  assert (first_byte (mkBuilder (e ++ long_first c :: long_fields dcid scid)
            u64_max (mkRange (length e) (length e))
            (mkOffsets 0x0f 0 (mkRange 0 0))) = Some (long_first c)) as Hf.
  { unfold first_byte. simpl. by rewrite list_lookup_middle. }
  destruct (decide (is_initial_first (long_first c))) as [Hi|Hi].
  - rewrite (initial_token_Ok _ _ _ Hf Hi Ht). split; [intros _|done].
    destruct pt; simplify_eq/=; done.
  - rewrite (initial_token_Panic_type _ _ _ Hf Hi). split; [done|].
    intros ->. simplify_eq/=. by destruct Hi.
Qed.

(** [is_empty] is true right after [pn] and false once any payload
    byte has been appended (packet2.rs line 216). *)
Theorem is_empty_pn v l b b' k :
  opened b → pn v l b = Ok b' →
  is_empty b' = true ∧ (k ≠ [] → is_empty (payload k b') = false).
Proof.
  intros Ho (first & Hf & Hl & ->)%pn_inv. unfold is_empty. simpl. split.
  - apply bool_decide_eq_true_2. len.
  - intros Hk. apply bool_decide_eq_false_2. unfold encode.
    destruct k; [done|]. len.
Qed.

(** Before [pn], [is_empty] is false although nothing but the fixed
    header has been written: the header range is still empty, so the fixed
    header counts as content. *)
Theorem is_empty_opened b : opened b → is_empty b = false.
Proof.
  intros Ho. destruct (opened_first _ Ho) as (first & Hf%first_byte_lt & _).
  apply bool_decide_eq_false_2. rewrite (opened_header _ Ho). lia.
Qed.

(** C21: [write_len] on a long header after [pn] always succeeds, keeps
    the length of the buffer, and fills the placeholder with a 2-byte
    varint: the reference decoder reads from the length field the number of
    bytes after it plus the expansion, reduced to 14 bits (there is no guard
    for lengths of 16384 and more), followed by the rest of the buffer. *)
Theorem write_len_roundtrip x b :
  numbered b → is_long b →
  let n := (length (encoder b) - (offsets_len (offsets b) + 2) + x)%nat in
  ∃ b', write_len x b = Ok b' ∧
        length (encoder b') = length (encoder b) ∧
        decode_varint (len_bytes b')
        = Some (Z.of_nat n `mod` 2 ^ 14,
                drop (offsets_len (offsets b) + 2) (encoder b)).
Proof.
  intros Hn Hlong n. pose proof (numbered_len _ Hn) as Hlen.
  rewrite decide_True in Hlen by done. destruct Hlen as [Hlt Hoff].
  pose proof (numbered_pn_len _ Hn) as Hpl. unfold range_len in Hpl.
  pose proof (numbered_pn_end _ Hn). pose proof (numbered_header _ Hn).
  eexists. split; [apply write_len_Ok; lia|]. unfold len_bytes. simpl.
  split; [len|].
  rewrite drop_app_length' by len. apply decode_varint_len_field.
Qed.
End properties.

(** The theorems at the builders of the tests. *)

Lemma pn_roundtrip_witness :
  ∃ b' first,
    pn 258 1 (short [] true SERVER_CID) = Ok b' ∧ builder_pn b' = 258 ∧
    header b' = mkRange 0 (length (encoder b')) ∧
    range_len (offsets_pn (offsets b')) = 1%nat ∧
    be_value (pn_bytes b') = 258 `mod` 2 ^ (8 * Z.of_nat 1) ∧
    first_byte b' = Some first ∧ Z.land first 0x03 = Z.of_nat 1 - 1.
Proof.
  refine (pn_roundtrip 258 1 (short [] true SERVER_CID) _ _); [|lia].
  apply short_opened; bytes_ok_tac.
Defined.

Lemma initial_token_Initial_witness :
  is_Ok (initial_token [] (mkBuilder
    (long_first 0 :: long_fields [] SERVER_CID) u64_max (mkRange 0 0)
    (mkOffsets 0x0f 0 (mkRange 0 0)))) ↔ Initial = Initial.
Proof.
  exact (initial_token_Initial [] Initial [] SERVER_CID [] _ eq_refl eq_refl).
Defined.

Lemma is_empty_pn_witness :
  is_empty ex_initial = true ∧
  ([6; 0; 5] ≠ [] → is_empty (payload [6; 0; 5] ex_initial) = false).
Proof.
  exact (is_empty_pn 1 2 ex_initial_open ex_initial [6; 0; 5]
           ex_initial_open_opened eq_refl).
Defined.

Lemma is_empty_opened_witness : is_empty ex_initial_open = false.
Proof. exact (is_empty_opened ex_initial_open ex_initial_open_opened). Defined.

Lemma ex_initial_full_long : is_long ex_initial_full.
Proof. by apply (bool_decide_unpack _). Qed.

Lemma write_len_roundtrip_witness :
  ∃ b', write_len 16 ex_initial_full = Ok b' ∧
        length (encoder b') = length (encoder ex_initial_full) ∧
        decode_varint (len_bytes b')
        = Some (Z.of_nat (2 + 3 + 16) `mod` 2 ^ 14, [0; 1; 6; 0; 5]).
Proof.
  exact (write_len_roundtrip 16 ex_initial_full ex_initial_full_numbered
           ex_initial_full_long).
Defined.
