(* ===== verification/Loops.v ===== *)
(** * The [for] loops of packet2.rs, one call of [next] at a time

    The other files model a loop of the source as a fold over the list of
    the values it visits ([for_each]).  This file justifies that: it models
    the iterators the loops of packet2.rs run over ([Range<usize>],
    [RangeInclusive<usize>] and [Zip]) by their method [next], the [for]
    loop as the repeated call of [next] until it returns [None], bounded by
    fuel, and proves that every such loop ends, after how many calls, and
    with the result of the fold. *)

From Stdlib Require Import ZArith Lia.
From stdpp Require Import base option list numbers.
From S2P Require Import Prelude Encoder PacketType Crypto Builder.

#[local] Open Scope nat_scope.

(** ** Iterators *)

(** [trait Iterator]: [fn next(&mut self) -> Option<Self::Item>], with the
    iterator after the call returned beside the item. *)
Class Iterator (I A : Type) := next : I → option A * I.

(** [impl Iterator for Range<usize>]. *)
#[export] Instance Range_Iterator : Iterator Range nat := λ r,
  if decide (start r < end_ r)
  then (Some (start r), mkRange (S (start r)) (end_ r))
  else (None, r).

(** [RangeInclusive<usize>], the value of [a..=b]. *)
Record RangeInclusive : Set := mkRangeInclusive {
  incl_start : nat;
  incl_end : nat;
  exhausted : bool;
}.

Definition range_inclusive (a b : nat) : RangeInclusive :=
  mkRangeInclusive a b false.

(** [impl Iterator for RangeInclusive<usize>]: the last value is returned
    with the flag [exhausted] set instead of a step past the end. *)
#[export] Instance RangeInclusive_Iterator : Iterator RangeInclusive nat := λ r,
  if exhausted r || negb (incl_start r <=? incl_end r) then (None, r)
  else if incl_start r <? incl_end r
       then (Some (incl_start r),
             mkRangeInclusive (S (incl_start r)) (incl_end r) false)
       else (Some (incl_start r),
             mkRangeInclusive (incl_start r) (incl_end r) true).

(** [Zip<A, B>], the value of [a.zip(b)]. *)
Record Zip (IA IB : Type) : Type := mkZip {
  zip_a : IA;
  zip_b : IB;
}.
Arguments mkZip {IA IB} zip_a zip_b.
Arguments zip_a {IA IB} z.
Arguments zip_b {IA IB} z.

(** [impl Iterator for Zip]: [let x = self.a.next()?; let y =
    self.b.next()?; Some((x, y))]. *)
#[export] Instance Zip_Iterator {IA IB A B} `{Iterator IA A, Iterator IB B}
  : Iterator (Zip IA IB) (A * B) := λ z,
  match next (zip_a z) with
  | (None, a) => (None, mkZip a (zip_b z))
  | (Some x, a) =>
      match next (zip_b z) with
      | (None, b) => (None, mkZip a b)
      | (Some y, b) => (Some (x, y), mkZip a b)
      end
  end.

(** ** The loop *)

(** [for x in it { a = body(a, x)? }], that is [loop { match it.next() {
    None => break, Some(x) => ... } }].  Each unit of fuel pays for one call
    of [next]; [None] is a loop still running when the fuel is spent. *)
Fixpoint for_loop {E I A B} `{Iterator I B} (fuel : nat)
    (body : A → B → outcome E A) (a : A) (it : I) : option (outcome E A) :=
  match fuel with
  | O => None
  | S fuel =>
      match next it with
      | (None, _) => Some (Ok a)
      | (Some x, it) =>
          match body a x with
          | Ok a => for_loop fuel body a it
          | Err e => Some (Err e)
          | Panic => Some Panic
          end
      end
  end.

(** The values an iterator yields until its first [None]. *)
Inductive yields {I A} `{Iterator I A} : I → list A → Prop :=
| yields_nil it it' : next it = (None, it') → yields it []
| yields_cons it x it' l :
    next it = (Some x, it') → yields it' l → yields it (x :: l).

(** The loop of [PacketBuilder::build] that masks the packet number
    (packet2.rs lines 194-197), as the source has it: the first byte, then
    [for (i, j) in (1..=pn.len()).zip(pn)]. *)
Definition apply_mask_loop (fuel : nat) (mask : list Z) (b : PacketBuilder)
  : option (Res Encoder) :=
  let first :=
    m0 ← index mask 0;
    update (λ x, Z.lxor x (Z.land m0 (first_byte_mask (offsets b))))
           (start (header b)) (encoder b) in
  match first with
  | Ok e =>
      for_loop fuel (mask_pn_byte mask) e
        (mkZip (range_inclusive 1 (range_len (offsets_pn (offsets b))))
               (offsets_pn (offsets b)))
  | Err err => Some (Err err)
  | Panic => Some Panic
  end.

Section yields.
Context {I A : Type} `{Iterator I A}.
Implicit Types (it : I) (l : list A).

(** An iterator yields one sequence of values. *)
Lemma yields_inj it l k : yields it l → yields it k → l = k.
Proof.
  intros Hl. revert k. induction Hl as [it it' Hn|it x it' l Hn _ IH];
    intros k Hk; destruct Hk as [it1 it1' Hn1|it1 x1 it1' k Hn1 Hk];
    rewrite Hn in Hn1; try done.
  injection Hn1 as <- <-. f_equal. by apply IH.
Qed.

(** Enough fuel gives the result of the fold, whatever the body does: the
    loop ends after at most one call of [next] more than there are values. *)
Lemma for_loop_yields {E T} (body : T → A → outcome E T) it l fuel a :
  yields it l → length l < fuel →
  for_loop fuel body a it = Some (for_each body a l).
Proof.
  intros Hl. revert fuel a.
  induction Hl as [it it' Hn|it x it' l Hn _ IH]; intros [|fuel] a Hf;
    simpl in *; try lia; rewrite Hn; [done|].
  destruct (body a x); simpl; [|done..]. apply IH. lia.
Qed.

(** More fuel does not change a result. *)
Lemma for_loop_mono {E T} (body : T → A → outcome E T) it fuel fuel' a r :
  for_loop fuel body a it = Some r → fuel ≤ fuel' →
  for_loop fuel' body a it = Some r.
Proof.
  revert fuel' a it. induction fuel as [|fuel IH]; intros [|fuel'] a it;
    simpl; try done; try lia.
  destruct (next it) as [[x|] it']; [|done].
  destruct (body a x); [|done..]. intros Hr Hf. apply IH; [done|lia].
Qed.

(** A loop whose body never fails and that runs out of fuel has an
    iterator that yields at least [fuel] values. *)
Lemma for_loop_None {E T} (body : T → A → outcome E T) it l fuel a :
  yields it l → for_loop fuel body a it = None → fuel ≤ length l.
Proof.
  intros Hl Hn. destruct (decide (length l < fuel)); [|lia].
  by rewrite (for_loop_yields body it l) in Hn.
Qed.
End yields.

Section iterators.

Lemma next_Range (r : Range) :
  next r = if decide (start r < end_ r)
           then (Some (start r), mkRange (S (start r)) (end_ r))
           else (None, r).
Proof. reflexivity. Qed.

Lemma next_RangeInclusive (r : RangeInclusive) :
  next r = if exhausted r || negb (incl_start r <=? incl_end r) then (None, r)
           else if incl_start r <? incl_end r
                then (Some (incl_start r),
                      mkRangeInclusive (S (incl_start r)) (incl_end r) false)
                else (Some (incl_start r),
                      mkRangeInclusive (incl_start r) (incl_end r) true).
Proof. reflexivity. Qed.

Lemma next_Zip {IA IB A B} `{Iterator IA A, Iterator IB B} (z : Zip IA IB) :
  next z = match next (zip_a z) with
           | (None, a) => (None, mkZip a (zip_b z))
           | (Some x, a) =>
               match next (zip_b z) with
               | (None, b) => (None, mkZip a b)
               | (Some y, b) => (Some (x, y), mkZip a b)
               end
           end.
Proof. reflexivity. Qed.

Lemma yields_Range (r : Range) : yields r (range_iter r).
Proof.
  destruct r as [a b]. unfold range_iter, range_len. simpl.
  remember (b - a) as n eqn:Hn. revert a Hn.
  induction n as [|n IH]; intros a Hn; simpl.
  - apply (yields_nil _ (mkRange a b)). rewrite next_Range. simpl.
    by rewrite decide_False by lia.
  - apply (yields_cons _ _ (mkRange (S a) b)); [|apply IH; lia].
    rewrite next_Range. simpl. by rewrite decide_True by lia.
Qed.

Lemma yields_RangeInclusive_exhausted a b :
  yields (mkRangeInclusive a b true) [].
Proof. by apply (yields_nil _ (mkRangeInclusive a b true)). Qed.

Lemma yields_RangeInclusive a b :
  yields (range_inclusive a b) (seq a (S b - a)).
Proof.
  unfold range_inclusive. remember (S b - a) as n eqn:Hn. revert a Hn.
  induction n as [|n IH]; intros a Hn; simpl.
  - apply (yields_nil _ (mkRangeInclusive a b false)).
    rewrite next_RangeInclusive. simpl.
    by rewrite (proj2 (Nat.leb_gt a b)) by lia.
  - destruct (decide (a < b)).
    + apply (yields_cons _ _ (mkRangeInclusive (S a) b false));
        [|apply IH; lia].
      rewrite next_RangeInclusive. simpl.
      rewrite (proj2 (Nat.leb_le a b)) by lia.
      by rewrite (proj2 (Nat.ltb_lt a b)) by lia.
    + assert (n = 0) as -> by lia.
      apply (yields_cons _ _ (mkRangeInclusive a b true));
        [|apply yields_RangeInclusive_exhausted].
      rewrite next_RangeInclusive. simpl.
      rewrite (proj2 (Nat.leb_le a b)) by lia.
      by rewrite (proj2 (Nat.ltb_ge a b)) by lia.
Qed.

Lemma yields_Zip {IA IB A B} `{Iterator IA A, Iterator IB B}
    (a : IA) (b : IB) la lb :
  yields a la → yields b lb → yields (mkZip a b) (zip la lb).
Proof.
  intros Ha. revert b lb.
  induction Ha as [a a' Hn|a x a' la Hn _ IH]; intros b lb Hb.
  - apply (yields_nil _ (mkZip a' b)). rewrite next_Zip. simpl.
    by rewrite Hn.
  - destruct Hb as [b b' Hnb|b y b' lb Hnb Hb]; simpl.
    + apply (yields_nil _ (mkZip a' b')). rewrite next_Zip. simpl.
      by rewrite Hn, Hnb.
    + apply (yields_cons _ _ (mkZip a' b')); [|by apply IH].
      rewrite next_Zip. simpl. by rewrite Hn, Hnb.
Qed.

(** The loop over [(1..=n).zip(r)] is the fold over the zipped lists, once
    the fuel exceeds the shorter of the two ranges. *)
Lemma for_loop_zip_ranges {E T} (body : T → nat * nat → outcome E T) a n
    (r : Range) fuel :
  n `min` range_len r < fuel →
  for_loop fuel body a (mkZip (range_inclusive 1 n) r)
  = Some (for_each body a (zip (seq 1 n) (range_iter r))).
Proof.
  intros Hf. apply for_loop_yields.
  - replace (seq 1 n) with (seq 1 (S n - 1)) by (f_equal; lia).
    apply yields_Zip; [apply yields_RangeInclusive|apply yields_Range].
  - rewrite length_zip, length_seq. unfold range_iter. by rewrite length_seq.
Qed.

End iterators.


(** A builder on which [pn] has been called has a packet number of at most
    four bytes: five calls of [next] end the loop. *)
Lemma apply_mask_loop_numbered mask b :
  numbered b → apply_mask_loop 5 mask b = Some (apply_mask mask b).
Proof.
  intros Hn. pose proof (numbered_pn_len _ Hn). unfold apply_mask_loop, apply_mask.
  destruct (index mask 0) as [m0| |]; outcome_simpl; [|done..].
  destruct (update _ _ _) as [e| |]; outcome_simpl; [|done..].
  apply for_loop_zip_ranges. lia.
Qed.

