(* ===== verification/Protection.v ===== *)
(** * Header protection and the behaviour of [build]

    [build] masks the first header byte and the packet-number bytes in
    place, one index at a time.  This file gives the same transformation in
    closed form on the header alone ([protect]), proves that the loop of
    [apply_mask] computes it, and derives what the specification promises of
    header protection: which bytes it may change, that applying it twice
    restores the header, and the complete behaviour of [build] on a
    well-formed builder, failures included. *)

From Stdlib Require Import ZArith Lia Btauto.
From stdpp Require Import base option list numbers.
From S2P Require Import Prelude Encoder PacketType Crypto Builder.

#[local] Open Scope Z_scope.

(** ** XOR over a range of the buffer *)

(** The buffer with the bytes at [p, p + length ms) XORed with [ms]. *)
Definition xor_at (p : nat) (ms e : list Z) : list Z :=
  take p e ++ zip_with Z.lxor (take (length ms) (drop p e)) ms
  ++ drop (p + length ms) e.

Section xor_at.
Implicit Types (p i n : nat) (ms e mask : list Z).

Lemma length_xor_at p ms e :
  (p + length ms ≤ length e)%nat → length (xor_at p ms e) = length e.
Proof. intros. unfold xor_at. rewrite !length_app, length_zip_with. len. Qed.

Lemma xor_at_nil p e : xor_at p [] e = e.
Proof. unfold xor_at. simpl. rewrite Nat.add_0_r. apply take_drop. Qed.

Lemma xor_at_step p m ms e x :
  e !! p = Some x →
  xor_at (S p) ms (<[p := Z.lxor x m]> e) = xor_at p (m :: ms) e.
Proof.
  intros Hx. pose proof (lookup_lt_Some _ _ _ Hx) as Hp. unfold xor_at.
  rewrite (take_S_r _ _ (Z.lxor x m)) by (by apply list_lookup_insert_eq).
  rewrite take_insert_ge, !drop_insert_lt by lia.
  rewrite (drop_S e x p Hx). simpl.
  rewrite <- app_assoc. simpl. do 4 f_equal. lia.
Qed.

(** The loop of [apply_mask] over [n] packet-number bytes XORs the range. *)
Lemma for_each_xor mask i p n e :
  (p + n ≤ length e)%nat → (i + n ≤ length mask)%nat →
  for_each (mask_pn_byte mask) e (zip (seq i n) (seq p n))
  = Ok (xor_at p (take n (drop i mask)) e).
Proof.
  revert i p e. induction n as [|n IH]; intros i p e Hp Hi.
  - simpl. by rewrite xor_at_nil.
  - destruct (lookup_lt_is_Some_2 mask i) as [mi Hmi]; [lia|].
    destruct (lookup_lt_is_Some_2 e p) as [x Hx]; [lia|].
    simpl. unfold index. rewrite Hmi. outcome_simpl.
    rewrite (update_lt _ _ _ _ Hx). outcome_simpl.
    rewrite IH by (len; lia).
    rewrite xor_at_step by done.
    by rewrite (drop_S mask mi i Hmi).
Qed.

Lemma xor_at_app_l pre e p ms :
  xor_at (length pre + p) ms (pre ++ e) = pre ++ xor_at p ms e.
Proof.
  unfold xor_at. rewrite take_app_add, drop_app_add, <- Nat.add_assoc,
    drop_app_add. by rewrite <- app_assoc.
Qed.

Lemma xor_at_app_r e post p ms :
  (p + length ms ≤ length e)%nat →
  xor_at p ms (e ++ post) = xor_at p ms e ++ post.
Proof.
  intros Hp. unfold xor_at.
  rewrite take_app_le, !drop_app_le by lia.
  rewrite (take_app_le (drop p e)) by (len; lia).
  by rewrite <- !app_assoc.
Qed.

Lemma xor_at_cons x e p ms : xor_at (S p) ms (x :: e) = x :: xor_at p ms e.
Proof. apply (xor_at_app_l [x]). Qed.

Lemma xor_at_end p ms e :
  (p + length ms)%nat = length e →
  xor_at p ms e = take p e ++ zip_with Z.lxor (drop p e) ms.
Proof.
  intros Hp. unfold xor_at.
  rewrite (drop_ge e (p + length ms)), app_nil_r by lia.
  by rewrite (take_ge (drop p e)) by (len; lia).
Qed.

End xor_at.

(** ** Header protection in closed form *)

(** The last [n] bytes of [rest] XORed with [ms], the others unchanged. *)
Definition xor_tail (n : nat) (ms rest : list Z) : list Z :=
  let k := (length rest - n)%nat in
  take k rest ++ zip_with Z.lxor (drop k rest) ms.

(** The protected header: the first byte XORed with mask byte 0 under
    [fbm], the last [pn_len] bytes XORed with mask bytes 1 to [pn_len], the
    bytes between untouched. *)
Definition protect (mask : list Z) (fbm : Z) (pn_len : nat) (hdr : list Z)
  : list Z :=
  match hdr with
  | [] => []
  | first :: rest =>
      Z.lxor first (Z.land (default 0 (mask !! 0%nat)) fbm)
      :: xor_tail pn_len (drop 1 mask) rest
  end.

Section protect.
Implicit Types (mask hdr rest pre post ms : list Z) (fbm first : Z) (n : nat).

Lemma length_xor_tail n ms rest :
  (n ≤ length ms)%nat → length (xor_tail n ms rest) = length rest.
Proof.
  intros Hn. unfold xor_tail. rewrite length_app, length_zip_with. len.
Qed.

Lemma zip_with_lxor_cancel (l ms : list Z) :
  (length l ≤ length ms)%nat →
  zip_with Z.lxor (zip_with Z.lxor l ms) ms = l.
Proof.
  revert ms. induction l as [|x l IH]; intros [|m ms] Hl; simpl in *;
    [done|done|lia|].
  rewrite lxor_cancel_r, IH by lia. done.
Qed.

Lemma xor_tail_involutive n ms rest :
  (n ≤ length ms)%nat → xor_tail n ms (xor_tail n ms rest) = rest.
Proof.
  intros Hn. unfold xor_tail at 1. rewrite length_xor_tail by done.
  unfold xor_tail. set (k := (length rest - n)%nat).
  rewrite take_app_length', drop_app_length' by len.
  rewrite zip_with_lxor_cancel by len. apply take_drop.
Qed.

Lemma length_protect mask fbm n hdr :
  (n < length mask)%nat → length (protect mask fbm n hdr) = length hdr.
Proof.
  intros Hn. destruct hdr as [|first rest]; [done|]. simpl.
  rewrite length_xor_tail by len. done.
Qed.

Lemma bytes_ok_protect mask fbm n hdr :
  bytes_ok mask → is_u8 fbm → bytes_ok hdr →
  bytes_ok (protect mask fbm n hdr).
Proof.
  intros Hm Hf Hh. destruct hdr as [|first rest]; [done|].
  inversion_clear Hh as [|? ? Hfirst Hrest]. simpl.
  assert (is_u8 (default 0 (mask !! 0%nat))).
  { destruct (mask !! 0%nat) eqn:H0; simpl; [|done].
    eapply Forall_lookup_1; [apply Hm|apply H0]. }
  unfold xor_tail. bytes_ok_tac.
Qed.

(** The buffer after the mask has been applied, in terms of [protect]. *)
Lemma xor_at_protect pre first rest post mask fbm n m0 :
  mask !! 0%nat = Some m0 → (n ≤ length rest)%nat → (n < length mask)%nat →
  xor_at (length pre + S (length rest - n)) (take n (drop 1 mask))
    (<[length pre := Z.lxor first (Z.land m0 fbm)]>
       (pre ++ (first :: rest) ++ post))
  = pre ++ protect mask fbm n (first :: rest) ++ post.
Proof.
  intros Hm0 Hn Hmask.
  rewrite insert_app_r_alt, Nat.sub_diag by lia. simpl.
  rewrite xor_at_app_l. f_equal.
  rewrite xor_at_cons, xor_at_app_r, xor_at_end by len.
  rewrite Hm0. unfold xor_tail. simpl. do 3 f_equal.
  apply zip_with_take_r'. len.
Qed.

(** Applying the same mask twice restores the header: the receiver removes
    protection with the operation that applied it. *)
Lemma protect_involutive mask fbm n hdr :
  (n < length mask)%nat →
  protect mask fbm n (protect mask fbm n hdr) = hdr.
Proof.
  intros Hmask. destruct hdr as [|first rest]; [done|]. simpl.
  rewrite lxor_cancel_r, xor_tail_involutive by len. done.
Qed.

(** Protection leaves the bytes between the first byte and the packet
    number as they are. *)
Lemma protect_lookup_middle mask fbm n hdr i :
  (0 < i < length hdr - n)%nat → protect mask fbm n hdr !! i = hdr !! i.
Proof.
  intros Hi. destruct hdr as [|first rest]; [done|].
  destruct i as [|i]; [lia|]. simpl in *. unfold xor_tail.
  rewrite lookup_app_l by len. apply lookup_take_lt. lia.
Qed.

(** The first byte changes only under the mask [fbm]. *)
Lemma protect_first_bits mask fbm n first rest m :
  Z.land fbm m = 0 →
  ∃ first', protect mask fbm n (first :: rest) !! 0%nat = Some first' ∧
            Z.land first' m = Z.land first m.
Proof.
  intros Hm. eexists. split; [done|].
  rewrite land_lxor_distr_l, <- Z.land_assoc, Hm, Z.land_0_r.
  apply Z.lxor_0_r.
Qed.

(** Each packet-number byte is XORed with its mask byte. *)
Lemma protect_lookup_pn mask fbm n hdr i x m :
  (n < length hdr)%nat →
  hdr !! (length hdr - n + i)%nat = Some x → mask !! S i = Some m →
  (i < n)%nat →
  protect mask fbm n hdr !! (length hdr - n + i)%nat = Some (Z.lxor x m).
Proof.
  intros Hn Hx Hm Hi. destruct hdr as [|first rest]; [done|]. simpl in *.
  replace (S (length rest) - n + i)%nat
    with (S (length rest - n + i)) in * by lia. simpl in *.
  unfold xor_tail.
  rewrite lookup_app_r by len. rewrite length_take.
  replace (length rest - n + i
           - (length rest - n) `min` length rest)%nat with i by lia.
  rewrite lookup_zip_with, !lookup_drop, Hx. simpl. by rewrite Hm.
Qed.

End protect.

(** ** The parts of a numbered builder *)

(** The bytes before the packet: earlier packets of the datagram. *)
Definition prefix_bytes (b : PacketBuilder) : list Z :=
  take (start (header b)) (encoder b).

(** The header: the associated data of the encryption. *)
Definition header_bytes (b : PacketBuilder) : list Z :=
  drop (start (header b)) (take (end_ (header b)) (encoder b)).

(** The body: the plaintext. *)
Definition body_bytes (b : PacketBuilder) : list Z :=
  drop (end_ (header b)) (encoder b).

(** The length of the packet-number field. *)
Definition pn_len (b : PacketBuilder) : nat := range_len (offsets_pn (offsets b)).

(** The builder with its length field filled in for a tag of [x] bytes:
    what [build] encrypts. *)
Definition with_len (x : nat) (b : PacketBuilder) : PacketBuilder :=
  let off := offsets_len (offsets b) in
  if decide (0 < off)%nat
  then set_encoder
         (take off (encoder b)
          ++ len_field (length (encoder b) - (off + 2) + x)
          ++ drop (off + 2) (encoder b)) b
  else b.

(** The offsets of a builder after [pn], without what [numbered] says of
    the value of the first byte: this is all the masking step relies on, and
    it still holds once the header is protected. *)
Record laid_out (b : PacketBuilder) : Prop := {
  laid_pn_start : (start (header b) < start (offsets_pn (offsets b)))%nat;
  laid_pn_order :
    (start (offsets_pn (offsets b)) ≤ end_ (offsets_pn (offsets b)))%nat;
  laid_pn_end : end_ (offsets_pn (offsets b)) = end_ (header b);
  laid_header : (end_ (header b) ≤ length (encoder b))%nat;
}.

Section parts.
Implicit Types (b : PacketBuilder) (x : nat).

Lemma parts_app b :
  (start (header b) ≤ end_ (header b))%nat →
  encoder b = prefix_bytes b ++ header_bytes b ++ body_bytes b.
Proof. apply take_slice_drop. Qed.

Lemma length_prefix_bytes b :
  (start (header b) ≤ length (encoder b))%nat →
  length (prefix_bytes b) = start (header b).
Proof. intros. unfold prefix_bytes. len. Qed.

Lemma length_header_bytes b :
  (end_ (header b) ≤ length (encoder b))%nat →
  length (header_bytes b) = (end_ (header b) - start (header b))%nat.
Proof. intros. unfold header_bytes. len. Qed.

Lemma numbered_bounds b :
  numbered b →
  (start (header b) < start (offsets_pn (offsets b)))%nat ∧
  (start (offsets_pn (offsets b)) + pn_len b)%nat = end_ (header b) ∧
  (1 ≤ pn_len b ≤ 4)%nat ∧
  (end_ (header b) ≤ length (encoder b))%nat.
Proof.
  intros Hn. pose proof (numbered_pn_start _ Hn).
  pose proof (numbered_pn_len _ Hn). pose proof (numbered_pn_end _ Hn).
  pose proof (numbered_header _ Hn). unfold pn_len, range_len in *. lia.
Qed.

(** The offset of the length field of a numbered builder, when it has one. *)
Lemma numbered_len_bounds b :
  numbered b → (0 < offsets_len (offsets b))%nat →
  (start (header b) < offsets_len (offsets b))%nat ∧
  (offsets_len (offsets b) + 2)%nat = start (offsets_pn (offsets b)).
Proof.
  intros Hn Hoff. pose proof (numbered_len _ Hn) as Hl.
  destruct (decide (is_long b)); [done|lia].
Qed.

Lemma numbered_laid_out b : numbered b → laid_out b.
Proof.
  intros Hn. destruct (numbered_bounds _ Hn) as (H1 & H2 & H3 & H4).
  split; [done| |apply Hn|done].
  unfold pn_len, range_len in *. lia.
Qed.

Lemma laid_out_set_encoder e b :
  laid_out b → length e = length (encoder b) → laid_out (set_encoder e b).
Proof. intros [] He. split; simpl; (done || lia). Qed.

Lemma laid_out_bounds b :
  laid_out b →
  (start (header b) < start (offsets_pn (offsets b)))%nat ∧
  (start (offsets_pn (offsets b)) + pn_len b)%nat = end_ (header b) ∧
  (end_ (header b) ≤ length (encoder b))%nat.
Proof. intros []. unfold pn_len, range_len. lia. Qed.

Lemma header_bytes_cons b :
  laid_out b →
  ∃ first rest, first_byte b = Some first ∧ header_bytes b = first :: rest ∧
    (pn_len b ≤ length rest)%nat ∧
    (start (header b) + S (length rest - pn_len b))%nat
    = start (offsets_pn (offsets b)).
Proof.
  intros Hl. destruct (laid_out_bounds _ Hl) as (H1 & H2 & H4).
  destruct (lookup_lt_is_Some_2 (encoder b) (start (header b)))
    as [first Hf]; [lia|].
  exists first,
    (drop (S (start (header b))) (take (end_ (header b)) (encoder b))).
  split; [done|]. split.
  - unfold header_bytes. apply drop_S.
    rewrite lookup_take_lt by lia. done.
  - len.
Qed.

(** The three parts of a buffer put together from its pieces. *)
Lemma parts_set_encoder pre hdr body b :
  length pre = start (header b) →
  (start (header b) + length hdr)%nat = end_ (header b) →
  let b' := set_encoder (pre ++ hdr ++ body) b in
  prefix_bytes b' = pre ∧ header_bytes b' = hdr ∧ body_bytes b' = body.
Proof.
  intros Hp Hh b'. unfold prefix_bytes, header_bytes, body_bytes. simpl.
  rewrite <- Hp at 1. rewrite take_app_length. split; [done|].
  rewrite <- Hh, <- Hp. rewrite app_assoc, take_app_length' by len.
  rewrite drop_app_length, <- length_app, drop_app_length. done.
Qed.

Lemma with_len_fields x b :
  header (with_len x b) = header b ∧ offsets (with_len x b) = offsets b ∧
  builder_pn (with_len x b) = builder_pn b.
Proof. unfold with_len. by case_decide. Qed.

Lemma with_len_encoder x b :
  numbered b →
  let off := offsets_len (offsets b) in
  encoder (with_len x b)
  = if decide (0 < off)%nat
    then take off (encoder b)
         ++ len_field (length (encoder b) - (off + 2) + x)
         ++ drop (off + 2) (encoder b)
    else encoder b.
Proof. intros Hn off. unfold with_len. fold off. by case_decide. Qed.

Lemma length_with_len x b :
  numbered b → length (encoder (with_len x b)) = length (encoder b).
Proof.
  intros Hn. rewrite with_len_encoder by done. case_decide; [|done].
  destruct (numbered_bounds _ Hn) as (? & ? & ? & ?).
  destruct (numbered_len_bounds _ Hn) as [? ?]; [done|]. len.
Qed.

(** Filling in the length leaves the bytes outside the field alone. *)
Lemma with_len_lookup x b i :
  numbered b →
  (i ≤ start (header b) ∨ end_ (header b) - pn_len b ≤ i)%nat →
  encoder (with_len x b) !! i = encoder b !! i.
Proof.
  intros Hn Hi. rewrite with_len_encoder by done. case_decide; [|done].
  destruct (numbered_bounds _ Hn) as (? & ? & ? & ?).
  destruct (numbered_len_bounds _ Hn) as [? ?]; [done|].
  set (off := offsets_len (offsets b)) in *.
  destruct (decide (i < off)%nat).
  - rewrite lookup_app_l by len. by apply lookup_take_lt.
  - rewrite lookup_app_r, lookup_app_r by len.
    rewrite lookup_drop. f_equal. len.
Qed.

Lemma prepare_numbered x b :
  numbered b →
  (if decide (0 < offsets_len (offsets b))%nat
   then write_len x b else Ok b) = Ok (with_len x b).
Proof.
  intros Hn. unfold with_len. case_decide; [|done].
  destruct (numbered_bounds _ Hn) as (? & ? & ? & ?).
  destruct (numbered_len_bounds _ Hn) as [? ?]; [done|].
  apply write_len_Ok. lia.
Qed.

Lemma with_len_prefix x b :
  numbered b → prefix_bytes (with_len x b) = prefix_bytes b.
Proof.
  intros Hn. unfold prefix_bytes.
  destruct (with_len_fields x b) as (-> & _ & _).
  destruct (numbered_bounds _ Hn) as (? & ? & ? & ?).
  apply list_eq. intros i.
  destruct (decide (i < start (header b))%nat).
  - rewrite !lookup_take_lt by done. apply with_len_lookup; [done|lia].
  - by rewrite !lookup_take_ge by lia.
Qed.

Lemma with_len_body x b :
  numbered b → body_bytes (with_len x b) = body_bytes b.
Proof.
  intros Hn. unfold body_bytes.
  destruct (with_len_fields x b) as (-> & _ & _).
  destruct (numbered_bounds _ Hn) as (? & ? & ? & ?).
  apply list_eq. intros i. rewrite !lookup_drop.
  apply with_len_lookup; [done|lia].
Qed.

Lemma with_len_numbered x b : numbered b → numbered (with_len x b).
Proof.
  intros Hn. destruct (numbered_bounds _ Hn) as (? & ? & ? & ?).
  assert (first_byte (with_len x b) = first_byte b) as Hfb.
  { unfold first_byte. destruct (with_len_fields x b) as (-> & _ & _).
    apply with_len_lookup; [done|lia]. }
  assert (is_long (with_len x b) ↔ is_long b) as Hlong
    by (unfold is_long; by rewrite Hfb).
  destruct (with_len_fields x b) as (Hh & Ho & Hp).
  split; rewrite ?Hh, ?Ho, ?Hfb, ?length_with_len; try apply Hn.
  - rewrite with_len_encoder by done. case_decide; [|apply Hn].
    pose proof (numbered_bytes _ Hn). bytes_ok_tac.
  - pose proof (numbered_len _ Hn) as Hl.
    destruct (decide (is_long b)).
    + by rewrite decide_True by (by apply Hlong).
    + by rewrite decide_False by (by rewrite Hlong).
Qed.

(** On a laid-out builder the loop of [apply_mask] computes [protect] on
    the header and leaves the rest of the buffer alone. *)
Lemma apply_mask_laid_out mask b :
  laid_out b → (pn_len b < length mask)%nat →
  apply_mask mask b
  = Ok (prefix_bytes b
        ++ protect mask (first_byte_mask (offsets b)) (pn_len b)
             (header_bytes b)
        ++ body_bytes b).
Proof.
  intros Hl Hmask. destruct (laid_out_bounds _ Hl) as (H1 & H2 & H4).
  destruct (header_bytes_cons _ Hl) as (first & rest & Hf & Hh & Hr & Hps).
  destruct (lookup_lt_is_Some_2 mask 0) as [m0 Hm0]; [lia|].
  unfold apply_mask, index. rewrite Hm0. outcome_simpl.
  rewrite (update_lt _ _ _ _ Hf). outcome_simpl.
  unfold range_iter. fold (pn_len b).
  rewrite for_each_xor by len. f_equal.
  rewrite (parts_app b) at 1 by lia. rewrite Hh.
  rewrite <- Hps, <- (length_prefix_bytes b) by lia.
  by apply xor_at_protect.
Qed.

Lemma apply_mask_numbered mask b :
  numbered b → (pn_len b < length mask)%nat →
  apply_mask mask b
  = Ok (prefix_bytes b
        ++ protect mask (first_byte_mask (offsets b)) (pn_len b)
             (header_bytes b)
        ++ body_bytes b).
Proof. intros Hn%numbered_laid_out. by apply apply_mask_laid_out. Qed.

End parts.

(** ** The behaviour of [build] *)

Section sample.
Implicit Types (n : nat) (ct : list Z).

Lemma sample_of_Ok n ct :
  (n ≤ 4)%nat → (4 - n + SAMPLE_SIZE ≤ length ct)%nat →
  sample_of n ct = Ok (take SAMPLE_SIZE (drop (4 - n) ct)).
Proof.
  intros Hn Hct. unfold sample_of.
  rewrite (proj2 (Nat.leb_le n 4)) by done. outcome_simpl.
  rewrite (proj2 (Nat.leb_le _ _)) by done. outcome_simpl.
  rewrite slice_eq by lia. f_equal.
  by rewrite take_drop_commute.
Qed.

(** The sampling assertion of [build]: a ciphertext shorter than
    [4 - pn_len + 16] bytes is a panic. *)
Lemma sample_of_Panic n ct :
  (n ≤ 4)%nat → (length ct < 4 - n + SAMPLE_SIZE)%nat →
  sample_of n ct = Panic.
Proof.
  intros Hn Hct. unfold sample_of.
  rewrite (proj2 (Nat.leb_le n 4)) by done. outcome_simpl.
  by rewrite (proj2 (Nat.leb_gt _ _)) by done.
Qed.

Lemma sample_of_length n ct sample :
  sample_of n ct = Ok sample → length sample = SAMPLE_SIZE.
Proof.
  unfold sample_of. intros H. outcome_inv.
  apply slice_length in H. lia.
Qed.

Lemma sample_of_never_Err n ct err : sample_of n ct ≠ Err err.
Proof.
  unfold sample_of.
  destruct (n <=? 4)%nat; outcome_simpl; [|done].
  destruct (_ <=? _)%nat; outcome_simpl; [|done].
  unfold slice. by case_decide.
Qed.

End sample.

Section build.
Context {St : Type} `{CryptoDxLaws St}.
Implicit Types (crypto : St) (b : PacketBuilder).

(** What [build] returns once the provider has answered the encryption. *)
Definition seal (crypto : St) (b : PacketBuilder) (hdr : list Z)
    (sealed : outcome Error (list Z)) : outcome Error (list Z) :=
  ct ← sealed;
  sample ← sample_of (pn_len b) ct;
  mask ← compute_mask crypto sample;
  Ok (prefix_bytes b
      ++ protect mask (first_byte_mask (offsets b)) (pn_len b) hdr
      ++ ct).

(** The first lines of [build] on a numbered builder: the length field
    filled in, the header and the body. *)
Lemma prepared_numbered x b :
  numbered b →
  (b ← (if decide (0 < offsets_len (offsets b))%nat
        then write_len x b else Ok b);
   hdr ← slice (encoder b) (start (header b)) (end_ (header b));
   body ← slice_from (encoder b) (end_ (header b));
   Ok (b, hdr, body))
  = Ok (with_len x b, header_bytes (with_len x b), body_bytes b) :> Res _.
Proof.
  intros Hn. pose proof (with_len_numbered x b Hn) as Hn1.
  destruct (numbered_bounds _ Hn1) as (H1 & H2 & H3 & H4).
  rewrite prepare_numbered by done. outcome_simpl.
  rewrite slice_eq, slice_from_eq by lia. outcome_simpl.
  fold (header_bytes (with_len x b)) (body_bytes (with_len x b)).
  by rewrite with_len_body.
Qed.

(** The last lines of [build] on a numbered builder: the mask applied,
    the plaintext cut off and the ciphertext added. *)
Lemma finished_numbered x b mask ct :
  numbered b → (5 ≤ length mask)%nat →
  (e ← apply_mask mask (with_len x b);
   Ok (encode ct (truncate (end_ (header (with_len x b))) e)))
  = Ok (prefix_bytes b
        ++ protect mask (first_byte_mask (offsets b)) (pn_len b)
             (header_bytes (with_len x b))
        ++ ct) :> Res _.
Proof.
  intros Hn Hmask. set (b1 := with_len x b).
  pose proof (with_len_numbered x b Hn) as Hn1. fold b1 in Hn1.
  destruct (numbered_bounds _ Hn1) as (H1 & H2 & H3 & H4).
  destruct (with_len_fields x b) as (Hh & Ho & Hp). fold b1 in Hh, Ho, Hp.
  assert (pn_len b1 = pn_len b) as Hlen by (unfold pn_len; by rewrite Ho).
  rewrite apply_mask_numbered by first [done | lia].
  outcome_simpl. f_equal. unfold encode, truncate.
  rewrite app_assoc, take_app_length'.
  - unfold b1 at 1. rewrite with_len_prefix, Ho, Hlen by done.
    by rewrite <- app_assoc.
  - rewrite length_app, length_protect by lia.
    rewrite length_prefix_bytes, length_header_bytes by lia. lia.
Qed.

(** [build] on a numbered builder, every branch: the length field is
    filled in, the provider encrypts the body under the header, and the
    result is the untouched prefix, the protected header and the
    ciphertext; the provider's errors and the sampling panic pass through. *)
Lemma build_numbered crypto b :
  numbered b →
  let b1 := with_len (expansion crypto) b in
  let r := encrypt crypto (builder_pn b) (header_bytes b1) (body_bytes b) in
  build crypto b = (r.1, seal r.1 b (header_bytes b1) r.2).
Proof.
  intros Hn b1 r.
  destruct (with_len_fields (expansion crypto) b) as (Hh & Ho & Hp).
  fold b1 in Hh, Ho, Hp.
  unfold build. rewrite prepared_numbered by done. fold b1. rewrite Hp.
  fold r. destruct r as [crypto' [ct|err|]]; simpl; [|done..].
  unfold seal. outcome_simpl. fold (pn_len b1).
  replace (pn_len b1) with (pn_len b) by (unfold pn_len; by rewrite Ho).
  destruct (sample_of (pn_len b) ct) as [sample| |]; outcome_simpl; [|done..].
  destruct (compute_mask crypto' sample) as [mask| |] eqn:Hmask;
    outcome_simpl; [|done..].
  apply compute_mask_length in Hmask. f_equal.
  by apply finished_numbered.
Qed.

(** [build] on a builder whose packet number was never set: the header
    range is empty, so the whole packet so far is encrypted as the body and
    the masked first byte is cut off with the plaintext. *)
Lemma build_opened crypto b :
  opened b →
  let r := encrypt crypto (builder_pn b) [] (body_bytes b) in
  build crypto b = (r.1, seal r.1 b [] r.2).
Proof.
  intros Ho r.
  destruct (opened_first _ Ho) as (first & Hf & _).
  pose proof (first_byte_lt _ _ Hf) as Hlt.
  pose proof (opened_header _ Ho) as Hhe.
  unfold build. rewrite (opened_len _ Ho), decide_False by lia.
  outcome_simpl. rewrite slice_eq, slice_from_eq by lia. outcome_simpl.
  replace (drop (start (header b)) (take (end_ (header b)) (encoder b)))
    with (@nil Z) by (symmetry; apply drop_ge; rewrite Hhe; len).
  fold (body_bytes b) r. destruct r as [crypto' [ct|err|]]; simpl; [|done..].
  unfold seal, pn_len. rewrite (opened_pn _ Ho). outcome_simpl.
  destruct (sample_of _ ct) as [sample| |]; outcome_simpl; [|done..].
  destruct (compute_mask crypto' sample) as [mask| |] eqn:Hmask;
    outcome_simpl; [|done..].
  apply compute_mask_length in Hmask.
  destruct (lookup_lt_is_Some_2 mask 0) as [m0 Hm0]; [lia|].
  unfold apply_mask, index. rewrite Hm0, (opened_pn _ Ho). outcome_simpl.
  rewrite (update_lt _ _ _ _ Hf). simpl.
  unfold encode, truncate, prefix_bytes. by rewrite Hhe, take_insert_ge.
Qed.

End build.

(** ** Frame of the masking loop, for any builder *)

Section frame.
Implicit Types (b : PacketBuilder) (mask e : list Z) (i j : nat).

Lemma mask_pn_byte_frame mask e e' i j k :
  mask_pn_byte mask e (i, j) = Ok e' → k ≠ j → e' !! k = e !! k.
Proof.
  unfold mask_pn_byte. intros H Hk. outcome_inv.
  eapply update_lookup_ne; [done|]. congruence.
Qed.

Lemma for_each_mask_frame mask (ijs : list (nat * nat)) e e' k :
  for_each (mask_pn_byte mask) e ijs = Ok e' →
  k ∉ ijs.*2 → e' !! k = e !! k.
Proof.
  revert e. induction ijs as [|[i j] ijs IH]; intros e H Hk; simpl in *.
  - by injection H as <-.
  - apply bind_Ok in H as (e1 & H1 & H).
    apply not_elem_of_cons in Hk as [Hj Hk].
    rewrite (IH _ H Hk). by eapply mask_pn_byte_frame.
Qed.

Lemma snd_zip_range (r : Range) :
  (zip (seq 1 (range_len r)) (range_iter r)).*2 = range_iter r.
Proof. apply snd_zip. unfold range_iter. len. Qed.

Lemma elem_of_range_iter (r : Range) k :
  k ∈ range_iter r ↔ (start r ≤ k < end_ r)%nat.
Proof.
  unfold range_iter, range_len. rewrite elem_of_seq. lia.
Qed.

Lemma for_each_mask_length mask (ijs : list (nat * nat)) e e' :
  for_each (mask_pn_byte mask) e ijs = Ok e' → length e' = length e.
Proof.
  revert e. induction ijs as [|[i j] ijs IH]; intros e Hr; simpl in *.
  - by injection Hr as <-.
  - apply bind_Ok in Hr as (e1 & H1 & Hr). rewrite (IH _ Hr).
    unfold mask_pn_byte in H1. outcome_inv. by eapply update_length.
Qed.

Lemma apply_mask_length mask b e :
  apply_mask mask b = Ok e → length e = length (encoder b).
Proof.
  unfold apply_mask. intros Hm. outcome_inv.
  erewrite for_each_mask_length by done. by eapply update_length.
Qed.

Lemma apply_mask_lookup mask b e k :
  apply_mask mask b = Ok e → k ≠ start (header b) →
  ¬ (start (offsets_pn (offsets b)) ≤ k < end_ (offsets_pn (offsets b)))%nat →
  e !! k = encoder b !! k.
Proof.
  unfold apply_mask. intros Hm Hk Hr. outcome_inv.
  erewrite for_each_mask_frame; [|done|].
  - by eapply update_lookup_ne.
  - by rewrite snd_zip_range, elem_of_range_iter.
Qed.

Lemma write_len_inv x b b1 :
  write_len x b = Ok b1 →
  builder_pn b1 = builder_pn b ∧ header b1 = header b ∧
  offsets b1 = offsets b ∧ length (encoder b1) = length (encoder b) ∧
  ∀ k, k ≠ offsets_len (offsets b) → k ≠ S (offsets_len (offsets b)) →
       encoder b1 !! k = encoder b !! k.
Proof.
  unfold write_len. intros Hw. outcome_inv. simpl.
  repeat split; try done.
  - by do 2 (erewrite update_length by done).
  - intros k Hk1 Hk2.
    erewrite update_lookup_ne; [|done|lia]. by eapply update_lookup_ne.
Qed.

End frame.

(** ** [build] on any builder *)

Section any_builder.
Context {St : Type} `{CryptoDx St}.
Implicit Types (crypto : St) (b : PacketBuilder) (mask e : list Z) (k n : nat).

(** The steps of a successful [build], for any builder. *)
Lemma build_inv crypto b crypto' e' :
  build crypto b = (crypto', Ok e') →
  ∃ b1 ct mask e1,
    (if decide (0 < offsets_len (offsets b))%nat
     then write_len (expansion crypto) b else Ok b) = Ok b1 ∧
    (start (header b1) ≤ end_ (header b1) ≤ length (encoder b1))%nat ∧
    encrypt crypto (builder_pn b1) (header_bytes b1) (body_bytes b1)
    = (crypto', Ok ct) ∧
    apply_mask mask b1 = Ok e1 ∧
    e' = take (end_ (header b1)) e1 ++ ct.
Proof.
  unfold build. intros Hb.
  destruct (if decide _ then _ else _) as [b1| |]; outcome_simpl in Hb;
    [|by injection Hb..].
  destruct (slice (encoder b1) _ _) as [hdr| |] eqn:Hh; outcome_simpl in Hb;
    [|by injection Hb..].
  destruct (slice_from (encoder b1) _) as [body| |] eqn:Hbody;
    outcome_simpl in Hb; [|by injection Hb..].
  apply slice_Ok in Hh as [Hh ->]. apply slice_from_Ok in Hbody as [_ ->].
  destruct (encrypt _ _ _ _) as [c [ct| |]] eqn:Henc; injection Hb as -> Hb;
    outcome_simpl in Hb; [|done..].
  outcome_inv. by eauto 10.
Qed.

(** [build] leaves alone every byte before the header that lies outside
    the recorded length field and packet-number range. *)
Lemma build_take crypto b crypto' e' n :
  build crypto b = (crypto', Ok e') →
  (n ≤ start (header b))%nat →
  (offsets_len (offsets b) = 0 ∨ n ≤ offsets_len (offsets b))%nat →
  (range_len (offsets_pn (offsets b)) = 0 ∨
   n ≤ start (offsets_pn (offsets b)))%nat →
  take n e' = take n (encoder b).
Proof.
  intros (b1 & ct & mask & e1 & Hw & Hr & _ & Hm & ->)%build_inv Hs Hl Hp.
  assert (header b1 = header b ∧ offsets b1 = offsets b ∧
          take n (encoder b1) = take n (encoder b)) as (Hh & Ho & Hpre).
  { case_decide; [|by injection Hw as <-].
    apply write_len_inv in Hw as (_ & ? & ? & Hlen & Hw). do 2 (split; [done|]).
    apply list_eq. intros k. destruct (decide (k < n)%nat).
    - rewrite !lookup_take_lt by done. apply Hw; lia.
    - by rewrite !lookup_take_ge by lia. }
  rewrite Hh in *. pose proof (apply_mask_length _ _ _ Hm) as Hlen.
  rewrite take_app_le, take_take, Nat.min_l by len.
  rewrite <- Hpre. apply list_eq. intros k. destruct (decide (k < n)%nat).
  - rewrite !lookup_take_lt by done. eapply apply_mask_lookup; [done|..].
    + rewrite Hh. lia.
    + rewrite Ho. unfold range_len in Hp. lia.
  - by rewrite !lookup_take_ge by lia.
Qed.

End any_builder.

(** [build] leaves the provider with the expansion it had. *)
Lemma build_expansion {St : Type} `{CryptoDxLaws St} (crypto : St) b :
  expansion (build crypto b).1 = expansion crypto.
Proof.
  unfold build. destruct (_ ≫= _) as [[[b1 hdr] body]| |]; [|done..].
  pose proof (encrypt_expansion crypto (builder_pn b1) hdr body) as He.
  by destruct (encrypt _ _ _ _).
Qed.

(** With a provider that keeps its laws, the packet [build] appends is the
    builder's packet plus the expansion, for any builder. *)
Lemma build_length {St : Type} `{CryptoDxLaws St} (crypto crypto' : St) b e' :
  build crypto b = (crypto', Ok e') →
  length e' = (length (encoder b) + expansion crypto)%nat.
Proof.
  intros (b1 & ct & mask & e1 & Hw & Hr & Henc & Hm & ->)%build_inv.
  apply encrypt_length in Henc. apply apply_mask_length in Hm.
  assert (length (encoder b1) = length (encoder b)) as Hlen.
  { case_decide; [|by injection Hw as <-].
    by apply write_len_inv in Hw as (_ & _ & _ & ? & _). }
  unfold body_bytes in Henc. revert Henc. len.
Qed.

(** ** What [build] returns *)

Section properties.
Context {St : Type} `{CryptoDxLaws St}.
Implicit Types (crypto : St) (b : PacketBuilder) (mask e : list Z).

Lemma build_numbered_inv crypto b crypto' e :
  numbered b → build crypto b = (crypto', Ok e) →
  let hdr := header_bytes (with_len (expansion crypto) b) in
  ∃ ct sample mask,
    encrypt crypto (builder_pn b) hdr (body_bytes b) = (crypto', Ok ct) ∧
    sample_of (pn_len b) ct = Ok sample ∧
    compute_mask crypto' sample = Ok mask ∧
    e = prefix_bytes b
        ++ protect mask (first_byte_mask (offsets b)) (pn_len b) hdr ++ ct.
Proof.
  intros Hn. rewrite build_numbered by done. intros Hb hdr. fold hdr in Hb.
  destruct (encrypt _ _ _ _) as [c1 sealed] eqn:Henc. simpl in Hb.
  injection Hb as -> He. unfold seal in He.
  destruct sealed as [ct| |]; outcome_simpl in He; try done.
  destruct (sample_of _ ct) as [sample| |] eqn:Hs;
    outcome_simpl in He; try done.
  destruct (compute_mask crypto' sample) as [mask| |] eqn:Hm;
    outcome_simpl in He; try done.
  injection He as <-. by exists ct, sample, mask.
Qed.

(** C1: functional correctness of [PacketBuilder::build] (packet2.rs lines
    177-204).  For a builder on which [pn] has been called, with any
    provider: when the provider seals the body under the header whose
    length field has been filled in, and the sample taken [4 - pn_len]
    bytes into the ciphertext yields a mask, [build] returns the provider's
    new state and exactly: the bytes that were in the buffer before this
    packet, unchanged; the header with the low bits of its first byte and
    its packet-number bytes xored with the mask; the ciphertext. *)
Theorem build_Ok crypto b crypto' ct sample mask :
  numbered b →
  let hdr := header_bytes (with_len (expansion crypto) b) in
  encrypt crypto (builder_pn b) hdr (body_bytes b) = (crypto', Ok ct) →
  sample_of (pn_len b) ct = Ok sample →
  compute_mask crypto' sample = Ok mask →
  build crypto b
  = (crypto',
     Ok (prefix_bytes b
         ++ protect mask (first_byte_mask (offsets b)) (pn_len b) hdr
         ++ ct)).
Proof.
  intros Hn hdr Henc Hsample Hmask.
  rewrite build_numbered by done. fold hdr. rewrite Henc. simpl.
  unfold seal. outcome_simpl. rewrite Hsample. outcome_simpl.
  by rewrite Hmask.
Qed.

Lemma build_numbered_length crypto b crypto' e :
  numbered b → build crypto b = (crypto', Ok e) →
  length e = (end_ (header b) + length (body_bytes b) + expansion crypto)%nat.
Proof.
  intros Hn (ct & sample & mask & Henc & _ & Hm%compute_mask_length & ->)
    %build_numbered_inv; [|done].
  destruct (numbered_bounds _ Hn) as (H5 & H6 & H7 & H8).
  pose proof (with_len_numbered (expansion crypto) b Hn) as Hn1.
  destruct (with_len_fields (expansion crypto) b) as (Hh & _ & _).
  rewrite !length_app, length_protect, length_prefix_bytes by lia.
  rewrite length_header_bytes by (rewrite Hh, length_with_len by done; lia).
  rewrite (encrypt_length _ _ _ _ _ _ Henc), Hh. lia.
Qed.

(** Coalescing (packet2.rs lines 200-203).  A successful [build] leaves
    every byte that was in the buffer before the packet's first byte as it
    was, and the datagram it returns is as long as the header, the payload
    and the provider's expansion together. *)
Theorem build_prefix crypto b crypto' e :
  numbered b → build crypto b = (crypto', Ok e) →
  take (start (header b)) e = take (start (header b)) (encoder b) ∧
  length e = (end_ (header b) + length (body_bytes b) + expansion crypto)%nat.
Proof.
  intros Hn Hb. split; [|by apply (build_numbered_length _ _ crypto')].
  apply build_numbered_inv in Hb as (ct & sample & mask & _ & _ & _ & ->);
    [|done].
  destruct (numbered_bounds _ Hn) as (H5 & H6 & H7 & H8).
  rewrite take_app_length'; [done|]. by rewrite length_prefix_bytes by lia.
Qed.

(** An error of the provider's [encrypt] is what [build] returns (the
    [?] of packet2.rs line 183), together with the state the provider left
    behind. *)
Theorem build_Err_encrypt crypto b crypto' err :
  numbered b →
  encrypt crypto (builder_pn b)
    (header_bytes (with_len (expansion crypto) b)) (body_bytes b)
  = (crypto', Err err) →
  build crypto b = (crypto', Err err).
Proof.
  intros Hn Henc. rewrite build_numbered by done. by rewrite Henc.
Qed.

(** C22: the sampling assertion (packet2.rs lines 187-189).  When payload
    and expansion together are shorter than [4 - pn_len + SAMPLE_SIZE],
    [build] panics after the provider has sealed the packet: a packet with a
    one-byte packet number, no payload and a 16-byte tag cannot be built. *)
Theorem build_Panic_sample crypto b crypto' ct :
  numbered b →
  encrypt crypto (builder_pn b)
    (header_bytes (with_len (expansion crypto) b)) (body_bytes b)
  = (crypto', Ok ct) →
  (length (body_bytes b) + expansion crypto < 4 - pn_len b + SAMPLE_SIZE)%nat →
  build crypto b = (crypto', Panic).
Proof.
  intros Hn Henc Hlen. rewrite build_numbered by done. rewrite Henc. simpl.
  unfold seal. outcome_simpl.
  destruct (numbered_bounds _ Hn) as (_ & _ & Hpn & _).
  rewrite sample_of_Panic; [done|lia|].
  rewrite (encrypt_length _ _ _ _ _ _ Henc). lia.
Qed.

(** C23: with a provider that keeps its laws, a builder on which [pn] has
    been called and whose payload and expansion cover the sample never makes
    [build] panic: every index and slice of lines 177-204 is in range. *)
Theorem build_no_panic crypto b :
  numbered b →
  (4 - pn_len b + SAMPLE_SIZE ≤ length (body_bytes b) + expansion crypto)%nat →
  (build crypto b).2 ≠ Panic.
Proof.
  intros Hn Hlen. rewrite build_numbered by done. simpl.
  destruct (encrypt _ _ _ _) as [crypto' [ct| |]] eqn:Henc; simpl; [|done|].
  - unfold seal. outcome_simpl.
    destruct (numbered_bounds _ Hn) as (_ & _ & Hpn & _).
    rewrite sample_of_Ok by
      (rewrite ?(encrypt_length _ _ _ _ _ _ Henc); lia).
    outcome_simpl.
    destruct (compute_mask _ _) eqn:Hm; try done.
    by apply compute_mask_no_panic in Hm.
  - pose proof (encrypt_no_panic crypto (builder_pn b)
      (header_bytes (with_len (expansion crypto) b)) (body_bytes b)) as Hp.
    by rewrite Henc in Hp.
Qed.

(** C39: every element of the datagram [build] returns is a byte, given that
    the builder's buffer held bytes and the provider returns bytes; and the
    datagram has the length of its three parts (earlier packets, header,
    payload) plus the expansion of the provider. *)
Theorem build_bytes_ok crypto b crypto' e :
  numbered b → build crypto b = (crypto', Ok e) →
  bytes_ok e ∧
  length e = (length (prefix_bytes b) + length (header_bytes b)
              + length (body_bytes b) + expansion crypto)%nat.
Proof.
  intros Hn Hb. split.
  - apply build_numbered_inv in Hb
      as (ct & sample & mask & Henc & _ & Hm & ->); [|done].
    pose proof (with_len_numbered (expansion crypto) b Hn) as Hn1.
    apply Forall_app_2; [apply Forall_take, Hn|].
    apply Forall_app_2; [|by eapply encrypt_bytes_ok].
    apply bytes_ok_protect; [by eapply compute_mask_bytes_ok|apply Hn|].
    apply Forall_drop, Forall_take, Hn1.
  - destruct (numbered_bounds _ Hn) as (H1 & H2 & _).
    rewrite (build_length _ _ _ _ Hb), (parts_app b) at 1 by lia. len.
Qed.

(** C40: [build] on a builder on which [pn] was never called is not
    rejected (packet2.rs has no guard for it): the header range is empty, so
    the whole packet, header included, is handed to the provider as the
    body, sealed under empty associated data, and nothing is masked. *)
Theorem build_unnumbered crypto b crypto' ct sample mask :
  opened b →
  encrypt crypto (builder_pn b) [] (body_bytes b) = (crypto', Ok ct) →
  sample_of 0 ct = Ok sample →
  compute_mask crypto' sample = Ok mask →
  build crypto b = (crypto', Ok (prefix_bytes b ++ ct)).
Proof.
  intros Ho Henc Hs Hm. rewrite build_opened by done. rewrite Henc. simpl.
  unfold seal, pn_len. rewrite (opened_pn _ Ho). outcome_simpl.
  change (range_len _) with 0%nat. rewrite Hs. outcome_simpl.
  by rewrite Hm.
Qed.

End properties.

(** ** Header protection as a whole *)

Section masking.
Implicit Types (b : PacketBuilder) (mask e : list Z).

(** Header protection is an involution (packet2.rs lines 193-197).
    Applying the same mask to the protected buffer gives back the buffer
    [build] had before masking, whatever the mask: what the receiver undoes
    is what the sender did. *)
Theorem apply_mask_involutive mask b e :
  laid_out b → (pn_len b < length mask)%nat →
  apply_mask mask b = Ok e →
  apply_mask mask (set_encoder e b) = Ok (encoder b).
Proof.
  intros Hl Hmask He. destruct (laid_out_bounds _ Hl) as (H1 & H2 & H4).
  rewrite apply_mask_laid_out in He by done. injection He as <-.
  set (p := protect mask (first_byte_mask (offsets b)) (pn_len b)
              (header_bytes b)).
  assert (length p = length (header_bytes b)) as Hp by (by apply length_protect).
  rewrite length_header_bytes in Hp by done.
  rewrite apply_mask_laid_out; [|apply laid_out_set_encoder|done].
  - destruct (parts_set_encoder (prefix_bytes b) p (body_bytes b) b)
      as (-> & -> & ->); [by rewrite length_prefix_bytes by lia|lia|].
    unfold p. simpl. change (pn_len (set_encoder _ b)) with (pn_len b).
    rewrite protect_involutive by done. f_equal. symmetry.
    apply parts_app. lia.
  - done.
  - rewrite !length_app, Hp, length_prefix_bytes by lia.
    unfold body_bytes. len.
Qed.

(** C11: frame of header protection.  The masking step of [build] keeps
    the length of the buffer and writes the packet's first byte and the
    bytes of the packet-number range and nothing else: connection IDs,
    version, token, length field, payload and earlier packets of the
    datagram are read back as they were, for every builder and every
    mask. *)
Theorem apply_mask_frame mask b e :
  apply_mask mask b = Ok e →
  length e = length (encoder b) ∧
  ∀ k, k ≠ start (header b) →
       ¬ (start (offsets_pn (offsets b)) ≤ k
          < start (offsets_pn (offsets b)) + pn_len b)%nat →
       e !! k = encoder b !! k.
Proof.
  intros Hm. split; [by eapply apply_mask_length|].
  intros k Hk Hr. eapply apply_mask_lookup; [done..|].
  unfold pn_len, range_len in Hr. lia.
Qed.

End masking.

(** ** The theorems at the packets of the tests *)

(** The ciphertext the test provider returns for [ex_short]. *)
Definition ex_short_ct : list Z := Eval vm_compute in
  match test_encrypt (mkTestDx 0 16) 0 (header_bytes ex_short)
          (body_bytes ex_short) with
  | (_, Ok ct) => ct
  | _ => []
  end.

Definition ex_short_packet : list Z :=
  [82; 240; 103; 165; 80; 42; 66; 98; 181; 182; 0; 0; 0; 19; 19; 19; 19; 19;
   19; 19; 19; 19; 19; 19; 19; 19; 19; 19; 19].

Definition ex_mask : list Z := [0xb6; 0x11; 0x22; 0x33; 0x44].

Definition ex_masked : list Z := Eval vm_compute in
  match apply_mask ex_mask ex_initial_full with
  | Ok e => e
  | _ => []
  end.

Lemma build_Ok_witness :
  build (mkTestDx 0 16) ex_short = (mkTestDx 1 16, Ok ex_short_packet).
Proof.
  exact (build_Ok (mkTestDx 0 16) ex_short (mkTestDx 1 16) ex_short_ct
           (replicate 16 19) (replicate 5 182) ex_short_numbered
           eq_refl eq_refl eq_refl).
Defined.

Lemma build_prefix_witness :
  take 0 ex_short_packet = take 0 (encoder ex_short) ∧
  length ex_short_packet = 29%nat.
Proof.
  exact (build_prefix (mkTestDx 0 16) ex_short (mkTestDx 1 16) _
           ex_short_numbered eq_refl).
Defined.

Lemma build_Err_encrypt_witness :
  build (mkTestDx 7 16) ex_short = (mkTestDx 7 16, Err (CryptoError 1)).
Proof.
  exact (build_Err_encrypt (mkTestDx 7 16) ex_short (mkTestDx 7 16)
           (CryptoError 1) ex_short_numbered eq_refl).
Defined.

Lemma build_Panic_sample_witness :
  build (mkTestDx 0 16) ex_short_empty = (mkTestDx 1 16, Panic).
Proof.
  refine (build_Panic_sample (mkTestDx 0 16) ex_short_empty (mkTestDx 1 16)
            (replicate 16 19) ex_short_empty_numbered eq_refl _).
  vm_compute. lia.
Defined.

Lemma build_no_panic_witness : (build (mkTestDx 0 16) ex_short).2 ≠ Panic.
Proof.
  refine (build_no_panic (mkTestDx 0 16) ex_short ex_short_numbered _).
  vm_compute. lia.
Defined.

Lemma build_bytes_ok_witness :
  bytes_ok ex_short_packet ∧
  length ex_short_packet
  = (length (prefix_bytes ex_short) + length (header_bytes ex_short)
     + length (body_bytes ex_short) + expansion (mkTestDx 0 16))%nat.
Proof.
  exact (build_bytes_ok (mkTestDx 0 16) ex_short (mkTestDx 1 16) _
           ex_short_numbered eq_refl).
Defined.

Lemma apply_mask_involutive_witness :
  apply_mask ex_mask (set_encoder ex_masked ex_initial_full)
  = Ok (encoder ex_initial_full).
Proof.
  refine (apply_mask_involutive ex_mask ex_initial_full ex_masked
            (numbered_laid_out _ ex_initial_full_numbered) _ eq_refl).
  vm_compute. lia.
Defined.

Lemma apply_mask_frame_witness :
  length ex_masked = length (encoder ex_initial_full) ∧
  ∀ k, k ≠ 0%nat → ¬ (18 ≤ k < 18 + 2)%nat →
       ex_masked !! k = encoder ex_initial_full !! k.
Proof. exact (apply_mask_frame ex_mask ex_initial_full ex_masked eq_refl). Defined.

(** A builder on which [pn] was never called, and what the test provider
    makes of it. *)
Definition ex_unnumbered : PacketBuilder := short [] true SERVER_CID.

Definition ex_unnumbered_ct : list Z := Eval vm_compute in
  match test_encrypt (mkTestDx 0 16) u64_max [] (body_bytes ex_unnumbered) with
  | (_, Ok ct) => ct
  | _ => []
  end.

Lemma ex_unnumbered_opened : opened ex_unnumbered.
Proof. apply short_opened; bytes_ok_tac. Qed.

Lemma build_unnumbered_witness :
  build (mkTestDx 0 16) ex_unnumbered
  = (mkTestDx (u64_max + 1) 16, Ok ([] ++ ex_unnumbered_ct)).
Proof.
  exact (build_unnumbered (mkTestDx 0 16) ex_unnumbered
           (mkTestDx (u64_max + 1) 16) ex_unnumbered_ct
           (take 16 (drop 4 ex_unnumbered_ct))
           (take 5 ((λ b, u8 (Z.lxor b 0xa5))
                      <$> take 16 (drop 4 ex_unnumbered_ct)))
           ex_unnumbered_opened eq_refl eq_refl eq_refl).
Defined.
