(* ===== verification/Logging.v ===== *)
(** * What [build] writes to the log

    [PacketBuilder::build] has three log statements (packet2.rs lines
    183, 191 and 202): [qdebug!] with the packet number, the header and
    the body before encryption, [qtrace!] with the mask, [qdebug!] with
    the finished packet.  [Builder] leaves them out.  This file models
    the macros of [neqo_common] as functions that return the records
    they emit, which depends on the level the logger is set to, and
    [build] with its log beside its result; it shows that the log does
    not change what [build] returns, and what the log holds. *)

From Stdlib Require Import ZArith Lia String.
From stdpp Require Import base option list numbers strings.
From S2P Require Import Prelude Encoder PacketType Crypto Builder Protection.

#[local] Open Scope Z_scope.

(** ** The macros *)

(** [log::Level]. *)
Inductive Level : Set := LError | LWarn | LInfo | LDebug | LTrace.

#[export] Instance Level_eq_dec : EqDecision Level.
Proof. solve_decision. Defined.

Definition level_rank (l : Level) : nat :=
  match l with
  | LError => 1
  | LWarn => 2
  | LInfo => 3
  | LDebug => 4
  | LTrace => 5
  end.

(** [log::LevelFilter]: [None] is [Off].  A record is emitted when its
    level is at most the filter. *)
Definition enabled (max : option Level) (l : Level) : bool :=
  match max with
  | None => false
  | Some m => (level_rank l <=? level_rank m)%nat
  end.

(** An argument of a format string: a number shown with [Display], or
    what [neqo_common::hex] makes of a byte string. *)
Inductive log_arg : Set :=
| Display (n : Z)
| Hex (bytes : list Z).

#[export] Instance log_arg_eq_dec : EqDecision log_arg.
Proof. solve_decision. Defined.

(** [neqo_common::hex]. *)
Definition hex (bytes : list Z) : log_arg := Hex bytes.

(** A record: level, format string and arguments. *)
Record log_record : Set := mkLog {
  log_level : Level;
  log_format : string;
  log_args : list log_arg;
}.

#[export] Instance log_record_eq_dec : EqDecision log_record.
Proof. solve_decision. Defined.

(** [qdebug!] and [qtrace!]: the records the statement emits. *)
Definition qdebug (max : option Level) (format : string)
    (args : list log_arg) : list log_record :=
  if enabled max LDebug then [mkLog LDebug format args] else [].

Definition qtrace (max : option Level) (format : string)
    (args : list log_arg) : list log_record :=
  if enabled max LTrace then [mkLog LTrace format args] else [].

(** The three log statements of [build] (packet2.rs lines 183, 191 and
    202). *)
Definition log_build (max : option Level) (pn : PacketNumber)
    (hdr body : list Z) : list log_record :=
  qdebug max "Build pn={} hdr={} body={}" [Display pn; hex hdr; hex body].

Definition log_mask (max : option Level) (mask : list Z) : list log_record :=
  qtrace max "mask={}" [hex mask].

Definition log_built (max : option Level) (e : Encoder) : list log_record :=
  qdebug max "Built {}" [hex e].

(** ** [build] with its log *)

(** [PacketBuilder::build] (packet2.rs lines 177-204) with the log
    statements: the state of the provider, the result, and the records
    emitted up to the return or the failure, oldest first. *)
Definition build_logged {St} `{CryptoDx St} (max : option Level)
    (crypto : St) (b : PacketBuilder)
  : St * Res Encoder * list log_record :=
  let prepared :=
    b ← (if decide (0 < offsets_len (offsets b))%nat
         then write_len (expansion crypto) b else Ok b);
    hdr ← slice (encoder b) (start (header b)) (end_ (header b));
    body ← slice_from (encoder b) (end_ (header b));
    Ok (b, hdr, body) in
  match prepared with
  | Ok (b, hdr, body) =>
      let log := log_build max (builder_pn b) hdr body in
      let '(crypto, sealed) := encrypt crypto (builder_pn b) hdr body in
      match (ciphertext ← sealed;
             sample ← sample_of (range_len (offsets_pn (offsets b)))
                        ciphertext;
             mask ← compute_mask crypto sample;
             Ok (ciphertext, mask)) with
      | Ok (ciphertext, mask) =>
          let log := log ++ log_mask max mask in
          match (e ← apply_mask mask b;
                 Ok (encode ciphertext (truncate (end_ (header b)) e))) with
          | Ok e => (crypto, Ok e, log ++ log_built max e)
          | Err err => (crypto, Err err, log)
          | Panic => (crypto, Panic, log)
          end
      | Err err => (crypto, Err err, log)
      | Panic => (crypto, Panic, log)
      end
  | Err err => (crypto, Err err, [])
  | Panic => (crypto, Panic, [])
  end.

(** ** Theorems *)

Section levels.
Implicit Types (max : option Level) (l : Level).

(** A logger that shows trace records shows debug records. *)
Lemma enabled_trace_debug max :
  enabled max LTrace = true → enabled max LDebug = true.
Proof. by destruct max as [[]|]. Qed.

Lemma qdebug_off max format args :
  enabled max LDebug = false → qdebug max format args = [].
Proof. unfold qdebug. by intros ->. Qed.

Lemma qtrace_off max format args :
  enabled max LDebug = false → qtrace max format args = [].
Proof.
  intros Hd. unfold qtrace. destruct (enabled max LTrace) eqn:Ht; [|done].
  by rewrite (enabled_trace_debug _ Ht) in Hd.
Qed.

End levels.

Section logged.
Context {St : Type} {dx : CryptoDx St}.
Implicit Types (crypto : St) (b : PacketBuilder) (max : option Level).

(** The log does not show in the result: [build] with its log returns
    the provider and the buffer that [build] of [Builder] returns, on
    every branch and at every level. *)
Theorem build_logged_build max crypto b :
  (build_logged max crypto b).1 = build crypto b.
Proof.
  unfold build_logged, build.
  destruct (_ ≫= _) as [[[b1 hdr] body]| |]; [|done..].
  destruct (encrypt crypto _ hdr body) as [crypto' [ct| |]]; [|done..].
  outcome_simpl.
  destruct (sample_of _ ct) as [sample| |]; outcome_simpl; [|done..].
  destruct (compute_mask crypto' sample) as [mask| |]; outcome_simpl;
    [|done..].
  by destruct (apply_mask mask b1).
Qed.

(** With the logger off, or set to a level below debug, nothing is
    logged. *)
Lemma build_logged_off max crypto b :
  enabled max LDebug = false → (build_logged max crypto b).2 = [].
Proof.
  intros Hd. unfold build_logged.
  destruct (_ ≫= _) as [[[b1 hdr] body]| |]; [|done..].
  destruct (encrypt crypto _ hdr body) as [crypto' sealed].
  unfold log_build, log_mask, log_built.
  destruct (_ ≫= _) as [[ct mask]| |];
    rewrite ?qdebug_off, ?qtrace_off by done; [|done..].
  destruct (_ ≫= _); by rewrite ?qdebug_off by done.
Qed.

End logged.

Section numbered.
Context {St : Type} `{CryptoDxLaws St}.
Implicit Types (crypto : St) (b : PacketBuilder) (max : option Level)
  (hdr : list Z).

(** The log of [build] on a numbered builder, once the provider has
    answered the encryption: the record written before the encryption,
    and after a mask has been computed the mask and the packet. *)
Definition build_log max b hdr (crypto : St) (sealed : Res (list Z))
  : list log_record :=
  log_build max (builder_pn b) hdr (body_bytes b)
  ++ match (ct ← sealed;
            sample ← sample_of (pn_len b) ct;
            mask ← compute_mask crypto sample;
            Ok (ct, mask)) with
     | Ok (ct, mask) =>
         log_mask max mask
         ++ log_built max
              (prefix_bytes b
               ++ protect mask (first_byte_mask (offsets b)) (pn_len b) hdr
               ++ ct)
     | _ => []
     end.

(** [build] with its log on a numbered builder, every branch. *)
Lemma build_logged_numbered max crypto b :
  numbered b →
  let hdr := header_bytes (with_len (expansion crypto) b) in
  let r := encrypt crypto (builder_pn b) hdr (body_bytes b) in
  build_logged max crypto b
  = (r.1, seal r.1 b hdr r.2, build_log max b hdr r.1 r.2).
Proof.
  intros Hn hdr r.
  destruct (with_len_fields (expansion crypto) b) as (Hh & Ho & Hp).
  unfold build_logged, build_log. rewrite prepared_numbered by done.
  rewrite Hp. fold hdr r. destruct r as [crypto' [ct|err|]]; cbn [fst snd];
    outcome_simpl; rewrite ?app_nil_r; [|done..].
  fold (pn_len (with_len (expansion crypto) b)).
  replace (pn_len (with_len (expansion crypto) b)) with (pn_len b)
    by (unfold pn_len; by rewrite Ho).
  unfold seal. outcome_simpl.
  destruct (sample_of (pn_len b) ct) as [sample| |]; outcome_simpl;
    rewrite ?app_nil_r; [|done..].
  destruct (compute_mask crypto' sample) as [mask| |] eqn:Hmask;
    outcome_simpl; rewrite ?app_nil_r; [|done..].
  apply compute_mask_length in Hmask.
  rewrite finished_numbered by done. by rewrite <- app_assoc.
Qed.

(** C31: the plaintext is in the log.  [build] with its three log
    statements returns what [build] without them returns, and at the
    level debug it writes the packet number, the header and the body to
    the log before it calls the provider: whatever the provider
    answers, and whether a packet is built or not, the first record of
    the log holds the payload in clear. *)
Theorem build_logged_plaintext max crypto b :
  numbered b → enabled max LDebug = true →
  (build_logged max crypto b).1 = build crypto b ∧
  (build_logged max crypto b).2 !! 0%nat
  = Some (mkLog LDebug "Build pn={} hdr={} body={}"
            [Display (builder_pn b);
             Hex (header_bytes (with_len (expansion crypto) b));
             Hex (body_bytes b)]).
Proof.
  intros Hn Hd. split; [apply build_logged_build|].
  rewrite build_logged_numbered by done. cbn [snd].
  unfold build_log, log_build, qdebug. by rewrite Hd.
Qed.

(** The log of a packet that is built, with every level shown: the
    packet number, header and body in clear; the mask of header
    protection; the packet. *)
Theorem build_logged_Ok crypto b crypto' ct sample mask :
  numbered b →
  let hdr := header_bytes (with_len (expansion crypto) b) in
  let pkt := prefix_bytes b
             ++ protect mask (first_byte_mask (offsets b)) (pn_len b) hdr
             ++ ct in
  encrypt crypto (builder_pn b) hdr (body_bytes b) = (crypto', Ok ct) →
  sample_of (pn_len b) ct = Ok sample →
  compute_mask crypto' sample = Ok mask →
  build_logged (Some LTrace) crypto b
  = (crypto', Ok pkt,
     [mkLog LDebug "Build pn={} hdr={} body={}"
        [Display (builder_pn b); Hex hdr; Hex (body_bytes b)];
      mkLog LTrace "mask={}" [Hex mask];
      mkLog LDebug "Built {}" [Hex pkt]]).
Proof.
  intros Hn hdr pkt Henc Hs Hm. rewrite build_logged_numbered by done.
  fold hdr. rewrite Henc. cbn [fst snd]. unfold seal, build_log.
  outcome_simpl. rewrite Hs. outcome_simpl. by rewrite Hm.
Qed.

End numbered.

(** ** The theorems at the packet of the test [build_short] *)

Lemma build_logged_build_example :
  (build_logged (Some LTrace) (mkTestDx 0 16) ex_short).1
  = build (mkTestDx 0 16) ex_short.
Proof. exact (build_logged_build (Some LTrace) (mkTestDx 0 16) ex_short). Qed.

(** The payload of the test, three zero bytes, is in the log in clear,
    also with a provider that refuses the packet. *)
Lemma build_logged_plaintext_witness :
  (build_logged (Some LDebug) (mkTestDx 1 16) ex_short).1
  = build (mkTestDx 1 16) ex_short ∧
  (build_logged (Some LDebug) (mkTestDx 1 16) ex_short).2 !! 0%nat
  = Some (mkLog LDebug "Build pn={} hdr={} body={}"
            [Display (builder_pn ex_short);
             Hex (header_bytes (with_len (expansion (mkTestDx 1 16)) ex_short));
             Hex (body_bytes ex_short)]).
Proof.
  exact (build_logged_plaintext (Some LDebug) (mkTestDx 1 16) ex_short
           ex_short_numbered eq_refl).
Defined.

Lemma build_logged_refused_example :
  build_logged (Some LDebug) (mkTestDx 1 16) ex_short
  = (mkTestDx 1 16, Err (CryptoError 1),
     [mkLog LDebug "Build pn={} hdr={} body={}"
        [Display 0; Hex (0x44 :: SERVER_CID ++ [0]); Hex [0; 0; 0]]]).
Proof. by vm_compute. Qed.

Lemma build_logged_Ok_witness :
  let hdr := header_bytes (with_len (expansion (mkTestDx 0 16)) ex_short) in
  let pkt := prefix_bytes ex_short
             ++ protect (replicate 5 182) (first_byte_mask (offsets ex_short))
                  (pn_len ex_short) hdr
             ++ ex_short_ct in
  build_logged (Some LTrace) (mkTestDx 0 16) ex_short
  = (mkTestDx 1 16, Ok pkt,
     [mkLog LDebug "Build pn={} hdr={} body={}"
        [Display (builder_pn ex_short); Hex hdr; Hex (body_bytes ex_short)];
      mkLog LTrace "mask={}" [Hex (replicate 5 182)];
      mkLog LDebug "Built {}" [Hex pkt]]).
Proof.
  exact (build_logged_Ok (mkTestDx 0 16) ex_short (mkTestDx 1 16) ex_short_ct
           (replicate 16 19) (replicate 5 182) ex_short_numbered
           eq_refl eq_refl eq_refl).
Defined.

(** At the level info the log is empty. *)
Lemma build_logged_off_example :
  (build_logged (Some LInfo) (mkTestDx 0 16) ex_short).2 = [].
Proof. by vm_compute. Qed.
