(* ===== verification/Lifecycle.v ===== *)
(** * The life of a builder

    A builder is created by [short] or [long], receives calls
    ([initial_token], [pn], payload through [DerefMut]) and ends in [build]
    or [abort].  This file models the caller's side of that protocol: the
    calls as data, a run of calls as a fold, the disciplined order as a
    step relation with the phase of the builder, and a datagram as a
    sequence of packets built into one buffer with one provider.

    Two families of theorems: what holds for every sequence of calls, in
    any order (the bytes of earlier packets are never touched, [abort]
    gives the buffer back); and what holds when the calls come in the
    documented order (the invariant [wf] and the bounds of the
    specification). *)

From Stdlib Require Import ZArith Lia.
From stdpp Require Import base option list numbers.
From S2P Require Import Prelude Encoder PacketType Crypto Builder Protection.

#[local] Open Scope Z_scope.

(** ** Calls *)

(** How a packet is started. *)
Inductive opening : Set :=
| StartShort (key_phase : bool) (dcid : ConnectionId)
| StartLong (pt : PacketType) (dcid scid : ConnectionId).

(** A call on a builder in progress. *)
Inductive call : Set :=
| InitialToken (token : list Z)
| Pn (v : PacketNumber) (l : nat)
| Encode (bytes : list Z).

#[export] Instance opening_eq_dec : EqDecision opening.
Proof. solve_decision. Defined.

#[export] Instance call_eq_dec : EqDecision call.
Proof. solve_decision. Defined.

Definition open_builder (e : Encoder) (o : opening) : Res PacketBuilder :=
  match o with
  | StartShort key_phase dcid => Ok (short e key_phase dcid)
  | StartLong pt dcid scid => long e pt dcid scid
  end.

Definition do_call (b : PacketBuilder) (c : call) : Res PacketBuilder :=
  match c with
  | InitialToken token => initial_token token b
  | Pn v l => pn v l b
  | Encode bytes => Ok (payload bytes b)
  end.

(** The calls in sequence; the first failure ends the run. *)
Definition run (b : PacketBuilder) (cs : list call) : Res PacketBuilder :=
  for_each do_call b cs.

(** The payload of a run: the bytes of its [Encode] calls, in order. *)
Definition payload_of (cs : list call) : list Z :=
  cs ≫= λ c, match c with Encode bytes => bytes | _ => [] end.

(** The bytes a caller passes in are bytes. *)
Definition opening_ok (o : opening) : Prop :=
  match o with
  | StartShort _ dcid => bytes_ok dcid
  | StartLong _ dcid scid => bytes_ok dcid ∧ bytes_ok scid
  end.

Definition call_ok (c : call) : Prop :=
  match c with
  | InitialToken token => bytes_ok token
  | Pn _ _ => True
  | Encode bytes => bytes_ok bytes
  end.

#[export] Instance opening_ok_dec o : Decision (opening_ok o).
Proof. destruct o; apply _. Defined.

#[export] Instance call_ok_dec c : Decision (call_ok c).
Proof. destruct c; apply _. Defined.

(** ** What every sequence of calls preserves *)

(** The builder works on the buffer [e] it was given: its header starts
    where [e] ended, [e] is still there, and whatever offsets it has
    recorded lie after it. *)
Record framed (e : Encoder) (b : PacketBuilder) : Prop := {
  framed_start : start (header b) = length e;
  framed_prefix : take (length e) (encoder b) = e;
  framed_first : (length e < length (encoder b))%nat;
  framed_end : (length e ≤ end_ (header b))%nat;
  framed_len :
    (offsets_len (offsets b) = 0 ∨ length e < offsets_len (offsets b))%nat;
  framed_pn :
    (range_len (offsets_pn (offsets b)) = 0 ∨
     length e < start (offsets_pn (offsets b)))%nat;
}.

Section framed.
Implicit Types (e : Encoder) (b : PacketBuilder) (c : call) (cs : list call).

Lemma framed_app e b k :
  framed e b → framed e (set_encoder (encoder b ++ k) b).
Proof.
  intros [? ? ? ? ? ?]. split; simpl; try done.
  - by rewrite take_app_le by lia.
  - len.
Qed.

Lemma open_builder_framed e o b : open_builder e o = Ok b → framed e b.
Proof.
  destruct o as [kp dcid|pt dcid scid]; simpl.
  - intros [= <-]. split; simpl; try done; try (by left).
    + unfold encode, encode_byte. by rewrite <- app_assoc, take_app_length.
    + len.
  - intros Hb. destruct (code (E:=Error) pt) as [c| |] eqn:Hc;
      [|by destruct pt..].
    rewrite (long_Ok _ _ _ _ _ Hc) in Hb. injection Hb as <-.
    split; simpl; try done; try (by left).
    + by rewrite take_app_length.
    + len.
Qed.

Lemma pn_result_framed e v l first b :
  framed e b → framed e (pn_result v l first b).
Proof.
  intros [Hs Hp Hf He Hl Hn]. unfold pn_result. split; simpl.
  - done.
  - rewrite take_insert_ge by lia. by rewrite !take_app_le by len.
  - len.
  - len.
  - case_decide; [right; lia|done].
  - right. len.
Qed.

Lemma do_call_framed e b c b' : framed e b → do_call b c = Ok b' → framed e b'.
Proof.
  intros Hf. destruct c as [token|v l|bytes]; simpl.
  - intros (first & _ & _ & _ & ->)%initial_token_inv. by apply framed_app.
  - intros (first & _ & _ & ->)%pn_inv. by apply pn_result_framed.
  - intros [= <-]. by apply framed_app.
Qed.

Lemma run_framed e b cs b' : framed e b → run b cs = Ok b' → framed e b'.
Proof.
  apply (for_each_ind (framed e) do_call cs). intros. by eapply do_call_framed.
Qed.

End framed.

(** ** The documented order of calls *)

(** The phase of a builder in progress: the header is still open, or the
    packet number has been fixed. *)
Inductive phase : Set := HeaderOpen | PnFixed.

#[export] Instance phase_eq_dec : EqDecision phase.
Proof. solve_decision. Defined.

Definition state : Set := phase * PacketBuilder.

(** One call in the documented order: the token and the packet number while
    the header is open, payload once the packet number is fixed.  A call
    that fails takes no step. *)
Inductive step : state → call → state → Prop :=
| step_token b b' token :
    initial_token token b = Ok b' →
    step (HeaderOpen, b) (InitialToken token) (HeaderOpen, b')
| step_pn b b' v l :
    pn v l b = Ok b' → step (HeaderOpen, b) (Pn v l) (PnFixed, b')
| step_encode b bytes :
    step (PnFixed, b) (Encode bytes) (PnFixed, payload bytes b).

Inductive steps : state → list call → state → Prop :=
| steps_nil s : steps s [] s
| steps_cons s c s' cs s'' :
    step s c s' → steps s' cs s'' → steps s (c :: cs) s''.

(** The same order as a function on phases. *)
Definition next_phase (ph : phase) (c : call) : option phase :=
  match ph, c with
  | HeaderOpen, InitialToken _ => Some HeaderOpen
  | HeaderOpen, Pn _ _ => Some PnFixed
  | PnFixed, Encode _ => Some PnFixed
  | _, _ => None
  end.

Fixpoint phase_after (ph : phase) (cs : list call) : option phase :=
  match cs with
  | [] => Some ph
  | c :: cs => ph' ← next_phase ph c; phase_after ph' cs
  end.

(** What is known of the builder in each phase. *)
Definition phase_inv (s : state) : Prop :=
  match s.1 with
  | HeaderOpen => opened s.2
  | PnFixed => numbered s.2
  end.

Section protocol.
Implicit Types (e : Encoder) (b : PacketBuilder) (c : call) (cs : list call)
  (s : state) (ph : phase).

Lemma step_run s c s' :
  step s c s' ↔ do_call s.2 c = Ok s'.2 ∧ next_phase s.1 c = Some s'.1.
Proof.
  split.
  - by destruct 1.
  - destruct s as [[] b], s' as [ph' b'], c; simpl; intros [Hc [= <-]];
      try constructor; try done.
    injection Hc as <-. constructor.
Qed.

Lemma steps_app s cs s' cs' s'' :
  steps s cs s' → steps s' cs' s'' → steps s (cs ++ cs') s''.
Proof. induction 1; simpl; [done|]. intros. econstructor; eauto. Qed.

Lemma step_phase_inv s c s' :
  call_ok c → phase_inv s → step s c s' → phase_inv s'.
Proof.
  intros Hc Hi Hs. destruct Hs; unfold phase_inv in *; simpl in *.
  - by eapply initial_token_opened.
  - by eapply pn_numbered.
  - by apply numbered_app.
Qed.

Lemma steps_phase_inv s cs s' :
  Forall call_ok cs → phase_inv s → steps s cs s' → phase_inv s'.
Proof.
  intros Hcs Hi Hs. induction Hs as [|s c s1 cs s2 H1 _ IH]; [done|].
  inversion_clear Hcs. eauto using step_phase_inv.
Qed.

Lemma open_builder_opened e o b :
  bytes_ok e → opening_ok o → open_builder e o = Ok b → opened b.
Proof.
  intros He Ho. destruct o as [kp dcid|pt dcid scid]; simpl in *.
  - intros [= <-]. by apply short_opened.
  - destruct Ho. by apply long_opened.
Qed.

Lemma steps_run_Ok s cs s' : steps s cs s' → run s.2 cs = Ok s'.2.
Proof.
  induction 1 as [|s c s1 cs s2 [H1 _]%step_run _ IH]; [done|].
  unfold run in *. simpl. by rewrite H1.
Qed.

Lemma phase_inv_wf s : phase_inv s → wf s.2.
Proof. destruct s as [[] b]; [by left|by right]. Qed.

Lemma steps_phase_after s cs s' : steps s cs s' → phase_after s.1 cs = Some s'.1.
Proof.
  induction 1 as [|s c s1 cs s2 [_ H1]%step_run _ IH]; [done|].
  simpl. by rewrite H1.
Qed.

Lemma run_steps ph b cs ph' b' :
  run b cs = Ok b' → phase_after ph cs = Some ph' →
  steps (ph, b) cs (ph', b').
Proof.
  revert ph b. induction cs as [|c cs IH]; intros ph b; unfold run; simpl.
  - intros [= <-] [= <-]. constructor.
  - intros (b1 & H1 & Hr)%bind_Ok Hp.
    destruct (next_phase ph c) as [ph1|] eqn:Hn; [|done].
    apply (steps_cons _ _ (ph1, b1)); [by apply step_run|by apply IH].
Qed.

(** The state a builder started in the documented way is in. *)
Lemma started_phase_inv e o cs b s :
  bytes_ok e → opening_ok o → Forall call_ok cs →
  open_builder e o = Ok b → steps (HeaderOpen, b) cs s → phase_inv s.
Proof.
  intros He Ho Hcs Hb Hs.
  eapply steps_phase_inv; [done| |done]. by eapply open_builder_opened.
Qed.

(** A packet whose calls came in the documented order up to the packet
    number is numbered when it is built. *)
Lemma built_numbered e o cs b0 b :
  bytes_ok e → opening_ok o → Forall call_ok cs →
  open_builder e o = Ok b0 → run b0 cs = Ok b →
  phase_after HeaderOpen cs = Some PnFixed → numbered b.
Proof.
  intros He Ho Hcs Hb0 Hr Hp.
  apply (started_phase_inv e o cs b0 (PnFixed, b)); try done.
  by apply run_steps.
Qed.

(** Appending to a well-formed builder keeps it empty only when nothing
    is appended. *)
Lemma is_empty_payload b k :
  wf b → is_empty (payload k b) = true ↔ is_empty b = true ∧ k = [].
Proof.
  intros Hwf%wf_header_bounds. unfold is_empty, payload, deref_mut, encode.
  cbn [encoder header set_encoder]. rewrite !bool_decide_eq_true, length_app.
  destruct k; simpl; [rewrite Nat.add_0_r; naive_solver|].
  split; [lia|by intros [_ ?]].
Qed.

Lemma pn_is_empty v l b b' : pn v l b = Ok b' → is_empty b' = true.
Proof.
  intros (first & _ & _ & ->)%pn_inv. apply bool_decide_eq_true_2.
  unfold pn_result. simpl. by rewrite length_insert.
Qed.

(** Once the packet number is fixed only payload follows. *)
Lemma steps_fixed_is_empty b cs s :
  Forall call_ok cs → numbered b → steps (PnFixed, b) cs s →
  s.1 = PnFixed ∧
  (is_empty s.2 = true ↔ is_empty b = true ∧ payload_of cs = []).
Proof.
  intros Hcs Hn Hs. remember (PnFixed, b) as s0 eqn:Hs0.
  revert b Hn Hs0. induction Hs as [|s0 c s1 cs s2 H1 _ IH]; intros b Hn ->.
  - simpl. naive_solver.
  - inversion Hcs as [|? ? Hc Hcs']. subst. inversion H1. subst.
    destruct (IH Hcs' (payload bytes b)) as [Hp Hi];
      [by apply numbered_app|done|].
    split; [done|]. rewrite Hi, is_empty_payload by (by right).
    unfold payload_of. simpl. fold (payload_of cs).
    rewrite app_nil. naive_solver.
Qed.

End protocol.

(** ** Packets and datagrams *)

(** A packet as the caller describes it: how it starts and the calls that
    follow, ending in [build]. *)
Record packet : Set := mkPacket {
  pkt_open : opening;
  pkt_calls : list call;
}.

Section datagram.
Context {St : Type} `{CryptoDx St}.
Implicit Types (crypto : St) (e : Encoder) (p : packet) (ps : list packet).

(** One packet built at the end of the buffer [e]. *)
Definition build_packet crypto e p : St * Res Encoder :=
  match b ← open_builder e (pkt_open p); run b (pkt_calls p) with
  | Ok b => build crypto b
  | Err err => (crypto, Err err)
  | Panic => (crypto, Panic)
  end.

(** Packets coalesced into one buffer, each built where the last ended,
    with the provider's state threaded through; the first failure ends the
    datagram. *)
Fixpoint build_datagram crypto e ps : St * Res Encoder :=
  match ps with
  | [] => (crypto, Ok e)
  | p :: ps =>
      match build_packet crypto e p with
      | (crypto, Ok e) => build_datagram crypto e ps
      | failed => failed
      end
  end.

Lemma build_packet_inv crypto e p crypto' e' :
  build_packet crypto e p = (crypto', Ok e') →
  ∃ b0 b, open_builder e (pkt_open p) = Ok b0 ∧ run b0 (pkt_calls p) = Ok b ∧
          build crypto b = (crypto', Ok e').
Proof.
  unfold build_packet. intros Hb.
  destruct (open_builder e (pkt_open p)) as [b0| |]; outcome_simpl in Hb;
    [|done..].
  destruct (run b0 (pkt_calls p)) as [b| |] eqn:Hr; [|done..].
  by exists b0, b.
Qed.

Lemma framed_build_take crypto e b crypto' e' :
  framed e b → build crypto b = (crypto', Ok e') → take (length e) e' = e.
Proof.
  intros [Hs Hp Hf He Hl Hn] Hb. rewrite <- Hp at 2.
  eapply build_take; [done|lia..].
Qed.

Lemma build_packet_take crypto e p crypto' e' :
  build_packet crypto e p = (crypto', Ok e') → take (length e) e' = e.
Proof.
  intros (b0 & b & Ho & Hr & Hb)%build_packet_inv.
  eapply framed_build_take; [|done].
  eauto using run_framed, open_builder_framed.
Qed.

Lemma build_datagram_app crypto e ps qs :
  build_datagram crypto e (ps ++ qs)
  = match build_datagram crypto e ps with
    | (crypto, Ok e) => build_datagram crypto e qs
    | failed => failed
    end.
Proof.
  revert crypto e. induction ps as [|p ps IH]; intros crypto e; simpl.
  - done.
  - destruct (build_packet crypto e p) as [c [e1| |]]; auto.
Qed.

Lemma build_datagram_take crypto e ps crypto' e' :
  build_datagram crypto e ps = (crypto', Ok e') → take (length e) e' = e.
Proof.
  revert crypto e. induction ps as [|p ps IH]; intros crypto e; simpl.
  - intros [= _ <-]. apply take_ge. lia.
  - destruct (build_packet crypto e p) as [c [e1| |]] eqn:Hp; [|done..].
    intros He'. apply build_packet_take in Hp. apply IH in He'.
    transitivity (take (length e) e1); [|done].
    rewrite <- He' at 1. rewrite take_take. f_equal.
    apply (f_equal length) in Hp. revert Hp. len.
Qed.

End datagram.

(** ** Theorems *)

Section lifecycle_properties.
Context {St : Type} `{CryptoDx St}.
Implicit Types (crypto : St) (e : Encoder) (b : PacketBuilder) (c : call)
  (cs : list call) (s : state) (o : opening) (ps : list packet).

(** C18: [abort] gives the buffer back (packet2.rs lines 208-211).  However
    the packet was started and whatever calls were made on the builder, in
    any order, [abort] returns exactly the buffer that [short] or [long]
    received: same length, same bytes. *)
Theorem abort_restores e o cs b b' :
  open_builder e o = Ok b → run b cs = Ok b' → abort b' = e.
Proof.
  intros Ho%open_builder_framed Hr. pose proof (run_framed _ _ _ _ Ho Hr) as Hf.
  unfold abort, truncate. rewrite (framed_start _ _ Hf).
  apply (framed_prefix _ _ Hf).
Qed.

(** Coalescing.  When several packets are built into one buffer, one
    after the other with the same provider, the datagram after the first
    packets is a prefix of the datagram after all of them: building a
    later packet never changes a byte of an earlier one.  This holds for
    every provider and every sequence of calls on each builder. *)
Theorem build_datagram_prefix crypto e ps qs crypto2 e2 :
  build_datagram crypto e (ps ++ qs) = (crypto2, Ok e2) →
  ∃ crypto1 e1, build_datagram crypto e ps = (crypto1, Ok e1) ∧
                build_datagram crypto1 e1 qs = (crypto2, Ok e2) ∧
                take (length e1) e2 = e1 ∧ take (length e) e1 = e.
Proof.
  rewrite build_datagram_app.
  destruct (build_datagram crypto e ps) as [crypto1 [e1| |]] eqn:H1;
    [|done..].
  intros H2. exists crypto1, e1.
  split; [done|]. split; [done|]. split; by eapply build_datagram_take.
Qed.

(** C38: [is_empty] over the life of a builder (packet2.rs line 216).
    After calls in the documented order, [is_empty] is true exactly when
    [pn] has been called and the [Encode] calls since have added no byte.
    In particular it is false while the header is open, although nothing
    but the fixed header has been written: [header.end] stays at
    [header.start] until [pn], so the fixed header counts as content. *)
Theorem steps_is_empty e o cs b s :
  bytes_ok e → opening_ok o → Forall call_ok cs →
  open_builder e o = Ok b → steps (HeaderOpen, b) cs s →
  is_empty s.2 = true ↔ s.1 = PnFixed ∧ payload_of cs = [].
Proof.
  intros He Ho Hcs Hb Hs.
  assert (opened b) as Hop by (by eapply open_builder_opened).
  clear He Ho Hb. remember (HeaderOpen, b) as s0 eqn:Hs0.
  revert b Hop Hs0. induction Hs as [|s0 c s1 cs s2 H1 H2 IH]; intros b Hop ->.
  - simpl. rewrite is_empty_opened by done. naive_solver.
  - inversion Hcs as [|? ? Hc Hcs']. subst. inversion H1; subst.
    + apply (IH Hcs' b'); [by eapply initial_token_opened|done].
    + destruct (steps_fixed_is_empty b' cs s2) as [-> ->];
        [done|by eapply pn_numbered|done|].
      rewrite (pn_is_empty v l b b') by done. naive_solver.
Qed.

(** A length placeholder is recorded ([offsets.len > 0]) exactly when
    the header is long and [pn] has been called. *)
Theorem steps_placeholder e o cs b s :
  bytes_ok e → opening_ok o → Forall call_ok cs →
  open_builder e o = Ok b → steps (HeaderOpen, b) cs s →
  (0 < offsets_len (offsets s.2))%nat ↔ s.1 = PnFixed ∧ is_long s.2.
Proof.
  intros He Ho Hcs Hb Hs.
  assert (phase_inv s) as Hi by (by eapply started_phase_inv).
  destruct s as [[] b']; unfold phase_inv in Hi; simpl in *.
  - rewrite (opened_len _ Hi). split; [lia|by intros [? _]].
  - pose proof (numbered_len _ Hi) as Hl.
    destruct (decide (is_long b')); [split; [done|lia]|].
    rewrite Hl. split; [lia|by intros [_ ?]].
Qed.

(** The packet-number field.  Once [pn] has been called in the
    documented order, the recorded packet-number range has one to four
    bytes, ends where the header ends, and its length less one is in the
    two low bits of the first byte of the header. *)
Theorem steps_pn_field e o cs b b' :
  bytes_ok e → opening_ok o → Forall call_ok cs →
  open_builder e o = Ok b → steps (HeaderOpen, b) cs (PnFixed, b') →
  (1 ≤ pn_len b' ≤ 4)%nat ∧
  end_ (offsets_pn (offsets b')) = end_ (header b') ∧
  ∃ first, first_byte b' = Some first ∧
           Z.land first 0x03 = Z.of_nat (pn_len b') - 1.
Proof.
  intros He Ho Hcs Hb Hs.
  assert (phase_inv (PnFixed, b')) as Hi by (by eapply started_phase_inv).
  unfold phase_inv in Hi. simpl in Hi.
  pose proof (numbered_pn_len _ Hi) as Hl.
  destruct (numbered_first _ Hi) as (first & Hf & Hlow).
  split; [done|]. split; [apply Hi|]. exists first. split; [done|].
  rewrite Hlow. unfold pn_len. lia.
Qed.

(** C20: the invariants of the specification.  After any calls made in
    the documented order on a builder started from a buffer of bytes
    with arguments that are bytes: the builder is well formed, the
    buffer holds bytes and [header.start <= header.end <= len]; a length
    placeholder is recorded ([offsets.len > 0]) exactly when the header
    is long and [pn] has been called; and once [pn] has been called the
    packet-number field has one to four bytes, ends where the header
    ends, and its length less one is in the two low bits of the first
    byte. *)
Theorem steps_wf e o cs b s :
  bytes_ok e → opening_ok o → Forall call_ok cs →
  open_builder e o = Ok b → steps (HeaderOpen, b) cs s →
  wf s.2 ∧ bytes_ok (encoder s.2) ∧
  (start (header s.2) ≤ end_ (header s.2) ≤ length (encoder s.2))%nat ∧
  ((0 < offsets_len (offsets s.2))%nat ↔ s.1 = PnFixed ∧ is_long s.2) ∧
  (s.1 = PnFixed →
   (1 ≤ pn_len s.2 ≤ 4)%nat ∧
   end_ (offsets_pn (offsets s.2)) = end_ (header s.2) ∧
   ∃ first, first_byte s.2 = Some first ∧
            Z.land first 0x03 = Z.of_nat (pn_len s.2) - 1).
Proof.
  intros He Ho Hcs Hb Hs.
  assert (wf s.2) as Hwf by (by eapply phase_inv_wf, started_phase_inv).
  split; [done|]. split; [by apply wf_bytes_ok|].
  split; [by apply wf_header_bounds|].
  split; [by eapply steps_placeholder|].
  destruct s as [ph b']. cbn [fst snd]. intros ->.
  by eapply steps_pn_field.
Qed.

(** The step relation and the executable run agree.  A sequence of
    calls is a sequence of steps from one phase to another exactly when
    running the calls succeeds and the calls come in the documented
    order. *)
Theorem steps_run ph b cs ph' b' :
  steps (ph, b) cs (ph', b') ↔
  run b cs = Ok b' ∧ phase_after ph cs = Some ph'.
Proof.
  split.
  - intros Hs. split.
    + apply (steps_run_Ok _ _ _ Hs).
    + apply (steps_phase_after _ _ _ Hs).
  - intros [Hr Hp]. by apply run_steps.
Qed.

End lifecycle_properties.

(** ** The scenarios of the tests *)

(** The packet of the test [build_short]. *)
Definition pkt_build_short : packet :=
  mkPacket (StartShort true SERVER_CID) [Pn 0 1; Encode [0; 0; 0]].

(** The two packets of the test [build_two]. *)
Definition pkt_two_first : packet :=
  mkPacket (StartLong Handshake SERVER_CID CLIENT_CID)
    [Pn 0 1; Encode [0; 0; 0]].
Definition pkt_two_second : packet :=
  mkPacket (StartShort false SERVER_CID) [Pn 1 3; Encode [0]].

(** The calls of the test [build_abort]. *)
Definition calls_build_abort : list call := [InitialToken []; Pn 1 2].

Section tests.
Context {St : Type} `{CryptoDxLaws St}.
Implicit Types (crypto : St) (e : Encoder) (p : packet).

Lemma build_packet_expansion crypto e p :
  expansion (build_packet crypto e p).1 = expansion crypto.
Proof.
  unfold build_packet. destruct (_ ≫= _); [|done..]. apply build_expansion.
Qed.

Lemma pkt_two_first_length crypto e crypto' e' :
  build_packet crypto e pkt_two_first = (crypto', Ok e') →
  length e' = (length e + 29 + expansion crypto)%nat.
Proof.
  intros (b0 & b & Ho & Hr & Hb)%build_packet_inv. simpl in Ho.
  rewrite (long_Ok _ _ _ _ 2) in Ho by done. injection Ho as <-.
  unfold run in Hr. simpl in Hr.
  erewrite pn_Ok in Hr; [|by apply list_lookup_middle|lia].
  injection Hr as <-. rewrite (build_length _ _ _ _ Hb). simpl. len.
  change (length (placeholder _)) with 2%nat. simpl. lia.
Qed.

Lemma pkt_two_second_length crypto e crypto' e' :
  build_packet crypto e pkt_two_second = (crypto', Ok e') →
  length e' = (length e + 13 + expansion crypto)%nat.
Proof.
  intros (b0 & b & Ho & Hr & Hb)%build_packet_inv. simpl in Ho.
  injection Ho as <-. unfold run in Hr. simpl in Hr.
  erewrite pn_Ok in Hr; [|by apply short_first_byte|lia].
  injection Hr as <-. rewrite (build_length _ _ _ _ Hb). simpl. len.
  change (length (placeholder _)) with 0%nat. simpl. lia.
Qed.

(** The test [build_two], for every provider that keeps its laws and
    has a 16-byte tag: when a Handshake packet and then a short packet are
    built into one buffer, the first packet has 45 bytes, the datagram has
    45 + 29, and the first packet is a prefix of the datagram. *)
Theorem build_two crypto crypto' e :
  expansion crypto = 16%nat →
  build_datagram crypto [] [pkt_two_first; pkt_two_second] = (crypto', Ok e) →
  ∃ crypto1 first,
    build_packet crypto [] pkt_two_first = (crypto1, Ok first) ∧
    length first = 45%nat ∧ take (length first) e = first ∧
    length e = (45 + 29)%nat.
Proof.
  intros Hx. simpl.
  destruct (build_packet crypto [] pkt_two_first) as [crypto1 [first| |]]
    eqn:H1; [|done..].
  destruct (build_packet crypto1 first pkt_two_second) as [crypto2 [e2| |]]
    eqn:H2; [|done..].
  intros [= -> ->]. exists crypto1, first.
  pose proof (build_packet_expansion crypto [] pkt_two_first) as Hx1.
  rewrite H1 in Hx1. simpl in Hx1.
  pose proof (pkt_two_first_length _ _ _ _ H1) as Hl1.
  pose proof (pkt_two_second_length _ _ _ _ H2) as Hl2.
  split; [done|]. split; [simpl in Hl1; lia|].
  split; [by eapply build_packet_take|]. simpl in Hl1. lia.
Qed.

End tests.

(** ** Calls outside the documented order *)

(** [pn] may be called twice; nothing rejects the second call.  The
    lengths are ored into the first byte, so after [pn(0, 2)] and
    [pn(0, 3)] the low bits of the first byte announce a packet number of
    four bytes while the recorded field has three: the builder is no longer
    well formed. *)
Theorem pn_twice_not_wf :
  ∃ b, run (short [] false SERVER_CID) [Pn 0 2; Pn 0 3] = Ok b ∧
       first_byte b = Some 0x43 ∧ pn_len b = 3%nat ∧ ¬ wf b.
Proof.
  eexists. split; [reflexivity|]. split; [done|]. split; [done|].
  intros [Ho|Hn].
  - by pose proof (opened_pn _ Ho).
  - destruct (numbered_first _ Hn) as (first & [= <-] & Hlow). done.
Qed.

(** Through [DerefMut] the caller reaches [Encoder::truncate], which
    can cut the buffer below the end of the header; [build] then panics on
    the slice of the header, whatever the provider. *)
Theorem truncate_breaks_build {St : Type} `{CryptoDx St} (crypto : St) :
  ∃ b, run (short [] true SERVER_CID) [Pn 0 1; Encode [0; 0; 0]] = Ok b ∧
       wf b ∧ ¬ wf (deref_mut (truncate 0) b) ∧
       build crypto (deref_mut (truncate 0) b) = (crypto, Panic).
Proof.
  exists ex_short. split; [done|]. split; [right; apply ex_short_numbered|].
  split; [|done]. intros Hwf%wf_header_bounds. simpl in Hwf. lia.
Qed.

(** ** The theorems at the scenarios of the tests *)

(** The test [build_abort]. *)
Lemma abort_restores_witness : abort ex_initial = [].
Proof.
  exact (abort_restores [] (StartLong Initial [] SERVER_CID)
           calls_build_abort _ ex_initial eq_refl eq_refl).
Defined.

Definition ex_two : list Z := Eval vm_compute in
  match build_datagram (mkTestDx 0 16) [] [pkt_two_first; pkt_two_second] with
  | (_, Ok e) => e
  | _ => []
  end.

Lemma build_datagram_prefix_witness :
  ∃ crypto1 e1,
    build_datagram (mkTestDx 0 16) [] [pkt_two_first] = (crypto1, Ok e1) ∧
    build_datagram crypto1 e1 [pkt_two_second] = (mkTestDx 2 16, Ok ex_two) ∧
    take (length e1) ex_two = e1 ∧ take (length (@nil Z)) e1 = [].
Proof.
  exact (build_datagram_prefix (mkTestDx 0 16) [] [pkt_two_first]
           [pkt_two_second] (mkTestDx 2 16) ex_two eq_refl).
Defined.

Lemma build_two_witness :
  ∃ crypto1 first,
    build_packet (mkTestDx 0 16) [] pkt_two_first = (crypto1, Ok first) ∧
    length first = 45%nat ∧ take (length first) ex_two = first ∧
    length ex_two = (45 + 29)%nat.
Proof.
  exact (build_two (mkTestDx 0 16) (mkTestDx 2 16) ex_two eq_refl eq_refl).
Defined.

Lemma ex_initial_steps :
  steps (HeaderOpen, mkBuilder (long_first 0 :: long_fields [] SERVER_CID)
                       u64_max (mkRange 0 0) (mkOffsets 0x0f 0 (mkRange 0 0)))
    (calls_build_abort ++ [Encode [6; 0; 5]]) (PnFixed, ex_initial_full).
Proof. by apply run_steps. Qed.

Lemma ex_initial_calls_ok :
  Forall call_ok (calls_build_abort ++ [Encode [6; 0; 5]]).
Proof. by apply (bool_decide_unpack _). Qed.

Lemma steps_wf_witness :
  wf ex_initial_full ∧ bytes_ok (encoder ex_initial_full) ∧
  (0 ≤ 20 ≤ 23)%nat ∧
  ((0 < 16)%nat ↔ PnFixed = PnFixed ∧ is_long ex_initial_full) ∧
  (PnFixed = PnFixed →
   (1 ≤ 2 ≤ 4)%nat ∧ 20%nat = 20%nat ∧
   ∃ first, first_byte ex_initial_full = Some first ∧
            Z.land first 0x03 = Z.of_nat 2 - 1).
Proof.
  exact (steps_wf [] (StartLong Initial [] SERVER_CID) _ _
           (PnFixed, ex_initial_full) (Forall_nil_2 _)
           (conj (Forall_nil_2 _) bytes_ok_SERVER_CID) ex_initial_calls_ok
           eq_refl ex_initial_steps).
Defined.

Lemma steps_is_empty_witness :
  is_empty ex_initial_full = true ↔
  PnFixed = PnFixed ∧ payload_of (calls_build_abort ++ [Encode [6; 0; 5]]) = [].
Proof.
  exact (steps_is_empty [] (StartLong Initial [] SERVER_CID) _ _
           (PnFixed, ex_initial_full) (Forall_nil_2 _)
           (conj (Forall_nil_2 _) bytes_ok_SERVER_CID) ex_initial_calls_ok
           eq_refl ex_initial_steps).
Defined.

Lemma steps_placeholder_witness :
  (0 < 16)%nat ↔ PnFixed = PnFixed ∧ is_long ex_initial_full.
Proof.
  exact (steps_placeholder [] (StartLong Initial [] SERVER_CID) _ _
           (PnFixed, ex_initial_full) (Forall_nil_2 _)
           (conj (Forall_nil_2 _) bytes_ok_SERVER_CID) ex_initial_calls_ok
           eq_refl ex_initial_steps).
Defined.

Lemma steps_pn_field_witness :
  (1 ≤ 2 ≤ 4)%nat ∧ 20%nat = 20%nat ∧
  ∃ first, first_byte ex_initial_full = Some first ∧
           Z.land first 0x03 = Z.of_nat 2 - 1.
Proof.
  exact (steps_pn_field [] (StartLong Initial [] SERVER_CID) _ _
           ex_initial_full (Forall_nil_2 _)
           (conj (Forall_nil_2 _) bytes_ok_SERVER_CID) ex_initial_calls_ok
           eq_refl ex_initial_steps).
Defined.
