(* ===== verification/Position.v ===== *)
(** * Position independence

    A builder works at the end of a buffer that may hold earlier packets
    of the datagram, and every offset it records is an offset into that
    buffer.  This file shows that the earlier bytes do not matter: a
    builder moved behind a prefix [e] ([shift e b]) goes through every
    operation as the builder [b] does, and what [build] returns is [e]
    followed by what it returns for [b].  Hence a datagram is the
    concatenation of its packets, each built as if alone. *)

From Stdlib Require Import ZArith Lia.
From stdpp Require Import base option list numbers.
From S2P Require Import Prelude Encoder PacketType Crypto Builder Protection Lifecycle.

#[local] Open Scope Z_scope.

(** ** A vector behind a prefix *)

Section vec_shift.
Context {E A : Type}.
Implicit Types (e l : list A) (i a b : nat).

Lemma index_app_r e l i : index (E:=E) (e ++ l) (length e + i) = index l i.
Proof. unfold index. by rewrite lookup_app_r, Nat.add_comm, Nat.add_sub by lia. Qed.

Lemma update_app_r (f : A → A) e l i :
  update (E:=E) f (length e + i) (e ++ l) = (e ++.) <$> update f i l.
Proof.
  unfold update. rewrite index_app_r. destruct (index l i); [|done..].
  outcome_simpl. f_equal. rewrite insert_app_r_alt by lia.
  by rewrite Nat.add_comm, Nat.add_sub.
Qed.

Lemma slice_app_r e l a b :
  slice (E:=E) (e ++ l) (length e + a) (length e + b) = slice l a b.
Proof.
  unfold slice. rewrite length_app.
  destruct (decide (a ≤ b ≤ length l)%nat).
  - rewrite decide_True by lia. f_equal.
    rewrite take_app_ge, drop_app_ge by lia. f_equal; [lia|f_equal; lia].
  - by rewrite decide_False by lia.
Qed.

Lemma slice_from_app_r e l a :
  slice_from (E:=E) (e ++ l) (length e + a) = slice_from l a.
Proof.
  unfold slice_from. rewrite length_app.
  destruct (decide (a ≤ length l)%nat).
  - rewrite decide_True by lia. f_equal. rewrite drop_app_ge by lia.
    f_equal. lia.
  - by rewrite decide_False by lia.
Qed.

End vec_shift.

(** ** Operations of the buffer that append *)

(** An operation of the buffer that only appends does the same behind a
    prefix. *)
Definition appends (f : Encoder → Res Encoder) : Prop :=
  ∀ e x, f (e ++ x) = (e ++.) <$> f x.

Lemma encode_uint_appends n v : appends (encode_uint n v).
Proof.
  intros e x. unfold encode_uint. destruct (_ && _); [|done].
  outcome_simpl. by rewrite app_assoc.
Qed.

Lemma encode_varint_appends v : appends (encode_varint v).
Proof.
  intros e x. unfold encode_varint.
  repeat case_decide; try apply encode_uint_appends. done.
Qed.

Lemma encode_vec_appends n v : appends (encode_vec n v).
Proof.
  intros e x. unfold encode_vec. rewrite encode_uint_appends.
  destruct (encode_uint n _ x); [|done..]. outcome_simpl.
  unfold encode. by rewrite app_assoc.
Qed.

Lemma encode_vvec_appends v : appends (encode_vvec v).
Proof.
  intros e x. unfold encode_vvec. rewrite encode_varint_appends.
  destruct (encode_varint _ x); [|done..]. outcome_simpl.
  unfold encode. by rewrite app_assoc.
Qed.

(** ** A builder behind a prefix *)

Definition shift_range (n : nat) (r : Range) : Range :=
  mkRange (n + start r) (n + end_ r).

(** The builder [b] with [e] before its buffer.  The offsets move by the
    length of [e], except those that have not been recorded yet: the
    offset of the length placeholder while it is 0, and the packet-number
    range while it is empty. *)
Definition shift (e : Encoder) (b : PacketBuilder) : PacketBuilder :=
  let n := length e in
  mkBuilder (e ++ encoder b) (builder_pn b) (shift_range n (header b))
    (mkOffsets (first_byte_mask (offsets b))
       (if decide (offsets_len (offsets b) = 0%nat) then 0%nat
        else (n + offsets_len (offsets b))%nat)
       (if decide (range_len (offsets_pn (offsets b)) = 0%nat)
        then offsets_pn (offsets b)
        else shift_range n (offsets_pn (offsets b)))).

Section shift.
Implicit Types (e x : Encoder) (b : PacketBuilder) (r : Range) (n : nat).

Lemma range_len_shift n r : range_len (shift_range n r) = range_len r.
Proof. unfold range_len. simpl. lia. Qed.

Lemma shift_range_0 r : shift_range 0 r = r.
Proof. by destruct r. Qed.

Lemma shift_range_add n m r :
  shift_range (n + m) r = shift_range n (shift_range m r).
Proof. unfold shift_range. simpl. f_equal; lia. Qed.

Lemma range_len_shift_pn e b :
  range_len (offsets_pn (offsets (shift e b)))
  = range_len (offsets_pn (offsets b)).
Proof. simpl. case_decide; [done|apply range_len_shift]. Qed.

Lemma range_iter_shift_pn e b :
  range_iter (offsets_pn (offsets (shift e b)))
  = (λ j, length e + j)%nat <$> range_iter (offsets_pn (offsets b)).
Proof.
  unfold range_iter. rewrite range_len_shift_pn. simpl. case_decide as Hl.
  - by rewrite Hl.
  - by rewrite fmap_add_seq.
Qed.

(** [shift] is an action of buffers on builders. *)
Lemma shift_nil b : shift [] b = b.
Proof.
  destruct b as [enc v h [fbm l r]]. unfold shift. simpl.
  rewrite !shift_range_0. repeat case_decide; f_equal; f_equal; lia.
Qed.

Lemma shift_app e x b : shift (e ++ x) b = shift e (shift x b).
Proof.
  destruct b as [enc v h [fbm l r]]. unfold shift. simpl.
  rewrite length_app, <- app_assoc, !shift_range_add.
  f_equal. f_equal.
  - repeat case_decide; lia.
  - repeat case_decide; try done; rewrite ?range_len_shift in *; done.
Qed.

Lemma encoder_shift e b : encoder (shift e b) = e ++ encoder b.
Proof. done. Qed.

Lemma header_shift e b :
  header (shift e b) = shift_range (length e) (header b).
Proof. done. Qed.

Lemma builder_pn_shift e b : builder_pn (shift e b) = builder_pn b.
Proof. done. Qed.

Lemma set_encoder_shift e x b :
  set_encoder (e ++ x) (shift e b) = shift e (set_encoder x b).
Proof. done. Qed.

(** *** Each operation behind a prefix *)

Lemma short_shift e x key_phase dcid :
  short (e ++ x) key_phase dcid = shift e (short x key_phase dcid).
Proof.
  unfold short, shift, encode, encode_byte, shift_range. simpl.
  rewrite length_app, <- !app_assoc. done.
Qed.

Lemma long_shift e x pt dcid scid :
  long (e ++ x) pt dcid scid = shift e <$> long x pt dcid scid.
Proof.
  unfold long. destruct (code pt) as [c| |]; [|done..]. outcome_simpl.
  unfold encode_byte. rewrite <- app_assoc, encode_uint_appends.
  destruct (encode_uint 4 _ _) as [x1| |]; [|done..]. outcome_simpl.
  rewrite encode_vec_appends.
  destruct (encode_vec 1 dcid x1) as [x2| |]; [|done..]. outcome_simpl.
  rewrite encode_vec_appends.
  destruct (encode_vec 1 scid x2) as [x3| |]; [|done..]. outcome_simpl.
  unfold shift, shift_range. simpl. by rewrite length_app.
Qed.

Lemma first_shift e b :
  index (E:=Error) (encoder (shift e b)) (start (header (shift e b)))
  = index (encoder b) (start (header b)).
Proof. apply index_app_r. Qed.

Lemma initial_token_shift e token b :
  initial_token token (shift e b) = shift e <$> initial_token token b.
Proof.
  unfold initial_token. rewrite first_shift.
  destruct (index _ _) as [first| |]; [|done..]. outcome_simpl.
  destruct (assert _); [|done..]. outcome_simpl.
  cbn [shift encoder]. rewrite encode_vvec_appends.
  by destruct (encode_vvec token (encoder b)).
Qed.

Lemma payload_shift e k b : payload k (shift e b) = shift e (payload k b).
Proof.
  unfold payload, deref_mut, encode. cbn [shift encoder].
  by rewrite <- app_assoc.
Qed.

Lemma is_empty_shift e b : is_empty (shift e b) = is_empty b.
Proof.
  unfold is_empty. simpl. rewrite length_app.
  apply bool_decide_ext. lia.
Qed.

Lemma abort_shift e b : abort (shift e b) = e ++ abort b.
Proof. unfold abort, truncate. simpl. by rewrite take_app_ge, Nat.add_comm, Nat.add_sub by lia. Qed.

End shift.

Section shift_pn.
Implicit Types (e x : Encoder) (b : PacketBuilder).

Lemma pn_result_shift e v l first b :
  (start (header b) < length (encoder b))%nat → (1 ≤ l)%nat →
  pn_result v l first (shift e b) = shift e (pn_result v l first b).
Proof.
  intros Hf Hl. unfold pn_result, shift, shift_range, range_len.
  cbn [encoder header offsets first_byte_mask offsets_len offsets_pn start
       end_ builder_pn].
  rewrite <- !app_assoc, insert_app_r_alt, Nat.add_comm, Nat.add_sub by lia.
  rewrite ?length_insert, !length_app, ?length_be_bytes.
  do 2 f_equal.
  - repeat case_decide; lia.
  - by rewrite decide_False by lia.
Qed.

Lemma pn_shift e v l b : pn v l (shift e b) = shift e <$> pn v l b.
Proof.
  destruct (decide (1 ≤ l ≤ 4)%nat) as [Hl|Hl];
    [|by rewrite !pn_Panic_len].
  destruct (encoder b !! start (header b)) as [first|] eqn:Hf.
  - rewrite (pn_Ok _ _ b first), (pn_Ok _ _ (shift e b) first) by
      (done || by apply (index_Ok (E:=Error)); rewrite first_shift, index_Ok).
    simpl. f_equal. apply lookup_lt_Some in Hf. apply pn_result_shift; lia.
  - apply lookup_ge_None in Hf. rewrite !pn_Panic_first; [done..|].
    simpl. rewrite length_app. lia.
Qed.

Lemma write_len_shift e n b :
  (0 < offsets_len (offsets b))%nat →
  write_len n (shift e b) = shift e <$> write_len n b.
Proof.
  intros Hoff.
  destruct (decide (offsets_len (offsets b) + 2 ≤ length (encoder b))%nat)
    as [Hl|Hl].
  - rewrite !write_len_Ok; cbn [shift offsets offsets_len encoder];
      rewrite ?decide_False, ?length_app by lia; [|lia..].
    simpl. f_equal. unfold shift. simpl.
    rewrite decide_False by lia. f_equal.
    rewrite take_app_ge, drop_app_ge, <- app_assoc by lia.
    set (off := offsets_len (offsets b)) in *.
    replace (length e + off - length e)%nat with off by lia.
    replace (length e + off + 2 - length e)%nat with (off + 2)%nat by lia.
    by replace (length e + length (encoder b) - (length e + off + 2))%nat
      with (length (encoder b) - (off + 2))%nat by lia.
  - rewrite !write_len_Panic; [done|lia|].
    cbn [shift offsets offsets_len encoder].
    rewrite decide_False, length_app by lia. lia.
Qed.

End shift_pn.

Section shift_build.
Context {St : Type} `{CryptoDx St}.
Implicit Types (e x : Encoder) (b : PacketBuilder) (crypto : St)
  (mask : list Z).

Lemma mask_pn_byte_shift mask e x (i j : nat) :
  mask_pn_byte mask (e ++ x) (i, (length e + j)%nat)
  = (e ++.) <$> mask_pn_byte mask x (i, j).
Proof.
  unfold mask_pn_byte.
  destruct (index (E:=Error) mask i); outcome_simpl; [|done..].
  apply update_app_r.
Qed.

Lemma mask_pn_bytes_shift mask e x (ks js : list nat) :
  for_each (mask_pn_byte mask) (e ++ x)
    (zip ks ((λ j, length e + j)%nat <$> js))
  = (e ++.) <$> for_each (mask_pn_byte mask) x (zip ks js).
Proof.
  revert x js. induction ks as [|i ks IH]; intros x [|j js]; try done.
  cbn [zip zip_with fmap list_fmap for_each]. fold (zip ks js).
  fold (zip ks ((λ j, length e + j)%nat <$> js)).
  rewrite mask_pn_byte_shift.
  destruct (mask_pn_byte mask x (i, j)); outcome_simpl; [apply IH|done..].
Qed.

Lemma apply_mask_shift mask e b :
  apply_mask mask (shift e b) = (e ++.) <$> apply_mask mask b.
Proof.
  unfold apply_mask.
  destruct (index (E:=Error) mask 0); outcome_simpl; [|done..].
  rewrite range_iter_shift_pn, range_len_shift_pn.
  cbn [shift encoder header offsets first_byte_mask shift_range start].
  rewrite update_app_r.
  destruct (update _ _ (encoder b)) as [x1| |]; outcome_simpl; [|done..].
  apply mask_pn_bytes_shift.
Qed.

Lemma offsets_len_shift_pos e b :
  (0 < offsets_len (offsets (shift e b)))%nat
  ↔ (0 < offsets_len (offsets b))%nat.
Proof. simpl. case_decide; lia. Qed.

(** [build] behind a prefix: the same calls of the provider, and the
    prefix before the result. *)
Lemma build_shift crypto e b :
  build crypto (shift e b)
  = ((build crypto b).1, (e ++.) <$> (build crypto b).2).
Proof.
  unfold build.
  assert ((if decide (0 < offsets_len (offsets (shift e b)))%nat
           then write_len (expansion crypto) (shift e b) else Ok (shift e b))
          = shift e <$>
            (if decide (0 < offsets_len (offsets b))%nat
             then write_len (expansion crypto) b else Ok b)) as ->.
  { destruct (decide (0 < offsets_len (offsets b))%nat) as [Hl|Hl].
    - rewrite decide_True by (by apply offsets_len_shift_pos).
      by apply write_len_shift.
    - by rewrite decide_False by (by rewrite offsets_len_shift_pos). }
  destruct (if decide _ then _ else _) as [b1| |]; outcome_simpl; [|done..].
  rewrite encoder_shift, header_shift.
  cbn [shift_range start end_]. rewrite slice_app_r, slice_from_app_r.
  destruct (slice _ _ _) as [hdr| |]; outcome_simpl; [|done..].
  destruct (slice_from _ _) as [body| |]; outcome_simpl; [|done..].
  rewrite builder_pn_shift.
  destruct (encrypt crypto _ hdr body) as [crypto1 [ct| |]]; cbn [fst snd];
    outcome_simpl; [|done..].
  f_equal. rewrite range_len_shift_pn.
  destruct (sample_of _ ct) as [sample| |]; outcome_simpl; [|done..].
  destruct (compute_mask crypto1 sample) as [mask| |]; outcome_simpl;
    [|done..].
  rewrite apply_mask_shift.
  destruct (apply_mask mask b1) as [x1| |]; outcome_simpl; [|done..].
  unfold encode, truncate. rewrite header_shift. cbn [shift_range end_].
  by rewrite take_app_ge, Nat.add_comm, Nat.add_sub, app_assoc by lia.
Qed.

End shift_build.

(** ** Packets and datagrams *)

Section position.
Context {St : Type} `{CryptoDx St}.
Implicit Types (e x : Encoder) (b : PacketBuilder) (crypto : St)
  (c : call) (cs : list call) (o : opening) (p : packet) (ps : list packet).

(** The packets of a datagram, each built in a buffer of its own, with the
    provider's state passed from one to the next; the first failure ends
    the sequence. *)
Fixpoint build_alone crypto ps : St * Res (list Encoder) :=
  match ps with
  | [] => (crypto, Ok [])
  | p :: ps =>
      match build_packet crypto [] p with
      | (crypto, Ok pkt) =>
          let '(crypto, pkts) := build_alone crypto ps in
          (crypto, (pkt ::.) <$> pkts)
      | (crypto, Err err) => (crypto, Err err)
      | (crypto, Panic) => (crypto, Panic)
      end
  end.

Lemma open_builder_shift e x o :
  open_builder (e ++ x) o = shift e <$> open_builder x o.
Proof.
  destruct o; simpl; [by rewrite short_shift|apply long_shift].
Qed.

Lemma do_call_shift e b c : do_call (shift e b) c = shift e <$> do_call b c.
Proof.
  destruct c; simpl;
    [apply initial_token_shift|apply pn_shift|by rewrite payload_shift].
Qed.

Lemma run_shift e b cs : run (shift e b) cs = shift e <$> run b cs.
Proof.
  unfold run. revert b. induction cs as [|c cs IH]; intros b; [done|].
  cbn [for_each]. rewrite do_call_shift.
  destruct (do_call b c); outcome_simpl; [apply IH|done..].
Qed.

Lemma build_packet_shift crypto e x p :
  build_packet crypto (e ++ x) p
  = ((build_packet crypto x p).1, (e ++.) <$> (build_packet crypto x p).2).
Proof.
  unfold build_packet. rewrite open_builder_shift.
  destruct (open_builder x (pkt_open p)) as [b0| |]; outcome_simpl;
    [|done..].
  rewrite run_shift.
  destruct (run b0 (pkt_calls p)) as [b| |]; outcome_simpl; [|done..].
  apply build_shift.
Qed.

(** A packet does not depend on what is before it in the buffer: built at
    the end of a buffer [e], it is [e] followed by the packet built in an
    empty buffer, with the same calls of the provider; and it fails there
    exactly as it fails alone. *)
Theorem build_packet_position crypto e p :
  build_packet crypto e p
  = ((build_packet crypto [] p).1, (e ++.) <$> (build_packet crypto [] p).2).
Proof. rewrite <- (app_nil_r e) at 1. apply build_packet_shift. Qed.

(** A datagram behind a prefix. *)
Lemma build_datagram_shift crypto e x ps :
  build_datagram crypto (e ++ x) ps
  = ((build_datagram crypto x ps).1,
     (e ++.) <$> (build_datagram crypto x ps).2).
Proof.
  revert crypto x. induction ps as [|p ps IH]; intros crypto x; [done|].
  cbn [build_datagram]. rewrite build_packet_shift.
  destruct (build_packet crypto x p) as [crypto1 [pkt| |]]; cbn [fst snd];
    outcome_simpl; [apply IH|done..].
Qed.

(** A datagram that starts in an empty buffer is its packets, each built
    alone, one after the other. *)
Lemma build_datagram_alone crypto ps :
  build_datagram crypto [] ps
  = ((build_alone crypto ps).1,
     (λ pkts, concat pkts) <$> (build_alone crypto ps).2).
Proof.
  revert crypto. induction ps as [|p ps IH]; intros crypto; [done|].
  cbn [build_datagram build_alone].
  destruct (build_packet crypto [] p) as [crypto1 [pkt| |]]; [|done..].
  rewrite <- (app_nil_r pkt) at 1. rewrite build_datagram_shift, IH.
  by destruct (build_alone crypto1 ps) as [crypto2 [pkts| |]].
Qed.

(** The packets of a datagram that has been built. *)
Lemma build_datagram_pkts crypto crypto' e ps dg :
  build_datagram crypto e ps = (crypto', Ok dg) →
  ∃ pkts, build_alone crypto ps = (crypto', Ok pkts) ∧ dg = e ++ concat pkts.
Proof.
  rewrite <- (app_nil_r e) at 1.
  rewrite build_datagram_shift, build_datagram_alone. cbn [fst snd].
  destruct (build_alone crypto ps) as [c [pkts| |]] eqn:Ha; [|done..].
  outcome_simpl. intros [= <- <-]. by exists pkts.
Qed.

(** From one packet to a sequence: a relation between what is sent and
    the packet built from it, established packet by packet under an
    invariant of the provider, holds along the whole sequence. *)
Lemma build_alone_Forall2 {A} (f : A → packet) (I : St → Prop)
    (Q : A → Prop) (R : A → Encoder → Prop) :
  (∀ crypto a crypto1 pkt,
     I crypto → Q a → build_packet crypto [] (f a) = (crypto1, Ok pkt) →
     R a pkt ∧ I crypto1) →
  ∀ l crypto crypto' pkts,
    I crypto → Forall Q l →
    build_alone crypto (f <$> l) = (crypto', Ok pkts) →
    Forall2 R l pkts ∧ I crypto'.
Proof.
  intros Hstep l. induction l as [|a l IH]; intros crypto crypto' pkts Hi Hq;
    cbn [fmap list_fmap build_alone].
  - by intros [= <- <-].
  - apply Forall_cons_1 in Hq as [Ha Hq].
    destruct (build_packet crypto [] (f a)) as [c1 [pkt| |]] eqn:Hp; [|done..].
    destruct (Hstep _ _ _ _ Hi Ha Hp) as [Hr Hi1].
    destruct (build_alone c1 (f <$> l)) as [c2 [pkts'| |]] eqn:Hps; [|done..].
    intros [= <- <-]. destruct (IH _ _ _ Hi1 Hq Hps). by split; [constructor|].
Qed.

(** C4: coalescing, as an equation.  For every provider, every sequence
    of packets and every calls on each of them, in any order: the datagram
    built by starting each packet where the last one ended is the buffer
    it started from followed by the packets, each as it is built in a
    buffer of its own with the provider in the state the packets before it
    left; the provider ends in the same state; and the datagram fails
    exactly when one of the packets fails alone, with the same failure.
    So no packet can change, or depend on, the bytes of another. *)
Theorem build_datagram_concat crypto e ps :
  build_datagram crypto e ps
  = ((build_alone crypto ps).1,
     (λ pkts, e ++ concat pkts) <$> (build_alone crypto ps).2).
Proof.
  rewrite <- (app_nil_r e) at 1.
  rewrite build_datagram_shift, build_datagram_alone. cbn [fst snd].
  by destruct (build_alone crypto ps).2.
Qed.

(** ** Packets that are given up

    A sender may start a packet and give it up with [abort], which hands
    the buffer back for the next packet.  A datagram is then the result of
    a sequence of attempts, some built and some aborted. *)

Inductive attempt : Set :=
| Built (p : packet)
| Aborted (p : packet).

(** One packet started at the end of the buffer [e], then aborted. *)
Definition abort_packet e (p : packet) : Res Encoder :=
  b ← open_builder e (pkt_open p);
  b ← run b (pkt_calls p);
  Ok (abort b).

(** The attempts in sequence, on one buffer and with one provider. *)
Fixpoint send crypto e (ats : list attempt) : St * Res Encoder :=
  match ats with
  | [] => (crypto, Ok e)
  | Built p :: ats =>
      match build_packet crypto e p with
      | (crypto, Ok e) => send crypto e ats
      | failed => failed
      end
  | Aborted p :: ats =>
      match abort_packet e p with
      | Ok e => send crypto e ats
      | Err err => (crypto, Err err)
      | Panic => (crypto, Panic)
      end
  end.

(** The packets of the attempts that were built. *)
Definition built (ats : list attempt) : list packet :=
  omap (λ a, match a with Built p => Some p | Aborted _ => None end) ats.

(** An attempt that is aborted must not panic before it is. *)
Definition attempt_ok (a : attempt) : Prop :=
  match a with
  | Built _ => True
  | Aborted p => is_Ok (abort_packet [] p)
  end.

#[export] Instance attempt_ok_dec a : Decision (attempt_ok a).
Proof. destruct a; apply _. Defined.

(** An aborted packet fails where it fails alone, and leaves the buffer
    as it found it. *)
Lemma abort_packet_eq e p : abort_packet e p = (λ _, e) <$> abort_packet [] p.
Proof.
  unfold abort_packet. rewrite <- (app_nil_r e) at 1.
  rewrite open_builder_shift.
  destruct (open_builder [] (pkt_open p)) as [b0| |] eqn:Ho; outcome_simpl;
    [|done..].
  rewrite run_shift.
  destruct (run b0 (pkt_calls p)) as [b| |] eqn:Hr; outcome_simpl; [|done..].
  apply open_builder_framed in Ho. pose proof (run_framed _ _ _ _ Ho Hr) as Hf.
  rewrite abort_shift. unfold abort, truncate.
  by rewrite (framed_start _ _ Hf), (framed_prefix _ _ Hf), app_nil_r.
Qed.

(** C19: aborted packets leave no trace.  For every provider, every
    buffer and every sequence of attempts, each a packet started with
    [short] or [long] and continued with any calls in any order, then
    either built or aborted: if the calls of the aborted attempts do not
    panic, the result, datagram and provider state and failure, is the
    result of building the packets that were built and nothing else.  An
    aborted attempt changes neither the buffer nor the provider, whatever
    was written before it was given up. *)
Theorem send_built crypto e ats :
  Forall attempt_ok ats →
  send crypto e ats = build_datagram crypto e (built ats).
Proof.
  intros Hok. revert crypto e.
  induction Hok as [|[p|p] ats Ha _ IH]; intros crypto e; [done|..].
  - cbn [send built omap list_omap build_datagram].
    by destruct (build_packet crypto e p) as [c1 [e1| |]].
  - cbn [send built omap list_omap]. rewrite abort_packet_eq.
    apply is_Ok_exists in Ha as [e0 ->]. apply IH.
Qed.

End position.

(** ** The theorem at the packets of the test [build_two] *)

Lemma build_datagram_concat_witness :
  build_datagram (mkTestDx 0 16) [] [pkt_two_first; pkt_two_second]
  = ((build_alone (mkTestDx 0 16) [pkt_two_first; pkt_two_second]).1,
     (λ pkts, [] ++ concat pkts)
       <$> (build_alone (mkTestDx 0 16) [pkt_two_first; pkt_two_second]).2).
Proof.
  exact (build_datagram_concat (mkTestDx 0 16) []
           [pkt_two_first; pkt_two_second]).
Defined.

(** The test [build_abort], followed by the two packets of [build_two]:
    the aborted Initial packet leaves no trace in the datagram. *)
Lemma send_built_witness :
  send (mkTestDx 0 16) []
    [Aborted (mkPacket (StartLong Initial [] SERVER_CID) calls_build_abort);
     Built pkt_two_first; Built pkt_two_second]
  = build_datagram (mkTestDx 0 16) [] [pkt_two_first; pkt_two_second].
Proof.
  apply (send_built (mkTestDx 0 16) []
           [Aborted (mkPacket (StartLong Initial [] SERVER_CID)
                       calls_build_abort);
            Built pkt_two_first; Built pkt_two_second]).
  by apply (bool_decide_unpack _).
Defined.
