(* ===== verification/OneShot.v ===== *)
(** * Retry and Version Negotiation (packet2.rs lines 57-74 and 219-269)

    The two packets that bypass the builder.  Both are associated functions
    that start from an empty buffer and return the bytes of the packet.
    Their inputs from the environment are made explicit: the random bytes
    are an argument, and the thread-local AEAD of Retry is a slot that is
    filled on first use by [make_retry_aead], which builds the AEAD from the
    fixed secret through an interface to the key-derivation library. *)

From Stdlib Require Import ZArith Lia.
From stdpp Require Import base option list numbers.
From S2P Require Import Prelude Encoder PacketType Crypto Builder Loops.

#[local] Open Scope Z_scope.

(** ** The fixed-key protector of Retry *)

(** [TLS_VERSION_1_3] and [TLS_AES_128_GCM_SHA256], as the TLS registry
    numbers them. *)
Definition TLS_VERSION_1_3 : Z := 0x0304.
Definition TLS_AES_128_GCM_SHA256 : Z := 0x1301.

(** The secret of [make_retry_aead] (packet2.rs lines 65-69). *)
Definition RETRY_SECRET : list Z :=
  [0x65; 0x6e; 0x61; 0xe3; 0x36; 0xae; 0x94; 0x17; 0xf7; 0xf0; 0xed; 0xd8;
   0xd7; 0x8d; 0x46; 0x1e; 0x2a; 0xa7; 0x08; 0x4a; 0xba; 0x7a; 0x14; 0xc1;
   0xe9; 0xf7; 0x26; 0xd5; 0x57; 0x09; 0x16; 0x9a].

(** The label of the Retry AEAD, ["quic "]. *)
Definition RETRY_LABEL : list Z := [0x71; 0x75; 0x69; 0x63; 0x20].

(** [hkdf::import_key] and [Aead::new]: both may fail. *)
Class AeadFactory (K A : Type) : Type := {
  import_key : Z → Z → list Z → option K;
  aead_new : Z → Z → K → list Z → option A;
}.

(** [make_retry_aead]: each [unwrap] panics on failure. *)
Definition make_retry_aead {K A} {factory : AeadFactory K A} : Res A :=
  secret ← expect (import_key TLS_VERSION_1_3 TLS_AES_128_GCM_SHA256
                     RETRY_SECRET);
  expect (aead_new TLS_VERSION_1_3 TLS_AES_128_GCM_SHA256 secret RETRY_LABEL).

(** The slot of [thread_local!(static RETRY_AEAD ...)] in one thread: not
    yet initialised, holding the AEAD, or already destroyed. *)
Inductive slot (A : Type) : Type :=
| Uninit
| Alive (a : A)
| Destroyed.
Arguments Uninit {A}.
Arguments Alive {A} a.
Arguments Destroyed {A}.

(** [LocalKey::try_with]: the value is built on first access; access to a
    destroyed slot is the error [AccessError], here [None]. *)
Definition try_with {K A T} {factory : AeadFactory K A} (s : slot A) (f : A → T)
  : slot A * Res (option T) :=
  match s with
  | Destroyed => (Destroyed, Ok None)
  | Alive a => (Alive a, Ok (Some (f a)))
  | Uninit =>
      match make_retry_aead with
      | Ok a => (Alive a, Ok (Some (f a)))
      | Err err => (Uninit, Err err)
      | Panic => (Uninit, Panic)
      end
  end.

(** ** Retry *)

Section retry.
Context {K A : Type} {factory : AeadFactory K A} {aead_ops : Aead A}.

(** [Vec::split_off(at)]: the tail from [at]; panics when [at > len]. *)
Definition split_off (at_ : nat) (v : list Z) : Res (list Z) :=
  slice_from v at_.

(** The error of the library for an output buffer that is too short
    (NSS: [SEC_ERROR_OUTPUT_LEN]). *)
Definition SEC_ERROR_OUTPUT_LEN : Z := -8189.

(** [Aead::encrypt(count, aad, input, output)]: the ciphertext is written
    to [output] and the part of [output] that was filled is returned
    ([to_vec] copies it); a buffer shorter than the ciphertext is
    refused. *)
Definition encrypt_into (aead : A) (count : Z) (aad input output : list Z)
  : Res (list Z) :=
  ct ← aead_encrypt aead count aad input;
  if decide (length ct ≤ length output)%nat then Ok ct
  else Err (CryptoError SEC_ERROR_OUTPUT_LEN).

(** [PacketBuilder::retry] up to the call of the AEAD (packet2.rs lines
    229-241): the buffer with the original connection ID and the header,
    and the offset at which the header starts.  [rand] is what
    [random(1)] returns. *)
Definition retry_start (rand : list Z) (dcid scid : ConnectionId)
    (token : list Z) (odcid : ConnectionId) : Res (nat * Encoder) :=
  encoder ← encode_vec 1 odcid [];
  let start := length encoder in
  r0 ← index rand 0;
  let encoder :=
    encode_byte
      (Z.lor (Z.lor (Z.lor PACKET_BIT_LONG PACKET_BIT_FIXED_QUIC)
                    (u8 (PACKET_TYPE_RETRY ≪ 4)))
             (Z.land r0 0xf))
      encoder in
  encoder ← encode_uint 4 QUIC_VERSION encoder;
  encoder ← encode_vec 1 dcid encoder;
  encoder ← encode_vec 1 scid encoder;
  Ok (start, encode token encoder).

(** [PacketBuilder::retry] from the answer of [try_with] on (lines
    247-250): [map_err] and the two [?], the tag appended, the original
    connection ID split off. *)
Definition retry_finish (start : nat) (encoder : Encoder)
    (accessed : Res (option (Res (list Z)))) : Res (list Z) :=
  tag ← (found ← accessed;
         match found with
         | Some tag => tag
         | None => Err InternalError
         end);
  let encoder := encode tag encoder in
  split_off start encoder.

(** [PacketBuilder::retry]. *)
Definition retry (s : slot A) (rand : list Z) (dcid scid : ConnectionId)
    (token : list Z) (odcid : ConnectionId) : slot A * Res (list Z) :=
  match retry_start rand dcid scid token odcid with
  | Ok (start, encoder) =>
      let '(s, accessed) :=
        try_with s (λ aead,
          let buf := replicate (aead_expansion aead) 0 in
          encrypt_into aead 0 encoder [] buf) in
      (s, retry_finish start encoder accessed)
  | Err err => (s, Err err)
  | Panic => (s, Panic)
  end.

End retry.

(** ** Version Negotiation *)

(** The greasing of one byte: the high nibble stays, the low nibble is
    [0xa] ([*g & 0xf0 | 0x0a]). *)
Definition grease_byte (g : Z) : Z := Z.lor (Z.land g 0xf0) 0x0a.

(** [PacketBuilder::version_negotiation]; [rand] is what [random(5)]
    returns. *)
Definition version_negotiation (rand : list Z) (dcid scid : ConnectionId)
  : Res (list Z) :=
  let encoder : Encoder := [] in
  let grease := rand in
  g4 ← index grease 4;
  let encoder := encode_byte (Z.lor PACKET_BIT_LONG (Z.land g4 0x7f)) encoder in
  let encoder := encode [0; 0; 0; 0] encoder in
  encoder ← encode_vec 1 dcid encoder;
  encoder ← encode_vec 1 scid encoder;
  encoder ← encode_uint 4 QUIC_VERSION encoder;
  head ← slice grease 0 4;
  let grease := (grease_byte <$> head) ++ drop 4 grease in
  head ← slice grease 0 4;
  Ok (encode head encoder).

(** The greasing loop as the source has it (packet2.rs lines 264-266),
    [for g in &mut grease[0..4] { *g = *g & 0xf0 | 0x0a; }]: the slice is
    taken first, a panic when there are fewer than four bytes; the
    iterator yields a reference to each element of the slice in turn,
    here the index in [grease] that the reference points to, and the body
    writes through it.  Each unit of fuel pays for one call of [next]. *)
Definition grease_loop (fuel : nat) (grease : list Z)
  : option (Res (list Z)) :=
  match slice (E:=Error) grease 0 4 with
  | Ok _ =>
      for_loop fuel (λ grease i, update grease_byte i grease) grease
        (mkRange 0 4)
  | Err err => Some (Err err)
  | Panic => Some Panic
  end.

(** ** What the two functions write *)

(** The first byte of a Retry packet with random byte [r0]. *)
Definition retry_first (r0 : Z) : Z :=
  Z.lor (Z.lor (Z.lor PACKET_BIT_LONG PACKET_BIT_FIXED_QUIC)
               (u8 (PACKET_TYPE_RETRY ≪ 4)))
        (Z.land r0 0xf).

(** The transmitted bytes of a Retry packet before the tag. *)
Definition retry_header (r0 : Z) (dcid scid : ConnectionId) (token : list Z)
  : list Z :=
  retry_first r0 :: be_bytes 4 QUIC_VERSION
  ++ (u8 (Z.of_nat (length dcid)) :: dcid)
  ++ (u8 (Z.of_nat (length scid)) :: scid)
  ++ token.

(** The associated data of the Retry tag: the original destination
    connection ID with its length, then the transmitted bytes. *)
Definition retry_aad (odcid : ConnectionId) (hdr : list Z) : list Z :=
  (u8 (Z.of_nat (length odcid)) :: odcid) ++ hdr.

(** The bytes of a Version Negotiation packet up to the versions it
    lists. *)
Definition vn_prefix (g4 : Z) (dcid scid : ConnectionId) : list Z :=
  Z.lor PACKET_BIT_LONG (Z.land g4 0x7f) :: [0; 0; 0; 0]
  ++ (u8 (Z.of_nat (length dcid)) :: dcid)
  ++ (u8 (Z.of_nat (length scid)) :: scid).

(** The bytes of a Version Negotiation packet for five random bytes. *)
Definition vn_bytes (g0 g1 g2 g3 g4 : Z) (dcid scid : ConnectionId) : list Z :=
  vn_prefix g4 dcid scid ++ be_bytes 4 QUIC_VERSION
  ++ (grease_byte <$> [g0; g1; g2; g3]).

Lemma retry_first_high r0 : Z.land (retry_first r0) 0xf0 = 0xf0.
Proof.
  unfold retry_first. rewrite Z.land_lor_distr_l, <- Z.land_assoc.
  by rewrite Z.land_0_r, Z.lor_0_r.
Qed.

Lemma retry_first_is_u8 r0 : is_u8 (retry_first r0).
Proof.
  unfold retry_first. apply is_u8_lor; [done|].
  apply is_u8_land_r. done.
Qed.

Lemma grease_byte_low g : Z.land (grease_byte g) 0x0f = 0x0a.
Proof.
  unfold grease_byte. rewrite Z.land_lor_distr_l, <- Z.land_assoc.
  by rewrite Z.land_0_r.
Qed.

Lemma grease_byte_high g : Z.land (grease_byte g) 0xf0 = Z.land g 0xf0.
Proof.
  unfold grease_byte. rewrite Z.land_lor_distr_l, <- Z.land_assoc.
  change (Z.land 0xf0 0xf0) with 0xf0. by rewrite Z.lor_0_r.
Qed.

(** The greasing loop ends after five calls of [next], with the four
    bytes greased in place as [version_negotiation] has them, or with the
    panic of the slice. *)
Theorem grease_loop_terminates fuel grease :
  (4 < fuel)%nat →
  grease_loop fuel grease
  = Some (head ← slice grease 0 4;
          Ok ((grease_byte <$> head) ++ drop 4 grease)).
Proof.
  intros Hf. unfold grease_loop.
  destruct (decide (4 ≤ length grease)%nat) as [Hl|Hl].
  - rewrite slice_eq by lia. outcome_simpl.
    rewrite (for_loop_yields _ _ (range_iter (mkRange 0 4)));
      [|apply yields_Range|simpl; lia].
    by destruct grease as [|g0 [|g1 [|g2 [|g3 rest]]]]; simpl in Hl; try lia.
  - by rewrite slice_Panic by lia.
Qed.

Lemma grease_byte_is_u8 g : is_u8 (grease_byte g).
Proof. unfold grease_byte. apply is_u8_lor; [by apply is_u8_land_r|done]. Qed.

Lemma length_retry_header r0 dcid scid token :
  length (retry_header r0 dcid scid token)
  = (7 + length dcid + length scid + length token)%nat.
Proof. unfold retry_header. len. Qed.

Lemma length_vn_prefix g4 dcid scid :
  length (vn_prefix g4 dcid scid) = (7 + length dcid + length scid)%nat.
Proof. unfold vn_prefix. len. Qed.

Lemma length_vn_bytes g0 g1 g2 g3 g4 dcid scid :
  length (vn_bytes g0 g1 g2 g3 g4 dcid scid)
  = (1 + 4 + (1 + length dcid) + (1 + length scid) + 4 + 4)%nat.
Proof. unfold vn_bytes. rewrite !length_app, length_vn_prefix. len. Qed.

#[export] Hint Rewrite length_retry_header length_vn_bytes : len.
#[export] Hint Resolve retry_first_is_u8 grease_byte_is_u8 : bytes.

Section retry_lemmas.
Context {K A : Type} {factory : AeadFactory K A} `{AeadLaws A}.
Implicit Types (s : slot A) (a : A) (rand token tag : list Z)
  (dcid scid odcid : ConnectionId).

(** A buffer with room for the payload and the tag is large enough, and
    no smaller one is. *)
Lemma encrypt_into_fits a count aad input output :
  encrypt_into a count aad input output
  = if decide (length input + aead_expansion a ≤ length output)%nat
    then aead_encrypt a count aad input
    else match aead_encrypt a count aad input with
         | Ok _ => Err (CryptoError SEC_ERROR_OUTPUT_LEN)
         | r => r
         end.
Proof.
  unfold encrypt_into.
  destruct (aead_encrypt a count aad input) as [ct| |] eqn:Hct;
    [|by case_decide..].
  apply aead_encrypt_length in Hct. outcome_simpl. rewrite Hct.
  by repeat case_decide.
Qed.

(** The buffer [retry] allocates is exactly as large as the tag. *)
Lemma encrypt_into_tag a count aad :
  encrypt_into a count aad [] (replicate (aead_expansion a) 0)
  = aead_encrypt a count aad [].
Proof.
  rewrite encrypt_into_fits, decide_True; [done|].
  by rewrite length_replicate.
Qed.

(** What [retry] has written when it calls the AEAD. *)
Lemma retry_start_Ok rand r0 dcid scid token odcid :
  rand !! 0%nat = Some r0 →
  retry_start rand dcid scid token odcid
  = Ok (S (length odcid), retry_aad odcid (retry_header r0 dcid scid token)).
Proof.
  intros Hr. unfold retry_start, index. rewrite encode_vec1_Ok. outcome_simpl.
  rewrite Hr. outcome_simpl. rewrite encode_uint_Ok by lia. outcome_simpl.
  do 2 (rewrite encode_vec1_Ok; outcome_simpl).
  unfold encode, encode_byte, retry_aad, retry_header, retry_first.
  do 2 f_equal. rewrite <- !app_assoc. simpl. by rewrite <- ?app_assoc.
Qed.

Lemma retry_start_no_random dcid scid token odcid :
  retry_start [] dcid scid token odcid = Panic.
Proof. unfold retry_start. by rewrite encode_vec1_Ok. Qed.

(** The tag appended and the original connection ID split off. *)
Lemma retry_finish_Some odcid hdr (sealed : Res (list Z)) :
  retry_finish (S (length odcid)) (retry_aad odcid hdr) (Ok (Some sealed))
  = tag ← sealed; Ok (hdr ++ tag).
Proof.
  unfold retry_finish. outcome_simpl.
  destruct sealed as [tag| |]; [|done..]. outcome_simpl.
  unfold split_off, encode, retry_aad. rewrite slice_from_eq by len.
  rewrite <- (app_assoc (_ :: odcid)).
  by rewrite (drop_app_length (_ :: odcid)).
Qed.

(** [retry] once the slot holds an AEAD. *)
Lemma retry_Alive a rand r0 dcid scid token odcid :
  rand !! 0%nat = Some r0 →
  retry (Alive a) rand dcid scid token odcid
  = (Alive a,
     tag ← aead_encrypt a 0
              (retry_aad odcid (retry_header r0 dcid scid token)) [];
     Ok (retry_header r0 dcid scid token ++ tag)).
Proof.
  intros Hr. unfold retry. rewrite (retry_start_Ok _ _ _ _ _ _ Hr).
  cbn [try_with]. cbv zeta.
  by rewrite encrypt_into_tag, retry_finish_Some.
Qed.

Lemma retry_Destroyed_eq rand r0 dcid scid token odcid :
  rand !! 0%nat = Some r0 →
  retry Destroyed rand dcid scid token odcid = (Destroyed, Err InternalError).
Proof. intros Hr. unfold retry. by rewrite (retry_start_Ok _ _ _ _ _ _ Hr). Qed.

Lemma retry_Uninit rand r0 dcid scid token odcid :
  rand !! 0%nat = Some r0 →
  retry Uninit rand dcid scid token odcid
  = match make_retry_aead with
    | Ok a => retry (Alive a) rand dcid scid token odcid
    | Err err => (Uninit, Err err)
    | Panic => (Uninit, Panic)
    end.
Proof.
  intros Hr. unfold retry. rewrite (retry_start_Ok _ _ _ _ _ _ Hr).
  unfold try_with. by destruct make_retry_aead.
Qed.

Lemma retry_no_random s dcid scid token odcid :
  retry s [] dcid scid token odcid = (s, Panic).
Proof. unfold retry. by rewrite retry_start_no_random. Qed.

End retry_lemmas.

Section vn_lemmas.
Implicit Types (rand rest : list Z) (dcid scid : ConnectionId).

Lemma version_negotiation_cons g0 g1 g2 g3 g4 rest dcid scid :
  version_negotiation (g0 :: g1 :: g2 :: g3 :: g4 :: rest) dcid scid
  = Ok (vn_bytes g0 g1 g2 g3 g4 dcid scid).
Proof.
  unfold version_negotiation, index. cbn [lookup list_lookup expect].
  outcome_simpl. do 2 (rewrite encode_vec1_Ok; outcome_simpl).
  rewrite encode_uint_Ok by lia. outcome_simpl.
  rewrite !slice_eq by (simpl; lia). outcome_simpl.
  unfold encode, encode_byte, vn_bytes, vn_prefix. simpl. f_equal.
  by rewrite <- !app_assoc.
Qed.

Lemma version_negotiation_short rand dcid scid :
  (length rand < 5)%nat → version_negotiation rand dcid scid = Panic.
Proof.
  intros Hl. unfold version_negotiation.
  by rewrite (proj2 (index_Panic rand 4)) by lia.
Qed.

(** A list of at least five elements begins with five elements. *)
Lemma five_cons {X} (l : list X) :
  (5 ≤ length l)%nat → ∃ x0 x1 x2 x3 x4 k, l = x0 :: x1 :: x2 :: x3 :: x4 :: k.
Proof.
  destruct l as [|x0 [|x1 [|x2 [|x3 [|x4 k]]]]]; simpl; try lia.
  intros _. by eauto 10.
Qed.

End vn_lemmas.

(** ** The tests' vectors *)

(** [EXPECTED] of the test [build_retry] (packet2.rs lines 409-413). *)
Definition RETRY_EXPECTED : list Z :=
  [0xff; 0xff; 0x00; 0x00; 0x18; 0x00; 0x08; 0xf0; 0x67; 0xa5; 0x50; 0x2a;
   0x42; 0x62; 0xb5; 0x74; 0x6f; 0x6b; 0x65; 0x6e; 0x43; 0xe0; 0x42; 0xc5;
   0xcc; 0x3c; 0x5d; 0xa7; 0x31; 0xee; 0xc9; 0xa9; 0xbc; 0x3c; 0xab; 0x32].

(** [b"token"]. *)
Definition RETRY_TOKEN : list Z := [0x74; 0x6f; 0x6b; 0x65; 0x6e].

(** [EXPECTED] of the test [build_vn] (packet2.rs lines 450-454). *)
Definition VN_EXPECTED : list Z :=
  [0x80; 0x00; 0x00; 0x00; 0x00; 0x08; 0xf0; 0x67; 0xa5; 0x50; 0x2a; 0x42;
   0x62; 0xb5; 0x08; 0x83; 0x94; 0xc8; 0xf0; 0x3e; 0x51; 0x57; 0x08; 0xff;
   0x00; 0x00; 0x18; 0x0a; 0x0a; 0x0a; 0x0a].

(** The header comparison of [build_retry] when the random nibble differs
    (packet2.rs lines 433-435): the high nibble of the first byte, and the
    bytes from offset 1 up to the tag. *)
Definition retry_header_matches (retry : list Z) : Res bool :=
  r0 ← index retry 0;
  _ ← assert (16 <=? length retry)%nat;
  got ← slice retry 1 (length retry - 16);
  want ← slice RETRY_EXPECTED 1 (length retry - 16);
  Ok (bool_decide (Z.land r0 0xf0 = 0xf0) && bool_decide (got = want)).

(** Erasing the randomness of a Version Negotiation packet, as [build_vn]
    does before it compares (packet2.rs lines 463-466). *)
Definition vn_erase (vn : list Z) : Res (list Z) :=
  vn ← update (λ x, Z.land x 0x80) 0 vn;
  let n := (length VN_EXPECTED - 4)%nat in
  Ok (take n vn ++ ((λ v, Z.land v 0x0f) <$> drop n vn)).

(** The header comparison accepts a packet that differs from the expected
    one in the low nibble of the first byte and in the tag only. *)
Lemma retry_header_matches_app first rest tag :
  Z.land first 0xf0 = 0xf0 → length tag = 16%nat →
  (S (length rest) ≤ length RETRY_EXPECTED)%nat →
  rest = drop 1 (take (S (length rest)) RETRY_EXPECTED) →
  retry_header_matches ((first :: rest) ++ tag) = Ok true.
Proof.
  intros Hf Htag Hlen Hrest. unfold retry_header_matches, index.
  cbn [app lookup list_lookup expect]. outcome_simpl.
  rewrite (proj2 (Nat.leb_le _ _)) by len.
  replace (length (first :: rest ++ tag) - 16)%nat with (S (length rest))
    by len.
  rewrite !slice_eq by len. outcome_simpl.
  rewrite (bool_decide_eq_true_2 _ Hf). do 2 f_equal.
  apply bool_decide_eq_true_2. rewrite <- Hrest.
  change (first :: rest ++ tag) with ((first :: rest) ++ tag).
  by rewrite (take_app_length (first :: rest)).
Qed.

(** ** Theorems: Retry *)

Section retry_properties.
Context {K A : Type} {factory : AeadFactory K A} `{AeadLaws A}.
Implicit Types (s : slot A) (a : A) (rand token tag : list Z)
  (dcid scid odcid : ConnectionId).

(** C26: [PacketBuilder::retry] with the AEAD in place (packet2.rs lines
    223-251).  The tag is computed over the original destination connection
    ID, with its length, followed by the packet; the packet returned is the
    first byte [0xf0] with the random nibble, the version, the two
    connection IDs with their lengths, the token without a length, and the
    tag.  The original connection ID is not in the packet, and the packet is
    7 bytes longer than the connection IDs, the token and the tag
    together. *)
Theorem retry_Ok a rand r0 dcid scid token odcid tag :
  rand !! 0%nat = Some r0 →
  aead_encrypt a 0 (retry_aad odcid (retry_header r0 dcid scid token)) []
  = Ok tag →
  retry (Alive a) rand dcid scid token odcid
  = (Alive a, Ok (retry_header r0 dcid scid token ++ tag)) ∧
  length (retry_header r0 dcid scid token ++ tag)
  = (7 + length dcid + length scid + length token + aead_expansion a)%nat.
Proof.
  intros Hr Htag. rewrite (retry_Alive _ _ _ _ _ _ _ Hr), Htag.
  split; [done|]. apply aead_encrypt_length in Htag. revert Htag. len.
Qed.

(** C28: the errors of [retry] (packet2.rs line 247).  When the
    thread-local AEAD cannot be accessed the result is
    [Error::InternalError]; when the AEAD refuses to seal, its error is
    returned; in both cases no packet is returned and the slot is left as
    it was. *)
Theorem retry_Err rand r0 dcid scid token odcid :
  rand !! 0%nat = Some r0 →
  retry Destroyed rand dcid scid token odcid = (Destroyed, Err InternalError) ∧
  ∀ a err,
    aead_encrypt a 0 (retry_aad odcid (retry_header r0 dcid scid token)) []
    = Err err →
    retry (Alive a) rand dcid scid token odcid = (Alive a, Err err).
Proof.
  intros Hr. split; [by eapply retry_Destroyed_eq|].
  intros a err Herr. by rewrite (retry_Alive _ _ _ _ _ _ _ Hr), Herr.
Qed.


(** The test [build_retry], for every AEAD that keeps its laws and
    has a 16-byte tag, and every random nibble: the packet for the test's
    connection IDs and token has the length of the expected packet and
    passes the test's header comparison (high nibble [0xf], bytes 1 to the
    tag equal to the expected ones). *)
Theorem build_retry a rand r0 s r :
  rand !! 0%nat = Some r0 → aead_expansion a = 16%nat →
  retry (Alive a) rand [] SERVER_CID RETRY_TOKEN CLIENT_CID = (s, Ok r) →
  length r = length RETRY_EXPECTED ∧ retry_header_matches r = Ok true.
Proof.
  intros Hr Hx. rewrite (retry_Alive _ _ _ _ _ _ _ Hr).
  destruct (aead_encrypt a 0 _ []) as [tag| |] eqn:Htag; [|done..].
  apply aead_encrypt_length in Htag. rewrite Hx in Htag.
  intros Heq.
  assert (r = (retry_first r0 :: drop 1 (take 20 RETRY_EXPECTED)) ++ tag)
    as -> by (by injection Heq as _ <-).
  split; [by rewrite length_app, Htag|].
  apply retry_header_matches_app;
    [apply retry_first_high|done|simpl; lia|reflexivity].
Qed.

(** With the AEAD in place and an AEAD that keeps its laws, [retry]
    panics only when there is no random byte to read, which [random(1)]
    rules out: every index and slice of lines 229-250 is in range. *)
Theorem retry_Panic_iff a rand dcid scid token odcid :
  (retry (Alive a) rand dcid scid token odcid).2 = Panic ↔ rand = [].
Proof.
  destruct rand as [|r0 rand].
  - by rewrite retry_no_random.
  - rewrite (retry_Alive a _ r0) by done. simpl. split; [|done].
    destruct (aead_encrypt a 0 _ []) eqn:Htag; try done.
    by apply aead_encrypt_no_panic in Htag.
Qed.

End retry_properties.

(** ** Theorems: Version Negotiation *)

Section vn_properties.
Implicit Types (rand vn : list Z) (dcid scid : ConnectionId).

(** C27: [PacketBuilder::version_negotiation] (packet2.rs lines 254-269)
    with the five bytes of [random(5)]: the call succeeds; the packet has
    [1 + 4 + (1 + len(dcid)) + (1 + len(scid)) + 4 + 4] bytes; its first
    byte has the long bit set and its other seven bits from the fifth
    random byte (the fixed bit is not forced); the version field is zero;
    the supported version is [QUIC_VERSION]; every byte of the greased
    version has the low nibble [0xa] and the high nibble of its random
    byte. *)
Theorem version_negotiation_Ok rand dcid scid :
  length rand = 5%nat →
  ∃ vn first g4,
    version_negotiation rand dcid scid = Ok vn ∧
    length vn = (1 + 4 + (1 + length dcid) + (1 + length scid) + 4 + 4)%nat ∧
    vn !! 0%nat = Some first ∧ rand !! 4%nat = Some g4 ∧
    Z.land first 0x80 = PACKET_BIT_LONG ∧
    Z.land first 0x7f = Z.land g4 0x7f ∧
    take 4 (drop 1 vn) = [0; 0; 0; 0] ∧
    be_value (take 4 (drop (7 + length dcid + length scid) vn))
    = QUIC_VERSION ∧
    drop (11 + length dcid + length scid) vn = grease_byte <$> take 4 rand.
Proof.
  intros Hl.
  destruct (five_cons rand) as (g0 & g1 & g2 & g3 & g4 & k & ->); [lia|].
  destruct k; [|done]. rewrite version_negotiation_cons.
  eexists _, _, g4. split; [done|]. split; [by len|].
  split; [done|]. split; [done|].
  split; [|split; [|split; [done|]]].
  - rewrite Z.land_lor_distr_l, <- Z.land_assoc. by rewrite Z.land_0_r.
  - rewrite Z.land_lor_distr_l, <- Z.land_assoc. done.
  - unfold vn_bytes. split.
    + rewrite drop_app_length' by (by rewrite length_vn_prefix).
      by rewrite take_app_length' by done.
    + rewrite app_assoc, drop_app_length'; [done|].
      rewrite length_app, length_vn_prefix. len.
Qed.

(** [version_negotiation] never returns an error, and panics exactly
    when there are fewer than five random bytes, which [random(5)] rules
    out. *)
Theorem version_negotiation_Panic_iff rand dcid scid :
  (version_negotiation rand dcid scid = Panic ↔ (length rand < 5)%nat) ∧
  ∀ err, version_negotiation rand dcid scid ≠ Err err.
Proof.
  destruct (decide (length rand < 5)%nat) as [Hl|Hl].
  - rewrite version_negotiation_short by done. by split.
  - destruct (five_cons rand) as (g0 & g1 & g2 & g3 & g4 & k & ->); [lia|].
    rewrite version_negotiation_cons. split; [|done].
    split; [done|]. simpl. lia.
Qed.

(** The test [build_vn], for every five random bytes: the packet for
    the test's connection IDs has the length of the expected packet and,
    once the random bits are erased as the test erases them, is the
    expected packet. *)
Theorem build_vn rand :
  length rand = 5%nat →
  ∃ vn, version_negotiation rand SERVER_CID CLIENT_CID = Ok vn ∧
        length vn = length VN_EXPECTED ∧ vn_erase vn = Ok VN_EXPECTED.
Proof.
  intros Hl.
  destruct (five_cons rand) as (g0 & g1 & g2 & g3 & g4 & k & ->); [lia|].
  destruct k; [|done]. rewrite version_negotiation_cons.
  eexists. split; [done|]. split; [done|].
  unfold vn_erase, update, index. cbn -[Z.land Z.lor grease_byte].
  do 2 f_equal.
  - rewrite Z.land_lor_distr_l, <- Z.land_assoc. by rewrite Z.land_0_r.
  - by rewrite !grease_byte_low.
Qed.

End vn_properties.

(** ** The theorems at the packets of the tests *)

(** A key-derivation library for tests: the key is the secret, the AEAD is
    the checksum AEAD of [Crypto] keyed with the sum of the key's bytes;
    with [works = false] the import fails. *)
Definition test_factory (works : bool) : AeadFactory (list Z) TestAead := {|
  import_key _ _ secret := if works then Some secret else None;
  aead_new _ _ secret _ := Some (mkTestAead (foldr Z.add 0 secret) 16);
|}.

Definition test_retry_aead : TestAead := mkTestAead 4145 16.

Lemma make_retry_aead_test :
  make_retry_aead (factory:=test_factory true) = Ok test_retry_aead.
Proof. reflexivity. Qed.

Definition ex_retry : list Z := Eval vm_compute in
  match retry (factory:=test_factory true) (Alive test_retry_aead) [0x5f] []
          SERVER_CID RETRY_TOKEN CLIENT_CID with
  | (_, Ok r) => r
  | _ => []
  end.

Lemma retry_Ok_witness :
  retry (factory:=test_factory true) (Alive test_retry_aead) [0x5f] []
    SERVER_CID RETRY_TOKEN CLIENT_CID
  = (Alive test_retry_aead, Ok ex_retry) ∧
  length ex_retry = (7 + 0 + 8 + 5 + 16)%nat.
Proof.
  exact (retry_Ok (factory:=test_factory true) test_retry_aead [0x5f] 0x5f []
           SERVER_CID RETRY_TOKEN CLIENT_CID _ eq_refl eq_refl).
Defined.

Lemma retry_Err_witness :
  retry (factory:=test_factory true) (A:=TestAead) Destroyed [0x5f] []
    SERVER_CID RETRY_TOKEN CLIENT_CID
  = (Destroyed, Err InternalError) ∧
  ∀ a err,
    aead_encrypt a 0
      (retry_aad CLIENT_CID (retry_header 0x5f [] SERVER_CID RETRY_TOKEN)) []
    = Err err →
    retry (factory:=test_factory true) (Alive a) [0x5f] [] SERVER_CID
      RETRY_TOKEN CLIENT_CID
    = (Alive a, Err err).
Proof.
  exact (retry_Err (factory:=test_factory true) [0x5f] 0x5f [] SERVER_CID
           RETRY_TOKEN CLIENT_CID eq_refl).
Defined.


Lemma build_retry_witness :
  length ex_retry = length RETRY_EXPECTED ∧
  retry_header_matches ex_retry = Ok true.
Proof.
  exact (build_retry (factory:=test_factory true) test_retry_aead [0x5f] 0x5f
           _ ex_retry eq_refl eq_refl eq_refl).
Defined.

Definition ex_vn : list Z := Eval vm_compute in
  match version_negotiation [0x11; 0x22; 0x33; 0x44; 0xd5] SERVER_CID
          CLIENT_CID with
  | Ok vn => vn
  | _ => []
  end.

Lemma version_negotiation_Ok_witness :
  ∃ vn first g4,
    version_negotiation [0x11; 0x22; 0x33; 0x44; 0xd5] SERVER_CID CLIENT_CID
    = Ok vn ∧
    length vn = (1 + 4 + (1 + 8) + (1 + 8) + 4 + 4)%nat ∧
    vn !! 0%nat = Some first ∧
    [0x11; 0x22; 0x33; 0x44; 0xd5] !! 4%nat = Some g4 ∧
    Z.land first 0x80 = PACKET_BIT_LONG ∧
    Z.land first 0x7f = Z.land g4 0x7f ∧
    take 4 (drop 1 vn) = [0; 0; 0; 0] ∧
    be_value (take 4 (drop (7 + 8 + 8) vn)) = QUIC_VERSION ∧
    drop (11 + 8 + 8) vn = grease_byte <$> [0x11; 0x22; 0x33; 0x44].
Proof.
  exact (version_negotiation_Ok [0x11; 0x22; 0x33; 0x44; 0xd5] SERVER_CID
           CLIENT_CID eq_refl).
Defined.

Lemma build_vn_witness :
  ∃ vn,
    version_negotiation [0x11; 0x22; 0x33; 0x44; 0xd5] SERVER_CID CLIENT_CID
    = Ok vn ∧
    length vn = length VN_EXPECTED ∧ vn_erase vn = Ok VN_EXPECTED.
Proof. exact (build_vn [0x11; 0x22; 0x33; 0x44; 0xd5] eq_refl). Defined.

Lemma retry_Panic_iff_witness :
  (retry (factory:=test_factory true) (Alive test_retry_aead) [0x5f] []
     SERVER_CID RETRY_TOKEN CLIENT_CID).2 = Panic ↔ [0x5f] = [].
Proof.
  exact (retry_Panic_iff (factory:=test_factory true) test_retry_aead [0x5f]
           [] SERVER_CID RETRY_TOKEN CLIENT_CID).
Defined.
