(* ===== verification/Cell.v ===== *)
(** * The thread-local AEAD behind its [RefCell]

    [RETRY_AEAD] is a [RefCell<Aead>] (packet2.rs line 74), and the
    closure [retry] hands to [try_with] borrows it twice (lines 244 and
    245).  [OneShot] passes the AEAD itself.  This file models the cell
    with its borrow flag, the closure with its two borrows, and [retry]
    on a slot that holds the cell ([retry_cell]), and shows that on
    cells that are not borrowed -- which is how every call leaves them --
    it is [retry] of [OneShot], and that a cell that is borrowed mutably
    makes it panic. *)

From Stdlib Require Import ZArith Lia.
From stdpp Require Import base option list numbers gmap.
From S2P Require Import Prelude Encoder PacketType Crypto Builder OneShot Threads.

#[local] Open Scope Z_scope.

(** ** [std::cell::RefCell] *)

(** [isize::MAX]. *)
Definition isize_max : Z := 2 ^ 63 - 1.

(** A cell: its value and its borrow flag, 0 when the cell is unused,
    [n > 0] while [n] shared borrows are alive, negative while it is
    borrowed mutably. *)
Record RefCell (A : Type) : Type := mkRefCell {
  cell_value : A;
  cell_flag : Z;
}.

Arguments mkRefCell {A} _ _.
Arguments cell_value {A} _.
Arguments cell_flag {A} _.

#[export] Instance RefCell_eq_dec `{EqDecision A} : EqDecision (RefCell A).
Proof. solve_decision. Defined.

Section cell.
Context {A : Type}.
Implicit Types (c : RefCell A) (a : A).

(** [RefCell::new]. *)
Definition RefCell_new a : RefCell A := mkRefCell a 0.

(** [RefCell::borrow]: one more shared borrow; a panic ("already
    mutably borrowed") when the cell is borrowed mutably or the count
    of shared borrows is at its maximum. *)
Definition borrow c : Res (RefCell A * A) :=
  _ ← assert (bool_decide (0 ≤ cell_flag c < isize_max));
  Ok (mkRefCell (cell_value c) (cell_flag c + 1), cell_value c).

(** The end of a shared borrow: [Ref] is dropped. *)
Definition drop_Ref c : RefCell A := mkRefCell (cell_value c) (cell_flag c - 1).

(** A cell nobody borrows. *)
Definition unused c : Prop := cell_flag c = 0.

#[export] Instance unused_dec c : Decision (unused c).
Proof. unfold unused. apply _. Defined.

Lemma unused_new c : unused c ↔ c = RefCell_new (cell_value c).
Proof.
  destruct c as [a f]. unfold unused, RefCell_new. simpl.
  split; [by intros ->|by intros [= ->]].
Qed.

(** A borrow that ends leaves the cell as it was. *)
Lemma borrow_drop_Ref c c' a :
  borrow c = Ok (c', a) → a = cell_value c ∧ drop_Ref c' = c.
Proof.
  unfold borrow. destruct (assert _); [|done..]. outcome_simpl.
  intros [= <- <-]. split; [done|]. destruct c as [v f].
  unfold drop_Ref. simpl. f_equal. lia.
Qed.

(** [borrow] succeeds exactly below the maximum of shared borrows and
    never returns an error. *)
Lemma borrow_Ok_iff c :
  is_Ok (borrow c) ↔ 0 ≤ cell_flag c < isize_max.
Proof.
  unfold borrow, assert. by case_bool_decide.
Qed.

Lemma borrow_Panic_iff c :
  borrow c = Panic ↔ ¬ (0 ≤ cell_flag c < isize_max).
Proof. unfold borrow, assert. by case_bool_decide. Qed.

End cell.

(** ** [RETRY_AEAD] and [retry] *)

Section retry_cell.
Context {K A : Type} {factory : AeadFactory K A} {aead_ops : Aead A}.
Implicit Types (c : RefCell A) (a : A) (s : slot (RefCell A))
  (encoder rand token : list Z) (dcid scid odcid : ConnectionId).

(** The initialiser of [RETRY_AEAD]: [RefCell::new(make_retry_aead())]. *)
Definition RETRY_AEAD_init : Res (RefCell A) :=
  aead ← make_retry_aead;
  Ok (RefCell_new aead).

(** [LocalKey::try_with] for a closure that changes the value in the
    slot, as a closure that borrows a [RefCell] does: the closure
    returns the value as it leaves it. *)
Definition try_with_cell {T} s (f : RefCell A → RefCell A * T)
  : slot (RefCell A) * Res (option T) :=
  match s with
  | Destroyed => (Destroyed, Ok None)
  | Alive c => let '(c, t) := f c in (Alive c, Ok (Some t))
  | Uninit =>
      match RETRY_AEAD_init with
      | Ok c => let '(c, t) := f c in (Alive c, Ok (Some t))
      | Err err => (Uninit, Err err)
      | Panic => (Uninit, Panic)
      end
  end.

(** The closure of [retry] (packet2.rs lines 243-246).  Each [borrow()]
    is a temporary of its statement: the [Ref] is dropped when the
    statement ends, also when the statement fails. *)
Definition seal_retry encoder c : RefCell A * Res (list Z) :=
  match borrow c with
  | Ok (c, aead) =>
      let n := aead_expansion aead in
      let c := drop_Ref c in
      let buf := replicate n 0 in
      match borrow c with
      | Ok (c, aead) =>
          let sealed := encrypt_into aead 0 encoder [] buf in
          (drop_Ref c, sealed)
      | Err err => (c, Err err)
      | Panic => (c, Panic)
      end
  | Err err => (c, Err err)
  | Panic => (c, Panic)
  end.

(** [PacketBuilder::retry] on the slot that holds the cell. *)
Definition retry_cell s rand dcid scid token odcid
  : slot (RefCell A) * Res (list Z) :=
  match retry_start rand dcid scid token odcid with
  | Ok (start, encoder) =>
      let '(s, accessed) := try_with_cell s (seal_retry encoder) in
      (s, retry_finish start encoder accessed)
  | Err err => (s, Err err)
  | Panic => (s, Panic)
  end.

(** ** From cells to values *)

(** The slot of [OneShot] for a slot that holds a cell, and back. *)
Definition slot_value s : slot A :=
  match s with
  | Uninit => Uninit
  | Alive c => Alive (cell_value c)
  | Destroyed => Destroyed
  end.

Definition slot_cell (s : slot A) : slot (RefCell A) :=
  match s with
  | Uninit => Uninit
  | Alive a => Alive (RefCell_new a)
  | Destroyed => Destroyed
  end.

(** The invariant of the slot: the cell in it, if any, is unused. *)
Definition slot_unused s : Prop :=
  match s with
  | Alive c => unused c
  | _ => True
  end.

#[export] Instance slot_unused_dec s : Decision (slot_unused s).
Proof. destruct s; apply _. Defined.

Lemma slot_value_cell (s : slot A) : slot_value (slot_cell s) = s.
Proof. by destruct s. Qed.

Lemma slot_cell_unused (s : slot A) : slot_unused (slot_cell s).
Proof. by destruct s. Qed.

Lemma slot_unused_cell s : slot_unused s ↔ s = slot_cell (slot_value s).
Proof.
  destruct s as [|c|]; simpl; [done| |done]. rewrite unused_new.
  split; [by intros <-|by intros [= <-]].
Qed.

(** On an unused cell the closure leaves the cell unused and returns
    what the AEAD returns for a buffer of the size of its tag. *)
Lemma seal_retry_unused encoder a :
  seal_retry encoder (RefCell_new a)
  = (RefCell_new a,
     encrypt_into a 0 encoder [] (replicate (aead_expansion a) 0)).
Proof. done. Qed.

(** On a cell that cannot be borrowed the closure panics and leaves
    the cell as it is. *)
Lemma seal_retry_Panic encoder c :
  ¬ (0 ≤ cell_flag c < isize_max) → seal_retry encoder c = (c, Panic).
Proof.
  intros Hf%borrow_Panic_iff. unfold seal_retry. by rewrite Hf.
Qed.

(** On a cell that is borrowed already, but not mutably, the closure
    adds its borrows and takes them back. *)
Lemma seal_retry_shared encoder c :
  0 ≤ cell_flag c < isize_max →
  seal_retry encoder c
  = (c, encrypt_into (cell_value c) 0 encoder []
          (replicate (aead_expansion (cell_value c)) 0)).
Proof.
  intros Hf. unfold seal_retry.
  destruct (borrow c) as [[c1 a1]| |] eqn:Hb1;
    [|by apply borrow_Ok_iff in Hf; rewrite Hb1 in Hf..].
  apply borrow_drop_Ref in Hb1 as [-> ->].
  destruct (borrow c) as [[c2 a2]| |] eqn:Hb2;
    [|by apply borrow_Ok_iff in Hf; rewrite Hb2 in Hf..].
  by apply borrow_drop_Ref in Hb2 as [-> ->].
Qed.

End retry_cell.

(** ** Theorems *)

Section refines.
Context {K A : Type} {factory : AeadFactory K A} {aead_ops : Aead A}.
Implicit Types (c : RefCell A) (s : slot (RefCell A))
  (rand token : list Z) (dcid scid odcid : ConnectionId).

(** [retry] on a slot whose cell has shared borrows alive, but can be
    borrowed once more: the borrows of the closure come and go. *)
Lemma retry_cell_Alive c rand dcid scid token odcid :
  0 ≤ cell_flag c < isize_max →
  retry_cell (Alive c) rand dcid scid token odcid
  = (Alive c, (retry (Alive (cell_value c)) rand dcid scid token odcid).2).
Proof.
  intros Hf. unfold retry_cell, retry.
  destruct (retry_start _ _ _ _ _) as [[start encoder]| |]; [|done..].
  cbn [try_with_cell try_with]. by rewrite seal_retry_shared.
Qed.

(** [retry] on the slot of [OneShot] with its AEAD put in a fresh
    cell. *)
Lemma retry_cell_slot_cell (s0 : slot A) rand dcid scid token odcid :
  retry_cell (slot_cell s0) rand dcid scid token odcid
  = (slot_cell (retry s0 rand dcid scid token odcid).1,
     (retry s0 rand dcid scid token odcid).2).
Proof.
  unfold retry_cell, retry.
  destruct (retry_start _ _ _ _ _) as [[start encoder]| |]; [|done..].
  destruct s0 as [|a|]; cbn [slot_cell try_with_cell try_with];
    [|by rewrite seal_retry_unused|done].
  unfold RETRY_AEAD_init. destruct make_retry_aead as [a| |]; [|done..].
  outcome_simpl. by rewrite seal_retry_unused.
Qed.

(** The cell does not show.  On a slot that is empty, destroyed,
    or holds a cell nobody borrows, [retry] with the [RefCell] and its
    two borrows returns what [retry] of [OneShot] returns on the slot
    that holds the AEAD itself, on every branch: the packet, the error,
    the panic; and it leaves the slot that [retry] leaves, with the AEAD
    in a cell that is again unused.  So the borrow flag is 0 whenever
    [retry] is entered, [borrow] never fails, and nothing is lost by
    passing the AEAD instead of the cell. *)
Theorem retry_cell_refines s rand dcid scid token odcid :
  slot_unused s →
  retry_cell s rand dcid scid token odcid
  = (slot_cell (retry (slot_value s) rand dcid scid token odcid).1,
     (retry (slot_value s) rand dcid scid token odcid).2).
Proof.
  intros Hs%slot_unused_cell. rewrite Hs at 1. apply retry_cell_slot_cell.
Qed.

(** The invariant: a call of [retry] leaves the cell unused. *)
Lemma retry_cell_unused s rand dcid scid token odcid :
  slot_unused s → slot_unused (retry_cell s rand dcid scid token odcid).1.
Proof.
  intros Hs%slot_unused_cell. rewrite Hs, retry_cell_slot_cell.
  apply slot_cell_unused.
Qed.

(** A cell that is borrowed mutably, or as often as the flag can count,
    makes [retry] panic in [borrow]; the cell stays as it is.  Nothing in
    packet2.rs borrows the cell mutably or keeps a borrow, so this
    branch is never taken. *)
Lemma retry_cell_Panic c rand (r0 : Z) dcid scid token odcid :
  rand !! 0%nat = Some r0 → ¬ (0 ≤ cell_flag c < isize_max) →
  retry_cell (Alive c) rand dcid scid token odcid = (Alive c, Panic).
Proof.
  intros Hr Hf. unfold retry_cell. rewrite (retry_start_Ok _ _ _ _ _ _ Hr).
  cbn [try_with_cell]. by rewrite seal_retry_Panic.
Qed.

End refines.

(** ** The cells of all threads *)

Section process.
Context {K A : Type} {factory : AeadFactory K A} {aead_ops : Aead A}.

(** The slots of [RETRY_AEAD] by thread, each holding a cell. *)
Definition cells : Type := gmap nat (slot (RefCell A)).

Definition cell_of (cs : cells) (t : nat) : slot (RefCell A) :=
  default Uninit (cs !! t).

(** [PacketBuilder::retry] called by thread [t]. *)
Definition retry_in_cell (t : nat) (cs : cells) (rand : list Z)
    (dcid scid : ConnectionId) (token : list Z) (odcid : ConnectionId)
  : cells * Res (list Z) :=
  let '(s, r) := retry_cell (cell_of cs t) rand dcid scid token odcid in
  (<[t := s]> cs, r).

Definition do_event_cell (cs : cells) (ev : event)
  : cells * option (Res (list Z)) :=
  match ev with
  | CallRetry t rand dcid scid token odcid =>
      let '(cs, r) := retry_in_cell t cs rand dcid scid token odcid in
      (cs, Some r)
  | ExitThread t => (<[t := Destroyed]> cs, None)
  end.

Fixpoint run_events_cell (cs : cells) (evs : list event)
  : cells * list (nat * Res (list Z)) :=
  match evs with
  | [] => (cs, [])
  | ev :: evs =>
      let '(cs1, r) := do_event_cell cs ev in
      let '(cs2, rs) := run_events_cell cs1 evs in
      (cs2, match r with
            | Some r => (thread_of ev, r) :: rs
            | None => rs
            end)
  end.

(** The process of [Threads] for a process with cells, and back. *)
Definition cells_value (cs : cells) : slots (A:=A) := slot_value <$> cs.

Definition slots_cell (ts : slots (A:=A)) : cells := slot_cell <$> ts.

(** The invariant of the process: no cell is borrowed. *)
Definition cells_unused (cs : cells) : Prop :=
  map_Forall (λ _ s, slot_unused s) cs.

#[export] Instance cells_unused_dec cs : Decision (cells_unused cs).
Proof. unfold cells_unused. apply _. Defined.

Implicit Types (cs : cells) (ts : slots (A:=A)) (t : nat) (ev : event)
  (evs : list event).

(** A process that starts has no cells. *)
Lemma cells_unused_empty : cells_unused ∅.
Proof. unfold cells_unused, cells. apply map_Forall_empty. Qed.

Lemma cell_of_slots_cell ts t :
  cell_of (slots_cell ts) t = slot_cell (slot_of ts t).
Proof.
  unfold cell_of, slot_of, slots_cell, cells, slots in *. rewrite lookup_fmap.
  by destruct (ts !! t).
Qed.

Lemma cells_unused_slots_cell cs :
  cells_unused cs ↔ cs = slots_cell (cells_value cs).
Proof.
  unfold cells_unused, slots_cell, cells_value, cells, slots in *.
  rewrite map_Forall_lookup. split.
  - intros Hu. apply map_eq. intros t. rewrite !lookup_fmap.
    destruct (cs !! t) as [s|] eqn:Ht; [|done]. simpl. f_equal.
    by apply slot_unused_cell, (Hu t).
  - intros Heq t s Ht. rewrite Heq, !lookup_fmap in Ht.
    destruct (cs !! t) as [s'|]; [|done]. injection Ht as <-.
    apply slot_cell_unused.
Qed.

Lemma slots_cell_insert ts t (s : slot A) :
  slots_cell (<[t := s]> ts) = <[t := slot_cell s]> (slots_cell ts).
Proof. unfold slots_cell, cells, slots in *. apply fmap_insert. Qed.

Lemma cells_value_slots_cell ts : cells_value (slots_cell ts) = ts.
Proof.
  unfold cells_value, slots_cell, cells, slots in *.
  rewrite <- map_fmap_compose. apply map_eq. intros t.
  rewrite lookup_fmap. destruct (ts !! t) as [s|]; [|done]. simpl.
  by rewrite slot_value_cell.
Qed.

Lemma do_event_slots_cell ts ev :
  do_event_cell (slots_cell ts) ev
  = (slots_cell (do_event ts ev).1, (do_event ts ev).2).
Proof.
  destruct ev as [t rand dcid scid token odcid|t];
    cbn [do_event_cell do_event fst snd];
    [|by rewrite slots_cell_insert].
  unfold retry_in_cell, retry_in.
  rewrite cell_of_slots_cell, retry_cell_slot_cell.
  destruct (retry _ _ _ _ _ _) as [s r]. cbn [fst snd].
  by rewrite slots_cell_insert.
Qed.

Lemma run_events_slots_cell ts evs :
  run_events_cell (slots_cell ts) evs
  = (slots_cell (run_events ts evs).1, (run_events ts evs).2).
Proof.
  revert ts. induction evs as [|ev evs IH]; intros ts; [done|].
  cbn [run_events_cell run_events]. rewrite do_event_slots_cell.
  destruct (do_event ts ev) as [ts1 r]. cbn [fst snd]. rewrite IH.
  by destruct (run_events ts1 evs).
Qed.


(** The invariant is kept. *)
Lemma run_events_cell_unused cs evs :
  cells_unused cs → cells_unused (run_events_cell cs evs).1.
Proof.
  intros Hu%cells_unused_slots_cell. rewrite Hu, run_events_slots_cell.
  cbn [fst]. apply cells_unused_slots_cell.
  by rewrite cells_value_slots_cell.
Qed.

End process.

(** ** The theorems at the Retry packet of the test *)

Lemma retry_cell_refines_witness :
  retry_cell (factory:=test_factory true) Uninit [0x5f] [] SERVER_CID
    RETRY_TOKEN CLIENT_CID
  = (slot_cell
       (retry (factory:=test_factory true) (slot_value Uninit) [0x5f] []
          SERVER_CID RETRY_TOKEN CLIENT_CID).1,
     (retry (factory:=test_factory true) (slot_value Uninit) [0x5f] []
        SERVER_CID RETRY_TOKEN CLIENT_CID).2).
Proof.
  exact (retry_cell_refines (factory:=test_factory true) Uninit [0x5f] []
           SERVER_CID RETRY_TOKEN CLIENT_CID I).
Defined.

(** The first call of a thread fills its slot with an unused cell and
    returns the packet of the test. *)
Lemma retry_cell_first_use :
  retry_cell (factory:=test_factory true) Uninit [0x5f] [] SERVER_CID
    RETRY_TOKEN CLIENT_CID
  = (Alive (RefCell_new test_retry_aead), Ok ex_retry).
Proof. by vm_compute. Qed.

(** Two threads; the second exits; the first calls [retry] again. *)
Definition ex_events : list event :=
  [CallRetry 0 [0x5f] [] SERVER_CID RETRY_TOKEN CLIENT_CID;
   CallRetry 1 [0x5f] [] SERVER_CID RETRY_TOKEN CLIENT_CID;
   ExitThread 1;
   CallRetry 1 [0x51] [] SERVER_CID RETRY_TOKEN CLIENT_CID;
   CallRetry 0 [0x5f] [] SERVER_CID RETRY_TOKEN CLIENT_CID].


(** What the calls return, and the cells at the end: the calls return
    the packet of the test, except that a thread that has exited gets
    [InternalError]; the cell of thread 0 is unused. *)
Lemma run_events_cell_example :
  (run_events_cell (factory:=test_factory true) ∅ ex_events).2
  = [(0%nat, Ok ex_retry);
     (1%nat, Ok ex_retry);
     (1%nat, Err InternalError);
     (0%nat, Ok ex_retry)] ∧
  cell_of (run_events_cell (factory:=test_factory true) ∅ ex_events).1 0
  = Alive (RefCell_new test_retry_aead) ∧
  cell_of (run_events_cell (factory:=test_factory true) ∅ ex_events).1 1
  = Destroyed.
Proof. by vm_compute. Qed.

(** A cell that is borrowed mutably: [retry] panics. *)
Lemma retry_cell_Panic_example :
  retry_cell (factory:=test_factory true)
    (Alive (mkRefCell test_retry_aead (-1))) [0x5f] [] SERVER_CID
    RETRY_TOKEN CLIENT_CID
  = (Alive (mkRefCell test_retry_aead (-1)), Panic).
Proof. by vm_compute. Qed.
