(* ===== verification/Random.v ===== *)
(** * The random source

    [retry] and [version_negotiation] draw their random bytes from
    [neqo_crypto::random] (packet2.rs lines 236 and 256), which fills a
    buffer of the size asked for from the generator of NSS and panics
    when NSS fails.  In [OneShot] the bytes drawn are an argument, and
    the theorems there assume that there are enough of them.  This file
    models the source as a provider with a state, like the encryption
    provider, and the two functions drawing from it; a source that
    keeps its law returns as many bytes as it is asked for, so the
    indices [random(1)[0]] and [grease[4]] and the slice [grease[0..4]]
    are in range and the assumptions of [OneShot] hold. *)

From Stdlib Require Import ZArith Lia.
From stdpp Require Import base option list numbers.
From S2P Require Import Prelude Encoder PacketType Crypto Builder OneShot Threads Cell.

#[local] Open Scope Z_scope.

(** ** The interface *)

(** [neqo_crypto::random(size)]: the bytes, or a panic, and the
    generator afterwards. *)
Class Random (G : Type) : Type := random : G → nat → G * Res (list Z).

(** A source that works returns [size] bytes; it has no errors to
    return. *)
Class RandomLaws (G : Type) `{Random G} : Prop := {
  random_length g n g' bs : random g n = (g', Ok bs) → length bs = n;
  random_bytes_ok g n g' bs : random g n = (g', Ok bs) → bytes_ok bs;
  random_no_Err g n err : (random g n).2 ≠ Err err;
}.

(** ** A deterministic test source *)

(** A counter: the bytes drawn are the numbers that follow [rng_next],
    reduced to bytes; a source that is [rng_broken] panics. *)
Record TestRng : Set := mkTestRng {
  rng_next : Z;
  rng_broken : bool;
}.

#[export] Instance TestRng_eq_dec : EqDecision TestRng.
Proof. solve_decision. Defined.

#[export] Instance TestRng_Random : Random TestRng := λ g n,
  if rng_broken g then (g, Panic)
  else (mkTestRng (rng_next g + Z.of_nat n) false,
        Ok ((λ i, u8 (rng_next g + Z.of_nat i)) <$> seq 0 n)).

#[export] Instance TestRng_laws : RandomLaws TestRng.
Proof.
  split; unfold random, TestRng_Random; intros g n.
  - intros g' bs. destruct (rng_broken g); [done|]. intros [= _ <-].
    by rewrite length_fmap, length_seq.
  - intros g' bs. destruct (rng_broken g); [done|]. intros [= _ <-].
    apply Forall_fmap, Forall_forall. intros i _. apply u8_is_u8.
  - intros err. by destruct (rng_broken g).
Qed.

(** ** The two functions with their source *)

Section drawing.
Context {G : Type} {rng : Random G}
  {K A : Type} {factory : AeadFactory K A} {aead_ops : Aead A}.
Implicit Types (g : G) (s : slot (RefCell A)) (rand token : list Z)
  (dcid scid odcid : ConnectionId).

(** [PacketBuilder::retry] up to the token (packet2.rs lines 229-241),
    the random nibble drawn where the source draws it. *)
Definition retry_start_rng g dcid scid token odcid
  : G * Res (nat * Encoder) :=
  match encode_vec 1 odcid [] with
  | Ok encoder =>
      let start := length encoder in
      let '(g, drawn) := random g 1 in
      (g,
       rand ← drawn;
       r0 ← index rand 0;
       let encoder :=
         encode_byte (Z.lor (Z.lor (Z.lor PACKET_BIT_LONG PACKET_BIT_FIXED_QUIC)
                               (u8 (PACKET_TYPE_RETRY ≪ 4)))
                        (Z.land r0 0xf)) encoder in
       encoder ← encode_uint 4 QUIC_VERSION encoder;
       encoder ← encode_vec 1 dcid encoder;
       encoder ← encode_vec 1 scid encoder;
       Ok (start, encode token encoder))
  | Err err => (g, Err err)
  | Panic => (g, Panic)
  end.

(** [PacketBuilder::retry]: the source, the slot of the calling thread
    with its cell, and the result. *)
Definition retry_rng g s dcid scid token odcid
  : G * slot (RefCell A) * Res (list Z) :=
  let '(g, started) := retry_start_rng g dcid scid token odcid in
  match started with
  | Ok (start, encoder) =>
      let '(s, accessed) := try_with_cell s (seal_retry encoder) in
      (g, s, retry_finish start encoder accessed)
  | Err err => (g, s, Err err)
  | Panic => (g, s, Panic)
  end.

(** [PacketBuilder::version_negotiation]: [random(5)] is drawn first. *)
Definition version_negotiation_rng g dcid scid : G * Res (list Z) :=
  let '(g, drawn) := random g 5 in
  (g, grease ← drawn; version_negotiation grease dcid scid).

End drawing.

(** ** Theorems *)

Section drawn.
Context {G : Type} {rng : Random G}
  {K A : Type} {factory : AeadFactory K A} {aead_ops : Aead A}.
Implicit Types (g : G) (s : slot (RefCell A)) (rand token : list Z)
  (dcid scid odcid : ConnectionId).

(** Once the byte is drawn, [retry] goes on as [retry_start] says. *)
Lemma retry_start_rng_drawn g g' drawn dcid scid token odcid :
  random g 1 = (g', drawn) →
  retry_start_rng g dcid scid token odcid
  = (g', rand ← drawn; retry_start rand dcid scid token odcid).
Proof.
  intros Hd. unfold retry_start_rng, retry_start.
  rewrite encode_vec1_Ok, Hd. by destruct drawn.
Qed.

(** [retry] with its source is [retry] of [Cell] on the bytes drawn. *)
Lemma retry_rng_drawn g g' rand s dcid scid token odcid :
  random g 1 = (g', Ok rand) →
  retry_rng g s dcid scid token odcid
  = (g', (retry_cell s rand dcid scid token odcid).1,
     (retry_cell s rand dcid scid token odcid).2).
Proof.
  intros Hd. unfold retry_rng, retry_cell.
  rewrite (retry_start_rng_drawn _ _ _ _ _ _ _ Hd). outcome_simpl.
  destruct (retry_start _ _ _ _ _) as [[start encoder]| |]; [|done..].
  by destruct (try_with_cell _ _).
Qed.

(** A source that panics: nothing is built and the slot is not
    touched. *)
Lemma retry_rng_no_random g g' s dcid scid token odcid :
  random g 1 = (g', Panic) →
  retry_rng g s dcid scid token odcid = (g', s, Panic).
Proof.
  intros Hd. unfold retry_rng.
  by rewrite (retry_start_rng_drawn _ _ _ _ _ _ _ Hd).
Qed.

End drawn.

Section lawful.
Context {G : Type} {rng : Random G} {rlaws : RandomLaws G}
  {K A : Type} {factory : AeadFactory K A} {aead_ops : Aead A}
  {alaws : AeadLaws A}.
Implicit Types (g : G) (s : slot (RefCell A)) (rand token : list Z)
  (dcid scid odcid : ConnectionId).

(** What a source returns: the bytes asked for, or a panic. *)
Lemma random_cases g n :
  (∃ g' bs, random g n = (g', Ok bs) ∧ length bs = n ∧ bytes_ok bs)
  ∨ (∃ g', random g n = (g', Panic)).
Proof.
  destruct (random g n) as [g' [bs|err|]] eqn:Hr.
  - left. exists g', bs. split; [done|].
    split; [by eapply random_length|by eapply random_bytes_ok].
  - by destruct (random_no_Err g n err); rewrite Hr.
  - right. by exists g'.
Qed.

Lemma random_one g g' rand :
  random g 1 = (g', Ok rand) → ∃ r0, rand = [r0].
Proof.
  intros Hl%random_length. destruct rand as [|r0 [|]]; [done| |done].
  by exists r0.
Qed.

Lemma random_five g g' rand :
  random g 5 = (g', Ok rand) →
  ∃ x0 x1 x2 x3 x4, rand = [x0; x1; x2; x3; x4].
Proof.
  intros Hl%random_length.
  destruct rand as [|x0 [|x1 [|x2 [|x3 [|x4 [|]]]]]]; try done.
  by exists x0, x1, x2, x3, x4.
Qed.

(** C30: [retry] with its source and the cell of its thread, on every
    branch.  With a source and an AEAD that keep their laws, and a slot
    whose cell, if it has one, is not borrowed: [retry] draws one byte
    [r0] and returns the header with the nibble of [r0] followed by the
    tag, or the error of the AEAD, or [InternalError] when the
    thread-local is destroyed; the cell is unused again.  It panics
    exactly when the source panics or when the AEAD cannot be made on
    first use.  The index [random(1)[0]] is always in range. *)
Theorem retry_rng_total g s dcid scid token odcid :
  slot_unused s →
  let r := retry_rng g s dcid scid token odcid in
  r.1.1 = (random g 1).1 ∧ slot_unused r.1.2 ∧
  (r.2 = Panic ↔
   (random g 1).2 = Panic ∨ (s = Uninit ∧ make_retry_aead (A:=A) = Panic)) ∧
  ∀ r0, (random g 1).2 = Ok [r0] →
    r.2 = (retry (slot_value s) [r0] dcid scid token odcid).2.
Proof.
  intros Hs r. subst r.
  destruct (random_cases g 1) as [(g' & rand & Hd & _)|[g' Hd]].
  - destruct (random_one _ _ _ Hd) as [r0 ->].
    rewrite (retry_rng_drawn _ _ _ _ _ _ _ _ Hd), Hd. cbn [fst snd].
    split; [done|]. split; [by apply retry_cell_unused|].
    rewrite (retry_cell_refines s) by done. cbn [snd].
    split; [|by intros ? [= <-]].
    destruct s as [|c|]; cbn [slot_value].
    + rewrite (retry_Uninit _ r0) by done.
      destruct make_retry_aead as [a| |] eqn:Hm; cbn [snd].
      * rewrite retry_Panic_iff. naive_solver.
      * naive_solver.
      * naive_solver.
    + rewrite retry_Panic_iff. naive_solver.
    + rewrite (retry_Destroyed_eq _ r0) by done. naive_solver.
  - rewrite (retry_rng_no_random _ _ _ _ _ _ _ Hd), Hd. cbn [fst snd].
    split; [done|]. split; [done|]. split; [by split; [left|]|done].
Qed.

(** [version_negotiation] with its source.  The function has no error
    to return and its type promises a packet: with a source that keeps
    its law it panics only when the source panics, and otherwise
    returns the packet made of the five bytes drawn.  The index
    [grease[4]] and the two slices [grease[0..4]] are always in
    range. *)
Theorem version_negotiation_rng_total g dcid scid :
  (∃ g' x0 x1 x2 x3 x4,
     random g 5 = (g', Ok [x0; x1; x2; x3; x4]) ∧
     version_negotiation_rng g dcid scid
     = (g', Ok (vn_bytes x0 x1 x2 x3 x4 dcid scid)))
  ∨ (∃ g', random g 5 = (g', Panic) ∧
           version_negotiation_rng g dcid scid = (g', Panic)).
Proof.
  unfold version_negotiation_rng.
  destruct (random_cases g 5) as [(g' & rand & Hd & _)|[g' Hd]].
  - destruct (random_five _ _ _ Hd) as (x0 & x1 & x2 & x3 & x4 & ->).
    left. exists g', x0, x1, x2, x3, x4. split; [done|]. rewrite Hd.
    outcome_simpl. by rewrite version_negotiation_cons.
  - right. exists g'. split; [done|]. by rewrite Hd.
Qed.

End lawful.

(** ** The theorems at the packets of the tests *)

Lemma retry_rng_total_witness :
  let r := retry_rng (factory:=test_factory true) (mkTestRng 0x5f false)
             Uninit [] SERVER_CID RETRY_TOKEN CLIENT_CID in
  r.1.1 = (random (mkTestRng 0x5f false) 1).1 ∧ slot_unused r.1.2 ∧
  (r.2 = Panic ↔
   (random (mkTestRng 0x5f false) 1).2 = Panic
   ∨ (Uninit (A:=RefCell TestAead) = Uninit
      ∧ make_retry_aead (factory:=test_factory true) = Panic)) ∧
  ∀ r0, (random (mkTestRng 0x5f false) 1).2 = Ok [r0] →
    r.2 = (retry (factory:=test_factory true) (slot_value Uninit) [r0] []
             SERVER_CID RETRY_TOKEN CLIENT_CID).2.
Proof.
  exact (retry_rng_total (factory:=test_factory true) (mkTestRng 0x5f false)
           Uninit [] SERVER_CID RETRY_TOKEN CLIENT_CID I).
Defined.

(** The first call of a thread, with a source that yields [0x5f]: the
    source has moved on by one byte, the slot holds the AEAD in an
    unused cell, and the packet is the one of the test. *)
Lemma retry_rng_example :
  retry_rng (factory:=test_factory true) (mkTestRng 0x5f false) Uninit []
    SERVER_CID RETRY_TOKEN CLIENT_CID
  = (mkTestRng 0x60 false, Alive (RefCell_new test_retry_aead), Ok ex_retry).
Proof. by vm_compute. Qed.

Lemma retry_rng_broken_example :
  retry_rng (factory:=test_factory true) (mkTestRng 0x5f true) Uninit []
    SERVER_CID RETRY_TOKEN CLIENT_CID
  = (mkTestRng 0x5f true, Uninit, Panic).
Proof. by vm_compute. Qed.

Lemma version_negotiation_rng_total_witness :
  (∃ g' x0 x1 x2 x3 x4,
     random (mkTestRng 0x11 false) 5 = (g', Ok [x0; x1; x2; x3; x4]) ∧
     version_negotiation_rng (mkTestRng 0x11 false) SERVER_CID CLIENT_CID
     = (g', Ok (vn_bytes x0 x1 x2 x3 x4 SERVER_CID CLIENT_CID)))
  ∨ (∃ g', random (mkTestRng 0x11 false) 5 = (g', Panic) ∧
           version_negotiation_rng (mkTestRng 0x11 false) SERVER_CID
             CLIENT_CID = (g', Panic)).
Proof.
  exact (version_negotiation_rng_total (mkTestRng 0x11 false) SERVER_CID
           CLIENT_CID).
Defined.

Lemma version_negotiation_rng_example :
  version_negotiation_rng (mkTestRng 0x11 false) SERVER_CID CLIENT_CID
  = (mkTestRng 0x16 false,
     Ok (vn_bytes 0x11 0x12 0x13 0x14 0x15 SERVER_CID CLIENT_CID)).
Proof. by vm_compute. Qed.
