(* ===== verification/Wire.v ===== *)
(** * The packet on the wire, as the receiver reads it

    packet2.rs has no decoding path; the specification gives the layout of
    each packet and says how header protection is sampled and applied.
    This file states the receiving side as reference definitions (where
    the sample lies, how protection is removed by a receiver that does not
    yet know the length of the packet number, how the fields of a header
    are read, and the three composed into a receiver that is given the
    bytes of a packet and the keys), proves that removing protection undoes
    what [build] applied, and that the readers read a header laid out as
    the specification says.  [EndToEnd] composes them with the builder. *)

From Stdlib Require Import ZArith Lia.
From stdpp Require Import base option list numbers.
From S2P Require Import Prelude Encoder PacketType Crypto Builder Protection Lifecycle.

#[local] Open Scope Z_scope.

(** ** Removing header protection *)

(** The bits of the first byte that are protected: four in a long header,
    five in a short one.  The receiver tells the two apart by the top bit,
    which is never masked. *)
Definition wire_mask_bits (first : Z) : Z :=
  if decide (Z.land first 0x80 = PACKET_BIT_LONG) then 0x0f else 0x1f.

(** The sample of a protected packet whose packet number starts at
    [pn_offset]: sixteen bytes, four bytes after that offset, whatever the
    length of the packet number. *)
Definition wire_sample (pn_offset : nat) (pkt : list Z) : option (list Z) :=
  let sample := take SAMPLE_SIZE (drop (pn_offset + 4) pkt) in
  if decide (length sample = SAMPLE_SIZE) then Some sample else None.

(** The length of the packet number that an unprotected first byte
    announces. *)
Definition wire_pn_len (first : Z) : nat := S (Z.to_nat (Z.land first 0x03)).

(** Removal of header protection: unmask the first byte, read the length
    of the packet number from it, unmask that many bytes at [pn_offset].
    The result is the packet with its header in clear and the length of
    the packet number. *)
Definition unprotect (mask : list Z) (pn_offset : nat) (pkt : list Z)
  : option (list Z * nat) :=
  first ← pkt !! 0%nat;
  m0 ← mask !! 0%nat;
  let first' := Z.lxor first (Z.land m0 (wire_mask_bits first)) in
  let n := wire_pn_len first' in
  if decide (n < length mask ∧ 0 < pn_offset ∧ pn_offset + n ≤ length pkt)%nat
  then Some (<[0%nat := first']> (xor_at pn_offset (take n (drop 1 mask)) pkt),
             n)
  else None.

Section unprotect.
Implicit Types (mask hdr rest ct pkt : list Z) (first fbm : Z) (n : nat).

Lemma wire_mask_bits_top first : Z.land (wire_mask_bits first) 0x80 = 0.
Proof. unfold wire_mask_bits. by case_decide. Qed.

Lemma wire_mask_bits_low first : Z.land (wire_mask_bits first) 0x03 = 0x03.
Proof. unfold wire_mask_bits. by case_decide. Qed.

(** Masking under [wire_mask_bits] does not change which mask applies. *)
Lemma wire_mask_bits_masked first m :
  wire_mask_bits (Z.lxor first (Z.land m (wire_mask_bits first)))
  = wire_mask_bits first.
Proof.
  unfold wire_mask_bits at 1 3.
  rewrite land_lxor_distr_l, <- Z.land_assoc, wire_mask_bits_top.
  by rewrite Z.land_0_r, Z.lxor_0_r.
Qed.

Lemma wire_pn_len_low first n :
  (1 ≤ n)%nat → Z.land first 0x03 = Z.of_nat (n - 1) → wire_pn_len first = n.
Proof. intros Hn Hf. unfold wire_pn_len. rewrite Hf. lia. Qed.

(** The receiver's removal undoes [protect], and finds the length of the
    packet number on the way. *)
Lemma unprotect_protect mask first rest ct n :
  (1 ≤ n ≤ length rest)%nat → (n < length mask)%nat →
  Z.land first 0x03 = Z.of_nat (n - 1) →
  unprotect mask (S (length rest) - n)
    (protect mask (wire_mask_bits first) n (first :: rest) ++ ct)
  = Some ((first :: rest) ++ ct, n).
Proof.
  intros Hn Hmask Hlow.
  destruct (lookup_lt_is_Some_2 mask 0) as [m0 Hm0]; [lia|].
  unfold unprotect. cbn [protect app lookup list_lookup]. rewrite Hm0.
  cbn [mbind option_bind default].
  rewrite wire_mask_bits_masked, lxor_cancel_r.
  rewrite (wire_pn_len_low _ n) by (done || lia).
  rewrite decide_True by
    (simpl; rewrite length_app, length_xor_tail by len; lia).
  do 2 f_equal.
  replace (S (length rest) - n)%nat with (S (length rest - n)) by lia.
  rewrite xor_at_cons. cbn [insert list_insert]. f_equal.
  rewrite xor_at_app_r by (rewrite length_xor_tail by len; len).
  f_equal. rewrite xor_at_end by (rewrite length_xor_tail by len; len).
  unfold xor_tail.
  rewrite take_app_length', drop_app_length' by len.
  rewrite zip_with_take_r' by (rewrite length_zip_with; len).
  rewrite zip_with_lxor_cancel by len. apply take_drop.
Qed.

End unprotect.

(** ** The sample *)

Section sample.
Implicit Types (pre pnb ct sample : list Z) (n : nat).

(** The sender samples the ciphertext at [4 - pn_len]; in the packet that
    is four bytes after the start of the packet number, wherever the packet
    number ends. *)
Lemma sample_of_inv n ct sample :
  sample_of n ct = Ok sample →
  (n ≤ 4)%nat ∧ (4 - n + SAMPLE_SIZE ≤ length ct)%nat ∧
  sample = take SAMPLE_SIZE (drop (4 - n) ct).
Proof.
  intros Hs. destruct (decide (n ≤ 4)%nat) as [Hn|Hn].
  - destruct (decide (4 - n + SAMPLE_SIZE ≤ length ct)%nat) as [Hl|Hl].
    + rewrite sample_of_Ok in Hs by done. by injection Hs as <-.
    + by rewrite sample_of_Panic in Hs by lia.
  - unfold sample_of in Hs.
    by rewrite (proj2 (Nat.leb_gt n 4)) in Hs by lia.
Qed.

Lemma wire_sample_sample_of pre pnb ct sample :
  sample_of (length pnb) ct = Ok sample →
  wire_sample (length pre) (pre ++ pnb ++ ct) = Some sample.
Proof.
  intros (Hn & Hl & ->)%sample_of_inv. unfold wire_sample.
  rewrite drop_app_add' by done. rewrite drop_app_ge by done.
  rewrite decide_True; [done|]. len.
Qed.

(** The same, for a header that ends in the packet number. *)
Lemma wire_sample_header hdr ct n sample :
  (n ≤ length hdr)%nat → sample_of n ct = Ok sample →
  wire_sample (length hdr - n) (hdr ++ ct) = Some sample.
Proof.
  intros Hn Hs. rewrite <- (take_drop (length hdr - n) hdr) at 2.
  rewrite <- app_assoc.
  replace (length hdr - n)%nat with (length (take (length hdr - n) hdr))
    at 1 by len.
  apply wire_sample_sample_of. by replace (length (drop _ hdr)) with n by len.
Qed.

End sample.

(** ** The mask the builder records is the mask the receiver uses *)

(** The builder's [first_byte_mask] is the one the top bit of its first
    byte stands for. *)
Definition mask_agrees (b : PacketBuilder) : Prop :=
  ∃ first, first_byte b = Some first ∧
           first_byte_mask (offsets b) = wire_mask_bits first.

Section mask_agrees.
Implicit Types (b : PacketBuilder) (e : Encoder) (c : call) (cs : list call).

Lemma short_mask_agrees e kp dcid : mask_agrees (short e kp dcid).
Proof.
  exists (short_first kp). split; [apply short_first_byte|]. by destruct kp.
Qed.

Lemma long_mask_agrees e pt dcid scid b :
  long e pt dcid scid = Ok b → mask_agrees b.
Proof.
  intros Hb. destruct (code (E:=Error) pt) as [c| |] eqn:Hc;
    [|by destruct pt..].
  rewrite (long_Ok _ _ _ _ _ Hc) in Hb. injection Hb as <-.
  exists (long_first c). split.
  - unfold first_byte. simpl. by rewrite list_lookup_middle.
  - simpl. unfold wire_mask_bits.
    by rewrite decide_True by (eapply long_first_long, code_range, Hc).
Qed.

Lemma mask_agrees_app b k :
  mask_agrees b → mask_agrees (set_encoder (encoder b ++ k) b).
Proof.
  intros (first & Hf & Hm). exists first. split; [|done].
  rewrite first_byte_app; [done|]. by rewrite Hf.
Qed.

Lemma pn_result_mask_agrees v l first b :
  first_byte b = Some first → (1 ≤ l ≤ 4)%nat →
  mask_agrees b → mask_agrees (pn_result v l first b).
Proof.
  intros Hf Hl (first' & Hf' & Hm). assert (first' = first) as -> by congruence.
  eexists. split; [by apply pn_result_first_byte|]. simpl. rewrite Hm.
  unfold wire_mask_bits. by rewrite pn_len_bits by done.
Qed.

Lemma do_call_mask_agrees b c b' :
  mask_agrees b → do_call b c = Ok b' → mask_agrees b'.
Proof.
  intros Hm. destruct c as [token|v l|bytes]; simpl.
  - intros (first & _ & _ & _ & ->)%initial_token_inv. by apply mask_agrees_app.
  - intros (first & Hf & Hl & ->)%pn_inv. by apply pn_result_mask_agrees.
  - intros [= <-]. by apply mask_agrees_app.
Qed.

Lemma run_mask_agrees e o b cs b' :
  open_builder e o = Ok b → run b cs = Ok b' → mask_agrees b'.
Proof.
  intros Ho. apply (for_each_ind mask_agrees do_call cs).
  - intros. by eapply do_call_mask_agrees.
  - destruct o; simpl in Ho.
    + injection Ho as <-. apply short_mask_agrees.
    + by eapply long_mask_agrees.
Qed.

Lemma with_len_mask_agrees x b :
  numbered b → mask_agrees b → mask_agrees (with_len x b).
Proof.
  intros Hn (first & Hf & Hm). exists first.
  destruct (with_len_fields x b) as (Hh & Ho & _). rewrite Ho. split; [|done].
  unfold first_byte in *. rewrite Hh, with_len_lookup by (done || lia). done.
Qed.

End mask_agrees.

(** ** From the sender to the receiver *)

Section receive.
Context {St : Type} `{CryptoDxLaws St}.
Implicit Types (crypto : St) (b : PacketBuilder) (e : Encoder).

(** The header of a numbered builder as the receiver will see it in
    clear. *)
Lemma numbered_header_shape x b :
  numbered b → mask_agrees b →
  ∃ first rest,
    header_bytes (with_len x b) = first :: rest ∧
    Z.land first 0x03 = Z.of_nat (pn_len b - 1) ∧
    first_byte_mask (offsets b) = wire_mask_bits first ∧
    (1 ≤ pn_len b ≤ length rest)%nat ∧
    (start (offsets_pn (offsets b)) - start (header b))%nat
    = (S (length rest) - pn_len b)%nat.
Proof.
  intros Hn Hma. pose proof (with_len_numbered x b Hn) as Hn1.
  destruct (with_len_mask_agrees x b Hn Hma) as (first & Hf & Hfbm).
  destruct (with_len_fields x b) as (Hh & Ho & _).
  destruct (header_bytes_cons _ (numbered_laid_out _ Hn1))
    as (first1 & rest & Hf1 & Hhdr & Hrest & Hoff).
  destruct (numbered_first _ Hn1) as (first2 & Hf2 & Hlow).
  destruct (numbered_bounds _ Hn) as (H5 & H6 & H7 & H8).
  assert (pn_len (with_len x b) = pn_len b) as Hpl
    by (unfold pn_len; by rewrite Ho).
  fold (pn_len (with_len x b)) in Hlow. rewrite Hpl, ?Hh, ?Ho in *.
  simplify_eq. exists first, rest. repeat split; try done; lia.
Qed.

(** The receiver reads back what the sender protected.  For a builder
    on which [pn] has been called, whose first-byte mask is the one of its
    header form: in the packet [build] returns, the sixteen bytes that lie
    four bytes after the start of the packet number are the sample the
    sender used, so the same provider gives the receiver the same mask; and
    removing protection with that mask, without knowing the length of the
    packet number beforehand, returns the header the sender authenticated,
    followed by the ciphertext, and the length of the packet number. *)
Theorem receive_build crypto b crypto' e :
  numbered b → mask_agrees b → build crypto b = (crypto', Ok e) →
  let hdr := header_bytes (with_len (expansion crypto) b) in
  let pn_offset := (start (offsets_pn (offsets b)) - start (header b))%nat in
  let pkt := drop (start (header b)) e in
  ∃ ct sample mask,
    encrypt crypto (builder_pn b) hdr (body_bytes b) = (crypto', Ok ct) ∧
    wire_sample pn_offset pkt = Some sample ∧
    compute_mask crypto' sample = Ok mask ∧
    unprotect mask pn_offset pkt = Some (hdr ++ ct, pn_len b).
Proof.
  intros Hn Hma Hb hdr pn_offset pkt.
  apply build_numbered_inv in Hb as (ct & sample & mask & Henc & Hs & Hm & ->);
    [|done].
  fold hdr in Henc. exists ct, sample, mask. split; [done|].
  destruct (numbered_header_shape (expansion crypto) b Hn Hma)
    as (first & rest & Hhdr & Hlow & Hfbm & Hrest & Hpo).
  destruct (numbered_bounds _ Hn) as (H5 & H6 & H7 & H8).
  apply compute_mask_length in Hm as Hml.
  assert (pkt = protect mask (wire_mask_bits first) (pn_len b) hdr ++ ct)
    as ->.
  { unfold pkt. rewrite drop_app_length' by (rewrite length_prefix_bytes; lia).
    by rewrite Hfbm. }
  unfold pn_offset, hdr in *. rewrite Hpo, Hhdr.
  split; [|split; [done|]].
  - replace (S (length rest)) with
      (length (protect mask (wire_mask_bits first) (pn_len b) (first :: rest)))
      by (rewrite length_protect by lia; done).
    apply wire_sample_header; [|done]. rewrite length_protect by lia. simpl. lia.
  - apply unprotect_protect; [lia|lia|done].
Qed.

End receive.

(** ** The layout of a header *)

Section layout.
Implicit Types (e fields body : list Z) (first fbm : Z) (v : PacketNumber) (l x : nat).

(** A builder as [short] and [long] (and [initial_token]) leave it. *)
Definition started (e : Encoder) (first : Z) (fields : list Z) (fbm : Z)
  : PacketBuilder :=
  mkBuilder (e ++ first :: fields) u64_max (mkRange (length e) (length e))
    (mkOffsets fbm 0 (mkRange 0 0)).

(** The header of a packet as it is authenticated: first byte with the
    length of the packet number, the fields, for a long header the length
    of what follows, the packet number. *)
Definition wire_header (first : Z) (fields : list Z) (v : PacketNumber)
    (l : nat) (rest_len : nat) : list Z :=
  Z.lor first (u8 (Z.of_nat (l - 1))) :: fields
  ++ (if decide (Z.land first 0x80 = PACKET_BIT_LONG)
      then len_field (l + rest_len) else [])
  ++ be_bytes l v.

Lemma pn_result_started_encoder e first fields fbm v l :
  encoder (pn_result v l first (started e first fields fbm))
  = e ++ Z.lor first (u8 (Z.of_nat (l - 1))) :: fields
    ++ placeholder first ++ be_bytes l v.
Proof.
  unfold pn_result, started. simpl.
  rewrite <- !app_assoc. by rewrite insert_app_r_alt, Nat.sub_diag by lia.
Qed.

(** Two bytes overwritten in the middle of a buffer. *)
Lemma splice2 {X} (A ph B lf : list X) :
  length ph = 2%nat →
  take (length A) (A ++ ph ++ B) ++ lf ++ drop (length A + 2) (A ++ ph ++ B)
  = A ++ lf ++ B.
Proof.
  intros Hph. rewrite take_app_length, drop_app_add' by done.
  by rewrite drop_app_length' by done.
Qed.

Lemma with_len_started e first fields fbm v l body x :
  encoder (with_len x
    (payload body (pn_result v l first (started e first fields fbm))))
  = e ++ wire_header first fields v l (length body + x) ++ body.
Proof.
  unfold with_len, payload, deref_mut, encode.
  cbn [offsets set_encoder encoder]. rewrite pn_result_started_encoder.
  unfold wire_header, placeholder.
  cbn [pn_result started offsets offsets_len encoder].
  destruct (decide (Z.land first 0x80 = PACKET_BIT_LONG)) as [Hlong|Hshort].
  - rewrite decide_True by len. cbn [encoder set_encoder].
    set (A := e ++ first :: fields).
    set (A' := e ++ Z.lor first (u8 (Z.of_nat (l - 1))) :: fields).
    assert (length A = length A') as -> by (unfold A, A'; len).
    replace ((e ++ _ :: fields ++ [0; 0] ++ be_bytes l v) ++ body)
      with (A' ++ [0; 0] ++ be_bytes l v ++ body).
    2: { unfold A'. rewrite <- !app_assoc. simpl. by rewrite <- !app_assoc. }
    rewrite splice2 by done.
    assert ((length (A' ++ [0; 0]%Z ++ be_bytes l v ++ body)
             - (length A' + 2) + x)%nat
            = (l + (length body + x))%nat) as -> by len.
    unfold A'. rewrite <- !app_assoc. cbn [app]. by rewrite <- ?app_assoc.
  - rewrite decide_False by lia. cbn [encoder set_encoder].
    rewrite <- !app_assoc. cbn [app]. by rewrite <- ?app_assoc.
Qed.

Lemma length_wire_header first fields v l n :
  length (wire_header first fields v l n)
  = (1 + length fields + length (placeholder first) + l)%nat.
Proof. unfold wire_header, placeholder. case_decide; len. Qed.

Lemma header_bytes_started e first fields fbm v l body x :
  header_bytes (with_len x
    (payload body (pn_result v l first (started e first fields fbm))))
  = wire_header first fields v l (length body + x).
Proof.
  unfold header_bytes. rewrite with_len_started.
  destruct (with_len_fields x
    (payload body (pn_result v l first (started e first fields fbm))))
    as (-> & _ & _). cbn [payload deref_mut set_encoder header pn_result
      started start end_].
  rewrite app_assoc, take_app_length'.
  - by rewrite drop_app_length.
  - rewrite !length_app, length_wire_header. simpl. len.
Qed.
End layout.

(** ** Reading a header in clear *)

(** What a receiver reads from a long header. *)
Record long_seen : Set := mkLongSeen {
  seen_type : PacketType;
  seen_version : Z;
  seen_dcid : list Z;
  seen_scid : list Z;
  seen_token : option (list Z);
  seen_length : Z;
  seen_pn_len : nat;
  seen_pn : Z;
}.

(** What a receiver reads from a short header, knowing the length of its
    connection ID. *)
Record short_seen : Set := mkShortSeen {
  seen_key_phase : bool;
  seen_short_dcid : list Z;
  seen_short_pn_len : nat;
  seen_short_pn : Z;
}.

#[export] Instance long_seen_eq_dec : EqDecision long_seen.
Proof. solve_decision. Defined.

#[export] Instance short_seen_eq_dec : EqDecision short_seen.
Proof. solve_decision. Defined.

(** The token of an Initial packet: a varint length, then the bytes. *)
Definition read_token (pt : PacketType) (r : list Z)
  : option (option (list Z) * list Z) :=
  if decide (pt = Initial)
  then '(n, r) ← decode_varint r;
       if decide (Z.to_nat n ≤ length r)%nat
       then Some (Some (take (Z.to_nat n) r), drop (Z.to_nat n) r)
       else None
  else Some (None, r).

(** The fields of a long header up to and including the length.  Header
    protection leaves them alone (of the first byte only its top four bits
    are read), so a receiver reads them before protection is removed.  The
    result is what was read, still waiting for the packet number, and the
    bytes after the length. *)
Definition read_long_upto (pkt : list Z)
  : option ((nat → Z → long_seen) * list Z) :=
  first ← pkt !! 0%nat;
  if decide (Z.land first 0xc0 = 0xc0 ∧ (5 ≤ length pkt)%nat)
  then
    pt ← type_of_code (Z.land (first ≫ 4) 0x03);
    let version := be_value (take 4 (drop 1 pkt)) in
    '(dcid, r) ← decode_vec1 (drop 5 pkt);
    '(scid, r) ← decode_vec1 r;
    '(token, r) ← read_token pt r;
    '(len, r) ← decode_varint r;
    Some (mkLongSeen pt version dcid scid token len, r)
  else None.

(** A long header with a packet number (Initial, 0-RTT, Handshake), and
    what follows it. *)
Definition read_long (pkt : list Z) : option (long_seen * list Z) :=
  first ← pkt !! 0%nat;
  '(seen, r) ← read_long_upto pkt;
  let n := wire_pn_len first in
  if decide (n ≤ length r)%nat
  then Some (seen n (be_value (take n r)), drop n r)
  else None.

(** Where the packet number of a long-header packet starts. *)
Definition long_pn_offset (pkt : list Z) : option nat :=
  '(_, r) ← read_long_upto pkt;
  Some (length pkt - length r)%nat.

(** A short header whose connection ID has [cid_len] bytes. *)
Definition read_short (cid_len : nat) (pkt : list Z)
  : option (short_seen * list Z) :=
  first ← pkt !! 0%nat;
  let n := wire_pn_len first in
  if decide (Z.land first 0xc0 = 0x40 ∧ (1 + cid_len + n ≤ length pkt)%nat)
  then Some (mkShortSeen (Z.testbit first 2) (take cid_len (drop 1 pkt)) n
               (be_value (take n (drop (1 + cid_len) pkt))),
             drop (1 + cid_len + n) pkt)
  else None.

(** ** The receiver *)

Section receiver.
Context {St : Type} `{CryptoDx St}.
Implicit Types (crypto : St) (pkt : list Z).

(** Protection removed by a receiver that holds the keys: the sample four
    bytes after the start of the packet number, the mask of that sample,
    the unmasking. *)
Definition receive crypto (pn_offset : nat) pkt : option (list Z * nat) :=
  sample ← wire_sample pn_offset pkt;
  match compute_mask crypto sample with
  | Ok mask => unprotect mask pn_offset pkt
  | _ => None
  end.

(** A long-header packet from the wire: the fields in clear give the
    offset of the packet number, protection is removed, the header is
    read.  What is left is the ciphertext. *)
Definition receive_long crypto pkt : option (long_seen * list Z) :=
  pn_offset ← long_pn_offset pkt;
  '(clear, _) ← receive crypto pn_offset pkt;
  read_long clear.

(** A short-header packet from the wire, for a receiver that knows the
    length of its connection IDs. *)
Definition receive_short crypto (cid_len : nat) pkt
  : option (short_seen * list Z) :=
  '(clear, _) ← receive crypto (1 + cid_len)%nat pkt;
  read_short cid_len clear.
End receiver.

Section reading.
Implicit Types (dcid scid token rest fields : list Z) (v : PacketNumber)
  (l n : nat) (pt : PacketType) (c : Z).

Lemma decode_vec1_field (v r : list Z) :
  (length v < 256)%nat →
  decode_vec1 (u8 (Z.of_nat (length v)) :: v ++ r) = Some (v, r).
Proof.
  intros Hv. simpl. rewrite u8_small by (unfold is_u8; lia). rewrite Nat2Z.id.
  rewrite decide_True by len. by rewrite take_app_length, drop_app_length.
Qed.

Lemma read_token_field pt token r :
  (pt = Initial → Z.of_nat (length token) < 2 ^ 62) →
  read_token pt
    ((if decide (pt = Initial) then token_field token else []) ++ r)
  = Some (if decide (pt = Initial) then Some token else None, r).
Proof.
  intros Ht. unfold read_token, token_field. case_decide; [|done].
  rewrite <- app_assoc, decode_varint_bytes by (split; [lia|auto]). simpl.
  rewrite Nat2Z.id, decide_True by len.
  by rewrite take_app_length, drop_app_length.
Qed.

Lemma long_first_code c l :
  0 ≤ c < 4 → (1 ≤ l ≤ 4)%nat →
  let first := Z.lor (long_first c) (u8 (Z.of_nat (l - 1))) in
  Z.land first 0xc0 = 0xc0 ∧ Z.land (first ≫ 4) 0x03 = c ∧
  wire_pn_len first = l.
Proof.
  intros Hc Hl. assert (c = 0 ∨ c = 1 ∨ c = 2 ∨ c = 3) as Hcs by lia.
  assert (l = 1 ∨ l = 2 ∨ l = 3 ∨ l = 4)%nat as Hls by lia.
  destruct Hcs as [->|[->|[->| ->]]], Hls as [->|[->|[->| ->]]]; done.
Qed.

(** A long header in the layout of [wire_header], with what follows. *)
Lemma wire_header_long_app first fields v l rest_len rest :
  Z.land first 0x80 = PACKET_BIT_LONG →
  wire_header first fields v l rest_len ++ rest
  = Z.lor first (u8 (Z.of_nat (l - 1))) :: fields
    ++ len_field (l + rest_len) ++ be_bytes l v ++ rest.
Proof.
  intros Hlong. unfold wire_header. rewrite decide_True by done.
  by repeat first [rewrite <- app_assoc | rewrite <- app_comm_cons].
Qed.

(** The fields up to the length are read from any first byte that has the
    two top bits set and carries the type code. *)
Lemma read_long_upto_fields first pt c dcid scid token n r :
  code (E:=Error) pt = Ok c →
  Z.land first 0xc0 = 0xc0 → Z.land (first ≫ 4) 0x03 = c →
  (length dcid < 256)%nat → (length scid < 256)%nat →
  (pt = Initial → Z.of_nat (length token) < 2 ^ 62) →
  read_long_upto
    (first :: (long_fields dcid scid
               ++ (if decide (pt = Initial) then token_field token else []))
     ++ len_field n ++ r)
  = Some (mkLongSeen pt QUIC_VERSION dcid scid
            (if decide (pt = Initial) then Some token else None)
            (Z.of_nat n `mod` 2 ^ 14),
          r).
Proof.
  intros Hc Hbits Hcode Hd Hs Ht. unfold read_long_upto, long_fields.
  repeat first [rewrite <- app_assoc | rewrite <- app_comm_cons].
  cbn [lookup list_lookup mbind option_bind].
  rewrite (decide_True (P:=_ ∧ _)) by (split; [done|simpl; len]).
  rewrite Hcode, (type_of_code_code _ _ Hc). cbn [mbind option_bind].
  cbn [drop]. rewrite drop_0.
  rewrite (drop_app_length' (be_bytes 4 _)) by (by rewrite length_be_bytes).
  rewrite (take_app_length' (be_bytes 4 _)) by (by rewrite length_be_bytes).
  rewrite decode_vec1_field by done. cbn [mbind option_bind].
  rewrite decode_vec1_field by done. cbn [mbind option_bind].
  rewrite read_token_field by done. cbn [mbind option_bind].
  rewrite decode_varint_len_field. cbn [mbind option_bind].
  by rewrite (be_value_be_bytes 4).
Qed.

(** An Initial header without a token field: the reader takes the
    length field for the length of the token, the packet number and
    everything behind it for the token, and finds no length. *)
Lemma read_long_upto_no_token first dcid scid n r :
  Z.land first 0xc0 = 0xc0 → Z.land (first ≫ 4) 0x03 = 0 →
  (length dcid < 256)%nat → (length scid < 256)%nat →
  Z.of_nat n < 2 ^ 14 → length r = n →
  read_long_upto (first :: long_fields dcid scid ++ len_field n ++ r) = None.
Proof.
  intros Hbits Hcode Hd Hs Hn Hr. unfold read_long_upto, long_fields.
  repeat first [rewrite <- app_assoc | rewrite <- app_comm_cons].
  cbn [lookup list_lookup mbind option_bind].
  rewrite (decide_True (P:=_ ∧ _)) by (split; [done|simpl; len]).
  rewrite Hcode. change (type_of_code 0) with (Some Initial).
  cbn [mbind option_bind].
  cbn [drop]. rewrite drop_0.
  rewrite (drop_app_length' (be_bytes 4 _)) by (by rewrite length_be_bytes).
  rewrite decode_vec1_field by done. cbn [mbind option_bind].
  rewrite decode_vec1_field by done. cbn [mbind option_bind].
  unfold read_token. rewrite decide_True by done.
  rewrite decode_varint_len_field. cbn [mbind option_bind].
  rewrite Z.mod_small, Nat2Z.id by lia.
  rewrite decide_True by lia.
  by rewrite drop_ge by lia.
Qed.

(** The reference reader reads a long header written in the layout of
    [wire_header]. *)
Lemma read_long_wire_header pt c dcid scid token v l rest_len rest :
  code (E:=Error) pt = Ok c →
  (length dcid < 256)%nat → (length scid < 256)%nat →
  (pt = Initial → Z.of_nat (length token) < 2 ^ 62) → (1 ≤ l ≤ 4)%nat →
  read_long
    (wire_header (long_first c)
       (long_fields dcid scid
        ++ (if decide (pt = Initial) then token_field token else []))
       v l rest_len ++ rest)
  = Some (mkLongSeen pt QUIC_VERSION dcid scid
            (if decide (pt = Initial) then Some token else None)
            (Z.of_nat (l + rest_len) `mod` 2 ^ 14) l
            (v `mod` 2 ^ (8 * Z.of_nat l)),
          rest).
Proof.
  intros Hc Hd Hs Ht Hl. pose proof (code_range _ _ Hc) as Hcr.
  destruct (long_first_code c l Hcr Hl) as (Hbits & Hcode & Hn).
  rewrite wire_header_long_app by (by apply long_first_long).
  unfold read_long. cbn [lookup list_lookup mbind option_bind].
  rewrite (read_long_upto_fields _ pt c) by done. cbn [mbind option_bind].
  rewrite Hn, (decide_True (P:=(_ ≤ _)%nat)) by len.
  rewrite take_app_length', drop_app_length' by len.
  by rewrite (be_value_be_bytes l).
Qed.

Lemma short_first_bits kp l :
  (1 ≤ l ≤ 4)%nat →
  let first := Z.lor (short_first kp) (u8 (Z.of_nat (l - 1))) in
  Z.land first 0xc0 = 0x40 ∧ Z.testbit first 2 = kp ∧ wire_pn_len first = l ∧
  Z.land first 0x80 ≠ PACKET_BIT_LONG.
Proof.
  intros Hl. assert (l = 1 ∨ l = 2 ∨ l = 3 ∨ l = 4)%nat as Hls by lia.
  destruct kp, Hls as [->|[->|[->| ->]]]; done.
Qed.

(** The reference reader reads a short header written in the layout of
    [wire_header]. *)
Lemma read_short_wire_header kp dcid v l rest_len rest :
  (1 ≤ l ≤ 4)%nat →
  read_short (length dcid)
    (wire_header (short_first kp) dcid v l rest_len ++ rest)
  = Some (mkShortSeen kp dcid l (v `mod` 2 ^ (8 * Z.of_nat l)), rest).
Proof.
  intros Hl. destruct (short_first_bits kp l Hl) as (Hbits & Hkp & Hn & Hs).
  unfold wire_header. rewrite decide_False by (by destruct kp).
  unfold read_short.
  repeat first [rewrite <- app_assoc | rewrite <- app_comm_cons].
  cbn [lookup list_lookup mbind option_bind app].
  rewrite Hn, Hkp, decide_True by (split; [done|simpl; len]).
  cbn [drop Nat.add]. rewrite drop_0, take_app_length.
  rewrite drop_app_length, take_app_length' by len.
  rewrite drop_app_add', drop_app_length' by len.
  by rewrite be_value_be_bytes.
Qed.

(** The readers consume what they read. *)
Lemma read_token_shorter pt r t r' :
  read_token pt r = Some (t, r') → (length r' ≤ length r)%nat.
Proof.
  unfold read_token. case_decide; [|by intros [= _ <-]].
  destruct (decode_varint r) as [[n r1]|] eqn:Hv; [|done]. simpl.
  apply decode_varint_shorter in Hv. case_decide; [|done].
  intros [= _ <-]. len.
Qed.

Lemma read_long_upto_shorter pkt seen r :
  read_long_upto pkt = Some (seen, r) → (length r < length pkt)%nat.
Proof.
  unfold read_long_upto. destruct (pkt !! 0%nat) as [first|]; [|done]. simpl.
  case_decide as Hd; [|done]. destruct Hd as [_ H5].
  destruct (type_of_code _) as [pt|]; [|done]. simpl.
  destruct (decode_vec1 (drop 5 pkt)) as [[dcid r1]|] eqn:H1; [|done]. simpl.
  destruct (decode_vec1 r1) as [[scid r2]|] eqn:H2; [|done]. simpl.
  destruct (read_token pt r2) as [[token r3]|] eqn:H3; [|done]. simpl.
  destruct (decode_varint r3) as [[len r4]|] eqn:H4; [|done]. simpl.
  intros [= _ <-].
  apply decode_vec1_shorter in H1, H2. apply read_token_shorter in H3.
  apply decode_varint_shorter in H4. rewrite length_drop in H1. lia.
Qed.

End reading.

(** ** The theorems at the packets of the tests *)

Lemma ex_short_mask_agrees : mask_agrees ex_short.
Proof.
  apply (run_mask_agrees [] (StartShort true SERVER_CID)
           (short [] true SERVER_CID) [Pn 0 1; Encode [0; 0; 0]]); done.
Qed.

Lemma receive_build_witness :
  ∃ ct sample mask,
    encrypt (mkTestDx 0 16) 0 (header_bytes ex_short) (body_bytes ex_short)
    = (mkTestDx 1 16, Ok ct) ∧
    wire_sample 9 ex_short_packet = Some sample ∧
    compute_mask (mkTestDx 1 16) sample = Ok mask ∧
    unprotect mask 9 ex_short_packet
    = Some (header_bytes ex_short ++ ct, 1%nat).
Proof.
  exact (receive_build (mkTestDx 0 16) ex_short (mkTestDx 1 16)
           ex_short_packet ex_short_numbered ex_short_mask_agrees eq_refl).
Defined.
