(* ===== verification/EndToEnd.v ===== *)
(** * From the calls of the sender to the fields the receiver reads

    The builder of [Builder] and [Lifecycle] composed with the receiver of
    [Wire]: for packets built in the documented order, what the receiver
    reads back ([long_packet_received], [short_packet_received]) from the
    bytes of the datagram, exactly when a packet is built at all
    ([long_packet_built], [short_packet_built]), and within which bounds
    the header says what the sender meant ([long_packet_exact]).  The test
    [sample_server_initial] is at the end. *)

From Stdlib Require Import ZArith Lia.
From stdpp Require Import base option list numbers.
From S2P Require Import Prelude Encoder PacketType Crypto Builder Protection Lifecycle Wire.

#[local] Open Scope Z_scope.

(** ** The receiver on a protected header *)

Section receiving.
Context {St : Type} `{CryptoDxLaws St}.
Implicit Types (crypto : St) (pkt rest ct sample mask fields : list Z)
  (first : Z) (n l : nat).

Lemma receive_protect crypto first rest ct n sample mask :
  (1 ≤ n ≤ length rest)%nat → Z.land first 0x03 = Z.of_nat (n - 1) →
  sample_of n ct = Ok sample → compute_mask crypto sample = Ok mask →
  receive crypto (S (length rest) - n)
    (protect mask (wire_mask_bits first) n (first :: rest) ++ ct)
  = Some ((first :: rest) ++ ct, n).
Proof.
  intros Hn Hlow Hs Hm. pose proof (compute_mask_length _ _ _ Hm) as Hml.
  pose proof (sample_of_inv _ _ _ Hs) as (Hn4 & _ & _).
  unfold receive.
  replace (S (length rest)) with
    (length (protect mask (wire_mask_bits first) n (first :: rest)))
    by (rewrite length_protect by lia; done).
  rewrite (wire_sample_header _ _ _ sample)
    by (rewrite ?length_protect by lia; simpl; done || lia).
  cbn [mbind option_bind]. rewrite Hm, length_protect by lia.
  apply unprotect_protect; [lia|lia|done].
Qed.

Lemma protect_wire_header mask fbm first fields v l rest_len :
  (l < length mask)%nat →
  protect mask fbm l (wire_header first fields v l rest_len)
  = Z.lxor (Z.lor first (u8 (Z.of_nat (l - 1))))
      (Z.land (default 0 (mask !! 0%nat)) fbm)
    :: (fields ++ (if decide (Z.land first 0x80 = PACKET_BIT_LONG)
                   then len_field (l + rest_len) else []))
    ++ zip_with Z.lxor (be_bytes l v) (drop 1 mask).
Proof.
  intros Hl. unfold wire_header, protect, xor_tail. f_equal.
  rewrite app_assoc.
  by rewrite take_app_length', drop_app_length' by len.
Qed.

Lemma long_wire_mask_bits c l :
  0 ≤ c < 4 → (1 ≤ l ≤ 4)%nat →
  wire_mask_bits (Z.lor (long_first c) (u8 (Z.of_nat (l - 1)))) = 0x0f.
Proof.
  intros Hc Hl. unfold wire_mask_bits.
  by rewrite pn_len_bits, decide_True by (done || by apply long_first_long).
Qed.

Lemma short_wire_mask_bits kp l :
  (1 ≤ l ≤ 4)%nat →
  wire_mask_bits (Z.lor (short_first kp) (u8 (Z.of_nat (l - 1)))) = 0x1f.
Proof.
  intros Hl. unfold wire_mask_bits.
  rewrite pn_len_bits, decide_False by (done || by destruct kp). done.
Qed.

(** Header protection leaves the fields of a long header up to the
    length as they are: a receiver reads them from the protected packet. *)
Lemma long_wire_upto pt c dcid scid token v l rest_len ct mask :
  code (E:=Error) pt = Ok c →
  (length dcid < 256)%nat → (length scid < 256)%nat →
  (pt = Initial → Z.of_nat (length token) < 2 ^ 62) →
  (1 ≤ l ≤ 4)%nat → (l < length mask)%nat →
  let hdr := wire_header (long_first c)
               (long_fields dcid scid
                ++ (if decide (pt = Initial) then token_field token else []))
               v l rest_len in
  read_long_upto (protect mask 0x0f l hdr ++ ct)
  = Some (mkLongSeen pt QUIC_VERSION dcid scid
            (if decide (pt = Initial) then Some token else None)
            (Z.of_nat (l + rest_len) `mod` 2 ^ 14),
          zip_with Z.lxor (be_bytes l v) (drop 1 mask) ++ ct).
Proof.
  intros Hc Hd Hs Ht Hl Hml hdr. pose proof (code_range _ _ Hc) as Hcr.
  destruct (long_first_code c l Hcr Hl) as (Hbits & Hcode & _).
  subst hdr. set (fields := long_fields dcid scid ++ _).
  rewrite protect_wire_header by done.
  rewrite decide_True by (by apply long_first_long).
  rewrite <- app_comm_cons, <- !app_assoc. unfold fields.
  apply (read_long_upto_fields _ pt c); try done.
  - rewrite land_lxor_masked by done. exact Hbits.
  - change 3 with (0x30 ≫ 4). rewrite <- !Z.shiftr_land.
    rewrite land_lxor_masked by done. rewrite Z.shiftr_land. exact Hcode.
Qed.

(** Header protection removed from a long-header packet: the receiver
    finds the packet number behind the fields in clear and gets the header
    the sender authenticated, followed by the ciphertext. *)
Lemma long_wire_clear crypto pt c dcid scid token v l rest_len ct sample mask :
  code (E:=Error) pt = Ok c →
  (length dcid < 256)%nat → (length scid < 256)%nat →
  (pt = Initial → Z.of_nat (length token) < 2 ^ 62) → (1 ≤ l ≤ 4)%nat →
  sample_of l ct = Ok sample → compute_mask crypto sample = Ok mask →
  let hdr := wire_header (long_first c)
               (long_fields dcid scid
                ++ (if decide (pt = Initial) then token_field token else []))
               v l rest_len in
  ∃ off, long_pn_offset (protect mask 0x0f l hdr ++ ct) = Some off ∧
         receive crypto off (protect mask 0x0f l hdr ++ ct)
         = Some (hdr ++ ct, l).
Proof.
  intros Hc Hd Hs Ht Hl Hsample Hm hdr.
  pose proof (code_range _ _ Hc) as Hcr.
  pose proof (compute_mask_length _ _ _ Hm) as Hml.
  pose proof (long_first_long c Hcr) as Hlong. subst hdr.
  set (fields := long_fields dcid scid ++ _) in *.
  exists (S (length (fields ++ len_field (l + rest_len) ++ be_bytes l v)) - l)%nat.
  split.
  - unfold long_pn_offset, fields.
    rewrite (long_wire_upto pt c) by (done || lia).
    cbn [mbind option_bind]. f_equal.
    rewrite protect_wire_header by lia.
    rewrite (decide_True (P:=Z.land _ _ = _)) by done. len.
  - unfold wire_header in *. rewrite decide_True in * by done.
    rewrite <- (long_wire_mask_bits c l) by done.
    by rewrite receive_protect with (sample := sample)
      by (done || len || by apply pn_len_low, long_first_low).
Qed.

(** Header protection removed from a short-header packet. *)
Lemma short_wire_clear crypto kp dcid v l rest_len ct sample mask :
  (1 ≤ l ≤ 4)%nat →
  sample_of l ct = Ok sample → compute_mask crypto sample = Ok mask →
  let hdr := wire_header (short_first kp) dcid v l rest_len in
  receive crypto (1 + length dcid) (protect mask 0x1f l hdr ++ ct)
  = Some (hdr ++ ct, l).
Proof.
  intros Hl Hsample Hm hdr. subst hdr. unfold wire_header.
  rewrite decide_False by (by destruct kp).
  rewrite <- (short_wire_mask_bits kp l) by done.
  replace (1 + length dcid)%nat
    with (S (length (dcid ++ [] ++ be_bytes l v)) - l)%nat by len.
  by rewrite receive_protect with (sample := sample)
    by (done || len || (apply pn_len_low; [done|by destruct kp])).
Qed.

(** The receiver reads a protected long-header packet. *)
Lemma receive_long_wire crypto pt c dcid scid token v l rest_len ct sample mask :
  code (E:=Error) pt = Ok c →
  (length dcid < 256)%nat → (length scid < 256)%nat →
  (pt = Initial → Z.of_nat (length token) < 2 ^ 62) → (1 ≤ l ≤ 4)%nat →
  sample_of l ct = Ok sample → compute_mask crypto sample = Ok mask →
  receive_long crypto
    (protect mask 0x0f l
       (wire_header (long_first c)
          (long_fields dcid scid
           ++ (if decide (pt = Initial) then token_field token else []))
          v l rest_len) ++ ct)
  = Some (mkLongSeen pt QUIC_VERSION dcid scid
            (if decide (pt = Initial) then Some token else None)
            (Z.of_nat (l + rest_len) `mod` 2 ^ 14) l
            (v `mod` 2 ^ (8 * Z.of_nat l)),
          ct).
Proof.
  intros Hc Hd Hs Ht Hl Hsample Hm.
  destruct (long_wire_clear crypto pt c dcid scid token v l rest_len ct
              sample mask) as (off & Hoff & Hclear); try done.
  unfold receive_long. rewrite Hoff. cbn [mbind option_bind].
  rewrite Hclear. cbn [mbind option_bind].
  by apply read_long_wire_header.
Qed.

(** The receiver reads a protected short-header packet. *)
Lemma receive_short_wire crypto kp dcid v l rest_len ct sample mask :
  (1 ≤ l ≤ 4)%nat →
  sample_of l ct = Ok sample → compute_mask crypto sample = Ok mask →
  receive_short crypto (length dcid)
    (protect mask 0x1f l
       (wire_header (short_first kp) dcid v l rest_len) ++ ct)
  = Some (mkShortSeen kp dcid l (v `mod` 2 ^ (8 * Z.of_nat l)), ct).
Proof.
  intros Hl Hsample Hm. unfold receive_short.
  rewrite (short_wire_clear crypto kp dcid v l rest_len ct sample mask)
    by done.
  cbn [mbind option_bind]. by apply read_short_wire_header.
Qed.
End receiving.

(** ** The builder refines the wire format *)

Section refinement.
Implicit Types (e dcid scid token body rest : list Z) (v : PacketNumber)
  (l x : nat) (pt : PacketType) (b : PacketBuilder).

(** The calls that build a long-header packet in the documented order. *)
Definition long_calls (pt : PacketType) (token : list Z) (v : PacketNumber)
    (l : nat) (body : list Z) : list call :=
  (if decide (pt = Initial) then [InitialToken token] else [])
  ++ [Pn v l; Encode body].

(** The builder at the end of [long_calls]. *)
Lemma long_calls_run e pt dcid scid token v l body b0 b :
  open_builder e (StartLong pt dcid scid) = Ok b0 →
  run b0 (long_calls pt token v l body) = Ok b →
  ∃ c, code (E:=Error) pt = Ok c ∧ (1 ≤ l ≤ 4)%nat ∧
       (pt = Initial → Z.of_nat (length token) < 2 ^ 62) ∧
       b = payload body (pn_result v l (long_first c)
             (started e (long_first c)
                (long_fields dcid scid
                 ++ (if decide (pt = Initial) then token_field token else []))
                0x0f)).
Proof.
  simpl. intros Ho Hr.
  destruct (code (E:=Error) pt) as [c| |] eqn:Hc; [|by destruct pt..].
  rewrite (long_Ok _ _ _ _ _ Hc) in Ho. injection Ho as <-. exists c.
  unfold long_calls, run in Hr. rewrite for_each_app in Hr.
  apply bind_Ok in Hr as (b1 & H1 & Hr).
  assert ((pt = Initial → Z.of_nat (length token) < 2 ^ 62) ∧
          b1 = started e (long_first c)
                 (long_fields dcid scid
                  ++ (if decide (pt = Initial) then token_field token else []))
                 0x0f) as [Ht ->].
  { case_decide; simpl in H1.
    - apply bind_Ok in H1 as (b2 & (f & _ & _ & ? & ->)%initial_token_inv & H1).
      injection H1 as <-. split; [done|]. unfold started, set_encoder. simpl.
      by rewrite <- app_assoc.
    - injection H1 as <-. split; [done|]. unfold started.
      by rewrite app_nil_r. }
  simpl in Hr. apply bind_Ok in Hr as (b2 & (f & Hf & Hl & ->)%pn_inv & Hr).
  injection Hr as <-. unfold first_byte, started in Hf. simpl in Hf.
  rewrite list_lookup_middle in Hf by done. by injection Hf as <-.
Qed.

(** A long-header packet has the layout of the specification.  For a
    packet started with [long] and continued in the documented order
    (token for Initial, packet number, payload), with connection IDs of at
    most 255 bytes: the header that [build] authenticates, read field by
    field by the reference reader, gives back the packet type, the version,
    both connection IDs, the token, the length of packet number, payload and
    tag together (reduced to 14 bits), the length of the packet number and
    the packet number reduced to that length; what follows the header is
    left for the payload. *)
Theorem long_packet_read e pt dcid scid token v l body b0 b x rest :
  (length dcid < 256)%nat → (length scid < 256)%nat →
  open_builder e (StartLong pt dcid scid) = Ok b0 →
  run b0 (long_calls pt token v l body) = Ok b →
  read_long (header_bytes (with_len x b) ++ rest)
  = Some (mkLongSeen pt QUIC_VERSION dcid scid
            (if decide (pt = Initial) then Some token else None)
            (Z.of_nat (l + (length body + x)) `mod` 2 ^ 14) l
            (v `mod` 2 ^ (8 * Z.of_nat l)),
          rest).
Proof.
  intros Hd Hs Ho (c & Hc & Hl & Ht & ->)%(long_calls_run _ _ _ _ _ _ _ _ _ _ Ho).
  rewrite header_bytes_started. by apply (read_long_wire_header pt c).
Qed.

(** A short-header packet has the layout of the specification.  For
    a packet started with [short] and continued with packet number and
    payload, the header that [build] authenticates, read by the reference
    reader that knows the length of the connection ID, gives back the key
    phase, the connection ID, the length of the packet number and the
    packet number reduced to that length; a short header has no length
    field. *)
Theorem short_packet_read e kp dcid v l body b x rest :
  run (short e kp dcid) [Pn v l; Encode body] = Ok b →
  read_short (length dcid) (header_bytes (with_len x b) ++ rest)
  = Some (mkShortSeen kp dcid l (v `mod` 2 ^ (8 * Z.of_nat l)), rest).
Proof.
  unfold run. simpl. intros (b1 & (f & Hf & Hl & ->)%pn_inv & Hr)%bind_Ok.
  injection Hr as <-. rewrite short_first_byte in Hf. injection Hf as <-.
  assert (short e kp dcid = started e (short_first kp) dcid 0x1f) as ->.
  { unfold short, started, encode, encode_byte. simpl.
    by rewrite <- app_assoc. }
  rewrite header_bytes_started. by apply read_short_wire_header.
Qed.

End refinement.

(** ** From the calls of the sender to the fields the receiver reads *)

Section end_to_end.
Context {St : Type} `{CryptoDxLaws St}.
Implicit Types (crypto : St) (e dcid scid token body fields : list Z)
  (v : PacketNumber) (l : nat) (pt : PacketType).

(** The parts of a packet laid out as [wire_header]. *)
Lemma started_parts e first fields fbm v l body :
  let b := payload body (pn_result v l first (started e first fields fbm)) in
  prefix_bytes b = e ∧ body_bytes b = body ∧ pn_len b = l.
Proof.
  unfold prefix_bytes, body_bytes, pn_len, range_len, payload, deref_mut,
    encode, pn_result, started.
  cbn [encoder header offsets offsets_pn set_encoder start end_].
  split; [|split].
  - rewrite take_app_le, take_insert_ge by len.
    by rewrite <- !app_assoc, take_app_length.
  - by rewrite drop_app_length' by len.
  - len.
Qed.

(** What [build] returns for a header laid out as [wire_header]. *)
Lemma build_started crypto e first fields fbm v l body crypto' e' :
  let b := payload body (pn_result v l first (started e first fields fbm)) in
  let hdr := wire_header first fields v l (length body + expansion crypto) in
  numbered b → build crypto b = (crypto', Ok e') →
  ∃ ct sample mask,
    encrypt crypto v hdr body = (crypto', Ok ct) ∧
    sample_of l ct = Ok sample ∧ compute_mask crypto' sample = Ok mask ∧
    e' = e ++ protect mask fbm l hdr ++ ct.
Proof.
  intros b hdr Hn Hb.
  destruct (build_numbered_inv _ _ _ _ Hn Hb)
    as (ct & sample & mask & Henc & Hs & Hm & ->).
  destruct (started_parts e first fields fbm v l body) as (Hp & Hbody & Hl).
  cbv zeta in Hp, Hbody, Hl. subst b hdr.
  rewrite header_bytes_started in *. rewrite Hp, Hbody, Hl in *.
  by exists ct, sample, mask.
Qed.

(** [build] on a packet laid out as [wire_header], as a function of what
    the provider returns. *)
Lemma build_started_eq crypto e first fields fbm v l body :
  let b := payload body (pn_result v l first (started e first fields fbm)) in
  let hdr := wire_header first fields v l (length body + expansion crypto) in
  let r := encrypt crypto v hdr body in
  numbered b →
  build crypto b
  = (r.1,
     ct ← r.2; sample ← sample_of l ct; mask ← compute_mask r.1 sample;
     Ok (e ++ protect mask fbm l hdr ++ ct)).
Proof.
  intros b hdr r Hn. rewrite build_numbered by done. unfold seal.
  destruct (started_parts e first fields fbm v l body) as (Hp & Hbody & Hl).
  cbv zeta in Hp, Hbody, Hl. subst b hdr r.
  by rewrite header_bytes_started, Hp, Hbody, Hl.
Qed.

(** The call of [initial_token] that an Initial packet needs, and no
    other packet. *)
Lemma token_calls_run e pt c dcid scid token :
  code (E:=Error) pt = Ok c →
  (pt = Initial → Z.of_nat (length token) < 2 ^ 62) →
  for_each do_call (started e (long_first c) (long_fields dcid scid) 0x0f)
    (if decide (pt = Initial) then [InitialToken token] else [])
  = Ok (started e (long_first c)
          (long_fields dcid scid
           ++ (if decide (pt = Initial) then token_field token else []))
          0x0f).
Proof.
  intros Hc Ht. case_decide as Hi; simpl.
  - subst pt. injection Hc as <-.
    rewrite (initial_token_Ok _ _ (long_first 0));
      [|by simpl; rewrite list_lookup_middle|done|by auto].
    unfold started, set_encoder. simpl. by rewrite <- app_assoc.
  - unfold started. by rewrite app_nil_r.
Qed.

(** The calls of a long-header packet in the documented order succeed when
    the packet type has a code, the token fits a varint and the packet
    number has 1 to 4 bytes. *)
Lemma long_calls_run_Ok e pt c dcid scid token v l body :
  code (E:=Error) pt = Ok c → (1 ≤ l ≤ 4)%nat →
  (pt = Initial → Z.of_nat (length token) < 2 ^ 62) →
  run (started e (long_first c) (long_fields dcid scid) 0x0f)
    (long_calls pt token v l body)
  = Ok (payload body (pn_result v l (long_first c)
          (started e (long_first c)
             (long_fields dcid scid
              ++ (if decide (pt = Initial) then token_field token else []))
             0x0f))).
Proof.
  intros Hc Hl Ht. unfold long_calls, run.
  rewrite for_each_app, (token_calls_run e pt c) by done.
  outcome_simpl. simpl.
  rewrite (pn_Ok _ _ _ (long_first c)); [done| |done].
  simpl. by rewrite list_lookup_middle.
Qed.

(** The builder at the end of the calls of a long-header packet is
    numbered. *)
Lemma long_calls_numbered e pt c dcid scid token v l body :
  bytes_ok e → bytes_ok dcid → bytes_ok scid → bytes_ok token →
  bytes_ok body →
  code (E:=Error) pt = Ok c → (1 ≤ l ≤ 4)%nat →
  (pt = Initial → Z.of_nat (length token) < 2 ^ 62) →
  numbered (payload body (pn_result v l (long_first c)
              (started e (long_first c)
                 (long_fields dcid scid
                  ++ (if decide (pt = Initial) then token_field token else []))
                 0x0f))).
Proof.
  intros He Hd Hs Ht Hb Hc Hl Htl.
  apply (built_numbered e (StartLong pt dcid scid)
           (long_calls pt token v l body)
           (started e (long_first c) (long_fields dcid scid) 0x0f) _ He);
    [by split| |by apply long_Ok|by apply long_calls_run_Ok|];
    unfold long_calls; case_decide; by repeat constructor.
Qed.

Lemma short_started e kp dcid :
  short e kp dcid = started e (short_first kp) dcid 0x1f.
Proof.
  unfold short, started, encode, encode_byte. simpl. by rewrite <- app_assoc.
Qed.

Lemma short_calls_run_Ok e kp dcid v l body :
  (1 ≤ l ≤ 4)%nat →
  run (short e kp dcid) [Pn v l; Encode body]
  = Ok (payload body (pn_result v l (short_first kp)
          (started e (short_first kp) dcid 0x1f))).
Proof.
  intros Hl. unfold run. simpl.
  rewrite (pn_Ok _ _ _ (short_first kp)); [|apply short_first_byte|done].
  by rewrite short_started.
Qed.

(** The packet number and the payload on a builder as [short] or [long]
    left it. *)
Lemma started_calls_run e first fields fbm v l body b :
  run (started e first fields fbm) [Pn v l; Encode body] = Ok b →
  (1 ≤ l ≤ 4)%nat ∧
  b = payload body (pn_result v l first (started e first fields fbm)).
Proof.
  unfold run. simpl. intros (b1 & (f & Hf & Hl & ->)%pn_inv & Hr)%bind_Ok.
  injection Hr as <-. unfold first_byte, started in Hf. simpl in Hf.
  rewrite list_lookup_middle in Hf by done. by injection Hf as <-.
Qed.

Lemma short_calls_run e kp dcid v l body b :
  run (short e kp dcid) [Pn v l; Encode body] = Ok b →
  (1 ≤ l ≤ 4)%nat ∧
  b = payload body (pn_result v l (short_first kp)
        (started e (short_first kp) dcid 0x1f)).
Proof. rewrite short_started. apply started_calls_run. Qed.

Lemma short_calls_numbered e kp dcid v l body :
  bytes_ok e → bytes_ok dcid → bytes_ok body → (1 ≤ l ≤ 4)%nat →
  numbered (payload body (pn_result v l (short_first kp)
              (started e (short_first kp) dcid 0x1f))).
Proof.
  intros He Hd Hb Hl.
  apply (built_numbered e (StartShort kp dcid) [Pn v l; Encode body]
           (short e kp dcid) _ He);
    [done|by repeat constructor|done|by apply short_calls_run_Ok|done].
Qed.

(** A long-header packet that has been built, part by part. *)
Lemma long_packet_shape crypto crypto' e e' pt dcid scid token v l body :
  bytes_ok e → bytes_ok dcid → bytes_ok scid → bytes_ok token →
  bytes_ok body →
  build_packet crypto e
    (mkPacket (StartLong pt dcid scid) (long_calls pt token v l body))
  = (crypto', Ok e') →
  ∃ c ct sample mask,
    let hdr := wire_header (long_first c)
                 (long_fields dcid scid
                  ++ (if decide (pt = Initial) then token_field token else []))
                 v l (length body + expansion crypto) in
    code (E:=Error) pt = Ok c ∧
    (pt = Initial → Z.of_nat (length token) < 2 ^ 62) ∧ (1 ≤ l ≤ 4)%nat ∧
    encrypt crypto v hdr body = (crypto', Ok ct) ∧
    sample_of l ct = Ok sample ∧ compute_mask crypto' sample = Ok mask ∧
    e' = e ++ protect mask 0x0f l hdr ++ ct.
Proof.
  intros He Hd Hs Ht Hb (b0 & b & Ho & Hr & Hbuild)%build_packet_inv.
  cbn [pkt_open pkt_calls] in Ho, Hr.
  destruct (long_calls_run _ _ _ _ _ _ _ _ _ _ Ho Hr)
    as (c & Hc & Hl & Htl & ->).
  pose proof (long_calls_numbered e pt c dcid scid token v l body
                He Hd Hs Ht Hb Hc Hl Htl) as Hn.
  destruct (build_started _ _ _ _ _ _ _ _ _ _ Hn Hbuild)
    as (ct & sample & mask & Henc & Hsample & Hm & ->).
  by exists c, ct, sample, mask.
Qed.

(** A long-header packet that was given no token, whatever its type,
    part by part. *)
Lemma long_untokened_shape crypto crypto' e e' pt dcid scid v l body :
  bytes_ok e → bytes_ok dcid → bytes_ok scid → bytes_ok body →
  build_packet crypto e
    (mkPacket (StartLong pt dcid scid) [Pn v l; Encode body])
  = (crypto', Ok e') →
  ∃ c ct sample mask,
    let hdr := wire_header (long_first c) (long_fields dcid scid) v l
                 (length body + expansion crypto) in
    code (E:=Error) pt = Ok c ∧ (1 ≤ l ≤ 4)%nat ∧
    encrypt crypto v hdr body = (crypto', Ok ct) ∧
    sample_of l ct = Ok sample ∧ compute_mask crypto' sample = Ok mask ∧
    e' = e ++ protect mask 0x0f l hdr ++ ct.
Proof.
  intros He Hd Hs Hb (b0 & b & Ho & Hr & Hbuild)%build_packet_inv.
  cbn [pkt_open pkt_calls open_builder] in Ho, Hr.
  destruct (code (E:=Error) pt) as [c| |] eqn:Hc; [|by destruct pt..].
  assert (Hn : numbered b)
    by (by apply (built_numbered e (StartLong pt dcid scid)
                    [Pn v l; Encode body] b0 b He); repeat constructor).
  rewrite (long_Ok _ _ _ _ _ Hc) in Ho. injection Ho as <-.
  apply (started_calls_run e (long_first c) (long_fields dcid scid) 0x0f)
    in Hr as [Hl ->].
  destruct (build_started _ _ _ _ _ _ _ _ _ _ Hn Hbuild)
    as (ct & sample & mask & Henc & Hsample & Hm & ->).
  by exists c, ct, sample, mask.
Qed.

(** A short-header packet that has been built, part by part. *)
Lemma short_packet_shape crypto crypto' e e' kp dcid v l body :
  bytes_ok e → bytes_ok dcid → bytes_ok body →
  build_packet crypto e (mkPacket (StartShort kp dcid) [Pn v l; Encode body])
  = (crypto', Ok e') →
  ∃ ct sample mask,
    let hdr := wire_header (short_first kp) dcid v l
                 (length body + expansion crypto) in
    (1 ≤ l ≤ 4)%nat ∧
    encrypt crypto v hdr body = (crypto', Ok ct) ∧
    sample_of l ct = Ok sample ∧ compute_mask crypto' sample = Ok mask ∧
    e' = e ++ protect mask 0x1f l hdr ++ ct.
Proof.
  intros He Hd Hb (b0 & b & Ho & Hr & Hbuild)%build_packet_inv.
  cbn [pkt_open pkt_calls] in Ho, Hr. injection Ho as <-.
  apply short_calls_run in Hr as [Hl ->].
  pose proof (short_calls_numbered e kp dcid v l body He Hd Hb Hl) as Hn.
  destruct (build_started _ _ _ _ _ _ _ _ _ _ Hn Hbuild)
    as (ct & sample & mask & Henc & Hsample & Hm & ->).
  by exists ct, sample, mask.
Qed.

(** The outcome of [build] on a laid-out packet, once the provider has
    sealed the body. *)
Lemma sealed_is_Ok crypto' l ct (x : nat) body (f : list Z → list Z) :
  (l ≤ 4)%nat → length ct = (length body + x)%nat →
  is_Ok (sample ← sample_of l ct; mask ← compute_mask crypto' sample;
         Ok (f mask))
  ↔ (20 ≤ l + length body + x)%nat ∧
    is_Ok (compute_mask crypto' (take SAMPLE_SIZE (drop (4 - l) ct))).
Proof.
  intros Hl Hct. unfold SAMPLE_SIZE.
  destruct (decide (20 ≤ l + length body + x)%nat) as [Hlen|Hlen].
  - rewrite sample_of_Ok by (unfold SAMPLE_SIZE; lia). outcome_simpl.
    destruct (compute_mask _ _); simpl; split; (done || by (intros [_ ?]) || by auto).
  - rewrite sample_of_Panic by (unfold SAMPLE_SIZE; lia). simpl. naive_solver.
Qed.

(** C5: a long-header packet, from the calls of the sender to the fields
    the receiver reads.  A packet started with [long] and continued in the
    documented order (token for Initial, packet number, payload) is built
    at the end of a buffer, with any provider that keeps its laws and with
    connection IDs of at most 255 bytes.  Then the buffer is what it was,
    followed by the packet; and a receiver who holds the same keys, given
    the bytes of the packet and nothing else, finds the packet number
    behind the fields in clear, removes header protection and reads the
    packet type, the version, both connection IDs, the token, a length
    that is the number of bytes after the length field (packet number and
    ciphertext, reduced to 14 bits), the length of the packet number and
    the packet number reduced to that length.  What it is left with is the
    ciphertext the provider made of the payload. *)
Theorem long_packet_received crypto crypto' e e' pt dcid scid token v l body :
  bytes_ok e → bytes_ok dcid → bytes_ok scid → bytes_ok token →
  bytes_ok body → (length dcid < 256)%nat → (length scid < 256)%nat →
  build_packet crypto e
    (mkPacket (StartLong pt dcid scid) (long_calls pt token v l body))
  = (crypto', Ok e') →
  ∃ hdr ct,
    encrypt crypto v hdr body = (crypto', Ok ct) ∧
    length e' = (length e + length hdr + length ct)%nat ∧
    take (length e) e' = e ∧
    receive_long crypto' (drop (length e) e')
    = Some (mkLongSeen pt QUIC_VERSION dcid scid
              (if decide (pt = Initial) then Some token else None)
              (Z.of_nat (l + length ct) `mod` 2 ^ 14) l
              (v `mod` 2 ^ (8 * Z.of_nat l)),
            ct).
Proof.
  intros He Hd Hs Ht Hbody Hdl Hsl Hbp.
  destruct (long_packet_shape _ _ _ _ _ _ _ _ _ _ _ He Hd Hs Ht Hbody Hbp)
    as (c & ct & sample & mask & Hc & Htl & Hl & Henc & Hsample & Hm & ->).
  pose proof (compute_mask_length _ _ _ Hm) as Hml.
  eexists _, ct. split; [exact Henc|].
  split; [rewrite !length_app, length_protect by lia; lia|].
  split; [by rewrite take_app_length|]. rewrite drop_app_length.
  rewrite (encrypt_length _ _ _ _ _ _ Henc).
  by apply (receive_long_wire _ pt c) with (sample := sample).
Qed.

(** C6: a short-header packet, from the calls of the sender to the
    fields the receiver reads.  For a packet started with [short] and
    continued with packet number and payload, built at the end of a buffer
    with any provider that keeps its laws: the buffer is what it was,
    followed by the packet, and a receiver who holds the same keys and
    knows the length of the connection ID removes header protection and
    reads the key phase, the connection ID, the length of the packet
    number and the packet number reduced to that length; what it is left
    with is the ciphertext the provider made of the payload. *)
Theorem short_packet_received crypto crypto' e e' kp dcid v l body :
  bytes_ok e → bytes_ok dcid → bytes_ok body →
  build_packet crypto e (mkPacket (StartShort kp dcid) [Pn v l; Encode body])
  = (crypto', Ok e') →
  ∃ hdr ct,
    encrypt crypto v hdr body = (crypto', Ok ct) ∧
    length e' = (length e + length hdr + length ct)%nat ∧
    take (length e) e' = e ∧
    receive_short crypto' (length dcid) (drop (length e) e')
    = Some (mkShortSeen kp dcid l (v `mod` 2 ^ (8 * Z.of_nat l)), ct).
Proof.
  intros He Hd Hbody Hbp.
  destruct (short_packet_shape _ _ _ _ _ _ _ _ _ He Hd Hbody Hbp)
    as (ct & sample & mask & Hl & Henc & Hsample & Hm & ->).
  pose proof (compute_mask_length _ _ _ Hm) as Hml.
  eexists _, ct. split; [exact Henc|].
  split; [rewrite !length_app, length_protect by lia; lia|].
  split; [by rewrite take_app_length|]. rewrite drop_app_length.
  by apply receive_short_wire with (sample := sample).
Qed.

(** C9: when a long-header packet is built.  For a packet started with
    [long] and continued in the documented order, and any provider that
    keeps its laws, [build_packet] returns a datagram exactly when: the
    packet type has a type code; the token of an Initial packet is shorter
    than 2^62 bytes; the packet number has 1 to 4 bytes; packet number,
    payload and tag together have at least the 20 bytes the sample needs;
    the provider seals the payload under the header; and it returns a mask
    for the sample.  There is no other way to fail, and under these
    conditions the packet is built. *)
Theorem long_packet_built crypto e pt dcid scid token v l body :
  bytes_ok e → bytes_ok dcid → bytes_ok scid → bytes_ok token →
  bytes_ok body →
  is_Ok (build_packet crypto e
           (mkPacket (StartLong pt dcid scid)
              (long_calls pt token v l body))).2 ↔
  ∃ c, code (E:=Error) pt = Ok c ∧
       (pt = Initial → Z.of_nat (length token) < 2 ^ 62) ∧
       (1 ≤ l ≤ 4)%nat ∧
       (20 ≤ l + length body + expansion crypto)%nat ∧
       let r := encrypt crypto v
                  (wire_header (long_first c)
                     (long_fields dcid scid
                      ++ (if decide (pt = Initial) then token_field token
                          else []))
                     v l (length body + expansion crypto)) body in
       ∃ ct, r.2 = Ok ct ∧
             is_Ok (compute_mask r.1 (take SAMPLE_SIZE (drop (4 - l) ct))).
Proof.
  intros He Hd Hs Ht Hb. split.
  - destruct (build_packet _ _ _) as [crypto' [e'| |]] eqn:Hbp; [|done..].
    intros _.
    destruct (long_packet_shape _ _ _ _ _ _ _ _ _ _ _ He Hd Hs Ht Hb Hbp)
      as (c & ct & sample & mask & Hc & Htl & Hl & Henc & Hsample & Hm & _).
    exists c. do 3 (split; [done|]). cbv zeta. rewrite Henc. simpl.
    apply encrypt_length in Henc.
    assert ((20 ≤ l + length body + expansion crypto)%nat ∧
            is_Ok (compute_mask crypto' (take SAMPLE_SIZE (drop (4 - l) ct))))
      as [Hlen Hmask].
    { apply (sealed_is_Ok crypto' l ct (expansion crypto) body (λ _, []));
        [lia|done|]. by rewrite Hsample; outcome_simpl; rewrite Hm. }
    split; [done|]. by exists ct.
  - intros (c & Hc & Htl & Hl & Hlen & ct & Hct & Hm). cbv zeta in *.
    pose proof (long_calls_numbered e pt c dcid scid token v l body
                  He Hd Hs Ht Hb Hc Hl Htl) as Hn.
    unfold build_packet. cbn [pkt_open pkt_calls open_builder].
    rewrite (long_Ok _ _ _ _ _ Hc). outcome_simpl.
    change (mkBuilder _ _ _ _)
      with (started e (long_first c) (long_fields dcid scid) 0x0f).
    rewrite (long_calls_run_Ok e pt c), build_started_eq by done.
    destruct (encrypt _ _ _ _) as [crypto' r] eqn:Henc. simpl in *. subst r.
    outcome_simpl. apply encrypt_length in Henc.
    by apply (sealed_is_Ok crypto' l ct (expansion crypto) body); [lia|..].
Qed.

(** C10: when a short-header packet is built: exactly when the packet
    number has 1 to 4 bytes, packet number, payload and tag together have
    at least 20 bytes, the provider seals the payload under the header; and
    it returns a mask for the sample. *)
Theorem short_packet_built crypto e kp dcid v l body :
  bytes_ok e → bytes_ok dcid → bytes_ok body →
  is_Ok (build_packet crypto e
           (mkPacket (StartShort kp dcid) [Pn v l; Encode body])).2 ↔
  (1 ≤ l ≤ 4)%nat ∧
  (20 ≤ l + length body + expansion crypto)%nat ∧
  let r := encrypt crypto v
             (wire_header (short_first kp) dcid v l
                (length body + expansion crypto)) body in
  ∃ ct, r.2 = Ok ct ∧
        is_Ok (compute_mask r.1 (take SAMPLE_SIZE (drop (4 - l) ct))).
Proof.
  intros He Hd Hb. split.
  - destruct (build_packet _ _ _) as [crypto' [e'| |]] eqn:Hbp; [|done..].
    intros _.
    destruct (short_packet_shape _ _ _ _ _ _ _ _ _ He Hd Hb Hbp)
      as (ct & sample & mask & Hl & Henc & Hsample & Hm & _).
    split; [done|]. cbv zeta. rewrite Henc. simpl.
    apply encrypt_length in Henc.
    assert ((20 ≤ l + length body + expansion crypto)%nat ∧
            is_Ok (compute_mask crypto' (take SAMPLE_SIZE (drop (4 - l) ct))))
      as [Hlen Hmask].
    { apply (sealed_is_Ok crypto' l ct (expansion crypto) body (λ _, []));
        [lia|done|]. by rewrite Hsample; outcome_simpl; rewrite Hm. }
    split; [done|]. by exists ct.
  - intros (Hl & Hlen & ct & Hct & Hm). cbv zeta in *.
    pose proof (short_calls_numbered e kp dcid v l body He Hd Hb Hl) as Hn.
    unfold build_packet. cbn [pkt_open pkt_calls open_builder]. outcome_simpl.
    rewrite short_calls_run_Ok, build_started_eq by done.
    destruct (encrypt _ _ _ _) as [crypto' r] eqn:Henc. simpl in *. subst r.
    outcome_simpl. apply encrypt_length in Henc.
    by apply (sealed_is_Ok crypto' l ct (expansion crypto) body); [lia|..].
Qed.

(** C17: the bounds within which a long header says what the sender meant.
    Of a packet built in the documented order, the receiver reads a length
    below 2^14 and a packet number below 2^(8*l).  The length is the number
    of bytes that follow the length field exactly when packet number,
    payload and tag together are shorter than 16384 bytes ([write_len] has
    no guard: above that the field wraps around); the packet number is the
    one the sender passed exactly when it fits the [l] bytes it asked
    for. *)
Theorem long_packet_exact crypto crypto' e e' pt dcid scid token v l body
    seen rest :
  bytes_ok e → bytes_ok dcid → bytes_ok scid → bytes_ok token →
  bytes_ok body → (length dcid < 256)%nat → (length scid < 256)%nat →
  0 ≤ v →
  build_packet crypto e
    (mkPacket (StartLong pt dcid scid) (long_calls pt token v l body))
  = (crypto', Ok e') →
  receive_long crypto' (drop (length e) e') = Some (seen, rest) →
  0 ≤ seen_length seen < 2 ^ 14 ∧
  0 ≤ seen_pn seen < 2 ^ (8 * Z.of_nat l) ∧
  (seen_length seen = Z.of_nat (seen_pn_len seen + length rest)
   ↔ Z.of_nat (l + length body + expansion crypto) < 2 ^ 14) ∧
  (seen_pn seen = v ↔ v < 2 ^ (8 * Z.of_nat l)).
Proof.
  intros He Hd Hs Ht Hb Hdl Hsl Hv Hbp Hrecv.
  destruct (long_packet_shape _ _ _ _ _ _ _ _ _ _ _ He Hd Hs Ht Hb Hbp)
    as (c & ct & sample & mask & Hc & Htl & Hl & Henc & Hsample & Hm & ->).
  rewrite drop_app_length in Hrecv.
  rewrite (receive_long_wire _ pt c) with (sample := sample) in Hrecv
    by done.
  injection Hrecv as <- <-. cbn [seen_length seen_pn seen_pn_len].
  apply encrypt_length in Henc.
  split; [by apply Z.mod_pos_bound|]. split; [apply Z.mod_pos_bound; lia|].
  split; [|apply mod_exact_iff; lia].
  replace (l + (length body + expansion crypto))%nat
    with (l + length ct)%nat by lia.
  rewrite mod_exact_iff by lia. rewrite Henc.
  by replace (l + length body + expansion crypto)%nat
    with (l + (length body + expansion crypto))%nat by lia.
Qed.
End end_to_end.

(** ** The test [sample_server_initial] *)

(** [SAMPLE_PAYLOAD] (packet2.rs lines 310-318). *)
Definition SAMPLE_PAYLOAD : list Z :=
  [0x0d; 0x00; 0x00; 0x00; 0x00; 0x18; 0x41; 0x0a; 0x02; 0x00; 0x00; 0x56;
   0x03; 0x03; 0xee; 0xfc; 0xe7; 0xf7; 0xb3; 0x7b; 0xa1; 0xd1; 0x63; 0x2e;
   0x96; 0x67; 0x78; 0x25; 0xdd; 0xf7; 0x39; 0x88; 0xcf; 0xc7; 0x98; 0x25;
   0xdf; 0x56; 0x6d; 0xc5; 0x43; 0x0b; 0x9a; 0x04; 0x5a; 0x12; 0x00; 0x13;
   0x01; 0x00; 0x00; 0x2e; 0x00; 0x33; 0x00; 0x24; 0x00; 0x1d; 0x00; 0x20;
   0x9d; 0x3c; 0x94; 0x0d; 0x89; 0x69; 0x0b; 0x84; 0xd0; 0x8a; 0x60; 0x99;
   0x3c; 0x14; 0x4e; 0xca; 0x68; 0x4d; 0x10; 0x81; 0x28; 0x7c; 0x83; 0x4d;
   0x53; 0x11; 0xbc; 0xf3; 0x2b; 0xb9; 0xda; 0x1a; 0x00; 0x2b; 0x00; 0x02;
   0x03; 0x04].

(** [EXPECTED] (packet2.rs lines 319-334, the draft-24 values). *)
Definition SAMPLE_EXPECTED : list Z :=
  [0xc9; 0xff; 0x00; 0x00; 0x18; 0x00; 0x08; 0xf0; 0x67; 0xa5; 0x50; 0x2a;
   0x42; 0x62; 0xb5; 0x00; 0x40; 0x74; 0x16; 0x8b; 0xf2; 0x2b; 0x70; 0x02;
   0x59; 0x6f; 0x99; 0xae; 0x67; 0xab; 0xf6; 0x5a; 0x58; 0x52; 0xf5; 0x4f;
   0x58; 0xc3; 0x7c; 0x80; 0x86; 0x82; 0xe2; 0xe4; 0x04; 0x92; 0xd8; 0xa3;
   0x89; 0x9f; 0xb0; 0x4f; 0xc0; 0xaf; 0xe9; 0xaa; 0xbc; 0x87; 0x67; 0xb1;
   0x8a; 0x0a; 0xa4; 0x93; 0x53; 0x74; 0x26; 0x37; 0x3b; 0x48; 0xd5; 0x02;
   0x21; 0x4d; 0xd8; 0x56; 0xd6; 0x3b; 0x78; 0xce; 0xe3; 0x7b; 0xc6; 0x64;
   0xb3; 0xfe; 0x86; 0xd4; 0x87; 0xac; 0x7a; 0x77; 0xc5; 0x30; 0x38; 0xa3;
   0xcd; 0x32; 0xf0; 0xb5; 0x00; 0x4d; 0x9f; 0x57; 0x54; 0xc4; 0xf7; 0xf2;
   0xd1; 0xf3; 0x5c; 0xf3; 0xf7; 0x11; 0x63; 0x51; 0xc9; 0x2b; 0x58; 0x4d;
   0x2d; 0xdd; 0x6c; 0x26; 0xc7; 0x8a; 0x84; 0x07; 0xf0; 0x9e; 0xfd; 0xa4;
   0xa3; 0x08].

(** The packet of the test. *)
Definition pkt_sample_server_initial : packet :=
  mkPacket (StartLong Initial [] SERVER_CID)
    [InitialToken []; Pn 1 2; Encode SAMPLE_PAYLOAD].

(** The builder of the test just before [build]. *)
Definition ex_sample : PacketBuilder := payload SAMPLE_PAYLOAD ex_initial.

Lemma ex_sample_numbered : numbered ex_sample.
Proof.
  apply numbered_app; [apply ex_initial_numbered|].
  by apply (bool_decide_unpack _).
Qed.

Section sample_server_initial.
Context {St : Type} `{CryptoDxLaws St}.

(** The test [sample_server_initial], for every provider that keeps
    its laws and has a 16-byte tag.  The packet has the length of the
    expected packet (134 bytes); its bytes 1 to 17 (version, connection
    IDs, token length and the length field [40 74]) are those of the
    expected packet whatever the cipher; and its first byte has the high
    nibble [0xc] of a long Initial header. *)
Theorem sample_server_initial (crypto crypto' : St) e :
  expansion crypto = 16%nat →
  build_packet crypto [] pkt_sample_server_initial = (crypto', Ok e) →
  length e = length SAMPLE_EXPECTED ∧
  take 17 (drop 1 e) = take 17 (drop 1 SAMPLE_EXPECTED) ∧
  ∃ first, e !! 0%nat = Some first ∧ Z.land first 0xf0 = 0xc0.
Proof.
  intros Hx (b0 & b & Ho & Hr & Hb)%build_packet_inv.
  injection Ho as <-. assert (b = ex_sample) as -> by (by injection Hr as <-).
  split; [rewrite (build_length _ _ _ _ Hb), Hx; done|].
  apply build_numbered_inv in Hb
    as (ct & sample & mask & _ & _ & Hm%compute_mask_length & ->);
    [|apply ex_sample_numbered].
  rewrite Hx. change (prefix_bytes ex_sample) with (@nil Z).
  change (first_byte_mask (offsets ex_sample)) with 0x0f.
  change (pn_len ex_sample) with 2%nat.
  set (hdr := header_bytes (with_len 16 ex_sample)).
  assert (hdr = 0xc1 :: drop 1 (take 18 SAMPLE_EXPECTED) ++ [0; 1]) as ->
    by (by vm_compute).
  cbn [protect app drop]. split.
  - unfold xor_tail. cbn [length app Nat.sub take drop]. done.
  - eexists. split; [done|].
    rewrite land_lxor_distr_l, <- Z.land_assoc. by rewrite Z.land_0_r.
Qed.

End sample_server_initial.

(** ** The theorems at the packets of the tests *)

Lemma long_packet_read_witness :
  read_long (header_bytes (with_len 16 ex_sample) ++ [0xaa; 0xbb])
  = Some (mkLongSeen Initial QUIC_VERSION [] SERVER_CID (Some [])
            (Z.of_nat (2 + (98 + 16)) `mod` 2 ^ 14) 2
            (1 `mod` 2 ^ (8 * Z.of_nat 2)),
          [0xaa; 0xbb]).
Proof.
  refine (long_packet_read [] Initial [] SERVER_CID [] 1 2 SAMPLE_PAYLOAD _
            ex_sample 16 [0xaa; 0xbb] _ _ eq_refl eq_refl); simpl; lia.
Defined.

Lemma short_packet_read_witness :
  read_short 8 (header_bytes (with_len 16 ex_short) ++ [0xaa; 0xbb])
  = Some (mkShortSeen true SERVER_CID 1 (0 `mod` 2 ^ (8 * Z.of_nat 1)),
          [0xaa; 0xbb]).
Proof.
  exact (short_packet_read [] true SERVER_CID 0 1 [0; 0; 0] ex_short 16
           [0xaa; 0xbb] eq_refl).
Defined.

Definition ex_sample_packet : list Z := Eval vm_compute in
  match build_packet (mkTestDx 1 16) [] pkt_sample_server_initial with
  | (_, Ok e) => e
  | _ => []
  end.

Lemma sample_server_initial_witness :
  length ex_sample_packet = length SAMPLE_EXPECTED ∧
  take 17 (drop 1 ex_sample_packet) = take 17 (drop 1 SAMPLE_EXPECTED) ∧
  ∃ first, ex_sample_packet !! 0%nat = Some first ∧ Z.land first 0xf0 = 0xc0.
Proof.
  exact (sample_server_initial (mkTestDx 1 16) (mkTestDx 2 16)
           ex_sample_packet eq_refl eq_refl).
Defined.

Lemma long_packet_received_witness :
  ∃ hdr ct,
    encrypt (mkTestDx 1 16) 1 hdr SAMPLE_PAYLOAD = (mkTestDx 2 16, Ok ct) ∧
    length ex_sample_packet = (0 + length hdr + length ct)%nat ∧
    take 0 ex_sample_packet = [] ∧
    receive_long (mkTestDx 2 16) (drop 0 ex_sample_packet)
    = Some (mkLongSeen Initial QUIC_VERSION [] SERVER_CID (Some [])
              (Z.of_nat (2 + length ct) `mod` 2 ^ 14) 2
              (1 `mod` 2 ^ (8 * Z.of_nat 2)),
            ct).
Proof.
  apply (long_packet_received (mkTestDx 1 16) (mkTestDx 2 16) []
           ex_sample_packet Initial [] SERVER_CID [] 1 2 SAMPLE_PAYLOAD);
    [by apply (bool_decide_unpack _)..|simpl; lia|simpl; lia|reflexivity].
Defined.

Lemma short_packet_received_witness :
  ∃ hdr ct,
    encrypt (mkTestDx 0 16) 0 hdr [0; 0; 0] = (mkTestDx 1 16, Ok ct) ∧
    length ex_short_packet = (0 + length hdr + length ct)%nat ∧
    take 0 ex_short_packet = [] ∧
    receive_short (mkTestDx 1 16) 8 (drop 0 ex_short_packet)
    = Some (mkShortSeen true SERVER_CID 1 (0 `mod` 2 ^ (8 * Z.of_nat 1)), ct).
Proof.
  apply (short_packet_received (mkTestDx 0 16) (mkTestDx 1 16) []
           ex_short_packet true SERVER_CID 0 1 [0; 0; 0]);
    [by apply (bool_decide_unpack _)..|reflexivity].
Defined.

Lemma long_packet_built_witness :
  is_Ok (build_packet (mkTestDx 1 16) []
           (mkPacket (StartLong Initial [] SERVER_CID)
              (long_calls Initial [] 1 2 SAMPLE_PAYLOAD))).2 ↔
  ∃ c, code (E:=Error) Initial = Ok c ∧
       (Initial = Initial → Z.of_nat (length (@nil Z)) < 2 ^ 62) ∧
       (1 ≤ 2 ≤ 4)%nat ∧
       (20 ≤ 2 + length SAMPLE_PAYLOAD + expansion (mkTestDx 1 16))%nat ∧
       let r := encrypt (mkTestDx 1 16) 1
                  (wire_header (long_first c)
                     (long_fields [] SERVER_CID
                      ++ (if decide (Initial = Initial) then token_field []
                          else []))
                     1 2 (length SAMPLE_PAYLOAD + expansion (mkTestDx 1 16)))
                  SAMPLE_PAYLOAD in
       ∃ ct, r.2 = Ok ct ∧
             is_Ok (compute_mask r.1 (take SAMPLE_SIZE (drop (4 - 2) ct))).
Proof.
  apply (long_packet_built (mkTestDx 1 16) [] Initial [] SERVER_CID [] 1 2
           SAMPLE_PAYLOAD); by apply (bool_decide_unpack _).
Defined.

Lemma short_packet_built_witness :
  is_Ok (build_packet (mkTestDx 0 16) []
           (mkPacket (StartShort true SERVER_CID) [Pn 0 1; Encode [0; 0; 0]])).2 ↔
  (1 ≤ 1 ≤ 4)%nat ∧
  (20 ≤ 1 + length [0; 0; 0] + expansion (mkTestDx 0 16))%nat ∧
  let r := encrypt (mkTestDx 0 16) 0
             (wire_header (short_first true) SERVER_CID 0 1
                (length [0; 0; 0] + expansion (mkTestDx 0 16))) [0; 0; 0] in
  ∃ ct, r.2 = Ok ct ∧
        is_Ok (compute_mask r.1 (take SAMPLE_SIZE (drop (4 - 1) ct))).
Proof.
  apply (short_packet_built (mkTestDx 0 16) [] true SERVER_CID 0 1 [0; 0; 0]);
    by apply (bool_decide_unpack _).
Defined.

Definition ex_sample_seen : long_seen * list Z := Eval vm_compute in
  default (mkLongSeen Initial 0 [] [] None 0 0 0, [])
    (receive_long (mkTestDx 2 16) ex_sample_packet).

Lemma long_packet_exact_witness :
  0 ≤ seen_length ex_sample_seen.1 < 2 ^ 14 ∧
  0 ≤ seen_pn ex_sample_seen.1 < 2 ^ (8 * Z.of_nat 2) ∧
  (seen_length ex_sample_seen.1
   = Z.of_nat (seen_pn_len ex_sample_seen.1 + length ex_sample_seen.2)
   ↔ Z.of_nat (2 + length SAMPLE_PAYLOAD + expansion (mkTestDx 1 16))
     < 2 ^ 14) ∧
  (seen_pn ex_sample_seen.1 = 1 ↔ 1 < 2 ^ (8 * Z.of_nat 2)).
Proof.
  apply (long_packet_exact (mkTestDx 1 16) (mkTestDx 2 16) []
           ex_sample_packet Initial [] SERVER_CID [] 1 2 SAMPLE_PAYLOAD
           ex_sample_seen.1 ex_sample_seen.2);
    [by apply (bool_decide_unpack _)..|simpl; lia|simpl; lia|lia
    |reflexivity|reflexivity].
Defined.
