(* ===== verification/Message.v ===== *)
(** * Messages and the reference serializer

    The builder is an API of many calls on a buffer.  What it is for is
    simpler: a message (header fields, packet number, payload) becomes a
    packet.  This file has the message as data ([message]), the calls a
    sender makes for it ([packet_of]), and the packet as one expression
    ([serialize]: the header laid out, the payload sealed under it, the
    sample taken, the mask applied), and proves that the calls compute
    that expression, failures included ([build_packet_serialize],
    [build_datagram_serialize]). *)

From Stdlib Require Import ZArith Lia.
From stdpp Require Import base option list numbers.
From S2P Require Import Prelude Encoder PacketType Crypto Builder Protection Lifecycle Position Wire EndToEnd.

#[local] Open Scope Z_scope.

(** ** Messages *)

(** What a sender puts into a packet with a packet number, and what its
    receiver is meant to get. *)
Inductive message : Set :=
| LongMsg (pt : PacketType) (dcid scid : ConnectionId) (token : list Z)
    (v : PacketNumber) (l : nat) (body : list Z)
| ShortMsg (key_phase : bool) (dcid : ConnectionId)
    (v : PacketNumber) (l : nat) (body : list Z).

#[export] Instance message_eq_dec : EqDecision message.
Proof. solve_decision. Defined.

(** The packet of a message: the calls on the builder in the documented
    order. *)
Definition packet_of (m : message) : packet :=
  match m with
  | LongMsg pt dcid scid token v l body =>
      mkPacket (StartLong pt dcid scid) (long_calls pt token v l body)
  | ShortMsg kp dcid v l body =>
      mkPacket (StartShort kp dcid) [Pn v l; Encode body]
  end.

Definition is_long_msg (m : message) : bool :=
  match m with LongMsg _ _ _ _ _ _ _ => true | ShortMsg _ _ _ _ _ => false end.

Definition msg_pn (m : message) : PacketNumber :=
  match m with LongMsg _ _ _ _ v _ _ | ShortMsg _ _ v _ _ => v end.

Definition msg_pn_len (m : message) : nat :=
  match m with LongMsg _ _ _ _ _ l _ | ShortMsg _ _ _ l _ => l end.

Definition msg_body (m : message) : list Z :=
  match m with LongMsg _ _ _ _ _ _ body | ShortMsg _ _ _ _ body => body end.

(** The bits of the first byte that header protection masks. *)
Definition msg_mask (m : message) : Z := if is_long_msg m then 0x0f else 0x1f.

(** The byte strings of a message hold bytes. *)
Definition msg_bytes_ok (m : message) : Prop :=
  match m with
  | LongMsg _ dcid scid token _ _ body =>
      bytes_ok dcid ∧ bytes_ok scid ∧ bytes_ok token ∧ bytes_ok body
  | ShortMsg _ dcid _ _ body => bytes_ok dcid ∧ bytes_ok body
  end.

#[export] Instance msg_bytes_ok_dec m : Decision (msg_bytes_ok m).
Proof. destruct m; apply _. Defined.

(** A datagram has long-header packets and at most one short-header
    packet, the last: a short header has no length, so nothing can follow
    it. *)
Fixpoint short_last (ms : list message) : bool :=
  match ms with
  | [] | [_] => true
  | m :: ms => is_long_msg m && short_last ms
  end.

(** ** The reference serializer *)

(** The header of a message in clear, for [rest_len] bytes of payload and
    tag after the packet number.  There is no header for a packet type
    without a type code, for a token too long for its length prefix, or
    for a packet number of less than one or more than four bytes. *)
Definition msg_header (m : message) (rest_len : nat) : Res (list Z) :=
  match m with
  | LongMsg pt dcid scid token v l body =>
      c ← code pt;
      _ ← assert (bool_decide (pt = Initial → Z.of_nat (length token) < 2 ^ 62));
      _ ← assert (bool_decide (1 ≤ l ≤ 4)%nat);
      Ok (wire_header (long_first c)
            (long_fields dcid scid
             ++ (if decide (pt = Initial) then token_field token else []))
            v l rest_len)
  | ShortMsg kp dcid v l body =>
      _ ← assert (bool_decide (1 ≤ l ≤ 4)%nat);
      Ok (wire_header (short_first kp) dcid v l rest_len)
  end.

Section serialize.
Context {St : Type} `{CryptoDx St}.
Implicit Types (crypto : St) (m : message) (ms : list message) (e : Encoder).

(** The packet of a message: the payload sealed under the header, the
    header protected with the mask of the sample, the ciphertext. *)
Definition serialize crypto m : St * Res (list Z) :=
  match msg_header m (length (msg_body m) + expansion crypto) with
  | Ok hdr =>
      let r := encrypt crypto (msg_pn m) hdr (msg_body m) in
      (r.1,
       ct ← r.2; sample ← sample_of (msg_pn_len m) ct;
       mask ← compute_mask r.1 sample;
       Ok (protect mask (msg_mask m) (msg_pn_len m) hdr ++ ct))
  | Err err => (crypto, Err err)
  | Panic => (crypto, Panic)
  end.

(** The packets of a sequence of messages, the provider's state threaded
    through; the first failure ends the sequence. *)
Fixpoint serialize_all crypto ms : St * Res (list (list Z)) :=
  match ms with
  | [] => (crypto, Ok [])
  | m :: ms =>
      match serialize crypto m with
      | (crypto, Ok pkt) =>
          let '(crypto, pkts) := serialize_all crypto ms in
          (crypto, (pkt ::.) <$> pkts)
      | (crypto, Err err) => (crypto, Err err)
      | (crypto, Panic) => (crypto, Panic)
      end
  end.
End serialize.

Section refinement.
Context {St : Type} `{CryptoDxLaws St}.
Implicit Types (crypto : St) (m : message) (ms : list message) (e : Encoder)
  (v : PacketNumber) (l : nat).

Lemma initial_token_Panic_token token b :
  2 ^ 62 ≤ Z.of_nat (length token) → initial_token token b = Panic.
Proof.
  intros Ht. unfold initial_token, encode_vvec.
  rewrite encode_varint_Panic by done.
  unfold index. destruct (_ !! _) as [first|]; outcome_simpl; [|done].
  by case_bool_decide.
Qed.

Lemma build_packet_Panic crypto e p :
  (b ← open_builder e (pkt_open p); run b (pkt_calls p)) = Panic →
  build_packet crypto e p = (crypto, Panic).
Proof. unfold build_packet. by intros ->. Qed.

Lemma long_serialize crypto pt dcid scid token v l body :
  let m := LongMsg pt dcid scid token v l body in
  msg_bytes_ok m → build_packet crypto [] (packet_of m) = serialize crypto m.
Proof.
  intros m (Hd & Hs & Ht & Hb). subst m. unfold serialize.
  cbn [msg_header msg_body msg_pn msg_pn_len msg_mask is_long_msg].
  destruct (code (E:=Error) pt) as [c| |] eqn:Hc;
    [|by destruct pt..]. outcome_simpl. unfold assert.
  destruct (decide (pt = Initial → Z.of_nat (length token) < 2 ^ 62))
    as [Htok|Htok];
    [rewrite (bool_decide_eq_true_2 _ Htok)
    |rewrite (bool_decide_eq_false_2 _ Htok)]; outcome_simpl;
    [destruct (decide (1 ≤ l ≤ 4)%nat) as [Hl|Hl];
     [rewrite (bool_decide_eq_true_2 _ Hl)
     |rewrite (bool_decide_eq_false_2 _ Hl)]; outcome_simpl|].
  - pose proof (long_calls_numbered [] pt c dcid scid token v l body
                  (Forall_nil_2 _) Hd Hs Ht Hb Hc Hl Htok) as Hn.
    unfold build_packet. cbn [packet_of pkt_open pkt_calls open_builder].
    rewrite (long_Ok _ _ _ _ _ Hc). outcome_simpl.
    change (mkBuilder _ _ _ _)
      with (started [] (long_first c) (long_fields dcid scid) 0x0f).
    by rewrite (long_calls_run_Ok [] pt c), build_started_eq by done.
  - apply build_packet_Panic.
    cbn [packet_of pkt_open pkt_calls open_builder].
    rewrite (long_Ok _ _ _ _ _ Hc). outcome_simpl.
    change (mkBuilder _ _ _ _)
      with (started [] (long_first c) (long_fields dcid scid) 0x0f).
    unfold run, long_calls.
    rewrite for_each_app, (token_calls_run [] pt c) by done. outcome_simpl.
    cbn [for_each do_call]. by rewrite pn_Panic_len.
  - apply build_packet_Panic.
    cbn [packet_of pkt_open pkt_calls open_builder].
    rewrite (long_Ok _ _ _ _ _ Hc). outcome_simpl.
    assert (pt = Initial ∧ 2 ^ 62 ≤ Z.of_nat (length token)) as [-> Hlong]
      by (destruct (decide (pt = Initial)); [split; [done|]|]; naive_solver lia).
    unfold run, long_calls. cbn [for_each do_call decide_rel app].
    rewrite decide_True by done. cbn [for_each do_call app].
    by rewrite initial_token_Panic_token.
Qed.

Lemma short_serialize crypto kp dcid v l body :
  let m := ShortMsg kp dcid v l body in
  msg_bytes_ok m → build_packet crypto [] (packet_of m) = serialize crypto m.
Proof.
  intros m (Hd & Hb). subst m. unfold serialize.
  cbn [msg_header msg_body msg_pn msg_pn_len msg_mask is_long_msg].
  unfold assert.
  case_bool_decide as Hl; outcome_simpl.
  - pose proof (short_calls_numbered [] kp dcid v l body
                  (Forall_nil_2 _) Hd Hb Hl) as Hn.
    unfold build_packet. cbn [packet_of pkt_open pkt_calls open_builder].
    outcome_simpl.
    by rewrite short_calls_run_Ok, build_started_eq by done.
  - apply build_packet_Panic.
    cbn [packet_of pkt_open pkt_calls open_builder]. outcome_simpl.
    unfold run. cbn [for_each do_call]. by rewrite pn_Panic_len.
Qed.

(** The calls for a message compute its packet, wherever they are
    made. *)
Lemma build_packet_serialize crypto e m :
  msg_bytes_ok m →
  build_packet crypto e (packet_of m)
  = ((serialize crypto m).1, (e ++.) <$> (serialize crypto m).2).
Proof.
  intros Hm. rewrite <- (app_nil_r e) at 1. rewrite build_packet_shift.
  cbn [fst snd]. destruct m.
  - by rewrite long_serialize.
  - by rewrite short_serialize.
Qed.

Lemma build_alone_serialize crypto ms :
  Forall msg_bytes_ok ms →
  build_alone crypto (packet_of <$> ms) = serialize_all crypto ms.
Proof.
  intros Hms. revert crypto.
  induction Hms as [|m ms Hm _ IH]; intros crypto; [done|].
  cbn [fmap list_fmap build_alone serialize_all].
  rewrite (build_packet_serialize crypto [] m Hm).
  destruct (serialize crypto m) as [c1 [pkt| |]]; [|done..]. simpl.
  by rewrite IH.
Qed.

(** C2: the builder computes the reference serializer.  For every
    provider, every buffer [e] and every sequence of messages whose byte
    strings hold bytes: the calls a sender makes for each message
    ([short] or [long], [initial_token] for an Initial packet, [pn], the
    payload, [build]), each packet started where the last one ended,
    return the buffer followed by the packets that [serialize] defines,
    each in one expression, and leave the provider in the same state; and
    they fail exactly when [serialize] fails, at the same message and
    with the same failure: a panic for a packet type without a type code,
    a token of 2^62 bytes or more, a packet number of less than one or
    more than four bytes, or too short a ciphertext for the sample; the
    provider's error when it refuses to seal or to compute the mask. *)
Theorem build_datagram_serialize crypto e ms :
  Forall msg_bytes_ok ms →
  build_datagram crypto e (packet_of <$> ms)
  = ((serialize_all crypto ms).1,
     (λ pkts, e ++ concat pkts) <$> (serialize_all crypto ms).2).
Proof.
  intros Hms. rewrite <- (app_nil_r e) at 1.
  rewrite build_datagram_shift, build_datagram_alone. cbn [fst snd].
  rewrite build_alone_serialize by done.
  by destruct (serialize_all crypto ms).2.
Qed.

End refinement.

(** ** The theorem at the datagram of the test [build_two] *)

Definition ex_two_msgs : list message :=
  [LongMsg Handshake SERVER_CID CLIENT_CID [] 0 1 [0; 0; 0];
   ShortMsg false SERVER_CID 1 3 [0]].

Lemma ex_two_msgs_packets :
  packet_of <$> ex_two_msgs = [pkt_two_first; pkt_two_second].
Proof. reflexivity. Qed.

Lemma build_datagram_serialize_witness :
  build_datagram (mkTestDx 0 16) [0xff] (packet_of <$> ex_two_msgs)
  = ((serialize_all (mkTestDx 0 16) ex_two_msgs).1,
     (λ pkts, [0xff] ++ concat pkts)
       <$> (serialize_all (mkTestDx 0 16) ex_two_msgs).2).
Proof.
  apply (build_datagram_serialize (mkTestDx 0 16) [0xff] ex_two_msgs).
  by apply (bool_decide_unpack _).
Defined.

(** A message without a packet: the failure of the calls is the failure
    of the serializer. *)
Lemma serialize_no_code :
  serialize (mkTestDx 0 16) (LongMsg VersionNegotiation [] [] [] 0 1 []) = (mkTestDx 0 16, Panic)
  ∧ serialize (mkTestDx 0 16) (ShortMsg false [] 0 5 []) = (mkTestDx 0 16, Panic)
  ∧ serialize (mkTestDx 3 16) (ShortMsg false [] 0 1 [0; 0; 0])
    = (mkTestDx 3 16, Err (CryptoError 1)).
Proof. by vm_compute. Qed.
