(* ===== verification/Coalesce.v ===== *)
(** * A coalesced datagram as its receiver splits it

    The builder writes a length field into every long header so that
    packets can be coalesced: the receiver of a datagram finds the end of
    a long-header packet from its length, and a short-header packet, which
    has no length, runs to the end of the datagram.  This file has the
    receiver's side as reference definitions ([split_long],
    [split_datagram]) and the theorem that the datagram [build] makes of a
    sequence of packets splits into exactly those packets, each as it is
    built alone, so that the theorems of [EndToEnd] apply to each. *)

From Stdlib Require Import ZArith Lia.
From stdpp Require Import base option list numbers.
From S2P Require Import Prelude Encoder PacketType Crypto Builder Protection Lifecycle Position Wire EndToEnd.

#[local] Open Scope Z_scope.

(** ** The receiver *)

(** The first packet of a datagram that starts with a long header, and
    the rest of the datagram: the packet ends where its length field
    says.  The length is read before header protection is removed, which
    does not touch it. *)
Definition split_long (dg : list Z) : option (list Z * list Z) :=
  '(seen, r) ← read_long_upto dg;
  let n := Z.to_nat (seen_length (seen 0%nat 0)) in
  if decide (n ≤ length r)%nat
  then
    let k := (length dg - length r + n)%nat in
    Some (take k dg, drop k dg)
  else None.

(** The packets of a datagram: long-header packets, each as long as its
    length field says, and at most one short-header packet, which has no
    length and runs to the end of the datagram. *)
Fixpoint split_datagram (fuel : nat) (dg : list Z) : option (list (list Z)) :=
  match fuel with
  | O => None
  | S fuel =>
      match dg with
      | [] => Some []
      | first :: _ =>
          if decide (Z.land first 0x80 = PACKET_BIT_LONG)
          then
            '(pkt, rest) ← split_long dg;
            pkts ← split_datagram fuel rest;
            Some (pkt :: pkts)
          else Some [dg]
      end
  end.

Lemma split_datagram_cons fuel first tl :
  split_datagram (S fuel) (first :: tl)
  = if decide (Z.land first 0x80 = PACKET_BIT_LONG)
    then '(pkt, rest) ← split_long (first :: tl);
         pkts ← split_datagram fuel rest;
         Some (pkt :: pkts)
    else Some [first :: tl].
Proof. reflexivity. Qed.

(** [split_long] once the fields up to the length have been read. *)
Lemma split_long_eq dg hd seen r :
  read_long_upto dg = Some (seen, r) → dg = hd ++ r →
  let n := Z.to_nat (seen_length (seen 0%nat 0)) in
  (n ≤ length r)%nat → split_long dg = Some (hd ++ take n r, drop n r).
Proof.
  intros Hread -> n Hn. unfold split_long. rewrite Hread.
  cbn [mbind option_bind]. fold n. rewrite decide_True by done.
  rewrite length_app, Nat.add_sub. by rewrite take_app_add, drop_app_add.
Qed.

(** ** The split loses nothing and ends

    Every byte of a datagram is in exactly one of its packets, no packet
    is empty, and the fuel of [split_datagram] is only a bound: a step
    takes at least one byte, so more fuel than the datagram has bytes
    changes nothing. *)

Lemma split_long_app dg pkt rest :
  split_long dg = Some (pkt, rest) →
  dg = pkt ++ rest ∧ (length rest < length dg)%nat.
Proof.
  unfold split_long.
  destruct (read_long_upto dg) as [[seen r]|] eqn:Hr; [|done]. simpl.
  apply read_long_upto_shorter in Hr. case_decide; [|done].
  intros [= <- <-]. split; [by rewrite take_drop|]. len.
Qed.

Lemma split_datagram_fuel n m dg :
  (length dg < n)%nat → (length dg < m)%nat →
  split_datagram n dg = split_datagram m dg.
Proof.
  revert m dg. induction n as [|n IH]; intros [|m] dg Hn Hm; try lia.
  destruct dg as [|first tl]; [done|]. rewrite !split_datagram_cons.
  case_decide; [|done].
  destruct (split_long (first :: tl)) as [[pkt rest]|] eqn:Hs; [|done].
  apply split_long_app in Hs as [_ Hlen]. simpl in *.
  by rewrite (IH m rest) by lia.
Qed.

Lemma split_datagram_mono n m dg pkts :
  split_datagram n dg = Some pkts → (n ≤ m)%nat →
  split_datagram m dg = Some pkts.
Proof.
  revert m dg pkts. induction n as [|n IH]; intros [|m] dg pkts; try done;
    [lia|].
  destruct dg as [|first tl]; [done|]. rewrite !split_datagram_cons.
  case_decide; [|done].
  destruct (split_long (first :: tl)) as [[pkt rest]|]; [|done]. simpl.
  destruct (split_datagram n rest) as [pkts'|] eqn:Hr; [|done].
  intros [= <-] Hnm. by rewrite (IH m rest pkts') by (done || lia).
Qed.

Lemma split_datagram_concat fuel dg pkts :
  split_datagram fuel dg = Some pkts →
  concat pkts = dg ∧ Forall (λ pkt, pkt ≠ []) pkts.
Proof.
  revert dg pkts. induction fuel as [|fuel IH]; intros dg pkts; [done|].
  destruct dg as [|first tl]; [by intros [= <-]|].
  rewrite split_datagram_cons. case_decide.
  - destruct (split_long (first :: tl)) as [[pkt rest]|] eqn:Hs; [|done].
    apply split_long_app in Hs as [Heq Hlen]. simpl.
    destruct (split_datagram fuel rest) as [pkts'|] eqn:Hr; [|done].
    intros [= <-]. apply IH in Hr as [<- Hne]. simpl. split; [done|].
    constructor; [|done]. intros ->. simpl in Heq. rewrite Heq in Hlen. lia.
  - intros [= <-]. simpl. rewrite app_nil_r. split; [done|]. by repeat constructor.
Qed.

(** A receiver does not know how many packets a datagram holds: fuel
    for one packet per byte, and one more, is enough for every datagram
    that can be split at all. *)
Lemma split_datagram_enough n dg pkts :
  split_datagram n dg = Some pkts →
  split_datagram (S (length dg)) dg = Some pkts.
Proof.
  revert dg pkts. induction n as [|n IH]; intros dg pkts; [done|].
  destruct dg as [|first tl]; [done|]. rewrite !split_datagram_cons.
  case_decide; [|done].
  destruct (split_long (first :: tl)) as [[pkt rest]|] eqn:Hs; [|done].
  apply split_long_app in Hs as [_ Hlen]. cbn [mbind option_bind].
  destruct (split_datagram n rest) as [pkts'|] eqn:Hr; [|done].
  intros [= <-].
  by rewrite (split_datagram_mono _ (length (first :: tl)) _ _ (IH _ _ Hr))
    by lia.
Qed.

Section split.
Context {St : Type} `{CryptoDxLaws St}.
Implicit Types (crypto : St) (e dcid scid token body ct mask rest : list Z)
  (v : PacketNumber) (l : nat) (pt : PacketType).

Lemma split_long_wire pt c dcid scid token v l ct mask rest :
  code (E:=Error) pt = Ok c →
  (length dcid < 256)%nat → (length scid < 256)%nat →
  (pt = Initial → Z.of_nat (length token) < 2 ^ 62) → (1 ≤ l ≤ 4)%nat →
  (5 ≤ length mask)%nat → Z.of_nat (l + length ct) < 2 ^ 14 →
  let pkt :=
    protect mask 0x0f l
      (wire_header (long_first c)
         (long_fields dcid scid
          ++ (if decide (pt = Initial) then token_field token else []))
         v l (length ct)) ++ ct in
  split_long (pkt ++ rest) = Some (pkt, rest).
Proof.
  intros Hc Hd Hs Ht Hl Hm Hlen pkt.
  pose proof (code_range _ _ Hc) as Hcr.
  destruct (long_first_code c l Hcr Hl) as (Hbits & Hcode & Hn).
  pose proof (long_first_long c Hcr) as Hlong.
  set (fields := long_fields dcid scid ++ _) in *.
  subst pkt. rewrite protect_wire_header by lia.
  rewrite decide_True by done.
  set (pnx := zip_with Z.lxor (be_bytes l v) (drop 1 mask)).
  assert (length pnx = l) as Hpnx
    by (unfold pnx; rewrite length_zip_with, length_be_bytes, length_drop; lia).
  set (first := Z.lxor _ _).
  rewrite (split_long_eq _ (first :: fields ++ len_field (l + length ct))
             (λ n p, mkLongSeen pt QUIC_VERSION dcid scid
                       (if decide (pt = Initial) then Some token else None)
                       (Z.of_nat (l + length ct) `mod` 2 ^ 14) n p)
             (pnx ++ ct ++ rest)).
  - cbn [seen_length]. rewrite Z.mod_small, Nat2Z.id by lia.
    rewrite app_assoc, take_app_length', drop_app_length' by len.
    do 2 f_equal. cbn [app]. by rewrite <- !app_assoc.
  - rewrite <- !app_assoc. cbn [app]. rewrite <- !app_assoc.
    unfold fields. apply (read_long_upto_fields _ pt c); try done.
    + unfold first. rewrite land_lxor_masked by done. exact Hbits.
    + unfold first. change 3 with (0x30 ≫ 4). rewrite <- !Z.shiftr_land.
      rewrite land_lxor_masked by done. rewrite Z.shiftr_land. exact Hcode.
  - cbn [app]. by rewrite <- !app_assoc.
  - cbn [seen_length]. rewrite Z.mod_small, Nat2Z.id by lia. len.
Qed.

(** The first byte of a protected header keeps its form bit. *)
Lemma protected_first_form mask fbm first fields v l rest_len ct :
  (l < length mask)%nat → Z.land fbm 0x80 = 0 →
  ∃ first' tl,
    protect mask fbm l (wire_header first fields v l rest_len) ++ ct
    = first' :: tl ∧
    Z.land first' 0x80 = Z.land (Z.lor first (u8 (Z.of_nat (l - 1)))) 0x80.
Proof.
  intros Hl Hf. rewrite protect_wire_header by done. eexists _, _.
  split; [by rewrite <- app_comm_cons|]. by apply land_lxor_masked.
Qed.

Lemma land_form_bit x y : Z.land x 0xc0 = y → Z.land x 0x80 = Z.land y 0x80.
Proof. intros <-. by rewrite <- Z.land_assoc. Qed.

(** The packets a datagram can hold: long-header packets made in the
    documented order, with connection IDs of at most 255 bytes and a
    length that fits the length field, and at the end possibly one
    short-header packet. *)
Inductive coalescible (x : nat) : list packet → Prop :=
| coalescible_nil : coalescible x []
| coalescible_short kp dcid v l body :
    bytes_ok dcid → bytes_ok body →
    coalescible x [mkPacket (StartShort kp dcid) [Pn v l; Encode body]]
| coalescible_long pt dcid scid token v l body ps :
    bytes_ok dcid → bytes_ok scid → bytes_ok token → bytes_ok body →
    (length dcid < 256)%nat → (length scid < 256)%nat →
    Z.of_nat (l + length body + x) < 2 ^ 14 →
    coalescible x ps →
    coalescible x
      (mkPacket (StartLong pt dcid scid) (long_calls pt token v l body) :: ps).

(** A built long-header packet starts with a byte whose top bit is
    set, and is split from what follows it. *)
Lemma long_packet_form crypto crypto' pt dcid scid token v l body pkt rest :
  bytes_ok dcid → bytes_ok scid → bytes_ok token → bytes_ok body →
  (length dcid < 256)%nat → (length scid < 256)%nat →
  Z.of_nat (l + length body + expansion crypto) < 2 ^ 14 →
  build_packet crypto []
    (mkPacket (StartLong pt dcid scid) (long_calls pt token v l body))
  = (crypto', Ok pkt) →
  (∃ first tl, pkt = first :: tl ∧ Z.land first 0x80 = PACKET_BIT_LONG) ∧
  split_long (pkt ++ rest) = Some (pkt, rest).
Proof.
  intros Hd Hs Ht Hb Hdl Hsl Hlen Hp.
  apply long_packet_shape in Hp
    as (c & ct & sample & mask & Hc & Htok & Hl & Hct%encrypt_length & _
        & Hm%compute_mask_length & ->); [|done..].
  cbn [app]. rewrite <- Hct in *.
  pose proof (code_range _ _ Hc) as Hcr.
  destruct (long_first_code c l Hcr Hl) as (Hbits%land_form_bit & _).
  split.
  - destruct (protected_first_form mask 0x0f (long_first c)
                (long_fields dcid scid
                 ++ (if decide (pt = Initial) then token_field token else []))
                v l (length ct) ct)
      as (first & tl & Heq & Hform); [lia|done|].
    exists first, tl. split; [done|]. by rewrite Hform, Hbits.
  - apply (split_long_wire pt c); (done || lia).
Qed.

(** A built short-header packet starts with a byte whose top bit is
    clear. *)
Lemma short_packet_form crypto crypto' kp dcid v l body pkt :
  bytes_ok dcid → bytes_ok body →
  build_packet crypto [] (mkPacket (StartShort kp dcid) [Pn v l; Encode body])
  = (crypto', Ok pkt) →
  ∃ first tl, pkt = first :: tl ∧ Z.land first 0x80 ≠ PACKET_BIT_LONG.
Proof.
  intros Hd Hb Hp.
  apply short_packet_shape in Hp
    as (ct & sample & mask & Hl & _ & _ & Hm%compute_mask_length & ->);
    [|done..].
  destruct (protected_first_form mask 0x1f (short_first kp) dcid v l
              (length body + expansion crypto) ct)
    as (first & tl & Heq & Hform); [lia|done|].
  destruct (short_first_bits kp l Hl) as (Hbits%land_form_bit & _).
  exists first, tl. split; [done|]. by rewrite Hform, Hbits.
Qed.

Lemma split_alone crypto ps crypto' pkts :
  coalescible (expansion crypto) ps →
  build_alone crypto ps = (crypto', Ok pkts) →
  split_datagram (S (length ps)) (concat pkts) = Some pkts.
Proof.
  intros Hps. remember (expansion crypto) as x eqn:Hx.
  revert crypto crypto' pkts Hx.
  induction Hps as [|kp dcid v l body Hd Hb
                    |pt dcid scid token v l body ps Hd Hs Ht Hb Hdl Hsl Hlen
                       _ IH]; intros crypto crypto' pkts Hx; cbn [build_alone].
  - by intros [= _ <-].
  - destruct (build_packet crypto [] _) as [c1 [pkt| |]] eqn:Hp; [|done..].
    intros [= _ <-].
    apply short_packet_form in Hp as (first & tl & -> & Hform); [|done..].
    cbn [app concat length]. rewrite app_nil_r.
    by rewrite split_datagram_cons, decide_False.
  - pose proof (build_packet_expansion crypto []
                  (mkPacket (StartLong pt dcid scid)
                     (long_calls pt token v l body))) as Hx1.
    destruct (build_packet crypto [] _) as [c1 [pkt| |]] eqn:Hp; [|done..].
    destruct (build_alone c1 ps) as [c2 [pkts'| |]] eqn:Hps; [|done..].
    intros [= _ <-]. simpl in Hx1. subst x.
    apply (long_packet_form _ _ _ _ _ _ _ _ _ _ (concat pkts')) in Hp
      as [(first & tl & -> & Hform) Hsplit]; [|done..].
    cbn [app concat length] in *.
    rewrite split_datagram_cons, decide_True by done.
    rewrite Hsplit. cbn [mbind option_bind].
    by rewrite (IH c1 c2 pkts') by congruence.
Qed.

(** The same with the fuel a receiver has. *)
Lemma split_built crypto ps crypto' pkts :
  coalescible (expansion crypto) ps →
  build_alone crypto ps = (crypto', Ok pkts) →
  split_datagram (S (length (concat pkts))) (concat pkts) = Some pkts.
Proof. intros Hps Ha. eapply split_datagram_enough, split_alone; done. Qed.

(** C7: the receiver splits what the sender coalesced.  A datagram is
    built, behind any bytes [e], from long-header packets made in the
    documented order, each with connection IDs of at most 255 bytes and
    with packet number, payload and tag of less than 2^14 bytes together,
    and possibly a short-header packet at the end.  Then the receiver, who
    has the bytes of the datagram and nothing else, finds the packets:
    with fuel for one step per packet and one more, [split_datagram]
    returns exactly the packets the sender made, each as [build] makes it
    alone with the provider in the state the packets before it left.  The
    length fields that [write_len] fills in are what makes this work: the
    split reads nothing else of a long header than the fields before the
    packet number, which header protection leaves in clear. *)
Theorem datagram_split crypto crypto' e ps dg :
  coalescible (expansion crypto) ps →
  build_datagram crypto e ps = (crypto', Ok dg) →
  ∃ pkts,
    build_alone crypto ps = (crypto', Ok pkts) ∧ dg = e ++ concat pkts ∧
    split_datagram (S (length ps)) (drop (length e) dg) = Some pkts.
Proof.
  intros Hps (pkts & Ha & ->)%build_datagram_pkts. exists pkts.
  split; [done|]. split; [done|]. rewrite drop_app_length.
  by eapply split_alone.
Qed.

End split.

(** ** The theorem at the datagram of the test [build_two] *)

Definition ex_two_packets : list (list Z) := Eval vm_compute in
  match build_alone (mkTestDx 0 16) [pkt_two_first; pkt_two_second] with
  | (_, Ok pkts) => pkts
  | _ => []
  end.

Lemma pkts_two_coalescible : coalescible 16 [pkt_two_first; pkt_two_second].
Proof.
  apply (coalescible_long 16 Handshake SERVER_CID CLIENT_CID [] 0 1
           [0; 0; 0] [pkt_two_second]);
    try (by apply (bool_decide_unpack _)); try (simpl; lia).
  by apply coalescible_short; apply (bool_decide_unpack _).
Qed.

Lemma datagram_split_witness :
  ∃ pkts,
    build_alone (mkTestDx 0 16) [pkt_two_first; pkt_two_second]
    = (mkTestDx 2 16, Ok pkts) ∧
    concat ex_two_packets = [] ++ concat pkts ∧
    split_datagram 3 (drop 0 (concat ex_two_packets)) = Some pkts.
Proof.
  exact (datagram_split (mkTestDx 0 16) (mkTestDx 2 16) []
           [pkt_two_first; pkt_two_second] (concat ex_two_packets)
           pkts_two_coalescible eq_refl).
Defined.
