(* ===== verification/Reception.v ===== *)
(** * The receiver of a datagram

    What the sender builds is meant to be opened.  This file has the
    receiving end as reference definitions: the provider's [decrypt]
    ([CryptoRx]), the pairing of a sender's and a receiver's provider
    ([Paired]), the reconstruction of a packet number from its low bytes
    ([decode_pn], RFC 9000, Appendix A.3), and the receiver itself
    ([open_long], [open_short], [open_datagram]), which splits a datagram,
    removes header protection, reads the headers and opens the payloads
    into the messages of [Message].  The theorems compose everything
    before: the datagram that [build] makes of a sequence of messages is
    opened by the paired receiver as exactly those messages
    ([datagram_roundtrip]). *)

From Stdlib Require Import ZArith Lia Btauto.
From stdpp Require Import base option list numbers.
From S2P Require Import Prelude Encoder PacketType Crypto Builder Protection Lifecycle Position Wire EndToEnd Message Coalesce.

#[local] Open Scope Z_scope.

(** ** The receiving direction of the provider *)

(** [CryptoDxState::decrypt(pn, hdr, body)]: the payload of a sealed body,
    or an error when the tag does not match. *)
Class CryptoRx (S : Type) : Type := {
  decrypt : S → PacketNumber → list Z → list Z → Res (list Z);
}.

Section keys.
Context {St : Type} `{CryptoDx St}.
Implicit Types (s r : St) (pkt : list Z).

(** Providers that protect headers alike.  The receiver of [Wire] depends
    on its provider through [compute_mask] only. *)
Definition same_mask s r : Prop :=
  ∀ sample, compute_mask s sample = compute_mask r sample.

#[export] Instance same_mask_equivalence : Equivalence same_mask.
Proof.
  split; [done|by intros s r Hs sample|].
  intros s1 s2 s3 H12 H23 sample. by rewrite H12.
Qed.

#[export] Instance receive_proper :
  Proper (same_mask ==> (=) ==> (=) ==> (=)) receive.
Proof.
  intros s r Hs off ? <- pkt ? <-. unfold receive.
  destruct (wire_sample off pkt) as [sample|]; [|done]. simpl. by rewrite Hs.
Qed.

#[export] Instance receive_long_proper :
  Proper (same_mask ==> (=) ==> (=)) receive_long.
Proof.
  intros s r Hs pkt ? <-. unfold receive_long.
  destruct (long_pn_offset pkt) as [off|]; [|done]. simpl. by rewrite Hs.
Qed.

#[export] Instance receive_short_proper :
  Proper (same_mask ==> (=) ==> (=) ==> (=)) receive_short.
Proof.
  intros s r Hs n ? <- pkt ? <-. unfold receive_short. by rewrite Hs.
Qed.
End keys.

(** A sender's provider and the receiver's that holds the same keys: they
    protect headers alike, the receiver opens what the sender seals, and
    sealing a packet does not end the pairing. *)
Class Paired (St : Type) `{CryptoDx St, CryptoRx St} : Type := {
  paired : St → St → Prop;
  paired_mask s r : paired s r → same_mask s r;
  paired_encrypt s r pn hdr body :
    paired s r → paired (encrypt s pn hdr body).1 r;
  paired_decrypt s r pn hdr body s' ct :
    paired s r → bytes_ok body →
    encrypt s pn hdr body = (s', Ok ct) → decrypt r pn hdr ct = Ok body;
}.

(** ** The test provider, receiving *)

(** The inverse of [test_encrypt]: the tag is checked against the packet
    number and the header, the bytes before it are unmasked. *)
Definition test_decrypt (r : TestDx) (pn : Z) (hdr ct : list Z)
  : Res (list Z) :=
  let n := (length ct - tag_len r)%nat in
  if decide (tag_len r ≤ length ct
             ∧ drop n ct = replicate (tag_len r) (test_tag pn hdr))%nat
  then Ok ((λ b, u8 (Z.lxor b pn)) <$> take n ct)
  else Err (CryptoError 3).

#[export] Instance TestDx_CryptoRx : CryptoRx TestDx := {|
  decrypt := test_decrypt;
|}.

Lemma u8_lxor_cancel b k : is_u8 b → u8 (Z.lxor (u8 (Z.lxor b k)) k) = b.
Proof.
  intros Hb%is_u8_land_ones. rewrite <- !u8_land_255.
  rewrite land_lxor_distr_l, <- Z.land_assoc, Z.land_diag.
  rewrite <- land_lxor_distr_l, lxor_cancel_r. done.
Qed.

Lemma test_decrypt_encrypt s r pn hdr body s' ct :
  tag_len s = tag_len r → bytes_ok body →
  test_encrypt s pn hdr body = (s', Ok ct) → test_decrypt r pn hdr ct = Ok body.
Proof.
  intros Ht Hb (_ & _ & ->)%test_encrypt_Ok. unfold test_decrypt.
  rewrite <- Ht. set (sealed := _ <$> body).
  rewrite length_app, length_replicate, Nat.add_sub.
  rewrite drop_app_length, take_app_length, decide_True by (split; [lia|done]).
  f_equal. unfold sealed. rewrite <- list_fmap_compose. rewrite <- (list_fmap_id body) at 2.
  apply Forall_fmap_ext_1. eapply Forall_impl; [|exact Hb].
  intros b Hbyte. by apply u8_lxor_cancel.
Qed.

#[export, refine] Instance TestDx_Paired : Paired TestDx := {|
  paired s r := tag_len s = tag_len r;
|}.
Proof.
  - done.
  - intros s r pn hdr body Ht. simpl. unfold test_encrypt. by case_decide.
  - intros *. apply test_decrypt_encrypt.
Defined.

(** ** The packet number, from its low bytes *)

(** The packet number a receiver takes a truncated packet number for
    (RFC 9000, Appendix A.3): the number closest to the one it expects
    next that ends in the [l] bytes received. *)
Definition decode_pn (expected : PacketNumber) (t : Z) (l : nat)
  : PacketNumber :=
  let win := 2 ^ (8 * Z.of_nat l) in
  let hwin := win / 2 in
  let candidate := Z.lor (Z.ldiff expected (win - 1)) t in
  if decide (candidate ≤ expected - hwin ∧ candidate < 2 ^ 62 - win)
  then candidate + win
  else if decide (expected + hwin < candidate ∧ win ≤ candidate)
  then candidate - win
  else candidate.

(** The packet numbers that [l] bytes can tell apart for a receiver that
    expects [expected]. *)
Definition in_window (expected v : PacketNumber) (l : nat) : Prop :=
  0 ≤ expected ∧ 0 ≤ v < 2 ^ 62 ∧
  expected - 2 ^ (8 * Z.of_nat l) / 2 < v ≤ expected + 2 ^ (8 * Z.of_nat l) / 2.

#[export] Instance in_window_dec expected v l : Decision (in_window expected v l).
Proof. unfold in_window. apply _. Defined.

(** The candidate is [expected] with its low bits replaced. *)
Lemma lor_ldiff_low expected t n :
  0 ≤ n → 0 ≤ expected → 0 ≤ t < 2 ^ n →
  Z.lor (Z.ldiff expected (2 ^ n - 1)) t
  = expected - expected `mod` 2 ^ n + t.
Proof.
  intros Hn He Ht. rewrite Z.sub_1_r, <- Z.ones_equiv.
  rewrite Z.ldiff_ones_r by done. rewrite Z.lor_comm, lor_tag; try done.
  - rewrite Z.shiftr_div_pow2 by done.
    pose proof (Z.div_mod expected (2 ^ n)). lia.
  - apply Z.shiftr_nonneg. done.
Qed.

Lemma decode_pn_recovers expected v l :
  (1 ≤ l ≤ 4)%nat → in_window expected v l →
  decode_pn expected (v `mod` 2 ^ (8 * Z.of_nat l)) l = v.
Proof.
  intros Hl (He & Hv & Hw). unfold decode_pn.
  rewrite lor_ldiff_low; [|lia|done|apply Z.mod_pos_bound; lia].
  assert (l = 1 ∨ l = 2 ∨ l = 3 ∨ l = 4)%nat as Hls by lia.
  destruct Hls as [->|[->|[->| ->]]];
    set (W := 2 ^ (8 * Z.of_nat _)) in *; vm_compute in W; subst W;
    change (2 ^ 62) with 4611686018427387904 in *;
    repeat case_decide; Z.div_mod_to_equations; lia.
Qed.

(** ** The receiver *)

Section receiver.
Context {St : Type} `{CryptoDx St, CryptoRx St}.
Implicit Types (rx : St) (pkt clear ct : list Z) (cid_len : nat)
  (expected : option PacketType → PacketNumber).

(** The payload: everything of the packet in clear before the ciphertext
    is the associated data. *)
Definition open_body rx (v : PacketNumber) clear ct : option (list Z) :=
  match decrypt rx v (take (length clear - length ct) clear) ct with
  | Ok body => Some body
  | _ => None
  end.

(** The reserved bits of a header in clear are zero: bits 2 and 3 of
    the first byte of a long header, bits 3 and 4 of a short one
    (RFC 9000, sections 17.2 and 17.3.1).  They are under header
    protection, so a receiver checks them once it has removed it. *)
Definition reserved_ok clear : bool :=
  match clear with
  | [] => false
  | first :: _ =>
      bool_decide
        (Z.land first
           (if decide (Z.land first 0x80 = PACKET_BIT_LONG) then 0x0c
            else 0x18) = 0)
  end.

(** A long-header packet: header protection is removed, the header is
    read, a version other than [QUIC_VERSION] and reserved bits that are
    set are refused, the packet number is reconstructed from the one
    expected next in the packet's space, the payload is opened. *)
Definition open_long rx expected pkt : option message :=
  pn_offset ← long_pn_offset pkt;
  '(clear, _) ← receive rx pn_offset pkt;
  '(seen, ct) ← read_long clear;
  if decide (seen_version seen = QUIC_VERSION ∧ reserved_ok clear)
  then
    let v := decode_pn (expected (Some (seen_type seen))) (seen_pn seen)
               (seen_pn_len seen) in
    body ← open_body rx v clear ct;
    Some (LongMsg (seen_type seen) (seen_dcid seen) (seen_scid seen)
            (default [] (seen_token seen)) v (seen_pn_len seen) body)
  else None.

(** A short-header packet, for a receiver whose connection IDs have
    [cid_len] bytes. *)
Definition open_short rx cid_len expected pkt : option message :=
  '(clear, _) ← receive rx (1 + cid_len)%nat pkt;
  '(seen, ct) ← read_short cid_len clear;
  if decide (reserved_ok clear)
  then
    let v := decode_pn (expected None) (seen_short_pn seen)
               (seen_short_pn_len seen) in
    body ← open_body rx v clear ct;
    Some (ShortMsg (seen_key_phase seen) (seen_short_dcid seen) v
            (seen_short_pn_len seen) body)
  else None.

(** A packet of either form, told apart by the top bit of its first
    byte. *)
Definition open_packet rx cid_len expected pkt : option message :=
  first ← pkt !! 0%nat;
  if decide (Z.land first 0x80 = PACKET_BIT_LONG)
  then open_long rx expected pkt
  else open_short rx cid_len expected pkt.

(** A datagram: split into its packets, each opened.  A datagram of [n]
    bytes has at most [n] packets, so the split has fuel for all of
    them. *)
Definition open_datagram rx cid_len expected (dg : list Z)
  : option (list message) :=
  pkts ← split_datagram (S (length dg)) dg;
  mapM (open_packet rx cid_len expected) pkts.

(** The messages a receiver with connection IDs of [cid_len] bytes, who
    expects the packet numbers [expected], can get back from a provider
    whose tags have [x] bytes. *)
Definition msg_ok (x cid_len : nat) expected (m : message) : Prop :=
  match m with
  | LongMsg pt dcid scid token v l body =>
      bytes_ok dcid ∧ bytes_ok scid ∧ bytes_ok token ∧ bytes_ok body ∧
      (length dcid < 256)%nat ∧ (length scid < 256)%nat ∧
      (pt ≠ Initial → token = []) ∧
      Z.of_nat (l + length body + x) < 2 ^ 14 ∧
      in_window (expected (Some pt)) v l
  | ShortMsg kp dcid v l body =>
      bytes_ok dcid ∧ bytes_ok body ∧ length dcid = cid_len ∧
      in_window (expected None) v l
  end.

#[export] Instance msg_ok_dec x cid_len expected m :
  Decision (msg_ok x cid_len expected m).
Proof. destruct m; apply _. Defined.

End receiver.

(** ** What the sender builds, the receiver opens *)

Section opened.
Context {St : Type} {dx : CryptoDx St} {laws : CryptoDxLaws St}
  {rxi : CryptoRx St} {pr : Paired St}.
Implicit Types (crypto rx : St) (e pkt hdr ct : list Z) (cid_len : nat)
  (expected : option PacketType → PacketNumber) (m : message)
  (v : PacketNumber) (l : nat).

(** The builder leaves the reserved bits of a header at zero. *)
Lemma long_reserved_ok c fields v l rest_len ct :
  0 ≤ c < 4 → (1 ≤ l ≤ 4)%nat →
  reserved_ok (wire_header (long_first c) fields v l rest_len ++ ct).
Proof.
  intros Hc Hl. assert (c = 0 ∨ c = 1 ∨ c = 2 ∨ c = 3) as Hcs by lia.
  assert (l = 1 ∨ l = 2 ∨ l = 3 ∨ l = 4)%nat as Hls by lia.
  destruct Hcs as [->|[->|[->| ->]]], Hls as [->|[->|[->| ->]]]; done.
Qed.

Lemma short_reserved_ok kp fields v l rest_len ct :
  (1 ≤ l ≤ 4)%nat →
  reserved_ok (wire_header (short_first kp) fields v l rest_len ++ ct).
Proof.
  intros Hl. assert (l = 1 ∨ l = 2 ∨ l = 3 ∨ l = 4)%nat as Hls by lia.
  destruct kp, Hls as [->|[->|[->| ->]]]; done.
Qed.

(** The payload of a packet whose header is in clear. *)
Lemma open_body_sealed crypto crypto' rx v hdr body ct :
  paired crypto rx → bytes_ok body →
  encrypt crypto v hdr body = (crypto', Ok ct) →
  open_body rx v (hdr ++ ct) ct = Some body ∧ paired crypto' rx.
Proof.
  intros Hp Hb Henc. unfold open_body.
  rewrite length_app, Nat.add_sub, take_app_length.
  rewrite (paired_decrypt crypto rx v hdr body crypto' ct) by done.
  split; [done|].
  by replace crypto' with (encrypt crypto v hdr body).1
    by (by rewrite Henc); apply paired_encrypt.
Qed.

Lemma long_message_opened crypto crypto' rx e e' cid_len expected
    pt dcid scid token v l body :
  let m := LongMsg pt dcid scid token v l body in
  paired crypto rx → bytes_ok e →
  msg_ok (expansion crypto) cid_len expected m →
  build_packet crypto e (packet_of m) = (crypto', Ok e') →
  open_long rx expected (drop (length e) e') = Some m ∧ paired crypto' rx.
Proof.
  intros m Hp He (Hd & Hs & Ht & Hb & Hdl & Hsl & Htok & _ & Hw) Hbp.
  destruct (long_packet_shape _ _ _ _ _ _ _ _ _ _ _ He Hd Hs Ht Hb Hbp)
    as (c & ct & sample & mask & Hc & Htl & Hl & Henc & Hsample & Hm & ->).
  destruct (open_body_sealed crypto crypto' rx v _ body ct Hp Hb Henc)
    as [Hopen Hp'].
  split; [|done].
  destruct (long_wire_clear crypto' pt c dcid scid token v l
              (length body + expansion crypto) ct sample mask)
    as (off & Hoff & Hclear); try done.
  rewrite (paired_mask _ _ Hp') in Hclear.
  rewrite drop_app_length. unfold open_long.
  rewrite Hoff. cbn [mbind option_bind]. rewrite Hclear.
  cbn [mbind option_bind].
  rewrite (read_long_wire_header pt c) by done.
  cbn [mbind option_bind seen_version seen_type seen_pn seen_pn_len
         seen_dcid seen_scid seen_token].
  rewrite decide_True
    by (split; [done|by apply long_reserved_ok; [eapply code_range|]]).
  rewrite decode_pn_recovers by done.
  rewrite Hopen. cbn [mbind option_bind]. unfold m. do 2 f_equal.
  case_decide; [done|]. by rewrite Htok.
Qed.

Lemma short_message_opened crypto crypto' rx e e' cid_len expected
    kp dcid v l body :
  let m := ShortMsg kp dcid v l body in
  paired crypto rx → bytes_ok e →
  msg_ok (expansion crypto) cid_len expected m →
  build_packet crypto e (packet_of m) = (crypto', Ok e') →
  open_short rx cid_len expected (drop (length e) e') = Some m
  ∧ paired crypto' rx.
Proof.
  intros m Hp He (Hd & Hb & <- & Hw) Hbp.
  destruct (short_packet_shape _ _ _ _ _ _ _ _ _ He Hd Hb Hbp)
    as (ct & sample & mask & Hl & Henc & Hsample & Hm & ->).
  destruct (open_body_sealed crypto crypto' rx v _ body ct Hp Hb Henc)
    as [Hopen Hp'].
  split; [|done].
  pose proof (short_wire_clear crypto' kp dcid v l
                (length body + expansion crypto) ct sample mask Hl Hsample Hm)
    as Hclear.
  cbv zeta in Hclear. rewrite (paired_mask _ _ Hp') in Hclear.
  rewrite drop_app_length. unfold open_short. rewrite Hclear.
  cbn [mbind option_bind].
  rewrite read_short_wire_header by done.
  cbn [mbind option_bind seen_short_pn seen_short_pn_len seen_key_phase
         seen_short_dcid].
  rewrite decide_True by (by apply short_reserved_ok).
  rewrite decode_pn_recovers by done. by rewrite Hopen.
Qed.

(** A packet built alone is opened as the message it was built from. *)
Lemma packet_opened crypto crypto' rx cid_len expected m pkt :
  paired crypto rx → msg_ok (expansion crypto) cid_len expected m →
  build_packet crypto [] (packet_of m) = (crypto', Ok pkt) →
  open_packet rx cid_len expected pkt = Some m ∧ paired crypto' rx.
Proof.
  intros Hp Hm Hbp. unfold open_packet. destruct m as [pt d s t v l b|kp d v l b].
  - destruct (long_message_opened _ _ _ [] _ _ _ _ _ _ _ _ _ _ Hp
                (Forall_nil_2 _) Hm Hbp) as [Hopen Hp'].
    destruct Hm as (Hd & Hs & Ht & Hb & Hdl & Hsl & _ & Hlen & _).
    apply (long_packet_form _ _ _ _ _ _ _ _ _ _ []) in Hbp
      as [(first & tl & -> & Hform) _]; [|done..].
    cbn [lookup list_lookup mbind option_bind]. by rewrite decide_True.
  - destruct (short_message_opened _ _ _ [] _ _ _ _ _ _ _ _ Hp
                (Forall_nil_2 _) Hm Hbp) as [Hopen Hp'].
    destruct Hm as (Hd & Hb & _).
    apply short_packet_form in Hbp as (first & tl & -> & Hform); [|done..].
    cbn [lookup list_lookup mbind option_bind]. by rewrite decide_False.
Qed.

(** Messages that can be opened one by one make a datagram that can be
    split. *)
Lemma msgs_coalescible x cid_len expected ms :
  Forall (msg_ok x cid_len expected) ms → short_last ms →
  coalescible x (packet_of <$> ms).
Proof.
  induction ms as [|m ms IH]; [constructor|].
  intros [Hm Hms]%Forall_cons_1 Hlast.
  destruct m as [pt d s t v l b|kp d v l b].
  - destruct Hm as (? & ? & ? & ? & ? & ? & _ & ? & _).
    apply coalescible_long; try done. apply IH; [done|].
    destruct ms; [done|]. by apply andb_prop_elim in Hlast as [_ ?].
  - destruct ms as [|m ms]; [|by apply andb_prop_elim in Hlast as [[] _]].
    destruct Hm as (? & ? & _). by apply coalescible_short.
Qed.

(** The packets of a sequence of messages are opened as those messages,
    and the pairing of the providers outlasts them. *)
Lemma packets_opened crypto crypto' rx cid_len expected ms pkts :
  paired crypto rx →
  Forall (msg_ok (expansion crypto) cid_len expected) ms →
  build_alone crypto (packet_of <$> ms) = (crypto', Ok pkts) →
  Forall2 (λ m pkt, open_packet rx cid_len expected pkt = Some m) ms pkts
  ∧ paired crypto' rx.
Proof.
  intros Hp Hms Ha.
  destruct (build_alone_Forall2 packet_of
              (λ s, paired s rx ∧ expansion s = expansion crypto)
              (msg_ok (expansion crypto) cid_len expected)
              (λ m pkt, open_packet rx cid_len expected pkt = Some m))
    with (l := ms) (crypto := crypto) (crypto' := crypto') (pkts := pkts)
    as [Hall [Hp' _]]; try done.
  intros s m s1 pkt [Hps Hx] Hm Hb. rewrite <- Hx in Hm.
  destruct (packet_opened _ _ _ _ _ _ _ Hps Hm Hb) as [Ho Hp1].
  split; [done|]. split; [done|].
  by rewrite <- Hx, <- (build_packet_expansion s [] (packet_of m)), Hb.
Qed.

(** C3: what the sender builds, the receiver opens.  A sender and a
    receiver hold paired providers.  The sender builds a datagram, behind
    any bytes [e], from a sequence of messages: long-header messages and
    possibly one short-header message at the end, each made with the
    calls of the documented order; connection IDs have at most 255 bytes,
    a token is given for Initial packets only, packet number, payload and
    tag of a long-header packet have less than 2^14 bytes together, the
    short header carries a connection ID of the length the receiver
    knows, and every packet number lies in the window that its length can
    tell apart from the number the receiver expects.  Then the buffer
    starts with [e] as before, and the receiver, given the bytes after
    [e] and nothing else, gets back exactly the messages: it splits the
    datagram by the length fields, removes header protection from each
    packet, reads type, version, connection IDs, token and the truncated
    packet number, reconstructs the packet number, and opens the payload
    with the header in clear as associated data.  The providers are still
    paired afterwards. *)
Theorem datagram_roundtrip crypto crypto' rx e cid_len expected ms dg :
  paired crypto rx →
  Forall (msg_ok (expansion crypto) cid_len expected) ms → short_last ms →
  build_datagram crypto e (packet_of <$> ms) = (crypto', Ok dg) →
  take (length e) dg = e ∧
  open_datagram rx cid_len expected (drop (length e) dg) = Some ms ∧
  paired crypto' rx.
Proof.
  intros Hp Hms Hlast (pkts & Ha & ->)%build_datagram_pkts.
  rewrite take_app_length, drop_app_length. split; [done|].
  destruct (packets_opened _ _ _ _ _ _ _ Hp Hms Ha) as [Hall Hp'].
  split; [|done]. unfold open_datagram.
  rewrite (split_built _ _ _ _ (msgs_coalescible _ _ _ _ Hms Hlast) Ha).
  cbn [mbind option_bind]. by apply mapM_Some_2, Forall2_flip.
Qed.

End opened.

(** ** The theorems at the datagram of the test [build_two] *)

Definition ex_two_datagram : list Z := Eval vm_compute in
  match build_datagram (mkTestDx 0 16) [0xff] (packet_of <$> ex_two_msgs) with
  | (_, Ok dg) => dg
  | _ => []
  end.

Lemma datagram_roundtrip_witness :
  take 1 ex_two_datagram = [0xff] ∧
  open_datagram (mkTestDx 7 16) 8 (λ _, 0) (drop 1 ex_two_datagram)
  = Some ex_two_msgs ∧
  paired (mkTestDx 2 16) (mkTestDx 7 16).
Proof.
  apply (datagram_roundtrip (mkTestDx 0 16) (mkTestDx 2 16) (mkTestDx 7 16)
           [0xff] 8 (λ _, 0) ex_two_msgs ex_two_datagram);
    [reflexivity|by apply (bool_decide_unpack _)|done|reflexivity].
Defined.

(** A packet number outside the window is not recovered: a receiver
    that expects 1000 takes the byte 200 for 968.  (The test provider
    uses the low byte of the packet number only and opens the packet
    all the same; a real one does not.) *)
Lemma pn_outside_window :
  match build_datagram (mkTestDx 0 16) []
          [packet_of (ShortMsg false SERVER_CID 200 1 [0; 0; 0])] with
  | (_, Ok dg) =>
      open_datagram (mkTestDx 0 16) 8 (λ _, 1000) dg
      = Some [ShortMsg false SERVER_CID 968 1 [0; 0; 0]]
  | _ => False
  end.
Proof. by vm_compute. Qed.
