(* ===== verification/OneShotWire.v ===== *)
(** * Retry and Version Negotiation as a receiver reads them

    Reference readers for the two packets of [OneShot], from the layout
    table of the specification (section 6): a Retry packet is a long header
    without length and packet number whose token runs to the 16-byte tag;
    a Version Negotiation packet has version 0 and ends in a list of
    4-byte versions.  The theorems say that the readers get back what
    [retry] and [version_negotiation] were given, and that the tag of a
    Retry packet validates for the receiver who knows the original
    destination connection ID. *)

From Stdlib Require Import ZArith Lia.
From stdpp Require Import base option list numbers.
From S2P Require Import Prelude Encoder PacketType Crypto Builder OneShot Wire.

#[local] Open Scope Z_scope.

(** ** Readers *)

(** The length of the Retry integrity tag. *)
Definition RETRY_TAG_LEN : nat := 16.

(** What a receiver reads from a Retry packet. *)
Record retry_seen : Set := mkRetrySeen {
  retry_seen_version : Z;
  retry_seen_dcid : ConnectionId;
  retry_seen_scid : ConnectionId;
  retry_seen_token : list Z;
  retry_seen_tag : list Z;
}.

#[export] Instance retry_seen_eq_dec : EqDecision retry_seen.
Proof. solve_decision. Defined.

(** A Retry packet: first byte [1111????], version, two connection IDs
    with 1-byte lengths, then the token up to the 16 bytes of the tag. *)
Definition read_retry (pkt : list Z) : option retry_seen :=
  first ← pkt !! 0%nat;
  if decide (Z.land first 0xf0 = 0xf0 ∧ (5 ≤ length pkt)%nat)
  then
    let version := be_value (take 4 (drop 1 pkt)) in
    '(dcid, r) ← decode_vec1 (drop 5 pkt);
    '(scid, r) ← decode_vec1 r;
    if decide (RETRY_TAG_LEN ≤ length r)%nat
    then
      let n := (length r - RETRY_TAG_LEN)%nat in
      Some (mkRetrySeen version dcid scid (take n r) (drop n r))
    else None
  else None.

(** The integrity check of the receiver, who knows the original destination
    connection ID: the tag is what the fixed-key AEAD computes over that
    connection ID and the packet without its tag. *)
Definition retry_valid {A} `{Aead A} (a : A) (odcid : ConnectionId)
    (pkt : list Z) : bool :=
  let n := (length pkt - RETRY_TAG_LEN)%nat in
  bool_decide ((RETRY_TAG_LEN ≤ length pkt)%nat ∧
               aead_encrypt a 0 (retry_aad odcid (take n pkt)) []
               = Ok (drop n pkt)).

(** What a receiver reads from a Version Negotiation packet. *)
Record vn_seen : Set := mkVnSeen {
  vn_seen_dcid : ConnectionId;
  vn_seen_scid : ConnectionId;
  vn_seen_versions : list Z;
}.

#[export] Instance vn_seen_eq_dec : EqDecision vn_seen.
Proof. solve_decision. Defined.

(** A list of 4-byte versions that runs to the end of the packet. *)
Fixpoint read_versions (r : list Z) : option (list Z) :=
  match r with
  | [] => Some []
  | b0 :: b1 :: b2 :: b3 :: r =>
      vs ← read_versions r; Some (be_value [b0; b1; b2; b3] :: vs)
  | _ => None
  end.

(** A Version Negotiation packet: long bit set, version 0, two connection
    IDs with 1-byte lengths, then the versions. *)
Definition read_vn (pkt : list Z) : option vn_seen :=
  first ← pkt !! 0%nat;
  if decide (Z.land first 0x80 = 0x80 ∧ (5 ≤ length pkt)%nat ∧
             be_value (take 4 (drop 1 pkt)) = 0)
  then
    '(dcid, r) ← decode_vec1 (drop 5 pkt);
    '(scid, r) ← decode_vec1 r;
    versions ← read_versions r;
    Some (mkVnSeen dcid scid versions)
  else None.

(** A version reserved for greasing: [0x?a?a?a?a]. *)
Definition is_grease_version (v : Z) : Prop :=
  Forall (λ b, Z.land b 0x0f = 0x0a) (be_bytes 4 v).

#[export] Instance is_grease_version_dec v : Decision (is_grease_version v).
Proof. unfold is_grease_version. apply _. Defined.

(** ** Reading what was written *)

Section reading.
Implicit Types (dcid scid odcid : ConnectionId) (token tag rand : list Z).

Lemma read_retry_header r0 dcid scid token tag :
  (length dcid < 256)%nat → (length scid < 256)%nat →
  length tag = RETRY_TAG_LEN →
  read_retry (retry_header r0 dcid scid token ++ tag)
  = Some (mkRetrySeen QUIC_VERSION dcid scid token tag).
Proof.
  intros Hd Hs Ht. unfold read_retry, retry_header.
  repeat first [rewrite <- app_assoc | rewrite <- app_comm_cons].
  cbn [lookup list_lookup mbind option_bind].
  rewrite (decide_True (P:=_ ∧ _))
    by (split; [apply retry_first_high|simpl; len]).
  cbn [drop]. rewrite drop_0.
  rewrite (drop_app_length' (be_bytes 4 _)) by (by rewrite length_be_bytes).
  rewrite (take_app_length' (be_bytes 4 _)) by (by rewrite length_be_bytes).
  rewrite decode_vec1_field by done. cbn [mbind option_bind].
  rewrite decode_vec1_field by done. cbn [mbind option_bind].
  rewrite decide_True by len. rewrite length_app, Ht, Nat.add_sub.
  by rewrite take_app_length, drop_app_length, (be_value_be_bytes 4).
Qed.

Lemma read_versions_cons v g :
  read_versions (be_bytes 4 v ++ g)
  = vs ← read_versions g; Some (v `mod` 2 ^ 32 :: vs).
Proof.
  cbn [be_bytes app read_versions].
  change [?a; ?b; ?c; ?d] with (be_bytes 4 v).
  by rewrite (be_value_be_bytes 4).
Qed.

Lemma read_vn_bytes g0 g1 g2 g3 g4 dcid scid :
  (length dcid < 256)%nat → (length scid < 256)%nat →
  read_vn (vn_bytes g0 g1 g2 g3 g4 dcid scid)
  = Some (mkVnSeen dcid scid
            [QUIC_VERSION; be_value (grease_byte <$> [g0; g1; g2; g3])]).
Proof.
  intros Hd Hs. unfold read_vn, vn_bytes, vn_prefix.
  repeat first [rewrite <- app_assoc | rewrite <- app_comm_cons].
  cbn [lookup list_lookup mbind option_bind].
  rewrite (decide_True (P:=_ ∧ _)).
  2: { split; [|split; [simpl; len|done]].
       rewrite Z.land_lor_distr_l, <- Z.land_assoc. by rewrite Z.land_0_r. }
  cbn [drop app]. rewrite decode_vec1_field by done. cbn [mbind option_bind].
  rewrite decode_vec1_field by done. cbn [mbind option_bind].
  rewrite read_versions_cons. done.
Qed.

(** The version made of four greased bytes has the reserved pattern,
    so it is not the supported version. *)
Lemma grease_version g0 g1 g2 g3 :
  let g := be_value (grease_byte <$> [g0; g1; g2; g3]) in
  be_bytes 4 g = grease_byte <$> [g0; g1; g2; g3] ∧
  is_grease_version g ∧ g ≠ QUIC_VERSION.
Proof.
  intros g.
  assert (be_bytes 4 g = grease_byte <$> [g0; g1; g2; g3]) as Hg.
  { refine (be_bytes_be_value (grease_byte <$> [g0; g1; g2; g3]) _).
    repeat constructor; apply grease_byte_is_u8. }
  split; [done|]. split.
  - unfold is_grease_version. rewrite Hg.
    repeat constructor; apply grease_byte_low.
  - intros Hq. rewrite Hq in Hg. injection Hg as _ _ _ Hg.
    apply (f_equal (λ b, Z.land b 0x0f)) in Hg.
    by rewrite grease_byte_low in Hg.
Qed.

End reading.

(** ** Theorems *)

Section retry_received.
Context {K A : Type} {factory : AeadFactory K A} `{AeadLaws A}.
Implicit Types (a : A) (dcid scid odcid : ConnectionId)
  (token tag rand : list Z).

(** A Retry packet as its receiver reads it.  From the packet that
    [retry] returns, with connection IDs of at most 255 bytes and a 16-byte
    tag, the reader gets the version, both connection IDs and the token
    that [retry] was given, the token being everything between the source
    connection ID and the tag.  The integrity check accepts the packet
    exactly for a receiver whose AEAD, over its own idea of the original
    destination connection ID followed by the packet without the tag,
    computes the tag the sender computed: so it accepts with the sender's
    AEAD and the original connection ID, and rejects whenever another key
    or another connection ID gives another tag. *)
Theorem retry_received a rand r0 dcid scid token odcid s pkt :
  rand !! 0%nat = Some r0 → aead_expansion a = RETRY_TAG_LEN →
  (length dcid < 256)%nat → (length scid < 256)%nat →
  retry (Alive a) rand dcid scid token odcid = (s, Ok pkt) →
  (∃ tag, read_retry pkt
          = Some (mkRetrySeen QUIC_VERSION dcid scid token tag)) ∧
  ∀ a' odcid',
    retry_valid a' odcid' pkt = true ↔
    aead_encrypt a' 0 (retry_aad odcid' (retry_header r0 dcid scid token)) []
    = aead_encrypt a 0 (retry_aad odcid (retry_header r0 dcid scid token)) [].
Proof.
  intros Hr Hx Hd Hs. rewrite (retry_Alive _ _ _ _ _ _ _ Hr).
  destruct (aead_encrypt a 0 _ []) as [tag| |] eqn:Htag; [|done..].
  outcome_simpl. intros Heq.
  assert (pkt = retry_header r0 dcid scid token ++ tag) as ->
    by congruence.
  apply aead_encrypt_length in Htag as Hlen.
  rewrite Hx in Hlen. simpl in Hlen. split.
  - exists tag. by apply read_retry_header.
  - intros a' odcid'. unfold retry_valid. cbv zeta.
    rewrite bool_decide_eq_true, length_app, Hlen, Nat.add_sub.
    rewrite take_app_length, drop_app_length. split; [by intros [_ ?]|].
    intros ->. split; [lia|done].
Qed.

End retry_received.

(** A Version Negotiation packet as its receiver reads it.  From the
    packet that [version_negotiation] returns, with connection IDs of at
    most 255 bytes, the reader gets version 0, both connection IDs and two
    versions: the supported version, and a version whose four bytes are
    the greased random bytes, which has the reserved pattern [?a?a?a?a]
    and therefore is never the supported version. *)
Theorem version_negotiation_received rand dcid scid vn :
  (length dcid < 256)%nat → (length scid < 256)%nat →
  version_negotiation rand dcid scid = Ok vn →
  ∃ g, read_vn vn = Some (mkVnSeen dcid scid [QUIC_VERSION; g]) ∧
       be_bytes 4 g = grease_byte <$> take 4 rand ∧
       is_grease_version g ∧ g ≠ QUIC_VERSION.
Proof.
  intros Hd Hs Hvn.
  destruct (decide (length rand < 5)%nat) as [Hl|Hl];
    [by rewrite version_negotiation_short in Hvn|].
  destruct (five_cons rand) as (g0 & g1 & g2 & g3 & g4 & k & ->); [lia|].
  rewrite version_negotiation_cons in Hvn. injection Hvn as <-.
  eexists. split; [by apply read_vn_bytes|]. apply grease_version.
Qed.

(** ** The theorems at the packets of the tests *)

Lemma retry_received_witness :
  (∃ tag, read_retry ex_retry
          = Some (mkRetrySeen QUIC_VERSION [] SERVER_CID RETRY_TOKEN tag)) ∧
  ∀ a' odcid',
    retry_valid a' odcid' ex_retry = true ↔
    aead_encrypt a' 0
      (retry_aad odcid' (retry_header 0x5f [] SERVER_CID RETRY_TOKEN)) []
    = aead_encrypt test_retry_aead 0
        (retry_aad CLIENT_CID (retry_header 0x5f [] SERVER_CID RETRY_TOKEN))
        [].
Proof.
  refine (retry_received (factory:=test_factory true) test_retry_aead [0x5f]
            0x5f [] SERVER_CID RETRY_TOKEN CLIENT_CID
            (Alive test_retry_aead) ex_retry eq_refl eq_refl _ _ eq_refl);
    simpl; lia.
Defined.

Lemma version_negotiation_received_witness :
  ∃ g, read_vn ex_vn = Some (mkVnSeen SERVER_CID CLIENT_CID [QUIC_VERSION; g]) ∧
       be_bytes 4 g = grease_byte <$> take 4 [0x11; 0x22; 0x33; 0x44; 0xd5] ∧
       is_grease_version g ∧ g ≠ QUIC_VERSION.
Proof.
  refine (version_negotiation_received [0x11; 0x22; 0x33; 0x44; 0xd5]
            SERVER_CID CLIENT_CID ex_vn _ _ eq_refl); simpl; lia.
Defined.
