(* ===== verification/Dispatch.v ===== *)
(** * One receiver for every packet of the file

    The file makes four kinds of packet: short-header and numbered
    long-header packets with the builder, Retry and Version Negotiation
    with the two one-shot functions.  A receiver tells them apart by the
    first five bytes (RFC 9000, section 17.2): the top bit of the first
    byte, a version of zero, the two type bits.  This file composes the
    reference receivers of [Reception] and [OneShotWire] behind that
    classification and shows that each packet is received as what it was
    sent as -- and that a packet started with [long] and the type Retry,
    which the builder accepts, is not. *)

From Stdlib Require Import ZArith Lia.
From stdpp Require Import base option list numbers.
From S2P Require Import Prelude Encoder PacketType Crypto Builder Protection Lifecycle Position OneShot Wire EndToEnd Message Coalesce Reception OneShotWire.

#[local] Open Scope Z_scope.

(** ** Classification *)

(** What the first bytes of a packet say it is. *)
Inductive kind : Set :=
| KShort
| KVersionNegotiation
| KRetry
| KNumbered (pt : PacketType).

#[export] Instance kind_eq_dec : EqDecision kind.
Proof. solve_decision. Defined.

(** A packet with the top bit clear has a short header.  Of the others a
    version of zero marks a Version Negotiation packet, whatever its type
    bits are; then the type bits say Retry or one of the numbered
    types. *)
Definition classify (pkt : list Z) : option kind :=
  first ← pkt !! 0%nat;
  if decide (Z.land first 0x80 = PACKET_BIT_LONG)
  then
    if decide (5 ≤ length pkt)%nat
    then
      if decide (be_value (take 4 (drop 1 pkt)) = 0)
      then Some KVersionNegotiation
      else
        pt ← type_of_code (Z.land (first ≫ 4) 0x03);
        Some (if decide (pt = Retry) then KRetry else KNumbered pt)
    else None
  else Some KShort.

(** The kind a message is meant to have. *)
Definition kind_of (m : message) : kind :=
  match m with
  | LongMsg pt _ _ _ _ _ _ => if decide (pt = Retry) then KRetry else KNumbered pt
  | ShortMsg _ _ _ _ _ => KShort
  end.

(** The messages whose packets carry a packet number on the wire. *)
Definition numbered_msg (m : message) : Prop :=
  match m with
  | LongMsg pt _ _ _ _ _ _ => pt ≠ Retry
  | ShortMsg _ _ _ _ _ => True
  end.

#[export] Instance numbered_dec m : Decision (numbered_msg m).
Proof. destruct m; apply _. Defined.

(** ** The receiver *)

(** What a receiver gets from a packet. *)
Inductive received : Set :=
| RxMessage (m : message)
| RxRetry (r : retry_seen)
| RxVersions (v : vn_seen).

#[export] Instance received_eq_dec : EqDecision received.
Proof. solve_decision. Defined.

(** What a receiver holds: the keys of the connection, the length of its
    own connection IDs, the packet number it expects next in each space,
    the fixed-key AEAD of Retry and the destination connection ID of its
    first Initial packet. *)
Record receiver (St A : Type) : Type := mkReceiver {
  rx_keys : St;
  rx_cid_len : nat;
  rx_expected : option PacketType → PacketNumber;
  rx_retry_aead : A;
  rx_odcid : ConnectionId;
}.

Arguments mkReceiver {St A} _ _ _ _ _.
Arguments rx_keys {St A} _.
Arguments rx_cid_len {St A} _.
Arguments rx_expected {St A} _.
Arguments rx_retry_aead {St A} _.
Arguments rx_odcid {St A} _.

Section dispatch.
Context {St A : Type} `{CryptoDx St, CryptoRx St, Aead A}.
Implicit Types (r : receiver St A) (pkt dg : list Z).

(** One packet: classified, then read by the receiver of its kind.  A
    Retry packet whose tag does not validate is dropped. *)
Definition dispatch r pkt : option received :=
  k ← classify pkt;
  match k with
  | KShort =>
      RxMessage <$> open_short (rx_keys r) (rx_cid_len r) (rx_expected r) pkt
  | KNumbered _ => RxMessage <$> open_long (rx_keys r) (rx_expected r) pkt
  | KRetry =>
      if retry_valid (rx_retry_aead r) (rx_odcid r) pkt
      then RxRetry <$> read_retry pkt
      else None
  | KVersionNegotiation => RxVersions <$> read_vn pkt
  end.

(** One datagram.  Retry and Version Negotiation packets have no length:
    they fill their datagram.  The packets of any other datagram are
    split by their length fields. *)
Definition dispatch_datagram r dg : option (list received) :=
  k ← classify dg;
  match k with
  | KRetry | KVersionNegotiation => x ← dispatch r dg; Some [x]
  | KShort | KNumbered _ =>
      pkts ← split_datagram (S (length dg)) dg; mapM (dispatch r) pkts
  end.

End dispatch.

(** ** Classification of what the file builds *)

Section classified.
Implicit Types (pkt rest tag : list Z) (dcid scid : ConnectionId)
  (pt : PacketType).

(** Bits that are set under a mask are set under every part of it. *)
Lemma land_sub x m k : Z.land x m = m → Z.land x (Z.land m k) = Z.land m k.
Proof. intros Hm. by rewrite Z.land_assoc, Hm. Qed.

(** A packet whose long-header fields can be read is classified by its
    version and type. *)
Lemma classify_read_long_upto pkt f r :
  read_long_upto pkt = Some (f, r) →
  classify pkt
  = Some (if decide (seen_version (f 0%nat 0) = 0) then KVersionNegotiation
          else if decide (seen_type (f 0%nat 0) = Retry) then KRetry
          else KNumbered (seen_type (f 0%nat 0))).
Proof.
  unfold read_long_upto, classify.
  destruct (pkt !! 0%nat) as [first|]; [|done]. simpl.
  case_decide as Hd; [|done]. destruct Hd as [Hbits%land_form_bit H5].
  destruct (type_of_code _) as [pt|]; [|done]. simpl.
  destruct (decode_vec1 (drop 5 pkt)) as [[dcid r1]|]; [|done]. simpl.
  destruct (decode_vec1 r1) as [[scid r2]|]; [|done]. simpl.
  destruct (read_token pt r2) as [[token r3]|]; [|done]. simpl.
  destruct (decode_varint r3) as [[len r4]|]; [|done]. simpl.
  intros [= <- <-]. rewrite decide_True by done.
  rewrite (decide_True (P:=(_ ≤ _)%nat)) by done. simpl.
  by repeat case_decide.
Qed.

Lemma classify_retry_header r0 dcid scid token tag :
  classify (retry_header r0 dcid scid token ++ tag) = Some KRetry.
Proof.
  unfold classify, retry_header.
  repeat first [rewrite <- app_assoc | rewrite <- app_comm_cons].
  cbn [lookup list_lookup mbind option_bind].
  pose proof (retry_first_high r0) as Hh.
  rewrite decide_True by exact (land_sub _ 0xf0 0x80 Hh).
  rewrite (decide_True (P:=(_ ≤ _)%nat)) by (simpl; len).
  cbn [drop]. rewrite drop_0.
  rewrite (take_app_length' (be_bytes 4 _)) by (by rewrite length_be_bytes).
  rewrite (be_value_be_bytes 4), decide_False by done.
  change 3 with (0x30 ≫ 4). rewrite <- Z.shiftr_land.
  pose proof (land_sub _ 0xf0 0x30 Hh) as H3.
  change (Z.land 240 48) with 48 in H3. by rewrite H3.
Qed.

Lemma classify_vn_bytes g0 g1 g2 g3 g4 dcid scid :
  classify (vn_bytes g0 g1 g2 g3 g4 dcid scid) = Some KVersionNegotiation.
Proof.
  unfold classify, vn_bytes, vn_prefix.
  repeat first [rewrite <- app_assoc | rewrite <- app_comm_cons].
  cbn [lookup list_lookup mbind option_bind].
  rewrite decide_True
    by (by rewrite Z.land_lor_distr_l, <- Z.land_assoc, Z.land_0_r).
  rewrite (decide_True (P:=(_ ≤ _)%nat)) by (simpl; len).
  by rewrite decide_True.
Qed.

End classified.

(** ** What the builder makes, classified *)

Section built.
Context {St : Type} {dx : CryptoDx St} {laws : CryptoDxLaws St}.
Implicit Types (crypto : St) (pkt rest : list Z) (m : message).

(** The conditions on a message under which its packet is read back:
    bytes in the buffers, connection IDs that fit their length byte. *)
Definition msg_fits (m : message) : Prop :=
  msg_bytes_ok m ∧
  match m with
  | LongMsg _ dcid scid _ _ _ _ =>
      (length dcid < 256)%nat ∧ (length scid < 256)%nat
  | ShortMsg _ _ _ _ _ => True
  end.

(** A packet of the builder is classified as the kind of its message,
    whatever follows it in the datagram. *)
Lemma classify_built crypto crypto' m pkt rest :
  msg_fits m →
  build_packet crypto [] (packet_of m) = (crypto', Ok pkt) →
  classify (pkt ++ rest) = Some (kind_of m).
Proof.
  intros [Hb Hm] Hbp. destruct m as [pt d s t v l b|kp d v l b].
  - destruct Hb as (Hd & Hs & Ht & Hb), Hm as [Hdl Hsl].
    apply long_packet_shape in Hbp
      as (c & ct & sample & mask & Hc & Htok & Hl & _ & _
          & Hml%compute_mask_length & ->); [|done..].
    rewrite app_nil_l, <- app_assoc.
    rewrite (classify_read_long_upto _ _ _
               (long_wire_upto pt c d s t v l _ (ct ++ rest) mask
                  Hc Hdl Hsl Htok Hl ltac:(lia))).
    by cbn [seen_version seen_type kind_of].
  - destruct Hb as [Hd Hb].
    apply short_packet_form in Hbp as (first & tl & -> & Hform); [|done..].
    unfold classify. cbn [app lookup list_lookup mbind option_bind].
    by rewrite decide_False.
Qed.

End built.

(** ** Every packet is received as what it was sent as *)

Section received.
Context {St : Type} {dx : CryptoDx St} {laws : CryptoDxLaws St}
  {rxi : CryptoRx St} {pr : Paired St}
  {K A : Type} {factory : AeadFactory K A} `{AeadLaws A}.
Implicit Types (crypto : St) (r : receiver St A) (pkt rest e dg : list Z)
  (m : message) (dcid scid : ConnectionId) (token rand : list Z).

Lemma msg_ok_fits x cid_len expected m : msg_ok x cid_len expected m → msg_fits m.
Proof.
  destruct m; [intros (? & ? & ? & ? & ? & ? & _)|intros (? & ? & _)];
    by repeat split.
Qed.

(** The dispatcher and [open_packet] agree on the packets of numbered
    messages. *)
Lemma dispatch_opened r m pkt :
  classify pkt = Some (kind_of m) → numbered_msg m →
  open_packet (rx_keys r) (rx_cid_len r) (rx_expected r) pkt = Some m →
  dispatch r pkt = Some (RxMessage m).
Proof.
  intros Hk Hn. unfold dispatch. rewrite Hk. cbn [mbind option_bind].
  unfold open_packet, classify in *.
  destruct (pkt !! 0%nat) as [first|]; [|done]. cbn [mbind option_bind] in *.
  destruct m as [pt d s t v l b|kp d v l b]; cbn [kind_of numbered_msg] in *.
  - destruct (decide (pt = Retry)); [done|].
    destruct (decide (Z.land first 128 = _)); [by intros ->|done].
  - destruct (decide (Z.land first 128 = _)); [|by intros ->].
    repeat case_decide; try done.
    destruct (type_of_code _); [|done]. simpl in Hk. by case_decide.
Qed.

Lemma message_dispatched crypto crypto' r m pkt :
  paired crypto (rx_keys r) →
  msg_ok (expansion crypto) (rx_cid_len r) (rx_expected r) m → numbered_msg m →
  build_packet crypto [] (packet_of m) = (crypto', Ok pkt) →
  (dispatch r pkt = Some (RxMessage m) ∧
   ∀ rest, classify (pkt ++ rest) = Some (kind_of m)) ∧
  paired crypto' (rx_keys r).
Proof.
  intros Hp Hm Hn Hb.
  destruct (packet_opened _ _ _ _ _ _ _ Hp Hm Hb) as [Ho Hp'].
  pose proof (λ rest, classify_built _ _ _ _ rest (msg_ok_fits _ _ _ _ Hm) Hb)
    as Hk.
  split; [|done]. split; [|done].
  apply dispatch_opened; [|done..]. by rewrite <- (app_nil_r pkt).
Qed.

(** The packets of a sequence of numbered messages. *)
Lemma messages_dispatched crypto crypto' r ms pkts :
  paired crypto (rx_keys r) →
  Forall (λ m, msg_ok (expansion crypto) (rx_cid_len r) (rx_expected r) m
               ∧ numbered_msg m) ms →
  build_alone crypto (packet_of <$> ms) = (crypto', Ok pkts) →
  Forall2 (λ m pkt, dispatch r pkt = Some (RxMessage m) ∧
                    ∀ rest, classify (pkt ++ rest) = Some (kind_of m))
    ms pkts.
Proof.
  intros Hp Hms Ha.
  refine (proj1 (build_alone_Forall2 packet_of
            (λ s, paired s (rx_keys r) ∧ expansion s = expansion crypto)
            _ _ _ ms crypto crypto' pkts (conj Hp eq_refl) Hms Ha)).
  intros s m s1 pkt [Hps Hx] [Hm Hn] Hb. rewrite <- Hx in Hm.
  destruct (message_dispatched _ _ _ _ _ Hps Hm Hn Hb) as [Hd Hp1].
  split; [done|]. split; [done|].
  by rewrite <- Hx, <- (build_packet_expansion s [] (packet_of m)), Hb.
Qed.

(** The packets of at least one numbered message, one behind the
    other, are classified as a datagram to split, split, and each
    handed to the reader of its kind. *)
Lemma pkts_dispatched crypto crypto' r ms pkts :
  paired crypto (rx_keys r) →
  Forall (msg_ok (expansion crypto) (rx_cid_len r) (rx_expected r)) ms →
  Forall numbered_msg ms → short_last ms → ms ≠ [] →
  build_alone crypto (packet_of <$> ms) = (crypto', Ok pkts) →
  dispatch_datagram r (concat pkts) = Some (RxMessage <$> ms).
Proof.
  intros Hp Hms Hn Hlast Hne Ha.
  pose proof (split_built _ _ _ _ (msgs_coalescible _ _ _ _ Hms Hlast) Ha)
    as Hsplit.
  assert (Hall := messages_dispatched _ _ r _ _ Hp (Forall_and Hms Hn) Ha).
  unfold dispatch_datagram.
  assert (mapM (dispatch r) pkts = Some (RxMessage <$> ms)) as Hmap.
  { apply mapM_Some_2, Forall2_fmap_r, Forall2_flip.
    eapply Forall2_impl; [|exact Hall]. by intros m pkt [Hd _]. }
  destruct Hall as [|m pkt ms' pkts' [_ Hk] _]; [done|].
  cbn [concat] in *. rewrite Hk. cbn [mbind option_bind].
  apply Forall_cons_1 in Hn as [Hnm _].
  rewrite Hsplit. cbn [mbind option_bind].
  destruct m as [pt ? ? ? ? ? ?|]; [|done].
  cbn [kind_of numbered_msg] in *. by rewrite decide_False.
Qed.

(** C8: a receiver that has the bytes of a datagram and nothing else
    receives the messages.  A sender and a receiver hold paired
    providers.  The sender builds a datagram, behind any bytes [e], from
    at least one message: long-header messages of the types Initial,
    0-RTT and Handshake and possibly one short-header message at the
    end, under the conditions of [msg_ok].  Then the receiver classifies
    the datagram by its first five bytes as one that is split by length
    fields, splits it, classifies each packet again, hands it to the
    reader of its kind, and gets exactly the messages, in order: no
    packet of the builder is taken for a Retry or a Version Negotiation
    packet, whatever header protection did to its first byte. *)
Theorem datagram_dispatched crypto crypto' r e ms dg :
  paired crypto (rx_keys r) →
  Forall (msg_ok (expansion crypto) (rx_cid_len r) (rx_expected r)) ms →
  Forall numbered_msg ms → short_last ms → ms ≠ [] →
  build_datagram crypto e (packet_of <$> ms) = (crypto', Ok dg) →
  dispatch_datagram r (drop (length e) dg) = Some (RxMessage <$> ms).
Proof.
  intros Hp Hms Hn Hlast Hne (pkts & Ha & ->)%build_datagram_pkts.
  rewrite drop_app_length. by eapply pkts_dispatched.
Qed.

(** The check of the Retry tag, on a header followed by its tag. *)
Lemma retry_valid_header (a : A) odcid hdr tag :
  length tag = RETRY_TAG_LEN →
  retry_valid a odcid (hdr ++ tag)
  = bool_decide (aead_encrypt a 0 (retry_aad odcid hdr) [] = Ok tag).
Proof.
  intros Ht. unfold retry_valid. cbv zeta.
  rewrite length_app, Ht, Nat.add_sub, take_app_length, drop_app_length.
  apply bool_decide_ext. split; [by intros [_ ?]|]. split; [lia|done].
Qed.

(** C32: a Retry packet is received as a Retry packet.  The packet that
    [retry] returns, with connection IDs of at most 255 bytes and a
    16-byte tag, is its header followed by the tag; whatever the random
    nibble of its first byte, a receiver classifies it as Retry, and
    delivers version, connection IDs and token as [retry] was given them
    exactly when its own AEAD, over its own original destination
    connection ID and the header, computes the tag of the packet.
    Otherwise the packet is dropped: a Retry packet that answers another
    connection's Initial packet is not accepted. *)
Theorem retry_dispatched (a : A) r rand (r0 : Z) dcid scid token odcid s pkt :
  rand !! 0%nat = Some r0 → aead_expansion a = RETRY_TAG_LEN →
  (length dcid < 256)%nat → (length scid < 256)%nat →
  retry (Alive a) rand dcid scid token odcid = (s, Ok pkt) →
  ∃ tag,
    pkt = retry_header r0 dcid scid token ++ tag ∧
    dispatch_datagram r pkt
    = if decide (aead_encrypt (rx_retry_aead r) 0
                   (retry_aad (rx_odcid r) (retry_header r0 dcid scid token))
                   [] = Ok tag)
      then Some [RxRetry (mkRetrySeen QUIC_VERSION dcid scid token tag)]
      else None.
Proof.
  intros Hr Hx Hd Hs. rewrite (retry_Alive _ _ _ _ _ _ _ Hr).
  destruct (aead_encrypt a 0 _ []) as [tag| |] eqn:Htag; [|done..].
  outcome_simpl. intros Heq.
  assert (pkt = retry_header r0 dcid scid token ++ tag) as -> by congruence.
  apply aead_encrypt_length in Htag as Hlen. rewrite Hx in Hlen.
  exists tag. split; [done|]. unfold dispatch_datagram, dispatch.
  rewrite classify_retry_header. cbn [mbind option_bind].
  rewrite retry_valid_header, read_retry_header by done.
  by case_bool_decide; [rewrite decide_True|rewrite decide_False].
Qed.

(** C33: a Version Negotiation packet is received as one.  Whatever
    the seven random bits of its first byte -- they may spell any type,
    Retry included -- the packet that [version_negotiation] returns is
    classified by its version of zero, and the receiver reads both
    connection IDs and two versions: the supported one, and one made of
    the four greased bytes, which has the reserved pattern [?a?a?a?a] and
    is never the supported version. *)
Theorem vn_dispatched r rand dcid scid vn :
  (length dcid < 256)%nat → (length scid < 256)%nat →
  version_negotiation rand dcid scid = Ok vn →
  ∃ g, dispatch_datagram r vn
       = Some [RxVersions (mkVnSeen dcid scid [QUIC_VERSION; g])] ∧
       be_bytes 4 g = grease_byte <$> take 4 rand ∧
       is_grease_version g ∧ g ≠ QUIC_VERSION.
Proof.
  intros Hd Hs Hvn.
  destruct (decide (length rand < 5)%nat) as [Hl|Hl];
    [by rewrite version_negotiation_short in Hvn|].
  destruct (five_cons rand) as (g0 & g1 & g2 & g3 & g4 & k & ->); [lia|].
  rewrite version_negotiation_cons in Hvn. injection Hvn as <-.
  eexists. unfold dispatch_datagram, dispatch.
  rewrite classify_vn_bytes. cbn [mbind option_bind].
  rewrite read_vn_bytes by done. split; [done|]. apply grease_version.
Qed.

(** C24: the builder accepts the type Retry, a receiver does not.
    [PacketType::code] gives Retry a code, so [long] with the type
    [Retry], followed by [pn], a payload and [build], returns a packet: a
    long header with the type bits of Retry, a length field and a
    protected packet number.  On the wire the type bits say that the
    packet has neither: every receiver classifies it as a Retry packet,
    reads length, packet number and ciphertext as a token and a tag, and
    never delivers the message that was built, whatever keys it
    holds. *)
Theorem long_Retry_not_received crypto crypto' r dcid scid token v l body pkt :
  msg_fits (LongMsg Retry dcid scid token v l body) →
  build_packet crypto [] (packet_of (LongMsg Retry dcid scid token v l body))
  = (crypto', Ok pkt) →
  classify pkt = Some KRetry ∧
  ∀ ms, dispatch_datagram r pkt ≠ Some (RxMessage <$> ms).
Proof.
  intros Hm Hb.
  pose proof (classify_built _ _ _ _ [] Hm Hb) as Hk.
  rewrite app_nil_r in Hk. split; [done|].
  unfold dispatch_datagram, dispatch. rewrite Hk. cbn [mbind option_bind].
  intros ms. destruct (retry_valid _ _ _); [|done].
  destruct (read_retry pkt); [|done]. by destruct ms as [|? [|]].
Qed.

Lemma untokened_unread crypto crypto' dcid scid v l body pkt :
  bytes_ok dcid → bytes_ok scid → bytes_ok body →
  (length dcid < 256)%nat → (length scid < 256)%nat →
  Z.of_nat (l + length body + expansion crypto) < 2 ^ 14 →
  build_packet crypto []
    (mkPacket (StartLong Initial dcid scid) [Pn v l; Encode body])
  = (crypto', Ok pkt) →
  classify pkt = Some (KNumbered Initial) ∧ read_long_upto pkt = None.
Proof.
  intros Hd Hs Hb Hdl Hsl Hlen Hbp.
  apply long_untokened_shape in Hbp
    as (c & ct & sample & mask & [= <-] & Hl & Henc%encrypt_length & _
        & Hml%compute_mask_length & ->); [|done..].
  rewrite app_nil_l, protect_wire_header by lia.
  rewrite decide_True by done.
  destruct (long_first_code 0 l ltac:(lia) Hl) as (Hbits & Hcode & _).
  set (first := Z.lxor _ _).
  assert (Z.land first 0xc0 = 0xc0) as Hb1
    by (unfold first; by rewrite land_lxor_masked).
  assert (Z.land (first ≫ 4) 0x03 = 0) as Hb2.
  { unfold first. change 3 with (0x30 ≫ 4). rewrite <- !Z.shiftr_land.
    rewrite land_lxor_masked by done. by rewrite Z.shiftr_land. }
  rewrite <- app_comm_cons, <- !app_assoc. split.
  - unfold classify, long_fields.
    repeat first [rewrite <- app_assoc | rewrite <- app_comm_cons].
    cbn [lookup list_lookup mbind option_bind].
    rewrite decide_True by exact (land_sub _ 0xc0 0x80 Hb1).
    rewrite (decide_True (P:=(_ ≤ _)%nat)) by (simpl; len).
    cbn [drop]. rewrite drop_0.
    rewrite (take_app_length' (be_bytes 4 _)) by (by rewrite length_be_bytes).
    rewrite (be_value_be_bytes 4), decide_False by done.
    rewrite Hb2. by change (type_of_code 0) with (Some Initial).
  - apply read_long_upto_no_token; [done..|lia|].
    rewrite length_app, length_zip_with, length_be_bytes, length_drop. lia.
Qed.

(** C25: an Initial packet without its token field is built, and
    dropped.  [initial_token] must be called once for every Initial
    packet, with an empty token if there is none.  Nothing in the
    builder checks it: [long] with the type Initial, followed by [pn],
    a payload of less than 2^14 bytes with number and tag, and
    [build], returns a packet.  On the wire the packet is an Initial
    packet by its type bits, so every receiver, whatever keys it holds,
    reads the length field as the length of a token, takes packet number
    and ciphertext for the token, finds no length behind it, and drops
    the packet; alone in a datagram it makes the receiver drop the
    datagram. *)
Theorem untokened_Initial_dropped crypto crypto' r dcid scid v l body pkt :
  bytes_ok dcid → bytes_ok scid → bytes_ok body →
  (length dcid < 256)%nat → (length scid < 256)%nat →
  Z.of_nat (l + length body + expansion crypto) < 2 ^ 14 →
  build_packet crypto []
    (mkPacket (StartLong Initial dcid scid) [Pn v l; Encode body])
  = (crypto', Ok pkt) →
  classify pkt = Some (KNumbered Initial) ∧
  dispatch r pkt = None ∧ dispatch_datagram r pkt = None.
Proof.
  intros Hd Hs Hb Hdl Hsl Hlen Hbp.
  destruct (untokened_unread _ _ _ _ _ _ _ _ Hd Hs Hb Hdl Hsl Hlen Hbp)
    as [Hk Hread].
  split; [done|]. unfold dispatch_datagram, dispatch. rewrite Hk.
  cbn [mbind option_bind]. split.
  - unfold open_long, long_pn_offset. by rewrite Hread.
  - unfold classify in Hk. destruct pkt as [|first tl]; [done|].
    cbn [lookup list_lookup mbind option_bind] in Hk.
    destruct (decide (Z.land first 128 = _)) as [Hlong|]; [|done].
    cbn [split_datagram]. rewrite decide_True by done.
    unfold split_long. by rewrite Hread.
Qed.

End received.

(** ** The theorems at the packets of the tests *)

(** A receiver for the packets of the tests: paired with the test
    provider, with connection IDs of 8 bytes, at the start of every
    packet number space, whose first Initial packet went to
    [CLIENT_CID]. *)
Definition ex_receiver : receiver TestDx TestAead :=
  mkReceiver (mkTestDx 7 16) 8 (λ _, 0) test_retry_aead CLIENT_CID.

Lemma datagram_dispatched_witness :
  dispatch_datagram ex_receiver (drop 1 ex_two_datagram)
  = Some (RxMessage <$> ex_two_msgs).
Proof.
  apply (datagram_dispatched (mkTestDx 0 16) (mkTestDx 2 16) ex_receiver
           [0xff] ex_two_msgs ex_two_datagram);
    [reflexivity|by apply (bool_decide_unpack _)
    |by apply (bool_decide_unpack _)|done|done|reflexivity].
Defined.

Lemma retry_dispatched_witness :
  ∃ tag,
    ex_retry = retry_header 0x5f [] SERVER_CID RETRY_TOKEN ++ tag ∧
    dispatch_datagram ex_receiver ex_retry
    = if decide (aead_encrypt test_retry_aead 0
                   (retry_aad CLIENT_CID
                      (retry_header 0x5f [] SERVER_CID RETRY_TOKEN))
                   [] = Ok tag)
      then Some [RxRetry (mkRetrySeen QUIC_VERSION [] SERVER_CID
                            RETRY_TOKEN tag)]
      else None.
Proof.
  refine (retry_dispatched (factory:=test_factory true) test_retry_aead
            ex_receiver [0x5f] 0x5f [] SERVER_CID RETRY_TOKEN CLIENT_CID
            (Alive test_retry_aead) ex_retry eq_refl eq_refl _ _ eq_refl);
    simpl; lia.
Defined.

Lemma vn_dispatched_witness :
  ∃ g, dispatch_datagram ex_receiver ex_vn
       = Some [RxVersions (mkVnSeen SERVER_CID CLIENT_CID [QUIC_VERSION; g])] ∧
       be_bytes 4 g = grease_byte <$> take 4 [0x11; 0x22; 0x33; 0x44; 0xd5] ∧
       is_grease_version g ∧ g ≠ QUIC_VERSION.
Proof.
  refine (vn_dispatched ex_receiver [0x11; 0x22; 0x33; 0x44; 0xd5]
            SERVER_CID CLIENT_CID ex_vn _ _ eq_refl); simpl; lia.
Defined.

(** The first packet of the test [build_two], started with the type
    Retry instead of Handshake. *)
Definition ex_long_retry_msg : message :=
  LongMsg Retry SERVER_CID CLIENT_CID [] 0 1 [0; 0; 0].

Definition ex_long_retry : list Z := Eval vm_compute in
  match build_packet (mkTestDx 0 16) [] (packet_of ex_long_retry_msg) with
  | (_, Ok pkt) => pkt
  | _ => []
  end.

Lemma long_Retry_not_received_witness :
  classify ex_long_retry = Some KRetry ∧
  ∀ ms, dispatch_datagram ex_receiver ex_long_retry ≠ Some (RxMessage <$> ms).
Proof.
  apply (long_Retry_not_received (mkTestDx 0 16) (mkTestDx 1 16) ex_receiver
           SERVER_CID CLIENT_CID [] 0 1 [0; 0; 0] ex_long_retry);
    [by apply (bool_decide_unpack _)|reflexivity].
Defined.

(** What a receiver makes of that packet: a Retry packet whose token is
    the length field, the packet number and the start of the
    ciphertext, and whose tag is the last 16 bytes of the ciphertext. *)
Lemma long_Retry_read_as :
  read_retry ex_long_retry
  = Some (mkRetrySeen QUIC_VERSION SERVER_CID CLIENT_CID
            (take 6 (drop 23 ex_long_retry)) (drop 29 ex_long_retry)) ∧
  length ex_long_retry = 45%nat ∧
  retry_valid test_retry_aead CLIENT_CID ex_long_retry = false.
Proof. by vm_compute. Qed.

(** An Initial packet built without a call of [initial_token], and
    the same packet with the call and an empty token. *)
Definition ex_untokened : list Z := Eval vm_compute in
  match build_packet (mkTestDx 0 16) []
          (mkPacket (StartLong Initial SERVER_CID CLIENT_CID)
             [Pn 0 1; Encode [0; 0; 0]]) with
  | (_, Ok pkt) => pkt
  | _ => []
  end.

Lemma untokened_Initial_dropped_witness :
  classify ex_untokened = Some (KNumbered Initial) ∧
  dispatch ex_receiver ex_untokened = None ∧
  dispatch_datagram ex_receiver ex_untokened = None.
Proof.
  apply (untokened_Initial_dropped (mkTestDx 0 16) (mkTestDx 1 16)
           ex_receiver SERVER_CID CLIENT_CID 0 1 [0; 0; 0] ex_untokened);
    [by apply (bool_decide_unpack _)..|simpl; lia|simpl; lia|by vm_compute
    |reflexivity].
Defined.

Lemma tokened_Initial_delivered :
  ∃ pkt,
    build_packet (mkTestDx 0 16) []
      (packet_of (LongMsg Initial SERVER_CID CLIENT_CID [] 0 1 [0; 0; 0]))
    = (mkTestDx 1 16, Ok pkt) ∧
    length pkt = S (length ex_untokened) ∧
    dispatch_datagram ex_receiver pkt
    = Some [RxMessage (LongMsg Initial SERVER_CID CLIENT_CID [] 0 1 [0; 0; 0])].
Proof. eexists. split; [reflexivity|]. by vm_compute. Qed.
