(* ===== verification/Release.v ===== *)
(** * The builder in a release build

    [Builder] models a build with debug assertions and overflow checks: a
    [debug_assert!] that fails and a subtraction that underflows are
    panics.  In a release build [debug_assert!] is compiled out and
    arithmetic on [usize] wraps around at 2^64.  This file models the four
    methods that differ ([initial_token], [pn], [write_len] and the
    sampling of [build]) as a release build runs them, with [usize] as a [Z]
    reduced modulo 2^64 after every operation, and relates the two: where
    the checked build does not panic, on a packet or on a whole datagram,
    the release build returns the same; on the messages of a sender the
    two builds are one, but for packet-number lengths of 5 to 8; [build]
    is the same function in both; [initial_token] and [pn] accept in a
    release build what the assertions were meant to reject. *)

From Stdlib Require Import ZArith Lia.
From stdpp Require Import base option list numbers.
From S2P Require Import Prelude Encoder PacketType Crypto Builder Protection Lifecycle Wire EndToEnd Message.

#[local] Open Scope Z_scope.

(** ** [usize] with wrap-around *)

(** The value of a [usize] expression on a 64-bit target in a release
    build. *)
Definition usize (z : Z) : Z := z `mod` 2 ^ 64.

(** [&v[a..b]] for offsets computed with wrap-around: a panic unless
    [a <= b <= len]. *)
Definition slice_usize {E A} (l : list A) (a b : Z) : outcome E (list A) :=
  if decide (a ≤ b ∧ b ≤ Z.of_nat (length l))
  then Ok (drop (Z.to_nat a) (take (Z.to_nat b) l))
  else Panic.

(** ** The methods *)

(** [PacketBuilder::initial_token] without its [debug_assert_eq!]: the
    first byte is not read. *)
Definition initial_token_release (token : list Z) (b : PacketBuilder)
  : Res PacketBuilder :=
  encoder ← encode_vvec token (encoder b);
  Ok (set_encoder encoder b).

(** [PacketBuilder::pn] without its [debug_assert!]. *)
Definition pn_release (pn : PacketNumber) (pn_len : nat) (b : PacketBuilder)
  : Res PacketBuilder :=
  first ← index (encoder b) (start (header b));
  let '(encoder0, len0) :=
    if decide (Z.land first 0x80 = PACKET_BIT_LONG)
    then (encode [0; 0] (encoder b), length (encoder b))
    else (encoder b, offsets_len (offsets b)) in
  let pn_offset := length encoder0 in
  encoder1 ← encode_uint pn_len pn encoder0;
  let offsets_pn := mkRange pn_offset (length encoder1) in
  encoder2 ← update (λ x, Z.lor x (u8 (usize (Z.of_nat pn_len - 1))))
                    (start (header b)) encoder1;
  Ok (mkBuilder encoder2 pn
        (mkRange (start (header b)) (length encoder2))
        (mkOffsets (first_byte_mask (offsets b)) len0 offsets_pn)).

(** [PacketBuilder::write_len] with wrapping arithmetic. *)
Definition write_len_release (expansion : nat) (b : PacketBuilder)
  : Res PacketBuilder :=
  let off := offsets_len (offsets b) in
  let len :=
    usize (usize (Z.of_nat (length (encoder b)) - usize (Z.of_nat off + 2))
           + Z.of_nat expansion) in
  e ← update (λ _, Z.lor 0x40 (u8 (Z.land (len ≫ 8) 0x3f))) off (encoder b);
  e ← update (λ _, u8 (Z.land len 0xff)) (off + 1) e;
  Ok (set_encoder e b).

(** The sample of [build] with wrapping arithmetic; the [assert!] stays in
    a release build. *)
Definition sample_of_release (pn_len : nat) (ciphertext : list Z)
  : Res (list Z) :=
  let offset := usize (4 - Z.of_nat pn_len) in
  _ ← assert (usize (offset + Z.of_nat SAMPLE_SIZE)
              <=? Z.of_nat (length ciphertext));
  slice_usize ciphertext offset (usize (offset + Z.of_nat SAMPLE_SIZE)).

(** [PacketBuilder::build] in a release build. *)
Definition build_release {St} `{CryptoDx St} (crypto : St) (b : PacketBuilder)
  : St * Res Encoder :=
  let prepared :=
    b ← (if decide (0 < offsets_len (offsets b))%nat
         then write_len_release (expansion crypto) b else Ok b);
    hdr ← slice (encoder b) (start (header b)) (end_ (header b));
    body ← slice_from (encoder b) (end_ (header b));
    Ok (b, hdr, body) in
  match prepared with
  | Ok (b, hdr, body) =>
      let '(crypto, sealed) := encrypt crypto (builder_pn b) hdr body in
      (crypto,
       ciphertext ← sealed;
       sample ← sample_of_release (range_len (offsets_pn (offsets b)))
                  ciphertext;
       mask ← compute_mask crypto sample;
       e ← apply_mask mask b;
       Ok (encode ciphertext (truncate (end_ (header b)) e)))
  | Err err => (crypto, Err err)
  | Panic => (crypto, Panic)
  end.

(** The calls of [Lifecycle] in a release build. *)
Definition do_call_release (b : PacketBuilder) (c : call) : Res PacketBuilder :=
  match c with
  | InitialToken token => initial_token_release token b
  | Pn v l => pn_release v l b
  | Encode bytes => Ok (payload bytes b)
  end.

Definition run_release (b : PacketBuilder) (cs : list call)
  : Res PacketBuilder :=
  for_each do_call_release b cs.

Definition build_packet_release {St} `{CryptoDx St} (crypto : St)
    (e : Encoder) (p : packet) : St * Res Encoder :=
  match b ← open_builder e (pkt_open p); run_release b (pkt_calls p) with
  | Ok b => build_release crypto b
  | Err err => (crypto, Err err)
  | Panic => (crypto, Panic)
  end.

(** Packets coalesced into one buffer by a release build. *)
Fixpoint build_datagram_release {St} `{CryptoDx St} (crypto : St)
    (e : Encoder) (ps : list packet) : St * Res Encoder :=
  match ps with
  | [] => (crypto, Ok e)
  | p :: ps =>
      match build_packet_release crypto e p with
      | (crypto, Ok e) => build_datagram_release crypto e ps
      | failed => failed
      end
  end.

(** ** Wrapping arithmetic *)

Section usize.
Implicit Types (z : Z) (n : nat).

Lemma usize_small z : 0 ≤ z < 2 ^ 64 → usize z = z.
Proof. apply Z.mod_small. Qed.

Lemma usize_range z : 0 ≤ usize z < 2 ^ 64.
Proof. by apply Z.mod_pos_bound. Qed.

(** Underflow wraps to the top of the range. *)
Lemma usize_underflow z : - 2 ^ 64 ≤ z < 0 → usize z = z + 2 ^ 64.
Proof.
  intros Hz. unfold usize. symmetry.
  apply (Z.mod_unique_pos z (2 ^ 64) (-1)); lia.
Qed.

Lemma slice_usize_slice {E A} (l : list A) (a b : nat) :
  slice_usize (E:=E) l (Z.of_nat a) (Z.of_nat b) = slice l a b.
Proof.
  unfold slice_usize, slice. rewrite !Nat2Z.id.
  destruct (decide (a ≤ b ≤ length l)%nat).
  - rewrite decide_True by lia. done.
  - rewrite decide_False by lia. done.
Qed.

End usize.

(** ** Each method against its checked version *)

Section methods.
Implicit Types (b : PacketBuilder) (token ct : list Z) (v : PacketNumber)
  (l x n : nat).

(** Where the checked [initial_token] succeeds, the release build does the
    same. *)
Lemma initial_token_release_refines token b b' :
  initial_token token b = Ok b' → initial_token_release token b = Ok b'.
Proof.
  unfold initial_token, initial_token_release.
  by intros (first & _ & (u & _ & Hb)%bind_Ok)%bind_Ok.
Qed.

Lemma initial_token_never_Err token b err : initial_token token b ≠ Err err.
Proof.
  unfold initial_token, index. destruct (_ !! _); outcome_simpl; [|done].
  destruct (bool_decide _); outcome_simpl; [|done].
  destruct (decide (Z.of_nat (length token) < 2 ^ 62)).
  - by rewrite encode_vvec_Ok.
  - by rewrite encode_vvec_Panic by lia.
Qed.

(** The release build appends the token whatever the header is. *)
Lemma initial_token_release_Ok token b :
  Z.of_nat (length token) < 2 ^ 62 →
  initial_token_release token b
  = Ok (set_encoder (encoder b ++ token_field token) b).
Proof.
  intros Ht. unfold initial_token_release.
  by rewrite encode_vvec_Ok by lia.
Qed.

(** [pn] in a release build writes any packet number of 1 to 8 bytes. *)
Lemma pn_release_Ok v l b first :
  encoder b !! start (header b) = Some first → (1 ≤ l ≤ 8)%nat →
  pn_release v l b = Ok (pn_result v l first b).
Proof.
  intros Hf Hl. unfold pn_release, pn_result, index. rewrite Hf.
  outcome_simpl. unfold placeholder.
  assert (usize (Z.of_nat l - 1) = Z.of_nat (l - 1)) as ->
    by (rewrite usize_small; lia).
  pose proof (lookup_lt_Some _ _ _ Hf) as Hlt.
  case_decide; cbn [encode]; rewrite encode_uint_Ok by lia; outcome_simpl;
    (rewrite (update_lt _ _ _ first) by (by repeat apply lookup_app_l_Some));
    outcome_simpl; rewrite ?app_nil_r.
  all: unfold encode; by rewrite length_insert.
Qed.

Lemma pn_release_eq v l b : (1 ≤ l ≤ 4)%nat → pn_release v l b = pn v l b.
Proof.
  intros Hl. destruct (encoder b !! start (header b)) as [first|] eqn:Hf.
  - rewrite (pn_release_Ok _ _ _ first), (pn_Ok _ _ _ first) by (done || lia).
    done.
  - apply lookup_ge_None in Hf. rewrite pn_Panic_first by done.
    unfold pn_release. by rewrite (proj2 (index_Panic _ _)) by done.
Qed.

(** Where the checked [pn] succeeds, the release build does the same. *)
Lemma pn_release_refines v l b b' : pn v l b = Ok b' → pn_release v l b = Ok b'.
Proof.
  intros Hp. destruct (pn_inv _ _ _ _ Hp) as (_ & _ & Hl & _).
  by rewrite pn_release_eq.
Qed.


(** [write_len] in a release build is [write_len]: where the subtraction
    underflows, the release build wraps around and then panics on the
    index. *)
Lemma write_len_release_eq x b :
  Z.of_nat (length (encoder b) + x) < 2 ^ 64 →
  write_len_release x b = write_len x b.
Proof.
  intros Hfit. unfold write_len_release, write_len.
  set (off := offsets_len (offsets b)).
  destruct (decide (off + 2 ≤ length (encoder b))%nat) as [Hoff|Hoff].
  - rewrite (proj2 (Nat.leb_le _ _)) by done. outcome_simpl.
    rewrite (usize_small (_ + 2)) by lia.
    rewrite (usize_small (_ - _)) by lia. rewrite usize_small by lia.
    assert (Z.of_nat (length (encoder b)) - (Z.of_nat off + 2) + Z.of_nat x
            = Z.of_nat (length (encoder b) - (off + 2) + x)) as -> by lia.
    done.
  - rewrite (proj2 (Nat.leb_gt _ _)) by lia. outcome_simpl.
    destruct (decide (off < length (encoder b))%nat) as [Hlt|Hge].
    + destruct (lookup_lt_is_Some_2 _ _ Hlt) as [x0 Hx].
      rewrite (update_lt _ _ _ x0 Hx). outcome_simpl.
      by rewrite (proj2 (update_Panic _ _ _)) by (rewrite length_insert; lia).
    + by rewrite (proj2 (update_Panic _ _ _)) by lia.
Qed.

(** The sample in a release build is the sample: where [4 - pn_len]
    underflows, the wrapped offset lies behind the wrapped end of the
    sample, or the end lies behind the ciphertext. *)
Lemma sample_of_release_eq n ct :
  Z.of_nat n < 2 ^ 63 → Z.of_nat (length ct) < 2 ^ 63 →
  sample_of_release n ct = sample_of n ct.
Proof.
  intros Hn Hct. unfold sample_of_release, sample_of, SAMPLE_SIZE.
  destruct (decide (n ≤ 4)%nat) as [H4|H4].
  - rewrite (proj2 (Nat.leb_le n 4)) by done. outcome_simpl.
    rewrite (usize_small (4 - _)) by lia. rewrite usize_small by lia.
    replace (4 - Z.of_nat n) with (Z.of_nat (4 - n)) by lia.
    replace (Z.of_nat (4 - n) + Z.of_nat 16) with (Z.of_nat (4 - n + 16))
      by lia.
    rewrite slice_usize_slice.
    by destruct (decide (4 - n + 16 ≤ length ct)%nat);
      [rewrite (proj2 (Z.leb_le _ _)), (proj2 (Nat.leb_le _ _)) by lia
      |rewrite (proj2 (Z.leb_gt _ _)), (proj2 (Nat.leb_gt _ _)) by lia].
  - rewrite (proj2 (Nat.leb_gt n 4)) by lia. outcome_simpl.
    rewrite (usize_underflow (4 - _)) by lia.
    destruct (decide (n ≤ 20)%nat).
    + replace (usize (4 - Z.of_nat n + 2 ^ 64 + Z.of_nat 16))
        with (20 - Z.of_nat n).
      2: { unfold usize. apply (Z.mod_unique_pos _ _ 1); lia. }
      destruct (_ <=? _); outcome_simpl; [|done].
      unfold slice_usize. by rewrite decide_False by lia.
    + rewrite usize_small by lia.
      by rewrite (proj2 (Z.leb_gt _ _)) by lia.
Qed.

End methods.

(** ** [build] and whole packets *)

(** The buffer with the tag, and the packet number the builder has
    recorded, fit an [isize], as the length of every [Vec] does. *)
Definition fits (x : nat) (b : PacketBuilder) : Prop :=
  Z.of_nat (length (encoder b) + x) < 2 ^ 63 ∧
  Z.of_nat (range_len (offsets_pn (offsets b))) < 2 ^ 63.

Section build.
Context {St : Type} `{CryptoDxLaws St}.
Implicit Types (crypto : St) (b : PacketBuilder) (e : Encoder) (c : call)
  (cs : list call) (p : packet).

(** [build] is the same function in both builds: the two subtractions that
    could wrap around are followed by an index or an assertion that fails
    where the checked build panics on the underflow. *)
Lemma build_release_build crypto b :
  fits (expansion crypto) b → build_release crypto b = build crypto b.
Proof.
  intros [Hlen Hpn]. unfold build_release, build.
  assert ((if decide (0 < offsets_len (offsets b))%nat
           then write_len_release (expansion crypto) b else Ok b)
          = (if decide (0 < offsets_len (offsets b))%nat
             then write_len (expansion crypto) b else Ok b)) as ->
    by (case_decide; [apply write_len_release_eq; lia|done]).
  destruct (if decide _ then _ else _) as [b1| |] eqn:Hw; outcome_simpl;
    [|done..].
  assert (length (encoder b1) = length (encoder b) ∧
          offsets b1 = offsets b) as [Hl1 Ho1].
  { case_decide; [|by injection Hw as <-].
    by apply write_len_inv in Hw as (_ & _ & ? & ? & _). }
  destruct (slice _ _ _) as [hdr| |]; outcome_simpl; [|done..].
  destruct (slice_from _ _) as [body| |] eqn:Hbody; outcome_simpl; [|done..].
  apply slice_from_Ok in Hbody as [_ ->].
  destruct (encrypt _ _ _ _) as [crypto' [ct| |]] eqn:Henc; [|done..].
  outcome_simpl. apply encrypt_length in Henc. rewrite length_drop in Henc.
  rewrite sample_of_release_eq; [done|by rewrite Ho1|lia].
Qed.

Lemma do_call_release_refines b c b' :
  do_call b c = Ok b' → do_call_release b c = Ok b'.
Proof.
  destruct c; simpl;
    [apply initial_token_release_refines|apply pn_release_refines|done].
Qed.

Lemma run_release_refines b cs b' :
  run b cs = Ok b' → run_release b cs = Ok b'.
Proof.
  unfold run, run_release. revert b.
  induction cs as [|c cs IH]; intros b; simpl; [done|].
  intros (b1 & H1 & Hr)%bind_Ok.
  rewrite (do_call_release_refines _ _ _ H1). simpl. by apply IH.
Qed.

(** A run of checked calls leaves a packet number of at most four bytes. *)
Lemma run_pn_len e o b cs b' :
  open_builder e o = Ok b → run b cs = Ok b' →
  (range_len (offsets_pn (offsets b')) ≤ 4)%nat.
Proof.
  intros Ho. apply (for_each_ind
    (λ b, (range_len (offsets_pn (offsets b)) ≤ 4)%nat) do_call cs).
  - intros b1 c b2 Hb1. destruct c; simpl.
    + by intros (? & _ & _ & _ & ->)%initial_token_inv.
    + intros (? & _ & ? & ->)%pn_inv. unfold range_len. simpl. len.
    + by intros [= <-].
  - destruct o; simpl in Ho.
    + injection Ho as <-. simpl. unfold range_len. simpl. lia.
    + destruct (code (E:=Error) pt) as [c| |] eqn:Hc; [|by destruct pt..].
      rewrite (long_Ok _ _ _ _ _ Hc) in Ho. injection Ho as <-.
      unfold range_len. simpl. lia.
Qed.


(** [build] does not succeed on a packet number of more than four bytes:
    it stops in the provider or at the sample. *)
Lemma build_long_pn_not_Ok crypto b :
  (4 < range_len (offsets_pn (offsets b)))%nat → ¬ is_Ok (build crypto b).2.
Proof.
  intros Hpn. unfold build.
  destruct (if decide _ then _ else _) as [b1| |] eqn:Hw; outcome_simpl;
    [|by intros []..].
  assert (offsets b1 = offsets b) as Ho1.
  { case_decide; [|by injection Hw as <-].
    by apply write_len_inv in Hw as (_ & _ & ? & _). }
  destruct (slice _ _ _) as [hdr| |]; outcome_simpl; [|by intros []..].
  destruct (slice_from _ _) as [body| |]; outcome_simpl; [|by intros []..].
  destruct (encrypt _ _ _ _) as [crypto' [ct| |]]; [|by intros []..].
  outcome_simpl. unfold sample_of.
  rewrite Ho1, (proj2 (Nat.leb_gt _ 4)) by lia. by intros [].
Qed.

(** One packet: whenever it is built by the checked model and fits the
    address space, the release build returns the same. *)
Lemma build_packet_release_refines crypto e p crypto' e' :
  build_packet crypto e p = (crypto', Ok e') →
  Z.of_nat (length e') < 2 ^ 63 →
  build_packet_release crypto e p = (crypto', Ok e').
Proof.
  intros (b0 & b & Ho & Hr & Hb)%build_packet_inv Hfit.
  unfold build_packet_release. rewrite Ho. outcome_simpl.
  rewrite (run_release_refines _ _ _ Hr).
  rewrite build_release_build; [done|]. split.
  - by rewrite <- (build_length _ _ _ _ Hb).
  - pose proof (run_pn_len _ _ _ _ _ Ho Hr). lia.
Qed.

(** The release build refines the checked build.  Whenever a datagram
    is built by the checked model (any number of packets, calls in any
    order on each, any provider that keeps its laws), and the datagram
    fits the address space, the release build, without debug assertions
    and with wrapping arithmetic, returns the same provider state and the
    same datagram. *)
Theorem release_refines_debug crypto e ps crypto' dg :
  build_datagram crypto e ps = (crypto', Ok dg) →
  Z.of_nat (length dg) < 2 ^ 63 →
  build_datagram_release crypto e ps = (crypto', Ok dg).
Proof.
  revert crypto e. induction ps as [|p ps IH]; intros crypto e; simpl;
    [done|].
  destruct (build_packet crypto e p) as [c1 [e1| |]] eqn:Hp; [|done..].
  intros Hd Hfit. pose proof (build_datagram_take _ _ _ _ _ Hd) as Ht.
  apply (f_equal length) in Ht. rewrite length_take in Ht.
  rewrite (build_packet_release_refines _ _ _ _ _ Hp) by lia. by apply IH.
Qed.

(** C16: what the release build accepts.  A packet number of 5 to 8 bytes
    is a panic in the checked build; in a release build [pn] writes it, sets
    bit 2 of the first byte (the key phase of a short header, a reserved
    bit of a long one) with the length, and returns a builder from which no
    packet can be built: whatever the payload and the provider, [build]
    stops in the provider or panics at the sample. *)
Theorem pn_release_unchecked crypto v l b first body :
  first_byte b = Some first → (5 ≤ l ≤ 8)%nat →
  fits (l + length body + 2 + expansion crypto) b →
  pn v l b = Panic ∧
  ∃ b', pn_release v l b = Ok b' ∧
        range_len (offsets_pn (offsets b')) = l ∧
        (∃ first', first_byte b' = Some first' ∧ Z.testbit first' 2 = true) ∧
        ¬ is_Ok (build_release crypto (payload body b')).2.
Proof.
  intros Hf Hl [Hfit _]. split; [apply pn_Panic_len; lia|].
  exists (pn_result v l first b).
  split; [apply pn_release_Ok; [done|lia]|].
  assert (range_len (offsets_pn (offsets (pn_result v l first b))) = l) as Hpl
    by (unfold range_len; simpl; len).
  split; [done|]. split.
  - eexists. split; [by apply pn_result_first_byte|].
    rewrite Z.lor_spec. apply orb_true_iff. right.
    assert (l = 5 ∨ l = 6 ∨ l = 7 ∨ l = 8)%nat as Hls by lia.
    by destruct Hls as [->|[->|[->| ->]]].
  - rewrite build_release_build.
    + apply build_long_pn_not_Ok.
      cbn [payload deref_mut set_encoder offsets]. rewrite Hpl. lia.
    + split; [|cbn [payload deref_mut set_encoder offsets]; rewrite Hpl; lia].
      unfold payload, deref_mut, encode, pn_result, placeholder. simpl.
      rewrite length_app, length_insert, !length_app, length_be_bytes.
      case_decide; simpl; lia.
Qed.

(** The release build appends a token to any header. *)
Lemma initial_token_release_unchecked token e kp dcid :
  Z.of_nat (length token) < 2 ^ 62 →
  initial_token token (short e kp dcid) = Panic ∧
  is_Ok (initial_token_release token (short e kp dcid)).
Proof.
  intros Ht. split.
  - apply (initial_token_Panic_type _ _ (short_first kp));
      [apply short_first_byte|by destruct kp].
  - by rewrite initial_token_release_Ok.
Qed.

(** ** Where the two builds agree

    The release build differs from the checked build in the debug
    assertions of [initial_token] and [pn] only, once the buffers fit the
    address space: a call either panics in the checked build or does the
    same in both. *)

(** An upper bound on the bytes a call, an opening and a packet with a
    tag of [x] bytes add to the buffer. *)
Definition call_size c : nat :=
  match c with
  | InitialToken token => 8 + length token
  | Pn _ l => 2 + l
  | Encode bytes => length bytes
  end.

Definition opening_size (o : opening) : nat :=
  match o with
  | StartShort _ dcid => 1 + length dcid
  | StartLong _ dcid scid => 7 + length dcid + length scid
  end.

Definition packet_size (x : nat) p : nat :=
  opening_size (pkt_open p) + sum_list (call_size <$> pkt_calls p) + x.

Definition datagram_size (x : nat) e (ps : list packet) : nat :=
  length e + sum_list (packet_size x <$> ps).

Lemma do_call_release_dichotomy b c :
  do_call b c = Panic ∨ do_call_release b c = do_call b c.
Proof.
  destruct c as [token|v l|bytes]; simpl; [| |by right].
  - destruct (initial_token token b) as [b'|err|] eqn:Hi; [| |by left].
    + right. by apply initial_token_release_refines.
    + by apply initial_token_never_Err in Hi.
  - destruct (decide (1 ≤ l ≤ 4)%nat);
      [right; by apply pn_release_eq|left; by apply pn_Panic_len].
Qed.

(** A run that does not panic in the checked build is the same run in a
    release build. *)
Lemma run_release_eq b cs :
  run b cs ≠ Panic → run_release b cs = run b cs.
Proof.
  unfold run, run_release. revert b.
  induction cs as [|c cs IH]; intros b; simpl; [done|].
  destruct (do_call_release_dichotomy b c) as [->| ->]; [done|].
  destruct (do_call b c) as [b1| |]; simpl; [apply IH|done..].
Qed.

Lemma do_call_length b c b' :
  do_call b c = Ok b' →
  (length (encoder b') ≤ length (encoder b) + call_size c)%nat.
Proof.
  destruct c as [token|v l|bytes]; simpl.
  - intros (? & _ & _ & Ht & ->)%initial_token_inv. unfold token_field.
    simpl. rewrite !length_app.
    rewrite length_varint_bytes.
    pose proof (varint_len_le (Z.of_nat (length token))). lia.
  - intros (first & _ & Hl & ->)%pn_inv. unfold pn_result. simpl.
    rewrite length_insert, !length_app, length_be_bytes, length_placeholder.
    case_decide; lia.
  - intros [= <-]. unfold payload, deref_mut, encode. simpl. len.
Qed.

Lemma run_length b cs b' :
  run b cs = Ok b' →
  (length (encoder b') ≤ length (encoder b) + sum_list (call_size <$> cs))%nat.
Proof.
  unfold run. revert b. induction cs as [|c cs IH]; intros b; csimpl.
  - intros [= <-]. lia.
  - intros (b1 & H1%do_call_length & Hr%IH)%bind_Ok. lia.
Qed.

Lemma open_builder_length e o b :
  open_builder e o = Ok b →
  (length (encoder b) ≤ length e + opening_size o)%nat.
Proof.
  destruct o as [kp dcid|pt dcid scid]; simpl.
  - intros [= <-]. unfold short, encode, encode_byte. simpl. len.
  - destruct (code (E:=Error) pt) as [c| |] eqn:Hc; [|by destruct pt..].
    rewrite (long_Ok _ _ _ _ _ Hc). intros [= <-]. cbn [encoder].
    rewrite length_app. cbn [length]. rewrite length_long_fields. lia.
Qed.

(** A packet whose calls run alike in both builds is built alike, once
    it fits the address space. *)
Lemma build_packet_release_eq crypto e p :
  Z.of_nat (length e + packet_size (expansion crypto) p) < 2 ^ 63 →
  (∀ b0, open_builder e (pkt_open p) = Ok b0 →
         run_release b0 (pkt_calls p) = run b0 (pkt_calls p)) →
  build_packet_release crypto e p = build_packet crypto e p.
Proof.
  intros Hfit Hrun. unfold build_packet_release, build_packet, packet_size in *.
  destruct (open_builder e (pkt_open p)) as [b0| |] eqn:Ho; outcome_simpl;
    [|done..].
  rewrite (Hrun b0 eq_refl).
  destruct (run b0 (pkt_calls p)) as [b| |] eqn:Hr; [|done..].
  apply build_release_build. split.
  - apply open_builder_length in Ho as Hl0. apply run_length in Hr as Hl. lia.
  - pose proof (run_pn_len _ _ _ _ _ Ho Hr). lia.
Qed.

(** A packet that does not panic in the checked build. *)
Lemma build_packet_release_no_panic crypto e p :
  Z.of_nat (length e + packet_size (expansion crypto) p) < 2 ^ 63 →
  (build_packet crypto e p).2 ≠ Panic →
  build_packet_release crypto e p = build_packet crypto e p.
Proof.
  intros Hfit Hnp. apply build_packet_release_eq; [done|].
  intros b0 Ho. apply run_release_eq. intros Hr. apply Hnp.
  unfold build_packet. by rewrite Ho; outcome_simpl; rewrite Hr.
Qed.

(** A packet that is built is no longer than its bound. *)
Lemma build_packet_length crypto e p crypto' e' :
  build_packet crypto e p = (crypto', Ok e') →
  (length e' ≤ length e + packet_size (expansion crypto) p)%nat.
Proof.
  intros (b0 & b & Ho%open_builder_length & Hr%run_length
          & Hb%build_length)%build_packet_inv.
  unfold packet_size. lia.
Qed.

(** The bound of a datagram bounds its first packet, and the rest of the
    datagram behind the first packet once that is built. *)
Lemma datagram_size_head x e p ps :
  Z.of_nat (datagram_size x e (p :: ps)) < 2 ^ 63 →
  Z.of_nat (length e + packet_size x p) < 2 ^ 63.
Proof. unfold datagram_size. csimpl. lia. Qed.

Lemma datagram_size_tail crypto e p ps crypto1 e1 :
  build_packet crypto e p = (crypto1, Ok e1) →
  Z.of_nat (datagram_size (expansion crypto) e (p :: ps)) < 2 ^ 63 →
  Z.of_nat (datagram_size (expansion crypto1) e1 ps) < 2 ^ 63.
Proof.
  intros Hp. pose proof (build_packet_expansion crypto e p) as Hx.
  rewrite Hp in Hx. simpl in Hx. rewrite Hx.
  apply build_packet_length in Hp. unfold datagram_size. csimpl. lia.
Qed.

(** C13: the release build agrees with the checked build wherever the
    checked build does not panic.  For every provider that keeps its laws, every
    buffer and every sequence of packets with any calls on each, in any
    order, that fit the address space together: when the checked build
    returns a datagram or an error of the provider, the release build
    returns the same, with the provider in the same state.  The builds
    can differ only where the checked build panics. *)
Theorem release_agrees crypto e ps :
  Z.of_nat (datagram_size (expansion crypto) e ps) < 2 ^ 63 →
  (build_datagram crypto e ps).2 ≠ Panic →
  build_datagram_release crypto e ps = build_datagram crypto e ps.
Proof.
  revert crypto e. induction ps as [|p ps IH]; intros crypto e Hfit Hnp;
    [done|].
  cbn [build_datagram_release build_datagram] in *.
  rewrite build_packet_release_no_panic;
    [|by eapply datagram_size_head|by destruct (build_packet _ _ _) as [? []]].
  destruct (build_packet crypto e p) as [crypto1 [e1| |]] eqn:Hp; [|done..].
  apply IH; [by eapply datagram_size_tail|done].
Qed.

(** ** Messages: the two builds are one

    A sender who makes the calls of the documented order for each
    message never meets a debug assertion unless the length of a packet
    number is wrong; so, but for the lengths 5 to 8, which only the
    release build accepts, the builds agree on every branch, panics
    included. *)

(** [initial_token] on a header that passes its guard. *)
Lemma initial_token_release_eq token b first :
  encoder b !! start (header b) = Some first → is_initial_first first →
  initial_token_release token b = initial_token token b.
Proof.
  intros Hf Hi. unfold initial_token_release, initial_token, index.
  rewrite Hf. outcome_simpl. by rewrite bool_decide_eq_true_2 by done.
Qed.

(** [pn] with a length that both builds refuse or both accept. *)
Lemma pn_release_eq_len v l b :
  ¬ (5 ≤ l ≤ 8)%nat → pn_release v l b = pn v l b.
Proof.
  intros Hl. destruct (decide (1 ≤ l ≤ 4)%nat); [by apply pn_release_eq|].
  rewrite pn_Panic_len by done. unfold pn_release, index.
  destruct (_ !! _) as [first|]; outcome_simpl; [|done].
  by case_decide; rewrite encode_uint_Panic by lia.
Qed.

Lemma run_release_message e m b0 :
  ¬ (5 ≤ msg_pn_len m ≤ 8)%nat →
  open_builder e (pkt_open (packet_of m)) = Ok b0 →
  run_release b0 (pkt_calls (packet_of m)) = run b0 (pkt_calls (packet_of m)).
Proof.
  intros Hl Ho. unfold run_release, run.
  destruct m as [pt dcid scid token v l body|kp dcid v l body];
    cbn [packet_of pkt_open pkt_calls msg_pn_len open_builder] in *.
  - unfold long_calls. case_decide as Hpt; cbn [app for_each do_call
      do_call_release]; [|by rewrite pn_release_eq_len].
    subst pt. rewrite (long_Ok _ _ _ _ 0) in Ho by done. injection Ho as <-.
    rewrite (initial_token_release_eq _ _ (long_first 0));
      [|by cbn [encoder header start]; rewrite list_lookup_middle|done].
    destruct (initial_token _ _); outcome_simpl; [|done..].
    by rewrite pn_release_eq_len.
  - cbn [for_each do_call do_call_release]. by rewrite pn_release_eq_len.
Qed.

(** C14: the two builds are one on the messages of a sender.  For every
    provider that keeps its laws, every buffer and every sequence of
    messages that fit the address space together, each message sent with
    the calls of the documented order and with a packet-number length
    outside 5 to 8: the release build returns what the checked build
    returns and leaves the provider in the same state, on every branch,
    the datagram, the error of the provider and the panic. *)
Theorem release_is_checked crypto e ms :
  Forall (λ m, ¬ (5 ≤ msg_pn_len m ≤ 8)%nat) ms →
  Z.of_nat (datagram_size (expansion crypto) e (packet_of <$> ms)) < 2 ^ 63 →
  build_datagram_release crypto e (packet_of <$> ms)
  = build_datagram crypto e (packet_of <$> ms).
Proof.
  revert crypto e. induction ms as [|m ms IH]; intros crypto e Hl Hfit;
    [done|].
  apply Forall_cons_1 in Hl as [Hm Hl].
  cbn [fmap list_fmap build_datagram_release build_datagram] in *.
  rewrite build_packet_release_eq;
    [|by eapply datagram_size_head|by intros; apply (run_release_message e)].
  destruct (build_packet crypto e _) as [crypto1 [e1| |]] eqn:Hp; [|done..].
  apply IH; [done|by eapply datagram_size_tail].
Qed.

(** ** What a release build returns is what the checked build returns

    On the messages of a sender the release build returns a datagram
    only where the checked build returns it: a packet number of 5 to 8
    bytes gets past [pn], and is stopped in [build]. *)

(** The packet-number range that the release build records. *)
Lemma pn_release_pn_len v l b b' :
  pn_release v l b = Ok b' →
  range_len (offsets_pn (offsets b')) = l ∧
  (l ≤ length (encoder b') ≤ length (encoder b) + 2 + l)%nat.
Proof.
  destruct (decide (1 ≤ l ≤ 8)%nat) as [Hl|Hl].
  - destruct (encoder b !! start (header b)) as [first|] eqn:Hf.
    + rewrite (pn_release_Ok _ _ _ first) by done. intros [= <-].
      unfold range_len, pn_result. cbn [offsets offsets_pn encoder start end_].
      rewrite length_insert, !length_app, length_be_bytes, length_placeholder.
      case_decide; lia.
    + unfold pn_release, index. by rewrite Hf.
  - unfold pn_release, index. destruct (_ !! _); outcome_simpl; [|done].
    by case_decide; rewrite encode_uint_Panic by lia.
Qed.

Lemma do_call_release_length b c b' :
  do_call_release b c = Ok b' →
  (length (encoder b') ≤ length (encoder b) + call_size c)%nat.
Proof.
  destruct c as [token|v l|bytes]; simpl.
  - unfold initial_token_release.
    destruct (decide (Z.of_nat (length token) < 2 ^ 62));
      [|by rewrite encode_vvec_Panic by lia].
    rewrite encode_vvec_Ok by done. intros [= <-]. simpl.
    rewrite !length_app, length_varint_bytes.
    pose proof (varint_len_le (Z.of_nat (length token))). lia.
  - intros [_ Hl]%pn_release_pn_len. lia.
  - intros [= <-]. unfold payload, deref_mut, encode. simpl. len.
Qed.

Lemma run_release_length b cs b' :
  run_release b cs = Ok b' →
  (length (encoder b') ≤ length (encoder b) + sum_list (call_size <$> cs))%nat.
Proof.
  unfold run_release. revert b. induction cs as [|c cs IH]; intros b; csimpl.
  - intros [= <-]. lia.
  - intros (b1 & H1%do_call_release_length & Hr%IH)%bind_Ok. lia.
Qed.

(** The calls of a message end with [pn] and the payload, so the
    builder holds a packet number of the length of the message. *)
Lemma run_release_message_pn_len m b0 b :
  run_release b0 (pkt_calls (packet_of m)) = Ok b →
  range_len (offsets_pn (offsets b)) = msg_pn_len m ∧
  (msg_pn_len m ≤ length (encoder b))%nat.
Proof.
  assert (∀ b1 v l body,
    run_release b1 [Pn v l; Encode body] = Ok b →
    range_len (offsets_pn (offsets b)) = l ∧ (l ≤ length (encoder b))%nat)
    as Hpn.
  { intros b1 v l body. unfold run_release. cbn [for_each do_call_release].
    intros (b2 & [Hl Hlen]%pn_release_pn_len & [= <-])%bind_Ok.
    split; [done|]. unfold payload, deref_mut, encode. simpl. len. }
  destruct m as [pt dcid scid token v l body|kp dcid v l body];
    cbn [packet_of pkt_calls msg_pn_len]; [|apply Hpn].
  unfold long_calls. case_decide; [|apply Hpn].
  unfold run_release. cbn [app for_each].
  intros (b1 & _ & Hr)%bind_Ok. by apply (Hpn b1 v l body).
Qed.

(** A message that a release build makes a packet of has a packet
    number of at most four bytes. *)
Lemma build_packet_release_message_len crypto e m crypto' e' :
  Z.of_nat (length e + packet_size (expansion crypto) (packet_of m)) < 2 ^ 63 →
  build_packet_release crypto e (packet_of m) = (crypto', Ok e') →
  (msg_pn_len m ≤ 4)%nat.
Proof.
  intros Hfit. unfold build_packet_release, packet_size in *.
  destruct (open_builder e _) as [b0| |] eqn:Ho; outcome_simpl; [|done..].
  destruct (run_release b0 _) as [b| |] eqn:Hr; [|done..].
  apply open_builder_length in Ho. apply run_release_length in Hr as Hlen.
  apply run_release_message_pn_len in Hr as [Hl Hle].
  rewrite build_release_build by (split; lia). intros Hb.
  destruct (decide (msg_pn_len m ≤ 4)%nat); [done|].
  destruct (build_long_pn_not_Ok crypto b); [lia|]. by rewrite Hb.
Qed.

(** The datagram a release build returns for the messages of a sender
    is the one the checked build returns. *)
Lemma release_messages_Ok crypto e ms crypto' dg :
  Z.of_nat (datagram_size (expansion crypto) e (packet_of <$> ms)) < 2 ^ 63 →
  build_datagram_release crypto e (packet_of <$> ms) = (crypto', Ok dg) →
  build_datagram crypto e (packet_of <$> ms) = (crypto', Ok dg).
Proof.
  revert crypto e. induction ms as [|m ms IH]; intros crypto e Hfit; [done|].
  cbn [fmap list_fmap build_datagram_release build_datagram] in *.
  destruct (build_packet_release crypto e _) as [crypto1 [e1| |]] eqn:Hp;
    [|done..].
  apply build_packet_release_message_len in Hp as Hl;
    [|by eapply datagram_size_head].
  rewrite build_packet_release_eq in Hp;
    [|by eapply datagram_size_head
     |by intros; apply (run_release_message e); [lia|]].
  rewrite Hp. apply IH. by eapply datagram_size_tail.
Qed.

End build.

(** ** The theorems at the packets of the tests *)

Lemma release_refines_debug_witness :
  build_datagram_release (mkTestDx 0 16) [] [pkt_two_first; pkt_two_second]
  = (mkTestDx 2 16, Ok ex_two).
Proof.
  apply (release_refines_debug (mkTestDx 0 16) []
           [pkt_two_first; pkt_two_second] (mkTestDx 2 16) ex_two);
    [reflexivity|by vm_compute].
Defined.

Lemma pn_release_unchecked_witness :
  pn 0 5 (short [] true SERVER_CID) = Panic ∧
  ∃ b', pn_release 0 5 (short [] true SERVER_CID) = Ok b' ∧
        range_len (offsets_pn (offsets b')) = 5%nat ∧
        (∃ first', first_byte b' = Some first' ∧ Z.testbit first' 2 = true) ∧
        ¬ is_Ok (build_release (mkTestDx 0 16) (payload [0; 0; 0] b')).2.
Proof.
  apply (pn_release_unchecked (mkTestDx 0 16) 0 5 (short [] true SERVER_CID)
           (short_first true) [0; 0; 0]);
    [reflexivity|lia|split; by vm_compute].
Defined.

(** A provider that expects packet number 1 refuses the first packet of
    the test [build_two]: both builds return its error. *)
Lemma release_agrees_witness :
  build_datagram_release (mkTestDx 1 16) [] [pkt_two_first; pkt_two_second]
  = build_datagram (mkTestDx 1 16) [] [pkt_two_first; pkt_two_second].
Proof.
  apply (release_agrees (mkTestDx 1 16) [] [pkt_two_first; pkt_two_second]);
    by vm_compute.
Defined.

Lemma release_agrees_example :
  build_datagram (mkTestDx 1 16) [] [pkt_two_first; pkt_two_second]
  = (mkTestDx 1 16, Err (CryptoError 1)).
Proof. reflexivity. Qed.

(** Two messages, the second with a payload too short for the sample:
    both builds build the first packet and panic in the second, after
    the provider has sealed it. *)
Definition ex_short_payload : list message :=
  [LongMsg Handshake SERVER_CID CLIENT_CID [] 0 1 [0; 0; 0];
   ShortMsg false SERVER_CID 1 3 []].

Lemma release_is_checked_witness :
  build_datagram_release (mkTestDx 0 16) [] (packet_of <$> ex_short_payload)
  = build_datagram (mkTestDx 0 16) [] (packet_of <$> ex_short_payload).
Proof.
  apply (release_is_checked (mkTestDx 0 16) [] ex_short_payload);
    [repeat constructor; simpl; lia|by vm_compute].
Defined.

Lemma release_is_checked_example :
  build_datagram (mkTestDx 0 16) [] (packet_of <$> ex_short_payload)
  = (mkTestDx 2 16, Panic).
Proof. reflexivity. Qed.
