(* ===== verification/ReleaseWire.v ===== *)
(** * The release build on the wire

    The receivers of [Reception] and [Dispatch] are shown to open what
    the checked build makes.  The build that runs in production is the
    release build of [Release], without the debug assertions and with
    [usize] wrapping around.  This file composes the two: what the
    release build returns for the messages of a sender is received as
    those messages. *)

From Stdlib Require Import ZArith Lia.
From stdpp Require Import base option list numbers.
From S2P Require Import Prelude Encoder PacketType Crypto Builder Protection Lifecycle Position OneShot Wire EndToEnd Message Coalesce Reception OneShotWire Dispatch Release.

#[local] Open Scope Z_scope.

Section received.
Context {St : Type} {dx : CryptoDx St} {laws : CryptoDxLaws St}
  {rxi : CryptoRx St} {pr : Paired St} {A : Type} `{Aead A}.
Implicit Types (crypto : St) (r : receiver St A) (e dg : list Z)
  (ms : list message).

(** C15: the build that ships is received.  A sender compiled without
    debug assertions and a receiver hold paired providers.  The sender
    builds a datagram, behind any bytes [e], from at least one message:
    long-header messages of the types Initial, 0-RTT and Handshake and
    possibly one short-header message at the end, under the conditions
    of [msg_ok], the whole below 2^63 bytes.  Whenever the release
    build returns a datagram, the buffer starts with [e] as before, the
    receiver, given the bytes after [e] and nothing else, classifies and
    splits them and gets exactly the messages, and the providers are
    still paired: no wrapped subtraction and no assertion that is gone
    lets a release build return bytes that are received as anything
    else. *)
Theorem release_dispatched crypto crypto' r e ms dg :
  paired crypto (rx_keys r) →
  Forall (msg_ok (expansion crypto) (rx_cid_len r) (rx_expected r)) ms →
  Forall numbered_msg ms → short_last ms → ms ≠ [] →
  Z.of_nat (datagram_size (expansion crypto) e (packet_of <$> ms)) < 2 ^ 63 →
  build_datagram_release crypto e (packet_of <$> ms) = (crypto', Ok dg) →
  take (length e) dg = e ∧
  dispatch_datagram r (drop (length e) dg) = Some (RxMessage <$> ms) ∧
  paired crypto' (rx_keys r).
Proof.
  intros Hp Hms Hn Hlast Hne Hfit Hb.
  apply release_messages_Ok in Hb; [|done].
  apply build_datagram_pkts in Hb as (pkts & Ha & ->).
  rewrite take_app_length, drop_app_length. split; [done|]. split.
  - by eapply pkts_dispatched.
  - by destruct (packets_opened _ _ _ _ _ _ _ Hp Hms Ha).
Qed.

End received.

(** ** The theorem at the datagram of the test [build_two] *)

Lemma release_dispatched_witness :
  take 1 ex_two_datagram = [0xff] ∧
  dispatch_datagram ex_receiver (drop 1 ex_two_datagram)
  = Some (RxMessage <$> ex_two_msgs) ∧
  paired (mkTestDx 2 16) (mkTestDx 7 16).
Proof.
  apply (release_dispatched (mkTestDx 0 16) (mkTestDx 2 16) ex_receiver
           [0xff] ex_two_msgs ex_two_datagram);
    [reflexivity|by apply (bool_decide_unpack _)
    |by apply (bool_decide_unpack _)|done|done|by vm_compute|reflexivity].
Defined.

(** In a release build the sender of [ex_two_msgs] can ask for a packet
    number of five bytes in the short-header packet; no datagram is
    returned. *)
Lemma release_long_pn_example :
  (build_datagram_release (mkTestDx 0 16) [0xff]
     (packet_of <$> [LongMsg Handshake SERVER_CID CLIENT_CID [] 0 1 (replicate 19 0);
                     ShortMsg false SERVER_CID 1 5 (replicate 19 0)])).2
  = Panic.
Proof. reflexivity. Qed.
