(* ===== verification/Tests.v ===== *)
(** * The tests of packet2.rs (mod tests, lines 292-469)

    Each test function is a definition that returns [Ok tt] when the test
    passes and [Panic] when an assertion, an [unwrap] or an [expect] of it
    fails.  The provider is the argument [prot], for which the source
    calls [default_protector()]; [default_protector] itself is defined
    over an interface to the derivation of the Initial keys
    ([InitialKeys]).  The random bytes and the thread-local AEAD of
    [retry] are arguments as in [OneShot].  The theorems say when each
    test passes, for every provider, and the witnesses run the tests on
    the [default_protector] of the test provider. *)

From Stdlib Require Import ZArith Lia.
From stdpp Require Import base option list numbers strings.
From S2P Require Import Prelude Encoder PacketType Crypto Builder Loops Protection Lifecycle OneShot Wire EndToEnd.

#[local] Open Scope Z_scope.

(** ** The assertions of a test *)

(** [Result::unwrap] and [Result::expect]: an error is a panic. *)
Definition unwrap {A} (r : Res A) : Res A :=
  match r with
  | Ok a => Ok a
  | _ => Panic
  end.

(** [assert_eq!(a, b)]. *)
Definition assert_eq {A} `{EqDecision A} (a b : A) : Res unit :=
  assert (bool_decide (a = b)).

(** ** The provider of the tests *)

(** [crate::crypto::CryptoDxDirection]. *)
Inductive CryptoDxDirection : Set := Read | Write.

(** [CryptoDxState::new_initial(direction, label, dcid)], called once
    [fixture_init()] has initialised the library: the provider that holds
    the Initial keys of one direction, derived from the connection ID. *)
Class InitialKeys (St : Type) : Type := {
  new_initial : CryptoDxDirection → string → ConnectionId → St;
}.

(** [tests::default_protector]. *)
Definition default_protector {St : Type} `{InitialKeys St} : St :=
  new_initial Write "server in" CLIENT_CID.

(** The test provider starts at packet number 0 with tags of 16 bytes,
    whatever the keys. *)
#[export] Instance TestDx_InitialKeys : InitialKeys TestDx := {|
  new_initial _ _ _ := mkTestDx 0 16;
|}.

(** ** The tests of the builder *)

Section provider.
Context {St : Type} `{CryptoDx St}.
Implicit Types (prot : St).

(** [tests::sample_server_initial]. *)
Definition test_sample_server_initial prot : Res unit :=
  (* The spec uses PN=1, but our crypto refuses to skip packet numbers. *)
  let '(prot, burn) := encrypt prot 0 [] [] in
  burn ← unwrap burn;
  _ ← assert_eq (length burn) (expansion prot);
  builder ← long [] Initial [] SERVER_CID;
  builder ← initial_token [] builder;
  builder ← pn 1 2 builder;
  let builder := payload SAMPLE_PAYLOAD builder in
  packet ← unwrap (build prot builder).2;
  assert_eq packet SAMPLE_EXPECTED.

(** [tests::build_short]. *)
Definition test_build_short prot : Res unit :=
  builder ← pn 0 1 (short [] true SERVER_CID);
  let builder := payload [0; 0; 0] builder in
  packet ← unwrap (build prot builder).2;
  assert_eq (length packet) 29%nat.

(** [tests::build_two]. *)
Definition test_build_two prot : Res unit :=
  builder ← long [] Handshake SERVER_CID CLIENT_CID;
  builder ← pn 0 1 builder;
  let builder := payload [0; 0; 0] builder in
  let '(prot, encoder) := build prot builder in
  encoder ← unwrap encoder;
  _ ← assert_eq (length encoder) 45%nat;
  let first := encoder in
  builder ← pn 1 3 (short encoder false SERVER_CID);
  let builder := payload [0] builder in
  encoder ← unwrap (build prot builder).2;
  front ← slice encoder 0 (length first);
  _ ← assert_eq first front;
  assert_eq (length encoder) (45 + 29)%nat.

End provider.

(** [tests::build_abort]. *)
Definition test_build_abort : Res unit :=
  builder ← long [] Initial [] SERVER_CID;
  builder ← initial_token [] builder;
  builder ← pn 1 2 builder;
  let encoder := abort builder in
  assert (bool_decide (encoder = [])).

(** ** The tests of the one-shot packets *)

Section retry.
Context {K A : Type} {factory : AeadFactory K A} `{Aead A}.

(** [tests::build_retry]. *)
Definition test_build_retry (s : slot A) (rand : list Z)
  : slot A * Res unit :=
  let '(s, retry) := retry s rand [] SERVER_CID RETRY_TOKEN CLIENT_CID in
  (s,
   retry ← unwrap retry;
   (* The builder adds randomness, which makes expectations hard. *)
   r0 ← index retry 0;
   e0 ← index RETRY_EXPECTED 0;
   if decide (r0 = e0) then assert_eq retry RETRY_EXPECTED
   else
     (* Otherwise, just check that the header is OK. *)
     matches ← retry_header_matches retry;
     assert matches).

(** [tests::build_retry_multiple]: [for _ in 0..32 { build_retry(); }],
    with the random bytes of the [i]-th run given by [rand i]. *)
Definition test_build_retry_multiple (fuel : nat) (s : slot A)
    (rand : nat → list Z) : option (Res (slot A)) :=
  for_loop fuel
    (λ s i, let '(s, passed) := test_build_retry s (rand i) in
            _ ← passed; Ok s)
    s (mkRange 0 32).

End retry.

(** [tests::build_vn]. *)
Definition test_build_vn (rand : list Z) : Res unit :=
  vn ← version_negotiation rand SERVER_CID CLIENT_CID;
  (* Erase randomness from greasing... *)
  _ ← assert_eq (length vn) (length VN_EXPECTED);
  vn ← vn_erase vn;
  assert_eq vn VN_EXPECTED.

(** ** When the tests pass *)

(** Reduce the binds and the [unwrap]s of a test whose first computation
    is a known outcome. *)
Ltac test_simpl :=
  cbv zeta;
  cbn [unwrap mbind outcome_bind fmap outcome_fmap mret outcome_ret expect
       assert fst snd].

Lemma unwrap_Ok {A} (r : Res A) a : unwrap r = Ok a ↔ r = Ok a.
Proof. destruct r; simpl; naive_solver. Qed.

Lemma assert_eq_Ok {A} `{EqDecision A} (a b : A) u :
  assert_eq a b = Ok u ↔ a = b.
Proof.
  unfold assert_eq. rewrite assert_Ok. apply bool_decide_eq_true.
Qed.

Lemma assert_eq_true {A} `{EqDecision A} (a b : A) :
  a = b → assert_eq a b = Ok tt.
Proof. intros. unfold assert_eq. by rewrite bool_decide_eq_true_2. Qed.

Lemma assert_eq_false {A} `{EqDecision A} (a b : A) :
  a ≠ b → assert_eq a b = Panic.
Proof. intros. unfold assert_eq. by rewrite bool_decide_eq_false_2. Qed.

(** [build_abort] passes. *)
Lemma test_build_abort_passes : test_build_abort = Ok tt.
Proof. reflexivity. Qed.

Section provider_passes.
Context {St : Type} `{CryptoDxLaws St}.
Implicit Types (prot : St).

Lemma test_build_short_build_packet prot :
  test_build_short prot
  = (packet ← unwrap (build_packet prot [] pkt_build_short).2;
     assert_eq (length packet) 29%nat).
Proof. reflexivity. Qed.

(** [build_short] passes exactly when the provider has a 16-byte tag and
    builds the packet: the 1 + 8 + 1 bytes of the header and the 3 bytes
    of payload make 13, and 29 is 13 plus the tag. *)
Theorem test_build_short_passes prot :
  test_build_short prot = Ok tt ↔
  expansion prot = 16%nat ∧ is_Ok (build_packet prot [] pkt_build_short).2.
Proof.
  rewrite test_build_short_build_packet.
  destruct (build_packet prot [] pkt_build_short) as [prot' [e| |]] eqn:Hb;
    simpl; [|naive_solver..].
  apply short_packet_shape in Hb
    as (ct & sample & mask & _ & Henc%encrypt_length & _ & Hm & ->);
    [|by apply (bool_decide_unpack _)..].
  apply compute_mask_length in Hm.
  rewrite assert_eq_Ok, !length_app, length_protect, Henc by (simpl; lia).
  simpl. split; [intros; split; [lia|done]|intros [-> _]; done].
Qed.


Lemma test_build_two_build_packet prot :
  test_build_two prot
  = (let '(prot, encoder) := build_packet prot [] pkt_two_first in
     encoder ← unwrap encoder;
     _ ← assert_eq (length encoder) 45%nat;
     packet ← unwrap (build_packet prot encoder pkt_two_second).2;
     front ← slice packet 0 (length encoder);
     _ ← assert_eq encoder front;
     assert_eq (length packet) (45 + 29)%nat).
Proof.
  unfold test_build_two, build_packet.
  cbn [pkt_open pkt_calls pkt_two_first pkt_two_second open_builder run
       for_each do_call].
  rewrite (long_Ok _ _ _ _ 2) by done. test_simpl.
  rewrite (pn_Ok _ _ _ (long_first 2)) by (by apply list_lookup_middle || lia).
  test_simpl.
  destruct (build prot _) as [prot1 [encoder| |]]; test_simpl; [|done..].
  destruct (assert_eq (length encoder) 45%nat); test_simpl; [|done..].
  rewrite (pn_Ok _ _ _ (short_first false))
    by (apply short_first_byte || lia).
  done.
Qed.

(** The test [build_two] (packet2.rs lines 366-391), for every
    provider that keeps its laws.  The test passes exactly when the tag
    has 16 bytes and the provider seals both packets of the datagram, the
    second with the state the first left: then the first packet has 45
    bytes, it is a prefix of the datagram, and the datagram has 45 + 29
    bytes, so none of the three assertions can fail for another reason. *)
Theorem test_build_two_passes prot :
  test_build_two prot = Ok tt ↔
  expansion prot = 16%nat ∧
  is_Ok (build_datagram prot [] [pkt_two_first; pkt_two_second]).2.
Proof.
  rewrite test_build_two_build_packet. cbn [build_datagram].
  pose proof (build_packet_expansion prot [] pkt_two_first) as Hx1.
  destruct (build_packet prot [] pkt_two_first) as [prot1 [first| |]] eqn:H1;
    test_simpl; [|naive_solver..].
  apply pkt_two_first_length in H1 as Hl1. simpl in Hx1.
  change (length (@nil Z)) with 0%nat in Hl1.
  destruct (decide (expansion prot = 16%nat)) as [Hx|Hx].
  2: { rewrite (assert_eq_false (length first)) by lia. naive_solver. }
  rewrite (assert_eq_true (length first)) by lia. test_simpl.
  destruct (build_packet prot1 first pkt_two_second) as [prot2 [e| |]] eqn:H2;
    test_simpl; [|naive_solver..].
  apply pkt_two_second_length in H2 as Hl2.
  apply build_packet_take in H2 as Htake.
  rewrite slice_eq by lia. test_simpl. rewrite drop_0, Htake.
  rewrite (assert_eq_true first) by done. test_simpl.
  by rewrite assert_eq_true by lia.
Qed.

(** The header of the sample packet in clear, when the tag has 16 bytes:
    the first byte before protection, the fields of [EXPECTED] up to the
    length, and the packet number [00 01]. *)
Definition SAMPLE_HEADER : list Z :=
  0xc1 :: drop 1 (take 18 SAMPLE_EXPECTED) ++ [0; 1].

Lemma lxor_eq_iff a x b : Z.lxor a x = b ↔ x = Z.lxor a b.
Proof.
  split; [intros <-|intros ->];
    by rewrite <- Z.lxor_assoc, Z.lxor_nilpotent, Z.lxor_0_l.
Qed.

(** The protected header of the sample packet is that of [EXPECTED] for
    the masks that start with [_8 16 8a]. *)
Lemma protect_sample_header mask :
  (5 ≤ length mask)%nat →
  protect mask 0x0f 2 SAMPLE_HEADER = take 20 SAMPLE_EXPECTED ↔
  ∃ m0 rest, mask = m0 :: 0x16 :: 0x8a :: rest ∧ Z.land m0 0x0f = 0x08.
Proof.
  intros Hm. destruct mask as [|m0 [|m1 [|m2 rest]]]; [simpl in Hm; lia..|].
  cbn. split.
  - intros [= ?%lxor_eq_iff ?%lxor_eq_iff ?%lxor_eq_iff]. subst.
    by exists m0, rest.
  - intros (? & ? & [= -> -> -> ->] & Hm0). by rewrite Hm0.
Qed.

Lemma test_sample_server_initial_build prot :
  test_sample_server_initial prot
  = (let '(prot, burn) := encrypt prot 0 [] [] in
     burn ← unwrap burn;
     _ ← assert_eq (length burn) (expansion prot);
     packet ← unwrap (build prot ex_sample).2;
     assert_eq packet SAMPLE_EXPECTED).
Proof. reflexivity. Qed.

(** What [build] makes of the sample packet with a 16-byte tag. *)
Lemma build_ex_sample prot :
  expansion prot = 16%nat →
  let r := encrypt prot 1 SAMPLE_HEADER SAMPLE_PAYLOAD in
  build prot ex_sample
  = (r.1,
     ct ← r.2; sample ← sample_of 2 ct; mask ← compute_mask r.1 sample;
     Ok (protect mask 0x0f 2 SAMPLE_HEADER ++ ct)).
Proof.
  intros Hx. rewrite build_numbered by apply ex_sample_numbered.
  rewrite Hx. by vm_compute header_bytes.
Qed.

(** C36: the test [sample_server_initial] (packet2.rs lines 308-354), for
    every provider that keeps its laws.  The test passes exactly when the
    tag has 16 bytes, the encryption that burns packet number 0 succeeds,
    the provider in the state that follows seals the payload under the
    header [c1 ff000018 00 08 f067a5502a4262b5 00 4074 0001] into the last
    114 bytes of [EXPECTED], and the mask it computes from bytes 22 to 37
    of [EXPECTED] starts with a byte whose low nibble is [8], then [16]
    and [8a].  The first assertion of the test (the burnt ciphertext has
    the length of the tag) follows from the laws of the provider. *)
Theorem test_sample_server_initial_passes prot :
  test_sample_server_initial prot = Ok tt ↔
  let burn := encrypt prot 0 [] [] in
  let r := encrypt burn.1 1 SAMPLE_HEADER SAMPLE_PAYLOAD in
  expansion prot = 16%nat ∧ is_Ok burn.2 ∧
  r.2 = Ok (drop 20 SAMPLE_EXPECTED) ∧
  ∃ m0 rest,
    compute_mask r.1 (take SAMPLE_SIZE (drop 22 SAMPLE_EXPECTED))
    = Ok (m0 :: 0x16 :: 0x8a :: rest) ∧
    Z.land m0 0x0f = 0x08.
Proof.
  rewrite test_sample_server_initial_build. cbv zeta.
  pose proof (encrypt_expansion prot 0 [] []) as Hx0.
  destruct (encrypt prot 0 [] []) as [prot1 [burn| |]] eqn:Hburn;
    test_simpl; [|naive_solver..].
  apply encrypt_length in Hburn. simpl in Hx0, Hburn.
  rewrite (assert_eq_true (length burn)) by congruence. test_simpl.
  rewrite <- Hx0.
  destruct (decide (expansion prot1 = 16%nat)) as [Hx|Hx].
  2: { destruct (build prot1 ex_sample) as [prot2 [e| |]] eqn:Hb;
         test_simpl; [|naive_solver..].
       apply build_length in Hb. rewrite assert_eq_Ok.
       split; [intros ->; simpl in Hb; lia|naive_solver]. }
  rewrite build_ex_sample by done. cbv zeta. cbn [snd].
  destruct (encrypt prot1 1 SAMPLE_HEADER SAMPLE_PAYLOAD)
    as [prot2 [ct| |]] eqn:Henc; test_simpl; [|naive_solver..].
  apply encrypt_length in Henc. rewrite Hx in Henc.
  rewrite sample_of_Ok by (rewrite ?Henc; simpl; unfold SAMPLE_SIZE; lia).
  test_simpl. change (4 - 2)%nat with 2%nat.
  split.
  - destruct (compute_mask prot2 _) as [mask| |] eqn:Hm; test_simpl;
      [|done..].
    rewrite assert_eq_Ok. apply compute_mask_length in Hm as Hlen.
    rewrite <- (take_drop 20 SAMPLE_EXPECTED) at 1.
    intros [Hp ->]%app_inj_1; [|by rewrite length_protect by lia].
    apply protect_sample_header in Hp as (m0 & rest & -> & Hm0); [|done].
    repeat split; [done..|]. by exists m0, rest.
  - intros (_ & _ & [= ->] & m0 & rest & Hm & Hm0).
    change (compute_mask prot2 _)
      with (compute_mask prot2 (take SAMPLE_SIZE (drop 22 SAMPLE_EXPECTED))).
    rewrite Hm. test_simpl. apply assert_eq_Ok.
    apply compute_mask_length in Hm.
    rewrite (proj2 (protect_sample_header _ Hm)) by (by exists m0, rest).
    apply take_drop.
Qed.

End provider_passes.

(** The test [build_vn] (packet2.rs lines 448-468) passes whatever
    the five random bytes are: the packet has the 31 bytes of [EXPECTED]
    and erasing the random bits, as the test does, leaves [EXPECTED]. *)
Theorem test_build_vn_passes rand :
  length rand = 5%nat → test_build_vn rand = Ok tt.
Proof.
  intros (vn & Hvn & Hlen & Herase)%build_vn. unfold test_build_vn.
  rewrite Hvn. test_simpl. rewrite (assert_eq_true (length vn)) by done.
  test_simpl. by rewrite Herase.
Qed.

Section retry_passes.
Context {K A : Type} {factory : AeadFactory K A} `{AeadLaws A}.

(** The first byte of a Retry packet is the expected one when the random
    nibble is [0xf]. *)
Lemma retry_first_expected r0 : retry_first r0 = 0xff ↔ Z.land r0 0xf = 0xf.
Proof.
  unfold retry_first. split.
  - intros Hr. apply (f_equal (λ x, Z.land x 0xf)) in Hr.
    rewrite Z.land_lor_distr_l, <- Z.land_assoc in Hr.
    by rewrite Z.land_diag in Hr.
  - by intros ->.
Qed.

(** C37: the test [build_retry] (packet2.rs lines 407-437), for every
    AEAD with a 16-byte tag and every random byte [r0].  The test passes
    exactly when the AEAD seals the pseudo-packet, and, in the one case in
    sixteen where the random nibble is [0xf] and the full comparison
    happens, when the tag is the last 16 bytes of [EXPECTED].  For the
    other fifteen values of the nibble the test checks the header only:
    it passes with any tag, whatever the AEAD computes. *)
Theorem test_build_retry_passes (a : A) rand r0 :
  rand !! 0%nat = Some r0 → aead_expansion a = 16%nat →
  (test_build_retry (Alive a) rand).2 = Ok tt ↔
  ∃ tag,
    aead_encrypt a 0
      (retry_aad CLIENT_CID (retry_header r0 [] SERVER_CID RETRY_TOKEN)) []
    = Ok tag ∧
    (Z.land r0 0xf = 0xf → tag = drop 20 RETRY_EXPECTED).
Proof.
  intros Hr Hx. unfold test_build_retry.
  rewrite (retry_Alive _ _ _ _ _ _ _ Hr).
  destruct (aead_encrypt a 0 _ []) as [tag| |] eqn:Htag; test_simpl;
    [|naive_solver..].
  apply aead_encrypt_length in Htag. rewrite Hx in Htag.
  change (retry_header r0 [] SERVER_CID RETRY_TOKEN)
    with (retry_first r0 :: drop 1 (take 20 RETRY_EXPECTED)).
  cbn [app index lookup list_lookup expect RETRY_EXPECTED].
  test_simpl.
  destruct (decide (retry_first r0 = 255)) as [Hf|Hf].
  - rewrite assert_eq_Ok, Hf. apply retry_first_expected in Hf. split.
    + intros Heq. exists tag. split; [done|]. intros _.
      by apply (f_equal (drop 20)) in Heq.
    + intros (tag' & [= <-] & Ht). by rewrite (Ht Hf).
  - rewrite app_comm_cons.
    rewrite (retry_header_matches_app (retry_first r0)
               (drop 1 (take 20 RETRY_EXPECTED)) tag);
      [|apply retry_first_high|done|simpl; lia|reflexivity].
    simpl. split; [|done]. intros _. exists tag. split; [done|].
    by intros ?%retry_first_expected.
Qed.

(** The loop of [build_retry_multiple] ends after its 32 runs, and the
    33rd call of [next]. *)
Lemma test_build_retry_multiple_terminates fuel (s : slot A) rand :
  (32 < fuel)%nat →
  test_build_retry_multiple fuel s rand
  = Some (for_each
            (λ s i, let '(s, passed) := test_build_retry s (rand i) in
                    _ ← passed; Ok s)
            s (seq 0 32)).
Proof.
  intros Hf. unfold test_build_retry_multiple.
  by apply (for_loop_yields _ (mkRange 0 32) (seq 0 32));
    [apply (yields_Range (mkRange 0 32))|].
Qed.


(** A loop whose body can only return the state it was given succeeds
    exactly when every run of the body does. *)
Lemma for_each_fixed {E T B} (f : T → B → outcome E T) a (l : list B) :
  (∀ x a', f a x = Ok a' → a' = a) →
  is_Ok (for_each f a l) ↔ ∀ x, x ∈ l → f a x = Ok a.
Proof.
  intros Hfix. induction l as [|x l IH]; simpl.
  - split; [by intros _ ? ?%elem_of_nil|done].
  - destruct (f a x) as [a'| |] eqn:Hx; simpl.
    + apply Hfix in Hx as Ha. subst a'. rewrite IH. split.
      * by intros Hl y [->|?]%elem_of_cons; [|apply Hl].
      * intros Hl y Hy. by apply Hl, list_elem_of_further.
    + split; [by intros []|]. intros Hl.
      by rewrite Hl in Hx by apply list_elem_of_here.
    + split; [by intros []|]. intros Hl.
      by rewrite Hl in Hx by apply list_elem_of_here.
Qed.

(** A run of [build_retry] leaves the AEAD in its slot. *)
Lemma test_build_retry_slot (a : A) rand :
  (test_build_retry (Alive a) rand).1 = Alive a.
Proof.
  unfold test_build_retry. destruct rand as [|r0 rand].
  - by rewrite retry_no_random.
  - by rewrite (retry_Alive _ _ r0).
Qed.

(** The test [build_retry_multiple] (packet2.rs lines 439-446).  The
    loop [for _ in 0..32] ends: with fuel for the 32 runs and the last
    call of [next] it returns a result, and it returns without a panic
    exactly when each of the 32 runs of [build_retry] passes, the [i]-th
    with the random bytes [rand i]. *)
Theorem test_build_retry_multiple_passes fuel (a : A) rand :
  (32 < fuel)%nat →
  (∃ s, test_build_retry_multiple fuel (Alive a) rand = Some (Ok s)) ↔
  ∀ i, (i < 32)%nat → (test_build_retry (Alive a) (rand i)).2 = Ok tt.
Proof.
  intros Hf. rewrite test_build_retry_multiple_terminates by done.
  set (f := λ s i, let '(s, passed) := test_build_retry s (rand i) in _).
  assert (∀ i s, f (Alive a) i = Ok s ↔
            s = Alive a ∧ (test_build_retry (Alive a) (rand i)).2 = Ok tt)
    as Hbody.
  { intros i s. unfold f.
    pose proof (test_build_retry_slot a (rand i)) as Hs.
    destruct (test_build_retry (Alive a) (rand i)) as [s' [[]| |]];
      simpl in *; subst s'; split;
      first [by intros [_ [=]] | by intros [=] | by intros [= <-]
            | by intros [-> _]]. }
  trans (is_Ok (for_each f (Alive a) (seq 0 32))).
  { rewrite is_Ok_exists. split; intros [s Hs]; exists s; congruence. }
  rewrite for_each_fixed by (by intros i s [-> _]%Hbody).
  split.
  - intros Hl i Hi. apply (Hbody i (Alive a)), Hl, elem_of_seq. lia.
  - intros Hl i [_ Hi]%elem_of_seq. apply Hbody. split; [done|].
    apply Hl. lia.
Qed.

End retry_passes.

(** ** The theorems at the providers of the model *)

Lemma test_build_short_passes_witness :
  test_build_short (St:=TestDx) default_protector = Ok tt.
Proof.
  exact (proj2 (test_build_short_passes (mkTestDx 0 16)) (conj eq_refl I)).
Defined.

Lemma test_build_two_passes_witness :
  test_build_two (St:=TestDx) default_protector = Ok tt.
Proof.
  exact (proj2 (test_build_two_passes (mkTestDx 0 16)) (conj eq_refl I)).
Defined.

Lemma test_sample_server_initial_passes_witness :
  test_sample_server_initial (St:=TestDx) default_protector ≠ Ok tt.
Proof.
  intros (_ & _ & Hct & _)%test_sample_server_initial_passes.
  vm_compute in Hct. discriminate Hct.
Defined.

Lemma test_build_vn_passes_witness :
  test_build_vn [0x11; 0x22; 0x33; 0x44; 0xd5] = Ok tt.
Proof.
  exact (test_build_vn_passes [0x11; 0x22; 0x33; 0x44; 0xd5] eq_refl).
Defined.

Lemma test_build_retry_passes_witness :
  (test_build_retry (factory:=test_factory true) (Alive test_retry_aead)
     [0x50]).2 = Ok tt.
Proof.
  refine (proj2 (test_build_retry_passes (factory:=test_factory true)
                   test_retry_aead [0x50] 0x50 _ _) _); [reflexivity..|].
  eexists. split; [reflexivity|]. intros Hr. vm_compute in Hr.
  discriminate Hr.
Defined.

Lemma test_build_retry_multiple_passes_witness :
  ∃ s, test_build_retry_multiple (factory:=test_factory true) 33
         (Alive test_retry_aead) (λ _, [0x50])
       = Some (Ok s).
Proof.
  refine (proj2 (test_build_retry_multiple_passes
                   (factory:=test_factory true) 33 test_retry_aead
                   (λ _, [0x50]) _) _); [apply le_n|].
  intros i _. reflexivity.
Defined.
